(* ===== verification/_CoqProject ===== *)
-Q . S2P
Prelude.v
Bitmap.v
BitmapSpec.v
Interrupts.v
Memory.v
PageAlloc.v
Ownership.v
HeapSpec.v
Kernel.v
PageTable.v
KernelTables.v
KernelSpec.v
PageTree.v
Mapping.v
Translation.v
FindHole.v
MapSpec.v
KernelApi.v
Console.v
Gic.v
Machine.v
Usermode.v
UserMemory.v
Exceptions.v
Boot.v
SyscallInv.v
SyscallSpec.v
CallSpec.v
StartSpec.v
BootSpec.v
MoreRam.v
Init.v
InitSpec.v
DeviceSpec.v
InitRun.v
ProcRun.v
DtbSpec.v
ProcSpec.v
Vectors.v
