(* ===== verification/Prelude.v ===== *)
(** * BoldOS: memory, page tables, drivers, system calls and the first process

    BoldOS is a small AArch64 kernel in Rust.  It boots with the MMU off, builds its own page
    tables, moves itself to the high half of the address space, gives out physical pages from a
    bitmap, runs one process ([init]) in user mode and serves its system calls.  This library
    models the kernel from its entry point to the return to user mode, the vectors and handlers
    that run afterwards, and the process with its calls, and proves properties of the parts and
    of their composition.

    ** Parts of the program and where they are modelled

    - [Prelude]: what all files share.  Rust's outcomes ([res]: a value or a [fault]), a state
      monad [M] with the same outcomes, the build profile ([Profile]: overflow checks and
      debug assertions on in [dev], off in [release]), 64-bit arithmetic with the profile's
      overflow behaviour, checked array access, loops, rules for loops, bit lemmas and the
      tactics [run], [arith_ok] and [zdiv].
    - [Bitmap] (kernel/src/page_alloc.rs, [Bitmap] and [BitmapIterator]): one definition per
      method, the loops of [mark_allocated] and [free] as [while] loops over the same three
      variables.  [bits] reads a bitmap as a predicate on page numbers; [set_range], [hole] and
      [moved] are the specifications.  [BitmapSpec] has the properties.
    - [Interrupts] (kernel/src/aarch64/interrupts.rs): DAIF, [IrqMutex::lock] and the guard.
      [critical body] is the meaning of a statement whose temporary is a guard: lock, the
      statement, and the drop of the guard at its end.
    - [Memory] (page_alloc.rs, [PhyAddr], [PhySlice]): the kernel's linear windows, and physical
      memory as a map from frame numbers to 512 words.  An access outside it is
      [UndefinedBehaviour], so every theorem that says a call returns also says that it stays
      inside memory.
    - [PageAlloc] (page_alloc.rs, [BitmapPageAlloc], [PageSlice]): the allocator and the memory
      it writes (zeroing, poison).  [Ownership] runs it as a transition system over live
      slices; [HeapSpec] has the properties.
    - [Kernel] (page_alloc.rs, from [PAGE_ALLOC] on): the machine state [kst] (allocator,
      memory, DAIF, TLB), [alloc], [PageBox], [init_early_heap] and [add_memory_node].  The
      addresses the linker chooses are the class [Linked], with what linker.lds promises in
      [LinkedOk].
    - [PageTable] (kernel/src/aarch64/mmu.rs): the methods of [PageTable].  Where tables come
      from is the class [TableAlloc]; [KernelTables] shows that the kernel's allocator
      implements it, and [KernelSpec] has the properties of the three files.
    - [PageTree], [Mapping], [FindHole], [Translation]: the meaning of a set of tables.
      [descend] and [pte] follow descriptors, [tree_wf] is the invariant (every table is its own
      frame, entries are empty or table descriptors), [walk] is the translation the hardware
      performs.  [Mapping] treats [vmap_at], [vunmap] and the loop of [vmap]; [FindHole] the
      search for free virtual memory; [MapSpec] has the properties.
    - [KernelApi] (kernel_api/src/lib.rs, and the result decoding of init/src/utils.rs): system
      call numbers, errors, flags, the device record.
    - [Console] (kernel/src/drv/qemu_console.rs): the UART as the stores it has received,
      [print!] and [println!] over any state that text can be written to (the same macros and
      hex dumps exist in init/src/utils.rs), and the number formats of [core::fmt].
    - [Gic] (kernel/src/drv/arm_gic.rs): interrupt controller and timer, over a board whose
      register reads are a parameter.
    - [Machine]: the state [sys] of everything: [kst], the interrupt controller, the console,
      the system registers of the processor and [INIT_THREAD].
    - [Usermode] (kernel/src/aarch64/usermode.rs): [copy_from_user], one definition per arm of
      [handle_syscall], [Thread::init], [Thread::enter] and [start].  The offsets of the fields
      of [Thread] are the class [ThreadLayout].  [Exceptions] (exceptions.rs, and the panic
      handler of main.rs) has what the vectors call; [Boot] (main.rs, and [init] and
      [eject_lowmem] of mmu.rs) what runs before.
    - [UserMemory] and [SyscallInv] carry the proofs about bytes of memory and about what a
      system call keeps; [SyscallSpec] has the invariant of the running machine, [CallSpec] the
      contracts of single calls, [StartSpec] the first process, [BootSpec] the boot.
    - [MoreRam]: [DownloadMoreRam] in the running machine.  [phase_ok] is the invariant before
      and after the announcement of RAM; [life_step] is everything that happens after [kmain].
    - [Init] (init/src/utils.rs, main.rs, drv.rs): the process as a tree of system calls,
      loads and register reads, which [run_user] executes on the modelled kernel.  The crate
      fdt_rs is the class [Fdt].  [InitSpec] and [DeviceSpec] have the properties of single
      operations, [DtbSpec] has [PhyMap] and the device tree as [map_dtb] reads it.
    - [InitRun]: a predicate transformer [wp] over those trees that shows what a program may do
      to the kernel without running it.  [ProcRun]: the step relation [proc_step], in which
      interrupts, table walks and stores of the process come between any two steps of its
      program, and the transformer [swp] for all its runs, which [wp] implies.  [ProcSpec]:
      [main] from power-on to its loop.
    - [Vectors] (kernel/src/aarch64/init.s): the instructions that save the registers in the
      layout of [ExceptionContext], call a handler and restore them, executed on [sys]; and
      [_start].

    ** What the theorems show

    - Bitmap: first fit, the complete outcome of marking and freeing in both profiles
      (including double allocation and double free), round trips, and the equivalence of the
      optimised range operations with bit-by-bit definitions.
    - Allocator: live slices never overlap and can always be dropped; allocation and drop are
      inverse; growing the region keeps every page's state; what is written to memory.
    - Boot: the early heap is the only memory before RAM is known, and the exact set of pages
      reserved afterwards.
    - Page tables: complete contracts of mapping and unmapping, agreement with the hardware
      walk, no stale TLB entry under any interleaving with stores to frames that hold no table,
      termination and soundness of the search for room (and, as a lemma, a run in which a large
      request is answered with an occupied region).  A mapping that runs out of frames for
      tables carries a bound on the frames there were ([pool_below], [tables_for]: three for
      each 2 MiB slot that the pages can touch).
    - Device programming, and round trips of what crosses the system-call boundary.
    - System calls: with any registers a call other than [DownloadMoreRam] changes at most [x0],
      keeps the machine sound and stops only for the reasons listed ([call_fails]); the
      invariant holds over every interleaving of such calls, interrupts, table walks and stores
      to frames that hold no table; [MemMap], [PhyMap], [Log] and [SleepSec] have contracts in
      which every panic has its condition, [SleepSec] with its return.
    - The life of the machine: from [kmain] on the invariant holds through any such interleaving
      with one announcement of RAM in it; a second announcement, without debug assertions,
      always breaks it.
    - Vectors: a system call and an interrupt preserve the registers of the process; [_start]
      erases [.bss] and ends.
    - The first process: what [start] maps and where the process begins (and, as a lemma, a boot
      after which the top of its stack is one of its own page tables).
    - Boot: the address space [mmu::init] switches on, and where the console ends up.
    - The process and the kernel together: [mem_map] from the wrapper to the mapped pages, and
      [find_and_init] from the device tree to the registers of the controller; which memory
      node is announced; [map_dtb] reads the bytes of the tree; and in every run of [main],
      booted on the kernel, among interrupts and stores of the process to frames that hold
      neither a table nor the device tree, the machine stays sound, and the kernel has the RAM
      of the tree when the process gets to its loop.

    ** Conventions and bounds

    Machine words are [Z] with their range as a hypothesis or invariant; arithmetic that can
    overflow goes through [uadd], [usub] and [umul].  [while] runs at most [2^64] rounds, more
    than any loop over 64-bit counters can need; the rules [while_rule] and [while_returns] ask
    for a decreasing measure, so that a theorem about a loop is a theorem that it ends.  The
    walk of [measure_contiguous_region] nests three deep, which the levels of the tables bound.
    A panic is a [Fault] with its message (formatted arguments left out).  The loop of
    [SleepSec] ends when the board's clock does its part, which its theorem states as a
    hypothesis on the board.

    ** Not modelled

    Which stores the compiled process makes: in [sys_step] and [proc_step] they are arbitrary
    stores to frames that hold no table, and stores into tables are excluded, although the
    stack that [start] maps does not keep the process from them; under [run_user] there are
    none, so that theorems about it say in their hypotheses what the buffers of the process
    hold.  The address of a buffer is a function of its content ([addr_of]); under [proc_step]
    it may be a constant, since the content is stored in between.  Also not modelled: the use of the kernel stack below the saved registers by Rust code; the endless loops of
    [main] and of the panic handlers (any number of rounds, and the fact that they do not
    return); [_start] of the process, which only calls [main]; the Debug
    rendering of errors and operands that [unwrap], [expect] and [assert_eq!] add to a panic
    message; how [core::fmt] splits a padded number into pieces; printing under the features
    [log_alloc] and [log_mmu]; drop glue of values kept in a [PageBox]; the build script; and
    fw_cfg.rs, which is commented out. *)

From stdpp Require Export base gmap list list_numbers numbers strings.

#[global] Set Default Goal Selector "!".

(** ** Outcomes of Rust code *)

(** How a computation stops without a value.  [PanicMsg] is a [panic!], a failed [assert!],
    [expect] or [todo!] with its message; [ArithOverflow] and [IndexOutOfBounds] are the two
    checks the compiler inserts; [UndefinedBehaviour] is an access that the Rust abstract
    machine gives no meaning (a dereference outside live memory); [DataAbort] is an access the
    MMU refuses, or a register user mode may not read, which the exception handler reports
    before it halts; [OutOfFuel] marks a loop
    that did not end within [2^64] iterations. *)
Inductive fault : Type :=
| PanicMsg (msg : string)
| ArithOverflow
| IndexOutOfBounds
| UndefinedBehaviour
| DataAbort
| OutOfFuel.

#[global] Instance fault_eq_dec : EqDecision fault.
Proof. solve_decision. Defined.

Inductive res (A : Type) : Type :=
| Ok (a : A)
| Fault (f : fault).
Arguments Ok {A} a.
Arguments Fault {A} f.

#[global] Instance res_ret : MRet res := @Ok.
#[global] Instance res_bind : MBind res := λ A B k m,
  match m with Ok a => k a | Fault f => Fault f end.
#[global] Instance res_fmap : FMap res := λ A B g m,
  match m with Ok a => Ok (g a) | Fault f => Fault f end.

#[global] Instance res_eq_dec `{EqDecision A} : EqDecision (res A).
Proof. solve_decision. Defined.

(** A computation over a state, with the same outcomes. *)
Definition M (S A : Type) : Type := S → res (A * S).

#[global] Instance M_ret S : MRet (M S) := λ A a s, Ok (a, s).
#[global] Instance M_bind S : MBind (M S) := λ A B k m s,
  match m s with Ok (a, s') => k a s' | Fault f => Fault f end.

Definition lift {S A} (m : res A) : M S A := λ s, a ← m; Ok (a, s).
Definition gets {S A} (f : S → A) : M S A := λ s, Ok (f s, s).
Definition modify {S} (f : S → S) : M S unit := λ s, Ok (tt, f s).

(** ** Build profile *)

(** [cfg(debug_assertions)], which also selects the overflow checks: on in the dev profile,
    off in the release profile. *)
Class Profile : Type := { debug_assertions : bool }.
Definition dev : Profile := {| debug_assertions := true |}.
Definition release : Profile := {| debug_assertions := false |}.

Definition assert (b : bool) (msg : string) : res unit :=
  if b then Ok tt else Fault (PanicMsg msg).

Definition debug_assert `{Profile} (b : bool) (msg : string) : res unit :=
  if debug_assertions then assert b msg else Ok tt.

Definition expect {A} (o : option A) (msg : string) : res A :=
  match o with Some a => Ok a | None => Fault (PanicMsg msg) end.

(** ** Machine integers *)

Definition is_u64 (x : Z) : Prop := (0 ≤ x < 2 ^ 64)%Z.
Definition wrap64 (x : Z) : Z := (x mod 2 ^ 64)%Z.

(** The result of a 64-bit operation: the exact value when it fits, otherwise a panic in
    the dev profile and the wrapped value in the release profile. *)
Definition arith64 `{Profile} (x : Z) : res Z :=
  if (0 <=? x)%Z && (x <? 2 ^ 64)%Z then Ok x
  else if debug_assertions then Fault ArithOverflow else Ok (wrap64 x).

Definition uadd `{Profile} (a b : Z) : res Z := arith64 (a + b).
Definition usub `{Profile} (a b : Z) : res Z := arith64 (a - b).
Definition umul `{Profile} (a b : Z) : res Z := arith64 (a * b).

(** [a + b] on [i32], the type of an integer variable nothing else constrains. *)
Definition iadd32 `{Profile} (a b : Z) : res Z :=
  if (- 2 ^ 31 <=? a + b)%Z && (a + b <? 2 ^ 31)%Z then Ok (a + b)%Z
  else if debug_assertions then Fault ArithOverflow
  else Ok ((a + b + 2 ^ 31) mod 2 ^ 32 - 2 ^ 31)%Z.

(** [!x] on [u64]. *)
Definition unot (x : Z) : Z := Z.land (Z.lnot x) (Z.ones 64).

(** [1 << j] on [u64]. *)
Definition ubit (j : Z) : Z := wrap64 (Z.shiftl 1 j).

(** [a.div_ceil(b)]. *)
Definition div_ceil (a b : Z) : Z :=
  if (a mod b =? 0)%Z then (a / b)%Z else (a / b + 1)%Z.

(** ** Arrays *)

(** [a[i]] and [a[i] = x] with Rust's bounds check. *)
Definition aget {A} (l : list A) (i : Z) : res A :=
  match l !! Z.to_nat i with Some x => Ok x | None => Fault IndexOutOfBounds end.

Definition aset {A} (l : list A) (i : Z) (x : A) : res (list A) :=
  match l !! Z.to_nat i with
  | Some _ => Ok (<[Z.to_nat i := x]> l)
  | None => Fault IndexOutOfBounds
  end.

(** ** Loops *)

Section while.
Context {S : Type} (cond : S → bool) (body : S → res S).

(** Up to [2^n] rounds of the loop; the flag tells whether the condition failed. *)
Fixpoint rounds (n : nat) (s : S) : res (S * bool) :=
  match n with
  | O => if cond s then s' ← body s; Ok (s', false) else Ok (s, true)
  | Datatypes.S n' =>
      '(s', fin) ← rounds n' s;
      if (fin : bool) then Ok (s', true) else rounds n' s'
  end.

(** [while cond { body }]. *)
Definition while (s : S) : res S :=
  '(s', fin) ← rounds 64 s;
  if (fin : bool) then Ok s' else Fault OutOfFuel.
End while.

Arguments while : simpl never.

(** A [for] loop whose body may [return] from the enclosing function. *)
Inductive ctl (S R : Type) : Type :=
| Continue (s : S)
| Return (r : R).
Arguments Continue {S R} s.
Arguments Return {S R} r.

Fixpoint for_each {I S R} (l : list I) (body : I → S → res (ctl S R)) (s : S)
    : res (ctl S R) :=
  match l with
  | [] => Ok (Continue s)
  | i :: l' =>
      c ← body i s;
      match c with
      | Continue s' => for_each l' body s'
      | Return r => Ok (Return r)
      end
  end.

(** [for i in lo..hi], and the same loop when the body never returns early. *)
Definition for_range {S R} (lo hi : Z) : (Z → S → res (ctl S R)) → S → res (ctl S R) :=
  for_each (seqZ lo (hi - lo)).

Fixpoint fold_each {I S} (l : list I) (body : I → S → res S) (s : S) : res S :=
  match l with
  | [] => Ok s
  | i :: l' => s' ← body i s; fold_each l' body s'
  end.

(** ** Post-conditions *)

Local Open Scope Z_scope.

(** [returns m Q]: the computation ends without a fault, with a value in [Q]. *)
Definition returns {A} (m : res A) (Q : A → Prop) : Prop := ∃ a, m = Ok a ∧ Q a.

Lemma returns_ok {A} (a : A) (Q : A → Prop) : Q a → returns (Ok a) Q.
Proof. by exists a. Qed.

Lemma returns_bind {A B} (m : res A) (k : A → res B) (P : A → Prop) (Q : B → Prop) :
  returns m P → (∀ a, P a → returns (k a) Q) → returns (m ≫= k) Q.
Proof. intros (a & -> & Ha) Hk. by apply Hk. Qed.

Lemma returns_mono {A} (m : res A) (P Q : A → Prop) :
  returns m P → (∀ a, P a → Q a) → returns m Q.
Proof. intros (a & -> & Ha) HPQ. exists a; auto. Qed.

Lemma returns_eq {A} (m : res A) (a : A) : returns m (λ x, x = a) → m = Ok a.
Proof. by intros (x & -> & ->). Qed.

Lemma ok_inj {A} (a b : A) : Ok a = Ok b → a = b.
Proof. congruence. Qed.

Lemma res_bind_ok {A B} (a : A) (k : A → res B) : (Ok a ≫= k) = k a.
Proof. done. Qed.

Lemma res_bind_fault {A B} f (k : A → res B) : (Fault f ≫= k) = Fault f.
Proof. done. Qed.

(** Runs the binds whose computation has returned. *)
Ltac run := repeat (rewrite res_bind_ok; cbv beta iota).

Lemma res_bind_inv {A B} (m : res A) (k : A → res B) b :
  (m ≫= k) = Ok b → ∃ a, m = Ok a ∧ k a = Ok b.
Proof. destruct m as [a|f]; [|done]. by exists a. Qed.

Lemma M_bind_ok {S A B} (m : M S A) (k : A → M S B) s a s' :
  m s = Ok (a, s') → (m ≫= k) s = k a s'.
Proof. intros H. unfold mbind, M_bind. by rewrite H. Qed.

Lemma lift_bind_ok {S A B} (m : res A) (k : A → M S B) s a :
  m = Ok a → (lift m ≫= k) s = k a s.
Proof. by intros ->. Qed.

Lemma M_bind_inv {S A B} (m : M S A) (k : A → M S B) s b s'' :
  (m ≫= k) s = Ok (b, s'') → ∃ a s', m s = Ok (a, s') ∧ k a s' = Ok (b, s'').
Proof. unfold mbind, M_bind. destruct (m s) as [[a s']|f]; [|done]. eauto. Qed.

(** ** Arithmetic *)

(** [lia] after replacing quotients and remainders by their defining equations. *)
Ltac zdiv := Z.to_euclidean_division_equations; lia.

Lemma arith64_ok `{Profile} x : is_u64 x → arith64 x = Ok x.
Proof.
  intros [??]. unfold arith64.
  by rewrite (proj2 (Z.leb_le _ _)), (proj2 (Z.ltb_lt _ _)) by lia.
Qed.

Lemma arith64_u64 `{Profile} x y : arith64 x = Ok y → is_u64 y.
Proof.
  unfold arith64, wrap64, is_u64. intros Hx.
  destruct ((0 <=? x) && (x <? 2 ^ 64)) eqn:E; [|destruct debug_assertions]; simplify_eq.
  - lia.
  - apply Z.mod_pos_bound. lia.
Qed.

Lemma uadd_ok `{Profile} a b : is_u64 (a + b) → uadd a b = Ok (a + b).
Proof. apply arith64_ok. Qed.
Lemma usub_ok `{Profile} a b : is_u64 (a - b) → usub a b = Ok (a - b).
Proof. apply arith64_ok. Qed.
Lemma umul_ok `{Profile} a b : is_u64 (a * b) → umul a b = Ok (a * b).
Proof. apply arith64_ok. Qed.

(** Evaluates one machine operation of the goal, or all of them, [tac] showing that
    nothing overflows. *)
Ltac arith1 tac :=
  match goal with
  | |- context [uadd ?a ?b ≫= _] => rewrite (uadd_ok a b) by tac
  | |- context [usub ?a ?b ≫= _] => rewrite (usub_ok a b) by tac
  | |- context [umul ?a ?b ≫= _] => rewrite (umul_ok a b) by tac
  end; run.
Ltac arith_ok tac := repeat arith1 tac.

Lemma div_ceil_spec a b : 0 < b → div_ceil a b = (a + b - 1) / b.
Proof.
  intros. unfold div_ceil.
  pose proof (Z.mod_pos_bound a b). pose proof (Z.div_mod a b).
  destruct (Z.eqb_spec (a mod b) 0) as [Hm|Hm].
  - apply Z.div_unique_pos with (b - 1); lia.
  - apply Z.div_unique_pos with (a mod b - 1); lia.
Qed.

(** ** Loop rules *)

Section while_rules.
Context {S : Type} (cond : S → bool) (body : S → res S).
Context (Inv : S → Prop) (m : S → Z) (Q : res S → Prop).
Hypothesis Hbody : ∀ s, Inv s → cond s = true →
  match body s with
  | Ok s' => Inv s' ∧ 0 ≤ m s' < m s
  | Fault f => Q (Fault f)
  end.

Lemma rounds_rule n s :
  Inv s →
  match rounds cond body n s with
  | Ok (s', true) => Inv s' ∧ cond s' = false
  | Ok (s', false) => Inv s' ∧ 0 ≤ m s' ≤ m s - 2 ^ Z.of_nat n
  | Fault f => Q (Fault f)
  end.
Proof using Hbody.
  revert s. induction n as [|n IH]; intros s Hs; simpl.
  - destruct (cond s) eqn:Hc; simpl; [|done].
    generalize (Hbody s Hs Hc). destruct (body s); simpl; [|done].
    change (2 ^ 0) with 1. intros [??]. split; [done|lia].
  - generalize (IH s Hs). destruct (rounds cond body n s) as [[s' [|]]|f]; simpl; try done.
    intros [Hs' ?]. generalize (IH s' Hs').
    destruct (rounds cond body n s') as [[s'' [|]]|f]; simpl; try done.
    intros [??].
    rewrite Nat2Z.inj_succ, Z.pow_succ_r by lia. split; [done|lia].
Qed.

(** Total correctness of a loop: an invariant and a measure that decreases. *)
Lemma while_rule s :
  Inv s → m s < 2 ^ 64 →
  (∀ s', Inv s' → cond s' = false → Q (Ok s')) →
  Q (while cond body s).
Proof using Hbody.
  intros Hs Hm Hend. generalize (rounds_rule 64 s Hs). unfold while.
  destruct (rounds cond body 64 s) as [[s' [|]]|f]; simpl; [| |done].
  - intros [??]. by apply Hend.
  - change (2 ^ Z.of_nat 64) with (2 ^ 64). lia.
Qed.
End while_rules.

Lemma while_returns {S} (cond : S → bool) (body : S → res S)
    (Inv : S → Prop) (m : S → Z) (Q : S → Prop) s :
  Inv s → m s < 2 ^ 64 →
  (∀ s, Inv s → cond s = true → returns (body s) (λ s', Inv s' ∧ 0 ≤ m s' < m s)) →
  (∀ s, Inv s → cond s = false → Q s) →
  returns (while cond body s) Q.
Proof.
  intros Hs Hm Hbody Hend.
  apply (while_rule cond body Inv m (λ r, returns r Q)); [|done|done|].
  - intros s' Hs' Hc. destruct (Hbody s' Hs' Hc) as (x & -> & ?). done.
  - intros s' ??. apply returns_ok; auto.
Qed.

(** What a loop can fault with: a fault of its body, or running for ever. *)
Lemma while_faults {S} (cond : S → bool) (body : S → res S) (P : fault → Prop) s :
  (∀ s, match body s with Ok _ => True | Fault f => P f end) →
  match while cond body s with Ok _ => True | Fault f => P f ∨ f = OutOfFuel end.
Proof.
  intros Hb. assert (∀ n s, match rounds cond body n s with Ok _ => True | Fault f => P f end) as Hr.
  { induction n as [|n IH]; intros s0; simpl.
    - destruct (cond s0); [|done]. generalize (Hb s0). by destruct (body s0).
    - generalize (IH s0). destruct (rounds cond body n s0) as [[s1 [|]]|f]; simpl; intros; [done|apply IH|done]. }
  unfold while. generalize (Hr 64%nat s).
  destruct (rounds cond body 64 s) as [[s1 [|]]|f]; simpl; auto.
Qed.

Lemma for_range_rule {S R} (Inv : Z → S → Prop) (Q : res (ctl S R) → Prop)
    lo hi body s :
  lo ≤ hi → Inv lo s →
  (∀ i s, lo ≤ i < hi → Inv i s →
    match body i s with
    | Ok (Continue s') => Inv (i + 1) s'
    | Ok (Return r) => Q (Ok (Return r))
    | Fault f => Q (Fault f)
    end) →
  (∀ s, Inv hi s → Q (Ok (Continue s))) →
  Q (for_range lo hi body s).
Proof.
  intros Hle. unfold for_range. remember (hi - lo) as n eqn:Hn.
  assert (0 ≤ n) as Hn0 by lia. revert lo s Hn Hle.
  pattern n; apply natlike_ind; [| |done]; clear n Hn0.
  - intros lo s ? _ Hlo _ Hend. simpl. apply Hend. by replace hi with lo by lia.
  - intros n Hn IH lo s Heq _ Hlo Hbody Hend.
    rewrite seqZ_cons by lia. simpl.
    generalize (Hbody lo s ltac:(lia) Hlo).
    destruct (body lo s) as [[s'|r]|f]; simpl; [intros Hb|done|done].
    replace (Z.pred (Z.succ n)) with n by lia.
    apply IH; [lia|lia|by rewrite <- Z.add_1_r| |done].
    intros i s0 Hi. apply Hbody. lia.
Qed.

Lemma fold_each_app {I S} (l k : list I) (body : I → S → res S) s :
  fold_each (l ++ k) body s = (s' ← fold_each l body s; fold_each k body s').
Proof.
  revert s. induction l as [|i l IH]; intros s; simpl; [done|].
  destruct (body i s) as [s'|f]; simpl; [apply IH|done].
Qed.

(** An ascending loop that never returns early. *)
Lemma fold_range_returns {S} (Inv : Z → S → Prop) (body : Z → S → res S) lo n s :
  0 ≤ n → Inv lo s →
  (∀ i s, lo ≤ i < lo + n → Inv i s → returns (body i s) (Inv (i + 1))) →
  returns (fold_each (seqZ lo n) body s) (Inv (lo + n)).
Proof.
  intros Hn. revert lo s. pattern n; apply natlike_ind; [| |done]; clear n Hn.
  - intros lo s Hs _. rewrite Z.add_0_r. by apply returns_ok.
  - intros n Hn IH lo s Hs Hbody. rewrite seqZ_cons, Z.pred_succ by lia. simpl.
    eapply returns_bind; [apply Hbody; [lia|done]|].
    intros s' Hs'. replace (lo + Z.succ n) with (Z.succ lo + n) by lia.
    apply IH; [by rewrite <- Z.add_1_r|]. intros i s0 Hi. apply Hbody. lia.
Qed.

(** ** Bits of machine words *)

Create HintDb bits.
Create Rewrite HintDb bits.

Lemma is_u64_bits x : is_u64 x ↔ 0 ≤ x ∧ ∀ i, 64 ≤ i → Z.testbit x i = false.
Proof.
  unfold is_u64. split.
  - intros [? Hlt]. split; [done|]. intros i Hi.
    destruct (decide (x = 0)) as [->|]; [apply Z.testbit_0_l|].
    apply Z.bits_above_log2; [done|].
    apply Z.log2_lt_pow2 in Hlt; lia.
  - intros [? Hb]. split; [done|].
    destruct (decide (x = 0)) as [->|]; [lia|].
    apply Z.log2_lt_pow2; [lia|]. apply Z.nle_gt. intros Hle.
    pose proof (Z.bit_log2 x ltac:(lia)) as Hx. by rewrite Hb in Hx.
Qed.

Lemma u64_ext x y :
  is_u64 x → is_u64 y → (∀ i, 0 ≤ i < 64 → Z.testbit x i = Z.testbit y i) → x = y.
Proof.
  intros [? Hx]%is_u64_bits [? Hy]%is_u64_bits Hxy. apply Z.bits_inj'. intros i Hi.
  destruct (decide (i < 64)); [apply Hxy; lia|]. by rewrite Hx, Hy by lia.
Qed.

Lemma testbit_ubit j i : 0 ≤ j < 64 → Z.testbit (ubit j) i = (i =? j).
Proof.
  intros Hj. unfold ubit, wrap64. rewrite Z.shiftl_1_l.
  rewrite Z.mod_small by (split; [lia|apply Z.pow_lt_mono_r; lia]).
  rewrite Z.pow2_bits_eqb by lia. apply Z.eqb_sym.
Qed.

Lemma testbit_unot x i :
  Z.testbit (unot x) i = (0 <=? i) && (i <? 64) && negb (Z.testbit x i).
Proof.
  unfold unot. rewrite Z.land_spec. destruct (Z.leb_spec 0 i); simpl.
  - rewrite Z.lnot_spec by done. destruct (Z.ltb_spec i 64).
    + rewrite Z.ones_spec_low by lia. by rewrite andb_true_r.
    + rewrite Z.ones_spec_high by lia. apply andb_false_r.
  - by rewrite !Z.testbit_neg_r by lia.
Qed.

Lemma testbit_ones64 i : Z.testbit (Z.ones 64) i = (0 <=? i) && (i <? 64).
Proof.
  destruct (Z.leb_spec 0 i); simpl; [|by rewrite Z.testbit_neg_r].
  destruct (Z.ltb_spec i 64); [by rewrite Z.ones_spec_low by lia|].
  by rewrite Z.ones_spec_high by lia.
Qed.

Lemma is_u64_testbit x i : is_u64 x → 64 ≤ i → Z.testbit x i = false.
Proof. intros [_ H]%is_u64_bits. apply H. Qed.

Lemma is_u64_lor x y : is_u64 x → is_u64 y → is_u64 (Z.lor x y).
Proof.
  rewrite !is_u64_bits. intros [? Hx] [? Hy]. split; [by apply Z.lor_nonneg|].
  intros i ?. by rewrite Z.lor_spec, Hx, Hy.
Qed.

Lemma is_u64_land x y : is_u64 x → 0 ≤ y → is_u64 (Z.land x y).
Proof.
  rewrite !is_u64_bits. intros [? Hx] ?. split; [apply Z.land_nonneg; auto|].
  intros i ?. by rewrite Z.land_spec, Hx.
Qed.

Lemma is_u64_ubit j : 0 ≤ j < 64 → is_u64 (ubit j).
Proof. intros Hj. apply Z.mod_pos_bound. lia. Qed.

Lemma is_u64_unot x : is_u64 (unot x).
Proof.
  apply is_u64_bits. split; [apply Z.land_nonneg; right; done|].
  intros i ?. rewrite testbit_unot. destruct (Z.ltb_spec i 64); [lia|].
  by rewrite andb_false_r.
Qed.

Lemma is_u64_small x n : 0 ≤ x < 2 ^ n → n ≤ 64 → is_u64 x.
Proof. intros [??] ?. split; [done|]. pose proof (Z.pow_le_mono_r 2 n 64). lia. Qed.

(** [w & (1 << j) == 0] tests bit [j]. *)
Lemma land_ubit_eqb w j : 0 ≤ j < 64 → (Z.land w (ubit j) =? 0) = negb (Z.testbit w j).
Proof.
  intros Hj. destruct (Z.testbit w j) eqn:E; simpl.
  - apply Z.eqb_neq. intros Hz. apply (f_equal (λ x, Z.testbit x j)) in Hz.
    by rewrite Z.land_spec, testbit_ubit, E, Z.eqb_refl, Z.testbit_0_l in Hz by done.
  - apply Z.eqb_eq, Z.bits_inj'. intros i Hi.
    rewrite Z.land_spec, testbit_ubit, Z.testbit_0_l by done.
    destruct (Z.eqb_spec i j) as [->|]; [by rewrite E|apply andb_false_r].
Qed.

#[export] Hint Resolve is_u64_lor is_u64_ubit is_u64_unot : bits.
#[export] Hint Rewrite Z.lor_spec Z.land_spec testbit_unot testbit_ones64 Z.testbit_0_l : bits.
#[export] Hint Rewrite testbit_ubit using lia : bits.

(** ** Lookup in arrays *)

Lemma aget_ok {A} (l : list A) i x : l !! Z.to_nat i = Some x → aget l i = Ok x.
Proof. unfold aget. by intros ->. Qed.

Lemma aget_lt {A} (l : list A) i :
  0 ≤ i < Z.of_nat (length l) → ∃ x, l !! Z.to_nat i = Some x ∧ aget l i = Ok x.
Proof.
  intros Hi. destruct (lookup_lt_is_Some_2 l (Z.to_nat i)) as [x Hx]; [lia|].
  exists x. split; [done|by apply aget_ok].
Qed.

Lemma aget_oob {A} (l : list A) i :
  Z.of_nat (length l) ≤ i → aget l i = Fault IndexOutOfBounds.
Proof. intros Hi. unfold aget. by rewrite lookup_ge_None_2 by lia. Qed.

Lemma aset_ok {A} (l : list A) i x :
  0 ≤ i < Z.of_nat (length l) → aset l i x = Ok (<[Z.to_nat i := x]> l).
Proof.
  intros Hi. destruct (lookup_lt_is_Some_2 l (Z.to_nat i)) as [y Hy]; [lia|].
  unfold aset. by rewrite Hy.
Qed.

(** A descending loop, [for i in (0..n).rev()]. *)
Lemma fold_rev_returns {S} (Inv : Z → S → Prop) (body : Z → S → res S) n s :
  0 ≤ n → Inv n s →
  (∀ i s, 0 ≤ i < n → Inv (i + 1) s → returns (body i s) (Inv i)) →
  returns (fold_each (reverse (seqZ 0 n)) body s) (Inv 0).
Proof.
  intros Hn. revert s. pattern n; apply natlike_ind; [| |done]; clear n Hn.
  - intros s Hs _. by apply returns_ok.
  - intros n Hn IH s Hs Hbody. unfold Z.succ.
    rewrite seqZ_app, reverse_app by lia. simpl.
    eapply returns_bind; [apply Hbody; [lia|]|].
    { rewrite Z.add_0_l. by rewrite Z.add_1_r. }
    simpl. intros s' Hs'. apply IH; [by rewrite Z.add_0_l in Hs'|].
    intros i s0 Hi. apply Hbody. lia.
Qed.

(** [(1 << o) - 1] selects the bits below [o]. *)
Lemma testbit_below o j : 0 ≤ o < 64 → Z.testbit (ubit o - 1) j = (0 <=? j) && (j <? o).
Proof.
  intros Ho. unfold ubit, wrap64. rewrite Z.shiftl_1_l.
  rewrite Z.mod_small by (split; [lia|apply Z.pow_lt_mono_r; lia]).
  rewrite Z.sub_1_r, <- Z.ones_equiv. destruct (Z.leb_spec 0 j); simpl.
  - destruct (Z.ltb_spec j o); [by rewrite Z.ones_spec_low by lia|by rewrite Z.ones_spec_high by lia].
  - by rewrite Z.testbit_neg_r.
Qed.

Lemma is_u64_below o : 0 ≤ o < 64 → is_u64 (ubit o - 1).
Proof.
  intros Ho. unfold ubit, wrap64. rewrite Z.shiftl_1_l.
  rewrite Z.mod_small by (split; [lia|apply Z.pow_lt_mono_r; lia]).
  pose proof (Z.pow_lt_mono_r 2 o 64). pose proof (Z.pow_pos_nonneg 2 o).
  unfold is_u64. lia.
Qed.

#[export] Hint Resolve is_u64_below : bits.
#[export] Hint Rewrite testbit_below using lia : bits.

(** ** Aligned and masked words *)

Lemma testbit_small x n i : 0 ≤ x < 2 ^ n → n ≤ i → Z.testbit x i = false.
Proof.
  intros [? Hlt] Hi. destruct (decide (x = 0)) as [->|]; [apply Z.testbit_0_l|].
  apply Z.bits_above_log2; [done|]. apply Z.log2_lt_pow2 in Hlt; lia.
Qed.

Lemma testbit_aligned c n i : c mod 2 ^ n = 0 → 0 ≤ n → i < n → Z.testbit c i = false.
Proof.
  intros Hc Hn Hi. rewrite <- (Z.mod_pow2_bits_low c n i) by lia. by rewrite Hc, Z.testbit_0_l.
Qed.

(** Or-ing a multiple of [2^n] onto a number below [2^n] adds it. *)
Lemma lor_disjoint x c n : 0 ≤ n → 0 ≤ x < 2 ^ n → c mod 2 ^ n = 0 → Z.lor x c = x + c.
Proof.
  intros Hn Hx Hc. rewrite <- Z.add_lor_land.
  replace (Z.land x c) with 0; [lia|]. symmetry. apply Z.bits_inj'. intros i Hi.
  rewrite Z.land_spec, Z.testbit_0_l. destruct (decide (i < n)).
  - rewrite (testbit_aligned c n) by done. apply andb_false_r.
  - by rewrite (testbit_small x n) by lia.
Qed.
