(* ===== verification/Bitmap.v ===== *)
(** * The page bitmap (kernel/src/page_alloc.rs, [Bitmap] and [BitmapIterator])

    One bit per page, 64 pages per [u64] cell; a set bit is an allocated page.  The
    operations are translated loop by loop; their specifications are stated on [bits], the
    bitmap read as a function from page numbers to booleans. *)

From S2P Require Import Prelude.

Local Open Scope Z_scope.

Record Bitmap : Type := mkBitmap { bitmap : list Z }.

Definition new (SIZE : nat) : Bitmap := {| bitmap := replicate SIZE 0 |}.

Definition cells (self : Bitmap) : Z := Z.of_nat (length (bitmap self)).

Section ops.
Context `{Profile}.

Definition find_hole (self : Bitmap) (page_count : Z) : res (option Z) :=
  r ← for_range 0 (cells self) (λ i s,
        cell ← aget (bitmap self) i;
        for_range 0 64 (λ j '(page_num, hole_count),
          if Z.land cell (ubit j) =? 0 then
            page_num ← (if hole_count =? 0 then i64 ← umul i 64; uadd i64 j
                        else Ok page_num);
            hole_count ← uadd hole_count 1;
            if hole_count =? page_count then Ok (Return page_num)
            else Ok (Continue (page_num, hole_count))
          else
            page_num ← uadd page_num hole_count;
            Ok (Continue (page_num, 0))) s) (0, 0);
  match r with
  | Return page_num => Ok (Some page_num)
  | Continue _ => Ok None
  end.

(** Loop state of [mark_allocated] and [free]: the cells, [page_num], [page_count]. *)
Definition range_state : Type := list Z * Z * Z.

(** The bodies of the bit loops, which test and update one page. *)
Definition mark_bit '((cs, page_num, page_count) : range_state) : res range_state :=
  w ← aget cs (page_num / 64);
  debug_assert (Z.land w (ubit (page_num mod 64)) =? 0) "double alloc";;
  cs ← aset cs (page_num / 64) (Z.lor w (ubit (page_num mod 64)));
  page_num ← uadd page_num 1;
  page_count ← usub page_count 1;
  Ok (cs, page_num, page_count).

Definition clear_bit '((cs, page_num, page_count) : range_state) : res range_state :=
  w ← aget cs (page_num / 64);
  debug_assert (negb (Z.land w (ubit (page_num mod 64)) =? 0)) "double free";;
  cs ← aset cs (page_num / 64) (Z.land w (unot (ubit (page_num mod 64))));
  page_num ← uadd page_num 1;
  page_count ← usub page_count 1;
  Ok (cs, page_num, page_count).

(** The bodies of the cell loops, which test and update 64 pages. *)
Definition mark_cell '((cs, page_num, page_count) : range_state) : res range_state :=
  w ← aget cs (page_num / 64);
  debug_assert (w =? 0) "double alloc";;
  cs ← aset cs (page_num / 64) 0xffffffffffffffff;
  page_num ← uadd page_num 64;
  page_count ← usub page_count 64;
  Ok (cs, page_num, page_count).

Definition clear_cell '((cs, page_num, page_count) : range_state) : res range_state :=
  w ← aget cs (page_num / 64);
  debug_assert (w =? 0xffffffffffffffff) "double free";;
  cs ← aset cs (page_num / 64) 0;
  page_num ← uadd page_num 64;
  page_count ← usub page_count 64;
  Ok (cs, page_num, page_count).

(** [while page_num % 64 != 0 && page_count > 0], [while page_count >= 64] and
    [while page_count > 0]. *)
Definition head_cond '((_, page_num, page_count) : range_state) : bool :=
  negb (page_num mod 64 =? 0) && (0 <? page_count).
Definition cell_cond '((_, _, page_count) : range_state) : bool := 64 <=? page_count.
Definition tail_cond '((_, _, page_count) : range_state) : bool := 0 <? page_count.

Definition mark_allocated (self : Bitmap) (page_num page_count : Z) : res Bitmap :=
  s ← while head_cond mark_bit (bitmap self, page_num, page_count);
  s ← while cell_cond mark_cell s;
  '(cs, _, _) ← while tail_cond mark_bit s;
  Ok {| bitmap := cs |}.

Definition free (self : Bitmap) (page_num page_count : Z) : res Bitmap :=
  s ← while head_cond clear_bit (bitmap self, page_num, page_count);
  s ← while cell_cond clear_cell s;
  '(cs, _, _) ← while tail_cond clear_bit s;
  Ok {| bitmap := cs |}.

Definition alloc (self : Bitmap) (page_count : Z) : res (option Z * Bitmap) :=
  hole ← find_hole self page_count;
  match hole with
  | Some page_num =>
      self ← mark_allocated self page_num page_count;
      Ok (Some page_num, self)
  | None => Ok (None, self)
  end.

Definition bit_capacity (self : Bitmap) : res Z := umul (cells self) 64.

Definition get (self : Bitmap) (idx : Z) : res bool :=
  w ← aget (bitmap self) (idx / 64);
  Ok (negb (Z.land w (ubit (idx mod 64)) =? 0)).

Definition set (self : Bitmap) (idx : Z) (value : bool) : res Bitmap :=
  w ← aget (bitmap self) (idx / 64);
  cs ← aset (bitmap self) (idx / 64)
         (if value then Z.lor w (ubit (idx mod 64))
          else Z.land w (unot (ubit (idx mod 64))));
  Ok {| bitmap := cs |}.

Definition move_bit_range_forward (self : Bitmap) (src_idx dst_idx count : Z) : res Bitmap :=
  if src_idx =? dst_idx then Ok self else
  assert (src_idx <=? dst_idx) "src_idx > dst_idx";;
  fold_each (reverse (seqZ 0 count)) (λ i self,
    d ← uadd dst_idx i;
    s ← uadd src_idx i;
    v ← get self s;
    set self d v) self.

Definition zero_bit_range (self : Bitmap) (idx count : Z) : res Bitmap :=
  if count =? 0 then Ok self else
  prefix_mask ← usub (ubit (idx mod 64)) 1;
  stop ← uadd idx count;
  below ← usub (ubit (stop mod 64)) 1;
  let suffix_mask := unot below in
  if idx / 64 =? stop / 64 then
    w ← aget (bitmap self) (idx / 64);
    cs ← aset (bitmap self) (idx / 64) (Z.land w (Z.lor prefix_mask suffix_mask));
    Ok {| bitmap := cs |}
  else
    cs ← (if negb (idx mod 64 =? 0) then
            w ← aget (bitmap self) (idx / 64);
            aset (bitmap self) (idx / 64) (Z.land w prefix_mask)
          else Ok (bitmap self));
    cs ← fold_each (seqZ (div_ceil idx 64) (stop / 64 - div_ceil idx 64))
           (λ cell cs, aset cs cell 0) cs;
    cs ← (if negb (stop mod 64 =? 0) then
            w ← aget cs (stop / 64);
            aset cs (stop / 64) (Z.land w suffix_mask)
          else Ok cs);
    Ok {| bitmap := cs |}.
End ops.

(** ** [BitmapIterator] *)

Record BitmapIterator : Type := mkIter { it_bitmap : list Z; it_idx : Z }.

Definition iter (self : Bitmap) : BitmapIterator :=
  {| it_bitmap := bitmap self; it_idx := 0 |}.

Definition next `{Profile} (it : BitmapIterator) : res (option bool * BitmapIterator) :=
  stop ← umul (Z.of_nat (length (it_bitmap it))) 64;
  if stop <=? it_idx it then Ok (None, it) else
  w ← aget (it_bitmap it) (it_idx it / 64);
  let bit := negb (Z.land w (ubit (it_idx it mod 64)) =? 0) in
  idx ← uadd (it_idx it) 1;
  Ok (Some bit, {| it_bitmap := it_bitmap it; it_idx := idx |}).

(** ** The bitmap as a predicate on page numbers *)

Definition cbits (cs : list Z) (i : Z) : bool :=
  match cs !! Z.to_nat (i / 64) with Some w => Z.testbit w (i mod 64) | None => false end.

Definition bits (self : Bitmap) : Z → bool := cbits (bitmap self).

Definition capacity (self : Bitmap) : Z := 64 * cells self.

(** Every cell is a [u64] and page numbers fit a [usize]. *)
Record wf (self : Bitmap) : Prop := {
  wf_cells : Forall is_u64 (bitmap self);
  wf_capacity : capacity self < 2 ^ 64;
}.

Lemma cbits_lookup cs i w : cs !! Z.to_nat (i / 64) = Some w → cbits cs i = Z.testbit w (i mod 64).
Proof. unfold cbits. by intros ->. Qed.

(** Updating one cell changes the 64 bits of that cell only. *)
Lemma cbits_insert cs c w i :
  0 ≤ i → 0 ≤ c < Z.of_nat (length cs) →
  cbits (<[Z.to_nat c := w]> cs) i =
    if i / 64 =? c then Z.testbit w (i mod 64) else cbits cs i.
Proof.
  intros Hi Hc. unfold cbits. destruct (Z.eqb_spec (i / 64) c) as [<-|Hne].
  - by rewrite list_lookup_insert_eq by lia.
  - rewrite list_lookup_insert_ne; [done|]. intros Heq. apply Hne.
    assert (0 ≤ i / 64) by (apply Z.div_pos; lia). lia.
Qed.

Lemma bitmap_ext b1 b2 :
  Forall is_u64 (bitmap b1) → Forall is_u64 (bitmap b2) →
  length (bitmap b1) = length (bitmap b2) →
  (∀ i, 0 ≤ i < capacity b1 → bits b1 i = bits b2 i) → b1 = b2.
Proof.
  destruct b1 as [c1], b2 as [c2]. unfold bits, capacity, cells; simpl.
  intros H1 H2 Hlen Hb. f_equal. apply list_eq_same_length with (length c1); [done|done|].
  intros n x y Hn Hx Hy. apply u64_ext.
  - by eapply Forall_lookup_1 in H1.
  - by eapply Forall_lookup_1 in H2.
  - intros j Hj. specialize (Hb (64 * Z.of_nat n + j) ltac:(lia)).
    assert ((64 * Z.of_nat n + j) / 64 = Z.of_nat n) as Hd by zdiv.
    assert ((64 * Z.of_nat n + j) mod 64 = j) as Hm by zdiv.
    unfold cbits in Hb. by rewrite Hd, Hm, !Nat2Z.id, Hx, Hy in Hb.
Qed.

(** [cs'] is [cs] with the pages [lo <= i < hi] set to [v]. *)
Record updates (cs cs' : list Z) (lo hi : Z) (v : bool) : Prop := {
  up_length : length cs' = length cs;
  up_u64 : Forall is_u64 cs';
  up_bits : ∀ i, 0 ≤ i → cbits cs' i = if (lo <=? i) && (i <? hi) then v else cbits cs i;
}.

Lemma updates_refl cs lo hi v : Forall is_u64 cs → hi ≤ lo → updates cs cs lo hi v.
Proof.
  intros ??. split; [done|done|]. intros i _.
  by destruct (Z.leb_spec lo i), (Z.ltb_spec i hi); simpl; try lia.
Qed.

Lemma updates_trans cs cs' cs'' lo mid hi v :
  lo ≤ mid ≤ hi → updates cs cs' lo mid v → updates cs' cs'' mid hi v →
  updates cs cs'' lo hi v.
Proof.
  intros ? [L1 _ B1] [L2 U2 B2]. split; [by rewrite L2|done|].
  intros i Hi. rewrite B2, B1 by done.
  destruct (Z.leb_spec mid i), (Z.ltb_spec i hi), (Z.leb_spec lo i), (Z.ltb_spec i mid);
    simpl; lia || done.
Qed.

(** Overwriting cell [c] by a word that differs from the old one exactly on [lo <= i < hi]. *)
Lemma updates_word cs c w w' lo hi v :
  Forall is_u64 cs → is_u64 w' → 0 ≤ c → cs !! Z.to_nat c = Some w →
  64 * c ≤ lo → hi ≤ 64 * c + 64 →
  (∀ j, 0 ≤ j < 64 → Z.testbit w' j =
     if (lo <=? 64 * c + j) && (64 * c + j <? hi) then v else Z.testbit w j) →
  updates cs (<[Z.to_nat c := w']> cs) lo hi v.
Proof.
  intros Hcs Hw' Hc Hw Hlo Hhi Hj.
  pose proof (lookup_lt_Some _ _ _ Hw). split.
  - apply length_insert.
  - by apply Forall_insert.
  - intros i Hi. rewrite cbits_insert by lia.
    destruct (Z.eqb_spec (i / 64) c) as [Heq|Hne].
    + rewrite Hj by (apply Z.mod_pos_bound; lia).
      replace (64 * c + i mod 64) with i by zdiv.
      by rewrite (cbits_lookup cs i w) by by rewrite Heq.
    + destruct (Z.leb_spec lo i), (Z.ltb_spec i hi); simpl; try done. zdiv.
Qed.

Section outcomes.
Context `{Profile}.

(** What a run over the pages [pn <= i < pn + n] does when it sets every one of them to
    [v] and, in the dev profile, first checks that it is not [v] already. *)
Definition range_outcome (v : bool) (msg : string) (cs : list Z) (pn n : Z)
    (r : res (list Z)) : Prop :=
  match r with
  | Ok cs' => updates cs cs' pn (pn + n) v ∧ (0 < n → pn + n ≤ 64 * Z.of_nat (length cs))
      ∧ (debug_assertions = true → ∀ i, pn ≤ i < pn + n → cbits cs i = negb v)
  | Fault f =>
      (f = PanicMsg msg ∧ debug_assertions = true ∧
         ∃ p, pn ≤ p < pn + n ∧ p < 64 * Z.of_nat (length cs) ∧ cbits cs p = v)
      ∨ (f = IndexOutOfBounds ∧ 64 * Z.of_nat (length cs) < pn + n)
  end.

(** A loop body that handles [k] pages at a time, [k] being 1 or 64. *)
Definition unit_body (v : bool) (msg : string) (k : Z) (body : range_state → res range_state)
    : Prop :=
  ∀ cs pn pc,
    Forall is_u64 cs → 64 * Z.of_nat (length cs) < 2 ^ 64 →
    0 ≤ pn → pn mod k = 0 → k ≤ pc < 2 ^ 64 →
    ∃ r, body (cs, pn, pc) = (cs' ← r; Ok (cs', pn + k, pc - k))
       ∧ range_outcome v msg cs pn k r.

Lemma cell_lookup (cs : list Z) pn :
  0 ≤ pn → pn < 64 * Z.of_nat (length cs) →
  ∃ w, cs !! Z.to_nat (pn / 64) = Some w ∧ aget cs (pn / 64) = Ok w
     ∧ 0 ≤ pn / 64 < Z.of_nat (length cs).
Proof.
  intros. assert (0 ≤ pn / 64 < Z.of_nat (length cs)) as Hc by zdiv.
  destruct (aget_lt cs (pn / 64) Hc) as (w & ? & ?). eauto.
Qed.

(** The shape the four bodies share: read a cell, check it, write it, advance. *)
Lemma unit_body_intro v msg k body (chk : Z → Z → bool) (upd : Z → Z → Z) :
  (k = 1 ∨ k = 64) →
  (∀ cs pn pc, body (cs, pn, pc) =
     (w ← aget cs (pn / 64);
      debug_assert (chk w (pn mod 64)) msg;;
      cs' ← aset cs (pn / 64) (upd w (pn mod 64));
      pn' ← uadd pn k;
      pc' ← usub pc k;
      Ok (cs', pn', pc'))) →
  (∀ w o, is_u64 w → 0 ≤ o → o + k ≤ 64 → is_u64 (upd w o) ∧
     (∀ j, 0 ≤ j < 64 → Z.testbit (upd w o) j =
        if (o <=? j) && (j <? o + k) then v else Z.testbit w j) ∧
     (if chk w o then ∀ j, o ≤ j < o + k → Z.testbit w j = negb v
      else ∃ j, o ≤ j < o + k ∧ Z.testbit w j = v)) →
  unit_body v msg k body.
Proof.
  intros Hk Hbody Hupd cs pn pc Hcs Hlen Hpn Hal Hpc. rewrite Hbody.
  destruct (decide (pn < 64 * Z.of_nat (length cs))) as [Hin|Hout]; last first.
  { exists (Fault IndexOutOfBounds).
    rewrite aget_oob by zdiv. split; [done|]. right. split; [done|lia]. }
  assert (pn + k ≤ 64 * Z.of_nat (length cs)) as Hend by (destruct Hk as [->| ->]; zdiv).
  assert (0 ≤ pn mod 64 ∧ pn mod 64 + k ≤ 64) as [Ho1 Ho2]
    by (destruct Hk as [->| ->]; zdiv).
  destruct (cell_lookup cs pn Hpn Hin) as (w & Hw & -> & Hc). rewrite res_bind_ok.
  assert (is_u64 w) as Hw64 by by eapply Forall_lookup_1 in Hcs.
  destruct (Hupd w (pn mod 64) Hw64 Ho1 Ho2) as (Hu64 & Htb & Hchk).
  rewrite aset_ok by done. rewrite uadd_ok, usub_ok by (unfold is_u64; lia).
  assert (pn = 64 * (pn / 64) + pn mod 64) as Hdec by zdiv.
  assert (∀ i, pn ≤ i < pn + k → cbits cs i = Z.testbit w (i - 64 * (pn / 64))) as Hrd.
  { intros i Hi. rewrite (cbits_lookup cs i w).
    - f_equal. zdiv.
    - by replace (i / 64) with (pn / 64) by zdiv. }
  assert (updates cs (<[Z.to_nat (pn / 64) := upd w (pn mod 64)]> cs) pn (pn + k) v).
  { apply updates_word with w; try done; try lia. intros j Hj. rewrite Htb by done.
    by replace (pn mod 64 <=? j) with (pn <=? 64 * (pn / 64) + j) by lia;
    replace (j <? pn mod 64 + k) with (64 * (pn / 64) + j <? pn + k) by lia. }
  unfold debug_assert, assert.
  destruct debug_assertions eqn:Hd; [destruct (chk w (pn mod 64))|]; simpl.
  - exists (Ok (<[Z.to_nat (pn / 64):=upd w (pn mod 64)]> cs)). split; [done|].
    split; [done|]. split; [done|]. intros _ i Hi. rewrite Hrd by done. apply Hchk. lia.
  - exists (Fault (PanicMsg msg)). split; [done|]. left. split; [done|]. split; [done|].
    destruct Hchk as (j & Hj & Hv). exists (64 * (pn / 64) + j).
    split; [lia|]. split; [lia|]. rewrite Hrd by lia. by replace (_ - _) with j by lia.
  - exists (Ok (<[Z.to_nat (pn / 64):=upd w (pn mod 64)]> cs)). split; [done|].
    split; [done|]. split; [done|]. by rewrite Hd.
Qed.

Ltac bit_cases j o :=
  autorewrite with bits; destruct (Z.leb_spec o j), (Z.ltb_spec j (o + 1)),
    (Z.leb_spec 0 j), (Z.ltb_spec j 64), (Z.eqb_spec j o); simpl; try lia;
  rewrite ?orb_true_r, ?orb_false_r, ?andb_true_r, ?andb_false_r; try done.

Lemma mark_bit_unit : unit_body true "double alloc" 1 mark_bit.
Proof.
  apply unit_body_intro with (chk := λ w o, Z.land w (ubit o) =? 0)
    (upd := λ w o, Z.lor w (ubit o)); [lia|done|].
  intros w o Hw Ho ?. split; [apply is_u64_lor; [done|apply is_u64_ubit; lia]|split].
  - intros j Hj. bit_cases j o.
  - rewrite land_ubit_eqb by lia. destruct (Z.testbit w o) eqn:E; simpl.
    + exists o. split; [lia|done].
    + intros j ?. by replace j with o by lia.
Qed.

Lemma clear_bit_unit : unit_body false "double free" 1 clear_bit.
Proof.
  apply unit_body_intro with (chk := λ w o, negb (Z.land w (ubit o) =? 0))
    (upd := λ w o, Z.land w (unot (ubit o))); [lia|done|].
  intros w o Hw Ho ?. split; [|split].
  - apply is_u64_land; [done|]. apply is_u64_unot.
  - intros j Hj. bit_cases j o.
  - rewrite land_ubit_eqb by lia. destruct (Z.testbit w o) eqn:E; simpl.
    + intros j ?. by replace j with o by lia.
    + exists o. split; [lia|done].
Qed.

(** A word is [0] or [!0] exactly when its 64 bits agree. *)
Lemma full_cell_eqb (v : bool) w :
  is_u64 w →
  if w =? (if v then Z.ones 64 else 0)
  then ∀ j, 0 ≤ j < 64 → Z.testbit w j = v
  else ∃ j, 0 ≤ j < 64 ∧ Z.testbit w j = negb v.
Proof.
  intros Hw. destruct (Z.eqb_spec w (if v then Z.ones 64 else 0)) as [->|Hne].
  - intros j Hj. destruct v; autorewrite with bits; [|done].
    destruct (Z.leb_spec 0 j), (Z.ltb_spec j 64); done || lia.
  - destruct (decide (Forall (λ j, Z.testbit w j = v) (seqZ 0 64))) as [Hall|Hex].
    + destruct Hne. apply u64_ext; [done|by destruct v; split|].
      intros j Hj. rewrite Forall_forall in Hall.
      rewrite Hall by (apply elem_of_seqZ; lia).
      destruct v; autorewrite with bits; [|done].
      destruct (Z.leb_spec 0 j), (Z.ltb_spec j 64); done || lia.
    + apply not_Forall_Exists in Hex; [|apply _].
      apply Exists_exists in Hex as (j & Hj%elem_of_seqZ & Hv).
      exists j. split; [lia|]. simpl in Hv. by destruct (Z.testbit w j) eqn:Hb, v; try congruence.
Qed.

Lemma mark_cell_unit : unit_body true "double alloc" 64 mark_cell.
Proof.
  apply unit_body_intro with (chk := λ w o, w =? 0) (upd := λ _ _, Z.ones 64);
    [lia|done|].
  intros w o Hw Ho ?. assert (o = 0) as -> by lia. split; [by split|split].
  - intros j Hj. autorewrite with bits.
    destruct (Z.leb_spec 0 j), (Z.ltb_spec j 64), (Z.ltb_spec j (0 + 64)); done || lia.
  - apply (full_cell_eqb false w Hw).
Qed.

Lemma clear_cell_unit : unit_body false "double free" 64 clear_cell.
Proof.
  apply unit_body_intro with (chk := λ w o, w =? Z.ones 64) (upd := λ _ _, 0);
    [lia|done|].
  intros w o Hw Ho ?. assert (o = 0) as -> by lia. split; [by split|split].
  - intros j Hj. autorewrite with bits.
    destruct (Z.leb_spec 0 j), (Z.ltb_spec j (0 + 64)); done || lia.
  - apply (full_cell_eqb true w Hw).
Qed.

Lemma range_outcome_fault_mono v msg cs pn n m f :
  n ≤ m → range_outcome v msg cs pn n (Fault f) → range_outcome v msg cs pn m (Fault f).
Proof.
  intros ? [(-> & ? & p & ? & ?)|[-> ?]]; [left|right]; split; try done; try lia.
  split; [done|]. exists p. split; [lia|done].
Qed.

Lemma range_outcome_app v msg cs cs' pn n m r :
  0 ≤ pn → 0 ≤ n → 0 ≤ m →
  range_outcome v msg cs pn n (Ok cs') → range_outcome v msg cs' (pn + n) m r →
  range_outcome v msg cs pn (n + m) r.
Proof.
  intros ??? (Hup & Hcap & Hd) Hr. pose proof Hup as [Hl Hu Hb].
  assert (∀ i, pn + n ≤ i → cbits cs' i = cbits cs i) as Hsame.
  { intros i ?. rewrite Hb by lia. by destruct (Z.leb_spec pn i), (Z.ltb_spec i (pn + n)); try lia. }
  destruct r as [cs''|f]; simpl in *; rewrite Hl in Hr.
  - destruct Hr as (Hup2 & Hcap2 & Hd2). split; [|split].
    + rewrite Z.add_assoc. apply updates_trans with cs' (pn + n); [lia|by split|done].
    + intros ?. destruct (decide (0 < m)); [lia|]. replace m with 0 by lia. lia.
    + intros Hdbg i Hi. destruct (decide (i < pn + n)); [apply Hd; [done|lia]|].
      rewrite <- Hsame by lia. apply Hd2; [done|lia].
  - destruct Hr as [(-> & ? & p & ? & ? & Hp)|[-> ?]]; [left|right]; split; try done; try lia.
    split; [done|]. exists p. split; [lia|]. split; [done|]. rewrite <- Hsame; [done|lia].
Qed.

(** What a loop leaves: the pages below the new [page_num] are done, and [al] is known
    about the remaining [page_num] and [page_count]. *)
Definition range_post v msg (al : Z → Z → Prop) (cs : list Z) (pn pc : Z)
    (r : res range_state) : Prop :=
  match r with
  | Ok (cs', pn', pc') =>
      pn ≤ pn' ∧ 0 ≤ pc' ∧ pn' + pc' = pn + pc ∧ al pn' pc' ∧
      range_outcome v msg cs pn (pn' - pn) (Ok cs')
  | Fault f => range_outcome v msg cs pn pc (Fault f)
  end.

Lemma range_post_refl v msg (al : Z → Z → Prop) cs pn pc :
  Forall is_u64 cs → 0 ≤ pc → al pn pc → range_post v msg al cs pn pc (Ok (cs, pn, pc)).
Proof.
  intros. split; [lia|]. split; [lia|]. split; [lia|]. split; [done|].
  split; [apply updates_refl; [done|lia]|]. split; [lia|]. intros; lia.
Qed.

Lemma range_post_bind v msg (al al' : Z → Z → Prop) cs pn pc m k :
  0 ≤ pn → range_post v msg al cs pn pc m →
  (∀ cs' pn' pc', Forall is_u64 cs' → length cs' = length cs → 0 ≤ pn' → 0 ≤ pc' ≤ pc →
     al pn' pc' → range_post v msg al' cs' pn' pc' (k (cs', pn', pc'))) →
  range_post v msg al' cs pn pc (m ≫= k).
Proof.
  intros Hpn Hm Hk. destruct m as [[[cs1 pn1] pc1]|f]; simpl in Hm |- *; [|done].
  destruct Hm as (? & ? & ? & Hal & Hr1). pose proof (proj1 Hr1) as [Hl1 Hu1 _].
  specialize (Hk cs1 pn1 pc1 Hu1 Hl1 ltac:(lia) ltac:(lia) Hal).
  replace pn1 with (pn + (pn1 - pn)) in Hk at 1 by lia.
  destruct (k (cs1, pn1, pc1)) as [[[cs2 pn2] pc2]|f]; simpl in Hk |- *.
  - destruct Hk as (? & ? & ? & ? & Hr2). split; [lia|]. split; [lia|]. split; [lia|].
    split; [done|]. replace (pn2 - pn) with (pn1 - pn + (pn2 - (pn + (pn1 - pn)))) by lia.
    apply (range_outcome_app v msg cs cs1 pn _ _ (Ok cs2)); [lia..|done|done].
  - replace pc with (pn1 - pn + pc1) by lia.
    apply (range_outcome_app v msg cs cs1 pn _ _ (Fault f)); [lia..|done|done].
Qed.

(** One of the three loops. *)
Lemma range_while v msg k body (cond : range_state → bool) (al al' : Z → Z → Prop) cs pn pc :
  0 < k → unit_body v msg k body →
  (∀ cs pn pc, 0 ≤ pn → 0 ≤ pc → al pn pc →
     if cond (cs, pn, pc) then k ≤ pc ∧ pn mod k = 0 ∧ al (pn + k) (pc - k)
     else al' pn pc) →
  Forall is_u64 cs → 64 * Z.of_nat (length cs) < 2 ^ 64 →
  0 ≤ pn → 0 ≤ pc < 2 ^ 64 → al pn pc →
  range_post v msg al' cs pn pc (while cond body (cs, pn, pc)).
Proof.
  intros Hk Hunit Hcond Hcs Hcap Hpn Hpc Hal.
  apply (while_rule cond body (λ s, range_post v msg al cs pn pc (Ok s))
    (λ '(_, _, pc'), pc')); [|by apply range_post_refl; [|lia|]|lia|].
  - intros [[cs' pn'] pc'] (? & ? & ? & Hal' & Hro) Hc.
    generalize (Hcond cs' pn' pc' ltac:(lia) ltac:(lia) Hal'). rewrite Hc.
    intros (? & Hmod & Hal''). pose proof (proj1 Hro) as [Hl Hu _].
    destruct (Hunit cs' pn' pc' Hu ltac:(by rewrite Hl) ltac:(lia) Hmod ltac:(lia))
      as (r & -> & Hr).
    replace pn' with (pn + (pn' - pn)) in Hr by lia.
    apply (range_outcome_app _ _ cs) in Hr; [|lia..|done].
    destruct r as [cs''|f]; simpl.
    + split; [|lia]. split; [lia|]. split; [lia|]. split; [lia|]. split; [done|].
      by replace (pn' + k - pn) with (pn' - pn + k) by lia.
    + apply range_outcome_fault_mono with (pn' - pn + k); [lia|done].
  - intros [[cs' pn'] pc'] (? & ? & ? & Hal' & Hro) Hc.
    generalize (Hcond cs' pn' pc' ltac:(lia) ltac:(lia) Hal'). rewrite Hc. by intros.
Qed.

(** The loops of [mark_allocated] and [free] in sequence. *)
Lemma three_loops_outcome v msg bit_body cell_body cs pn pc :
  unit_body v msg 1 bit_body → unit_body v msg 64 cell_body →
  Forall is_u64 cs → 64 * Z.of_nat (length cs) < 2 ^ 64 → 0 ≤ pn → 0 ≤ pc < 2 ^ 64 →
  range_post v msg (λ _ pc', pc' = 0) cs pn pc
    (s ← while head_cond bit_body (cs, pn, pc);
     s ← while cell_cond cell_body s;
     while tail_cond bit_body s).
Proof.
  intros Hbit Hcell Hcs Hcap Hpn Hpc.
  apply range_post_bind with (λ pn pc, pn mod 64 = 0 ∨ pc = 0); [done| |].
  { apply range_while with 1 (λ _ _, True); try done.
    intros cs' pn' pc' _ Hpc' _. simpl.
    destruct (Z.eqb_spec (pn' mod 64) 0), (Z.ltb_spec 0 pc'); simpl; [lia|lia| |lia].
    split; [lia|]. by rewrite Z.mod_1_r. }
  intros cs1 pn1 pc1 ? Hl1 ???.
  apply range_post_bind with (λ _ _, True); [done| |].
  { apply range_while with 64 (λ pn pc, pn mod 64 = 0 ∨ pc = 0); try done; try lia.
    intros cs' pn' pc' ? Hpc' ?. simpl. destruct (Z.leb_spec 64 pc'); [|done].
    split; [lia|]. split; [lia|]. left. zdiv. }
  intros cs2 pn2 pc2 ? Hl2 ???.
  apply range_while with 1 (λ _ _, True); try done; try lia.
  intros cs' pn' pc' ? Hpc' ?. simpl. destruct (Z.ltb_spec 0 pc'); [|lia].
  split; [lia|]. by rewrite Z.mod_1_r.
Qed.
End outcomes.

(** ** [mark_allocated] and [free] *)

Definition in_range (lo n i : Z) : bool := (lo <=? i) && (i <? lo + n).

Lemma in_range_spec lo n i : in_range lo n i = true ↔ lo ≤ i < lo + n.
Proof. unfold in_range. lia. Qed.

(** [self'] is [self] with the pages [lo <= i < lo + n] set to [v]. *)
Record set_range (self self' : Bitmap) (lo n : Z) (v : bool) : Prop := {
  sr_wf : wf self';
  sr_cells : cells self' = cells self;
  sr_bits : ∀ i, 0 ≤ i → bits self' i = if in_range lo n i then v else bits self i;
}.

Lemma set_range_intro self cs' lo n v :
  wf self → updates (bitmap self) cs' lo (lo + n) v → set_range self {| bitmap := cs' |} lo n v.
Proof.
  intros [_ Hcap] [Hl Hu Hb]. split.
  - split; [done|]. unfold capacity, cells in *. simpl. by rewrite Hl.
  - unfold cells. simpl. by rewrite Hl.
  - done.
Qed.

Lemma set_range_unique self b1 b2 lo n v :
  set_range self b1 lo n v → set_range self b2 lo n v → b1 = b2.
Proof.
  intros [[??] Hc1 Hb1] [[??] Hc2 Hb2]. apply bitmap_ext; [done|done| |].
  - unfold cells in *. lia.
  - intros i ?. by rewrite Hb1, Hb2 by lia.
Qed.

Section ranges.
Context `{Profile}.
Variables (self : Bitmap) (page_num page_count : Z).
Hypothesis Hwf : wf self.
Hypothesis Hpn : 0 ≤ page_num.
Hypothesis Hpc : 0 ≤ page_count < 2 ^ 64.

(** [range_outcome] read on bitmaps. *)
Definition outcome (v : bool) (msg : string) (r : res Bitmap) : Prop :=
  match r with
  | Ok self' => set_range self self' page_num page_count v
      ∧ (0 < page_count → page_num + page_count ≤ capacity self)
      ∧ (debug_assertions = true →
           ∀ i, in_range page_num page_count i = true → bits self i = negb v)
  | Fault f =>
      (f = PanicMsg msg ∧ debug_assertions = true ∧
         ∃ p, in_range page_num page_count p = true ∧ p < capacity self ∧ bits self p = v)
      ∨ (f = IndexOutOfBounds ∧ capacity self < page_num + page_count)
  end.

Lemma outcome_intro v msg (m : res range_state) :
  range_post v msg (λ _ pc', pc' = 0) (bitmap self) page_num page_count m →
  outcome v msg ('(cs, _, _) ← m; Ok {| bitmap := cs |}).
Proof using Hwf.
  destruct m as [[[cs pn'] pc']|f]; simpl.
  - intros (? & ? & ? & -> & Hup & Hcap & Hd).
    replace (page_num + (pn' - page_num)) with (page_num + page_count) in * by lia.
    split; [by apply set_range_intro|].
    split; [intros ?; apply Hcap; lia|]. intros Hdbg i Hi%in_range_spec. by apply Hd.
  - intros [(-> & ? & p & ? & ?)|[-> ?]]; [left|by right].
    split; [done|]. split; [done|]. exists p. by rewrite in_range_spec.
Qed.

Lemma three_loops_bind {A} (m1 : res A) (k1 : A → res A) (k2 : A → res A) (h : A → res Bitmap) :
  (s ← m1; s ← k1 s; s ← k2 s; h s) = ((s ← m1; s ← k1 s; k2 s) ≫= h).
Proof using. destruct m1 as [a|]; simpl; [|done]. by destruct (k1 a). Qed.

Lemma mark_allocated_outcome :
  outcome true "double alloc" (mark_allocated self page_num page_count).
Proof using Hwf Hpn Hpc.
  unfold mark_allocated. rewrite three_loops_bind. apply outcome_intro.
  destruct Hwf. apply three_loops_outcome; [apply mark_bit_unit|apply mark_cell_unit|done..].
Qed.

Lemma free_outcome : outcome false "double free" (free self page_num page_count).
Proof using Hwf Hpn Hpc.
  unfold free. rewrite three_loops_bind. apply outcome_intro.
  destruct Hwf. apply three_loops_outcome; [apply clear_bit_unit|apply clear_cell_unit|done..].
Qed.

(** In range and, in the dev profile, with every page in the expected state, the run
    succeeds. *)
Lemma outcome_returns v msg r :
  outcome v msg r → page_num + page_count ≤ capacity self →
  (debug_assertions = true →
     ∀ i, in_range page_num page_count i = true → bits self i = negb v) →
  ∃ self', r = Ok self' ∧ set_range self self' page_num page_count v.
Proof using.
  clear Hwf Hpn Hpc. intros Hr Hcap Hd. destruct r as [self'|f]; simpl in Hr.
  - exists self'. tauto.
  - destruct Hr as [(_ & Hdbg & p & Hp & _ & Hv)|[_ ?]]; [|lia].
    rewrite (Hd Hdbg p Hp) in Hv. by destruct v.
Qed.
End ranges.

Section range_lemmas.
Context `{Profile}.

Lemma mark_allocated_ok self page_num page_count :
  wf self → 0 ≤ page_num → 0 ≤ page_count → page_num + page_count ≤ capacity self →
  (debug_assertions = true →
     ∀ i, in_range page_num page_count i = true → bits self i = false) →
  ∃ self', mark_allocated self page_num page_count = Ok self'
    ∧ set_range self self' page_num page_count true.
Proof.
  intros Hwf ????. pose proof (wf_capacity _ Hwf).
  eapply outcome_returns; [apply mark_allocated_outcome; [done|done|lia]|done|done].
Qed.

Lemma free_ok self page_num page_count :
  wf self → 0 ≤ page_num → 0 ≤ page_count → page_num + page_count ≤ capacity self →
  (debug_assertions = true →
     ∀ i, in_range page_num page_count i = true → bits self i = true) →
  ∃ self', free self page_num page_count = Ok self'
    ∧ set_range self self' page_num page_count false.
Proof.
  intros Hwf ????. pose proof (wf_capacity _ Hwf).
  eapply outcome_returns; [apply free_outcome; [done|done|lia]|done|done].
Qed.
End range_lemmas.

(** ** [find_hole] *)

(** The pages [p <= i < p + n] exist and are free. *)
Definition hole (self : Bitmap) (p n : Z) : Prop :=
  0 ≤ p ∧ p + n ≤ capacity self ∧ ∀ i, p ≤ i < p + n → bits self i = false.

(** What [find_hole] knows before it looks at page [k]: the last [hole_count] pages are
    free, the page before them (if any) is not, and no hole of [n] pages ends by [k]. *)
Record scan (self : Bitmap) (n k : Z) (s : Z * Z) : Prop := {
  sc_count : 0 ≤ s.2 ≤ k;
  sc_short : 0 < n → s.2 < n;
  sc_start : 0 < s.2 → s.1 = k - s.2;
  sc_num : 0 ≤ s.1 ∧ s.1 + s.2 ≤ k;
  sc_free : ∀ i, k - s.2 ≤ i < k → bits self i = false;
  sc_edge : s.2 < k → bits self (k - s.2 - 1) = true;
  sc_none : 0 < n → ∀ q, hole self q n → k < q + n;
}.

(** The post-condition of [find_hole]. *)
Definition first_hole (self : Bitmap) (n : Z) (o : option Z) : Prop :=
  match o with
  | Some p => 0 < n ∧ hole self p n ∧ ∀ q, hole self q n → p ≤ q
  | None => 0 < n → ∀ q, ¬ hole self q n
  end.

Lemma scan_init self n : 0 ≤ n → scan self n 0 (0, 0).
Proof.
  intros ?. split; simpl; try lia.
  intros ? q (? & _). lia.
Qed.

Lemma scan_used self n k s :
  0 ≤ n → scan self n k s → bits self k = true → scan self n (k + 1) (s.1 + s.2, 0).
Proof.
  intros ? [? ? ? ? Hfree Hedge Hnone] Hk. split; simpl; try lia.
  - intros _. by replace (k + 1 - 0 - 1) with k by lia.
  - intros Hn q Hq. pose proof (Hnone Hn q Hq). destruct Hq as (? & ? & Hq).
    destruct (decide (q + n = k + 1)); [|lia].
    rewrite Hq in Hk by lia. done.
Qed.

Lemma scan_free self n k s (p := if s.2 =? 0 then k else s.1) :
  0 ≤ n → scan self n k s → 0 ≤ k < capacity self → bits self k = false →
  if s.2 + 1 =? n then first_hole self n (Some p)
  else scan self n (k + 1) (p, s.2 + 1).
Proof.
  intros ? [? Hshort Hstart ? Hfree Hedge Hnone] Hcap Hk.
  assert (p = k - s.2) as Hp.
  { unfold p. destruct (Z.eqb_spec s.2 0); [lia|]. apply Hstart. lia. }
  assert (∀ i, k - s.2 ≤ i < k + 1 → bits self i = false) as Hfree'.
  { intros i Hi. destruct (decide (i = k)) as [->|]; [done|]. apply Hfree. lia. }
  destruct (Z.eqb_spec (s.2 + 1) n) as [Heq|Hne].
  - split; [lia|]. split.
    + split; [lia|]. split; [lia|]. intros i Hi. apply Hfree'. lia.
    + intros q Hq. apply Hnone in Hq; lia.
  - split; simpl; try lia.
    + intros i Hi. apply Hfree'. lia.
    + intros ?. rewrite <- Hedge by lia. f_equal. lia.
    + intros Hn q Hq. pose proof (Hnone Hn q Hq) as Hlt. specialize (Hshort Hn).
      destruct Hq as (? & ? & Hq). destruct (decide (q + n = k + 1)); [|lia].
      rewrite Hq in Hedge by lia. specialize (Hedge ltac:(lia)). done.
Qed.

Lemma find_hole_spec `{Profile} self page_count :
  wf self → 0 ≤ page_count →
  ∃ o, find_hole self page_count = Ok o ∧ first_hole self page_count o.
Proof.
  intros [_ Hcap] Hn. unfold capacity in Hcap. unfold find_hole.
  match goal with |- context [for_range 0 (cells self) ?b (0, 0)] =>
    set (body := b) end.
  assert (match for_range 0 (cells self) body (0, 0) with
    | Ok (Continue s) => scan self page_count (capacity self) s
    | Ok (Return p) => first_hole self page_count (Some p)
    | Fault _ => False
    end) as Hloop; last first.
  { destruct (for_range 0 (cells self) body (0, 0)) as [[s|p]|f]; [| |done]; simpl.
    - exists None. split; [done|]. intros Hpos q Hq.
      pose proof (sc_none _ _ _ _ Hloop Hpos q Hq). destruct Hq as (? & ? & ?). lia.
    - by exists (Some p). }
  apply (for_range_rule (λ i s, scan self page_count (64 * i) s)).
  { unfold cells. lia. }
  { by apply scan_init. }
  2: { done. }
  intros i s Hi Hs. unfold body. destruct (aget_lt (bitmap self) i) as (w & Hw & ->); [done|].
  rewrite res_bind_ok.
  apply (for_range_rule (λ j s, scan self page_count (64 * i + j) s)); [lia| | |].
  { by rewrite Z.add_0_r. }
  2: { intros s' Hs'. by replace (64 * (i + 1)) with (64 * i + 64) by lia. }
  clear s Hs. intros j [pn hc] Hj Hs. rewrite land_ubit_eqb by done.
  assert (bits self (64 * i + j) = Z.testbit w j) as Hb.
  { unfold bits, cbits. replace ((64 * i + j) / 64) with i by zdiv.
    rewrite Hw. f_equal. zdiv. }
  pose proof (sc_count _ _ _ _ Hs) as Hcnt. pose proof (sc_num _ _ _ _ Hs) as Hnum.
  simpl in Hcnt, Hnum. rewrite <- Hb. destruct (bits self (64 * i + j)) eqn:Hk; simpl.
  - rewrite uadd_ok by (unfold is_u64; lia). simpl.
    rewrite Z.add_assoc. by apply (scan_used _ _ _ (pn, hc)).
  - pose proof (scan_free _ _ _ (pn, hc) Hn Hs ltac:(unfold capacity; lia) Hk) as Hstep.
    simpl in Hstep. rewrite umul_ok by (unfold is_u64; lia). simpl.
    rewrite (uadd_ok hc), (Z.mul_comm i) by (unfold is_u64; lia).
    destruct (hc =? 0); simpl; [rewrite uadd_ok by (unfold is_u64; lia); simpl|];
      (destruct (hc + 1 =? page_count); [done|by rewrite Z.add_assoc]).
Qed.

(** ** [get], [set] and the range moves *)

Lemma wf_cell self i :
  wf self → 0 ≤ i < capacity self →
  ∃ w, bitmap self !! Z.to_nat (i / 64) = Some w ∧ aget (bitmap self) (i / 64) = Ok w
     ∧ is_u64 w ∧ 0 ≤ i / 64 < cells self.
Proof.
  intros [Hu _] Hi. destruct (cell_lookup (bitmap self) i) as (w & Hw & ? & ?);
    [lia|unfold capacity, cells in Hi; lia|].
  exists w. split; [done|]. split; [done|]. split; [|done].
  by eapply Forall_lookup_1 in Hu.
Qed.

Lemma get_ok self i : wf self → 0 ≤ i < capacity self → get self i = Ok (bits self i).
Proof.
  intros Hwf Hi. unfold get. destruct (wf_cell self i Hwf Hi) as (w & Hw & -> & _ & _). simpl.
  rewrite land_ubit_eqb by (apply Z.mod_pos_bound; lia). rewrite negb_involutive.
  f_equal. symmetry. by apply cbits_lookup.
Qed.

Lemma set_ok self i v :
  wf self → 0 ≤ i < capacity self →
  ∃ self', set self i v = Ok self' ∧ set_range self self' i 1 v.
Proof.
  intros Hwf Hi. unfold set. destruct (wf_cell self i Hwf Hi) as (w & Hw & -> & Hw64 & Hc). simpl.
  assert (0 ≤ i mod 64 < 64) by (apply Z.mod_pos_bound; lia).
  assert (i = 64 * (i / 64) + i mod 64) as Hdec by zdiv.
  rewrite aset_ok by done. simpl. eexists. split; [done|].
  apply set_range_intro; [done|].
  apply updates_word with w; [by destruct Hwf| |lia|done|lia|lia|].
  { destruct v; [by auto with bits|]. apply is_u64_land; [done|]. apply is_u64_unot. }
  intros j Hj. destruct v; autorewrite with bits;
    destruct (Z.eqb_spec j (i mod 64)), (Z.leb_spec i (64 * (i / 64) + j)),
      (Z.ltb_spec (64 * (i / 64) + j) (i + 1)), (Z.leb_spec 0 j), (Z.ltb_spec j 64);
    simpl; try lia; by rewrite ?orb_true_r, ?orb_false_r, ?andb_true_r, ?andb_false_r.
Qed.

(** [self'] has the [count] bits from [src] copied to [dst], as they were in [self]. *)
Record moved (self self' : Bitmap) (src dst count : Z) : Prop := {
  mv_wf : wf self';
  mv_cells : cells self' = cells self;
  mv_bits : ∀ i, 0 ≤ i →
    bits self' i = if in_range dst count i then bits self (i - dst + src) else bits self i;
}.

Lemma move_bit_range_forward_ok `{Profile} self src dst count :
  wf self → 0 ≤ src ≤ dst → 0 ≤ count → dst + count ≤ capacity self →
  ∃ self', move_bit_range_forward self src dst count = Ok self' ∧ moved self self' src dst count.
Proof.
  intros Hwf Hsd Hcount Hcap. pose proof (wf_capacity _ Hwf). unfold move_bit_range_forward.
  destruct (Z.eqb_spec src dst) as [->|Hne].
  { exists self. split; [done|]. split; [done|done|]. intros i Hi.
    destruct in_range; [f_equal; lia|done]. }
  rewrite (proj2 (Z.leb_le _ _)) by lia. simpl.
  edestruct (fold_rev_returns (λ m cur, wf cur ∧ cells cur = cells self ∧
      ∀ i, 0 ≤ i → bits cur i =
        if in_range (dst + m) (count - m) i then bits self (i - dst + src) else bits self i))
    as (self' & -> & ? & ? & Hb); [done| | |].
  - split; [done|]. split; [done|]. intros i Hi. unfold in_range.
    by destruct (Z.leb_spec (dst + count) i), (Z.ltb_spec i (dst + count + (count - count)));
      simpl; try lia.
  - intros m cur Hm (Hcwf & Hcc & Hcb).
    assert (capacity cur = capacity self) as Hcc' by (unfold capacity; lia).
    rewrite !uadd_ok by (unfold is_u64; lia). simpl.
    rewrite get_ok by (done || lia). simpl.
    destruct (set_ok cur (dst + m) (bits cur (src + m)) Hcwf ltac:(lia)) as (cur' & -> & [? ? Hb]).
    apply returns_ok. split; [done|]. split; [lia|]. intros i Hi. rewrite Hb, !Hcb by lia.
    unfold in_range.
    destruct (Z.leb_spec (dst + (m + 1)) (src + m)); [lia|]. simpl.
    destruct (Z.leb_spec (dst + m) i), (Z.ltb_spec i (dst + m + 1)),
      (Z.leb_spec (dst + (m + 1)) i), (Z.ltb_spec i (dst + (m + 1) + (count - (m + 1)))),
      (Z.ltb_spec i (dst + m + (count - m))); simpl; try lia; try done.
    f_equal. lia.
  - exists self'. split; [done|]. split; [done|done|]. intros i Hi.
    by rewrite Hb, Z.add_0_r, Z.sub_0_r by done.
Qed.

(** [cells <- 0] for the whole cells of a range. *)
Lemma zero_cells_ok cs lo n :
  Forall is_u64 cs → 0 ≤ lo → 0 ≤ n → lo + n ≤ Z.of_nat (length cs) →
  returns (fold_each (seqZ lo n) (λ cell cs, aset cs cell 0) cs)
    (λ cs', updates cs cs' (64 * lo) (64 * (lo + n)) false).
Proof.
  intros Hcs ???.
  apply (fold_range_returns (λ c cs', updates cs cs' (64 * lo) (64 * c) false)); [done| |].
  { by apply updates_refl. }
  intros c cs' Hc Hup. pose proof Hup as [Hl Hu _].
  rewrite aset_ok by lia. apply returns_ok.
  apply updates_trans with cs' (64 * c); [lia|done|].
  destruct (aget_lt cs' c) as (w & Hw & _); [lia|].
  apply updates_word with w; [done|by split|lia|done|lia|lia|].
  intros j Hj. rewrite Z.testbit_0_l.
  by destruct (Z.leb_spec (64 * c) (64 * c + j)), (Z.ltb_spec (64 * c + j) (64 * (c + 1))); try lia.
Qed.

(** Masking a cell so that the bits from [lo] to [hi] are cleared. *)
Lemma mask_cell_ok cs c mask lo hi :
  Forall is_u64 cs → 0 ≤ c < Z.of_nat (length cs) → is_u64 mask →
  64 * c ≤ lo → hi ≤ 64 * c + 64 →
  (∀ j, 0 ≤ j < 64 → Z.testbit mask j = negb ((lo <=? 64 * c + j) && (64 * c + j <? hi))) →
  returns (w ← aget cs c; aset cs c (Z.land w mask)) (λ cs', updates cs cs' lo hi false).
Proof.
  intros Hcs Hc Hmask Hlo Hhi Hj. destruct (aget_lt cs c Hc) as (w & Hw & ->). simpl.
  rewrite aset_ok by done. apply returns_ok.
  apply updates_word with w; [done| |lia|done|done|done|].
  { apply is_u64_land; [by eapply Forall_lookup_1 in Hcs|apply Hmask]. }
  intros j Hj'. rewrite Z.land_spec, Hj by done.
  by destruct ((lo <=? 64 * c + j) && (64 * c + j <? hi)); simpl;
    rewrite ?andb_true_r, ?andb_false_r.
Qed.

(** The partial cells at the two ends of the range. *)
Lemma zero_prefix_ok cs idx :
  Forall is_u64 cs → 0 ≤ idx < 64 * Z.of_nat (length cs) →
  returns (if negb (idx mod 64 =? 0) then
             w ← aget cs (idx / 64); aset cs (idx / 64) (Z.land w (ubit (idx mod 64) - 1))
           else Ok cs)
    (λ cs', updates cs cs' idx (64 * div_ceil idx 64) false).
Proof.
  intros Hcs Hidx. assert (0 ≤ idx mod 64 < 64) by (apply Z.mod_pos_bound; lia).
  unfold div_ceil. destruct (Z.eqb_spec (idx mod 64) 0); simpl.
  - apply returns_ok, updates_refl; [done|zdiv].
  - apply mask_cell_ok; [done|zdiv|by apply is_u64_below|zdiv|lia|].
    intros j Hj. autorewrite with bits.
    destruct (Z.leb_spec 0 j), (Z.ltb_spec j (idx mod 64)), (Z.leb_spec idx (64 * (idx / 64) + j)),
      (Z.ltb_spec (64 * (idx / 64) + j) (64 * (idx / 64 + 1))); simpl; done || zdiv.
Qed.

Lemma zero_suffix_ok cs stop :
  Forall is_u64 cs → 0 ≤ stop ≤ 64 * Z.of_nat (length cs) →
  returns (if negb (stop mod 64 =? 0) then
             w ← aget cs (stop / 64); aset cs (stop / 64) (Z.land w (unot (ubit (stop mod 64) - 1)))
           else Ok cs)
    (λ cs', updates cs cs' (64 * (stop / 64)) stop false).
Proof.
  intros Hcs Hstop. assert (0 ≤ stop mod 64 < 64) by (apply Z.mod_pos_bound; lia).
  destruct (Z.eqb_spec (stop mod 64) 0); simpl.
  - apply returns_ok, updates_refl; [done|zdiv].
  - apply mask_cell_ok; [done|zdiv|apply is_u64_unot|lia|zdiv|].
    intros j Hj. autorewrite with bits.
    destruct (Z.leb_spec 0 j), (Z.ltb_spec j 64), (Z.ltb_spec j (stop mod 64)),
      (Z.leb_spec (64 * (stop / 64)) (64 * (stop / 64) + j)),
      (Z.ltb_spec (64 * (stop / 64) + j) stop); simpl; done || zdiv.
Qed.

Lemma zero_same_cell_ok cs idx stop :
  Forall is_u64 cs → 0 ≤ idx < stop → stop ≤ 64 * Z.of_nat (length cs) → idx / 64 = stop / 64 →
  returns (w ← aget cs (idx / 64);
           aset cs (idx / 64)
             (Z.land w (Z.lor (ubit (idx mod 64) - 1) (unot (ubit (stop mod 64) - 1)))))
    (λ cs', updates cs cs' idx stop false).
Proof.
  intros Hcs Hidx Hstop Heq.
  assert (0 ≤ idx mod 64 < 64) by (apply Z.mod_pos_bound; lia).
  assert (0 ≤ stop mod 64 < 64) by (apply Z.mod_pos_bound; lia).
  apply mask_cell_ok; [done|zdiv|by auto with bits|zdiv|zdiv|].
  intros j Hj. autorewrite with bits.
  destruct (Z.leb_spec 0 j), (Z.ltb_spec j 64), (Z.ltb_spec j (idx mod 64)),
    (Z.ltb_spec j (stop mod 64)), (Z.leb_spec idx (64 * (idx / 64) + j)),
    (Z.ltb_spec (64 * (idx / 64) + j) stop); simpl; done || zdiv.
Qed.

Lemma zero_bit_range_ok `{Profile} self idx count :
  wf self → 0 ≤ idx → 0 ≤ count → idx + count ≤ capacity self →
  ∃ self', zero_bit_range self idx count = Ok self' ∧ set_range self self' idx count false.
Proof.
  intros Hwf Hidx Hcount Hcap. pose proof Hwf as [Hu Hmax]. unfold capacity, cells in *.
  unfold zero_bit_range. destruct (Z.eqb_spec count 0) as [->|Hne].
  { exists self. split; [done|]. destruct self. apply set_range_intro; [done|].
    apply updates_refl; [done|lia]. }
  assert (∀ m : res (list Z),
    returns m (λ cs', updates (bitmap self) cs' idx (idx + count) false) →
    ∃ self', (cs ← m; Ok {| bitmap := cs |}) = Ok self' ∧ set_range self self' idx count false)
    as Hfin.
  { intros m (cs & -> & Hup). exists {| bitmap := cs |}. split; [done|].
    by apply set_range_intro. }
  assert (∀ x, is_u64 (ubit (x mod 64) - 1)) as Hbelow
    by (intros x; apply is_u64_below, Z.mod_pos_bound; lia).
  rewrite usub_ok, uadd_ok by (done || unfold is_u64; lia). simpl.
  remember (idx + count) as stop eqn:Hstop.
  rewrite usub_ok by done. simpl.
  destruct (Z.eqb_spec (idx / 64) (stop / 64)) as [Heq|Hneq].
  - destruct (zero_same_cell_ok (bitmap self) idx stop) as (cs & Hcs & Hup); [done|lia|lia|done|].
    destruct (aget (bitmap self) (idx / 64)) as [w|f]; simpl in Hcs |- *; [|done].
    rewrite Hcs. apply (Hfin (Ok cs)). by apply returns_ok.
  - assert (64 * div_ceil idx 64 < idx + 64) by (unfold div_ceil; destruct (idx mod 64 =? 0) eqn:?; zdiv).
    assert (idx ≤ 64 * div_ceil idx 64) by (unfold div_ceil; destruct (idx mod 64 =? 0) eqn:?; zdiv).
    assert (div_ceil idx 64 ≤ stop / 64) by zdiv.
    destruct (zero_prefix_ok (bitmap self) idx) as (cs1 & -> & Hup1); [done|lia|].
    pose proof Hup1 as [Hl1 Hu1 _]. simpl.
    destruct (zero_cells_ok cs1 (div_ceil idx 64) (stop / 64 - div_ceil idx 64))
      as (cs2 & -> & Hup2); [done|lia|lia|zdiv|].
    pose proof Hup2 as [Hl2 Hu2 _]. simpl.
    replace (div_ceil idx 64 + (stop / 64 - div_ceil idx 64)) with (stop / 64) in Hup2 by lia.
    destruct (zero_suffix_ok cs2 stop) as (cs3 & -> & Hup3); [done|lia|].
    apply (Hfin (Ok cs3)), returns_ok.
    apply updates_trans with cs1 (64 * div_ceil idx 64); [zdiv|done|].
    apply updates_trans with cs2 (64 * (stop / 64)); [zdiv|done|done].
Qed.

(** ** Iteration *)

Lemma next_ok `{Profile} self i :
  wf self → 0 ≤ i ≤ capacity self →
  next {| it_bitmap := bitmap self; it_idx := i |} =
    Ok (if i <? capacity self
        then (Some (bits self i), {| it_bitmap := bitmap self; it_idx := i + 1 |})
        else (None, {| it_bitmap := bitmap self; it_idx := i |})).
Proof.
  intros Hwf Hi. pose proof (wf_capacity _ Hwf). unfold next. cbn [it_bitmap it_idx].
  fold (cells self). rewrite umul_ok by (unfold is_u64, capacity in *; lia). run.
  replace (cells self * 64) with (capacity self) by (unfold capacity; lia).
  destruct (Z.leb_spec (capacity self) i), (Z.ltb_spec i (capacity self)); try lia; [done|].
  pose proof (get_ok self i Hwf ltac:(lia)) as Hg. unfold get in Hg.
  destruct (aget (bitmap self) (i / 64)) as [w|]; [|done]. simpl in Hg. run.
  injection Hg as ->. rewrite uadd_ok by (unfold is_u64; lia). done.
Qed.
