(* ===== verification/BitmapSpec.v ===== *)
(** * Properties of the page bitmap (kernel/src/page_alloc.rs, [Bitmap])

    What a client of the bitmap relies on, each with a concrete run. *)

From S2P Require Import Prelude Bitmap.

Local Open Scope Z_scope.

(** Pages 0 and 2 of 128 are allocated. *)
Definition sample : Bitmap := {| bitmap := [5; 0] |}.

Lemma sample_wf : wf sample.
Proof. split; [repeat (apply Forall_cons; split; [split; lia|]); constructor|done]. Qed.

(** ** Allocation *)

(** C22. First fit. [Bitmap::alloc] never faults.  It answers [Some(p)] only for the lowest run
    of [page_count] free pages, whose bits it sets, changing no other bit; it answers [None]
    only when there is no such run (or the request is for no pages at all), and then the
    bitmap is unchanged. *)
Theorem alloc_first_fit `{Profile} (self : Bitmap) (page_count : Z) :
  wf self → 0 ≤ page_count →
  (∃ p self', alloc self page_count = Ok (Some p, self')
     ∧ 0 < page_count ∧ hole self p page_count ∧ (∀ q, hole self q page_count → p ≤ q)
     ∧ set_range self self' p page_count true)
  ∨ (alloc self page_count = Ok (None, self)
     ∧ (page_count = 0 ∨ ∀ q, ¬ hole self q page_count)).
Proof.
  intros Hwf Hn. unfold alloc.
  destruct (find_hole_spec self page_count Hwf Hn) as ([p|] & -> & Ho); run.
  - left. destruct Ho as (? & Hhole & Hleast). pose proof Hhole as (? & ? & Hfree).
    destruct (mark_allocated_ok self p page_count) as (self' & -> & Hsr); [done..| |].
    { intros _ i Hi%in_range_spec. by apply Hfree. }
    by exists p, self'.
  - right. split; [done|]. simpl in Ho.
    destruct (Z.eq_dec page_count 0); [by left|right]. apply Ho. lia.
Qed.

Lemma alloc_first_fit_witness :
  alloc (H := dev) sample 2 = Ok (Some 3, {| bitmap := [29; 0] |})
  ∧ hole sample 3 2 ∧ ∀ q, hole sample q 2 → 3 ≤ q.
Proof.
  destruct (alloc_first_fit (H := dev) sample 2 sample_wf ltac:(lia))
    as [(p & b & Ha & _ & Hh & Hq & _)|[Ha _]].
  - assert (alloc (H := dev) sample 2 = Ok (Some 3, {| bitmap := [29; 0] |})) as E
      by (vm_compute; reflexivity).
    rewrite E in Ha. injection Ha as <- <-. auto.
  - vm_compute in Ha. discriminate Ha.
Defined.

(** ** Marking and freeing ranges *)

(** The cases of [outcome], spelt out. *)
Lemma outcome_cases `{Profile} self pn pc v msg r :
  outcome self pn pc v msg r →
  match r with
  | Ok self' => set_range self self' pn pc v
      ∧ (0 < pc → pn + pc ≤ capacity self)
      ∧ (debug_assertions = true → ∀ i, in_range pn pc i = true → bits self i = negb v)
  | Fault f =>
      (f = PanicMsg msg ∧ debug_assertions = true ∧
         ∃ p, in_range pn pc p = true ∧ p < capacity self ∧ bits self p = v)
      ∨ (f = IndexOutOfBounds ∧ capacity self < pn + pc)
  end.
Proof. done. Qed.

(** C23. [Bitmap::mark_allocated] on any range, in either profile: if it returns, every page of
    the range was inside the bitmap, exactly the bits of the range are now set, and in the dev
    profile all of them were clear before; it panics with "double alloc" only in the dev
    profile and only if some page of the range was set, and with an index error only if the
    range leaves the bitmap.  No other outcome is possible; the loops terminate. *)
Theorem mark_allocated_total `{Profile} (self : Bitmap) (page_num page_count : Z) :
  wf self → 0 ≤ page_num → 0 ≤ page_count < 2 ^ 64 →
  match mark_allocated self page_num page_count with
  | Ok self' => set_range self self' page_num page_count true
      ∧ (0 < page_count → page_num + page_count ≤ capacity self)
      ∧ (debug_assertions = true →
           ∀ i, in_range page_num page_count i = true → bits self i = false)
  | Fault f =>
      (f = PanicMsg "double alloc" ∧ debug_assertions = true ∧
         ∃ p, in_range page_num page_count p = true ∧ p < capacity self ∧ bits self p = true)
      ∨ (f = IndexOutOfBounds ∧ capacity self < page_num + page_count)
  end.
Proof.
  intros Hw Hp Hc. pose proof (mark_allocated_outcome self page_num page_count Hw Hp Hc) as Ho.
  by apply outcome_cases in Ho.
Qed.

Lemma mark_allocated_total_witness :
  mark_allocated (H := dev) sample 1 2 = Fault (PanicMsg "double alloc")
  ∧ ∃ p, in_range 1 2 p = true ∧ p < capacity sample ∧ bits sample p = true.
Proof.
  pose proof (mark_allocated_total (H := dev) sample 1 2 sample_wf ltac:(lia) ltac:(lia)) as Hm.
  assert (mark_allocated (H := dev) sample 1 2 = Fault (PanicMsg "double alloc")) as E
    by (vm_compute; reflexivity).
  rewrite E in Hm. split; [exact E|].
  destruct Hm as [(_ & _ & Hp)|[Hx _]]; [exact Hp|discriminate Hx].
Defined.

(** C24. [Bitmap::free], with the same completeness: exactly the bits of the range are cleared;
    "double free" is raised only in the dev profile and only if some page of the range was
    already free. *)
Theorem free_total `{Profile} (self : Bitmap) (page_num page_count : Z) :
  wf self → 0 ≤ page_num → 0 ≤ page_count < 2 ^ 64 →
  match free self page_num page_count with
  | Ok self' => set_range self self' page_num page_count false
      ∧ (0 < page_count → page_num + page_count ≤ capacity self)
      ∧ (debug_assertions = true →
           ∀ i, in_range page_num page_count i = true → bits self i = true)
  | Fault f =>
      (f = PanicMsg "double free" ∧ debug_assertions = true ∧
         ∃ p, in_range page_num page_count p = true ∧ p < capacity self ∧ bits self p = false)
      ∨ (f = IndexOutOfBounds ∧ capacity self < page_num + page_count)
  end.
Proof.
  intros Hw Hp Hc. pose proof (free_outcome self page_num page_count Hw Hp Hc) as Ho.
  by apply outcome_cases in Ho.
Qed.

Lemma free_total_witness :
  free (H := release) sample 2 70 = Ok {| bitmap := [1; 0] |}
  ∧ 2 + 70 ≤ capacity sample.
Proof.
  pose proof (free_total (H := release) sample 2 70 sample_wf ltac:(lia) ltac:(lia)) as Hm.
  assert (free (H := release) sample 2 70 = Ok {| bitmap := [1; 0] |}) as E
    by (vm_compute; reflexivity).
  rewrite E in Hm. split; [exact E|]. destruct Hm as (_ & Hc & _). apply Hc. lia.
Defined.

(** Marking a hole and freeing it again gives back the very same cells, and so does
    freeing a fully allocated range and marking it again. *)
Lemma mark_free_roundtrip `{Profile} (self : Bitmap) (page_num page_count : Z) (v : bool) :
  wf self → 0 ≤ page_num → 0 ≤ page_count → page_num + page_count ≤ capacity self →
  (∀ i, in_range page_num page_count i = true → bits self i = v) →
  (if v then self' ← free self page_num page_count; mark_allocated self' page_num page_count
   else self' ← mark_allocated self page_num page_count; free self' page_num page_count)
  = Ok self.
Proof.
  intros Hwf Hpn Hpc Hcap Hv.
  assert (∀ b1 b2, set_range self b1 page_num page_count (negb v) →
    set_range b1 b2 page_num page_count v → b2 = self) as Hback.
  { intros b1 b2 [W1 C1 B1] [W2 C2 B2]. apply set_range_unique with self page_num page_count v.
    - split; [done|congruence|]. intros i Hi. rewrite B2, B1 by done.
      by destruct (in_range _ _ i).
    - split; [done|done|]. intros i Hi. destruct (in_range _ _ i) eqn:E; [by apply Hv|done]. }
  destruct v.
  - destruct (free_ok self page_num page_count) as (b1 & -> & H1); [done..|auto|]. run.
    destruct (mark_allocated_ok b1 page_num page_count) as (b2 & -> & H2);
      [apply H1|done|done| | |by rewrite (Hback b1 b2)].
    + unfold capacity. by rewrite (sr_cells _ _ _ _ _ H1).
    + intros _ i Hi. rewrite (sr_bits _ _ _ _ _ H1) by (apply in_range_spec in Hi; lia). by rewrite Hi.
  - destruct (mark_allocated_ok self page_num page_count) as (b1 & -> & H1); [done..|auto|]. run.
    destruct (free_ok b1 page_num page_count) as (b2 & -> & H2);
      [apply H1|done|done| | |by rewrite (Hback b1 b2)].
    + unfold capacity. by rewrite (sr_cells _ _ _ _ _ H1).
    + intros _ i Hi. rewrite (sr_bits _ _ _ _ _ H1) by (apply in_range_spec in Hi; lia). by rewrite Hi.
Qed.

Lemma mark_free_roundtrip_witness :
  (self' ← mark_allocated (H := dev) sample 3 100; free (H := dev) self' 3 100) = Ok sample.
Proof.
  apply (mark_free_roundtrip (H := dev) sample 3 100 false sample_wf ltac:(lia) ltac:(lia)).
  - vm_compute. discriminate.
  - intros i Hi%in_range_spec. unfold bits, cbits, sample. cbn [bitmap].
    destruct (decide (i < 64)).
    + replace (i / 64) with 0 by zdiv. replace (i mod 64) with i by zdiv. cbn.
      apply (testbit_small 5 3); lia.
    + replace (i / 64) with 1 by zdiv. apply Z.testbit_0_l.
Defined.

(** ** Moving and clearing ranges *)

Lemma set_range_step self b b' lo n v :
  0 ≤ lo → 0 ≤ n → set_range self b lo n v → set_range b b' (lo + n) 1 v →
  set_range self b' lo (n + 1) v.
Proof.
  intros Hlo Hn [W1 C1 B1] [W2 C2 B2]. split; [done|congruence|].
  intros i Hi. rewrite B2, B1 by done. unfold in_range.
  destruct (Z.leb_spec lo i), (Z.leb_spec (lo + n) i), (Z.ltb_spec i (lo + n)),
    (Z.ltb_spec i (lo + n + 1)), (Z.ltb_spec i (lo + (n + 1))); simpl; done || lia.
Qed.

(** Setting the bits of a range one by one. *)
Lemma set_each_ok self idx count v :
  wf self → 0 ≤ idx → 0 ≤ count → idx + count ≤ capacity self →
  returns (fold_each (seqZ idx count) (λ i b, set b i v) self)
    (λ b, set_range self b idx count v).
Proof.
  intros Hwf Hidx Hc Hcap.
  eapply returns_mono; [apply (fold_range_returns (λ i b, set_range self b idx (i - idx) v))|].
  - done.
  - rewrite Z.sub_diag. split; [done|done|]. intros i _. unfold in_range.
    destruct (Z.leb_spec idx i), (Z.ltb_spec i (idx + 0)); simpl; done || lia.
  - intros i b Hi Hb. destruct (set_ok b i v) as (b' & -> & Hb').
    { apply Hb. }
    { unfold capacity in *. rewrite (sr_cells _ _ _ _ _ Hb). lia. }
    apply returns_ok. replace (i + 1 - idx) with (i - idx + 1) by lia.
    eapply set_range_step; [lia|lia|done|]. by replace (idx + (i - idx)) with i by lia.
  - intros b. by replace (idx + count - idx) with count by lia.
Qed.

(** C30. [zero_bit_range], which clears whole cells at a time and masks the two partial ones,
    computes the same cells as clearing the bits of the range one by one with [set]. *)
Theorem zero_bit_range_reference `{Profile} (self : Bitmap) (idx count : Z) :
  wf self → 0 ≤ idx → 0 ≤ count → idx + count ≤ capacity self →
  zero_bit_range self idx count = fold_each (seqZ idx count) (λ i b, set b i false) self.
Proof.
  intros Hwf Hidx Hc Hcap.
  destruct (zero_bit_range_ok self idx count) as (b1 & -> & H1); [done..|].
  destruct (set_each_ok self idx count false) as (b2 & -> & H2); [done..|].
  f_equal. by apply (set_range_unique self b1 b2 idx count false).
Qed.

Definition full : Bitmap := {| bitmap := [Z.ones 64; Z.ones 64; Z.ones 64] |}.

Lemma full_wf : wf full.
Proof. split; [repeat (apply Forall_cons; split; [split; [done|reflexivity]|]); constructor|done]. Qed.

Lemma zero_bit_range_reference_witness :
  zero_bit_range (H := dev) full 60 80 = Ok {| bitmap := [Z.ones 60; 0; 0xfffffffffffff000] |}
  ∧ fold_each (seqZ 60 80) (λ i b, set b i false) full
      = Ok {| bitmap := [Z.ones 60; 0; 0xfffffffffffff000] |}.
Proof.
  pose proof (zero_bit_range_reference (H := dev) full 60 80 full_wf
    ltac:(lia) ltac:(lia) ltac:(vm_compute; discriminate)) as E.
  rewrite <- E. split; vm_compute; reflexivity.
Defined.

(** C31. [move_bit_range_forward] has the semantics of a memmove, however much the two ranges
    overlap: the destination gets the bits the source had before the call, nothing else
    changes, and moving backwards is refused. *)
Theorem move_bit_range_forward_memmove `{Profile} (self : Bitmap) (src dst count : Z) :
  wf self → 0 ≤ src → 0 ≤ dst → 0 ≤ count → dst + count ≤ capacity self →
  (src ≤ dst → ∃ self', move_bit_range_forward self src dst count = Ok self'
     ∧ wf self' ∧ cells self' = cells self
     ∧ ∀ i, 0 ≤ i →
         bits self' i = if in_range dst count i then bits self (i - dst + src) else bits self i)
  ∧ (dst < src →
       move_bit_range_forward self src dst count = Fault (PanicMsg "src_idx > dst_idx")).
Proof.
  intros Hwf Hs Hd Hc Hcap. split.
  - intros Hle. destruct (move_bit_range_forward_ok self src dst count) as (b & Hb & [Hw Hcs Hbits]);
      [done|lia|done..|]. exists b. auto.
  - intros Hlt. unfold move_bit_range_forward.
    rewrite (proj2 (Z.eqb_neq _ _)) by lia. unfold assert.
    by rewrite (proj2 (Z.leb_gt _ _)) by lia.
Qed.

Lemma move_bit_range_forward_memmove_witness :
  move_bit_range_forward (H := dev) sample 0 1 3 = Ok {| bitmap := [11; 0] |}
  ∧ move_bit_range_forward (H := dev) sample 4 1 3 = Fault (PanicMsg "src_idx > dst_idx").
Proof.
  split.
  - destruct (move_bit_range_forward_memmove (H := dev) sample 0 1 3 sample_wf
      ltac:(lia) ltac:(lia) ltac:(lia) ltac:(vm_compute; discriminate)) as [Hf _].
    destruct (Hf ltac:(lia)) as (b & Hb & _). rewrite Hb. rewrite <- Hb. vm_compute. reflexivity.
  - apply (move_bit_range_forward_memmove (H := dev) sample 4 1 3 sample_wf
      ltac:(lia) ltac:(lia) ltac:(lia) ltac:(vm_compute; discriminate)). lia.
Defined.

(** ** Iteration *)

(** Calling [next] until it answers [None], at most [n] times. *)
Fixpoint drain `{Profile} (n : nat) (it : BitmapIterator) : res (list bool * bool) :=
  match n with
  | O => Ok ([], false)
  | S n =>
      '(o, it) ← next it;
      match o with
      | None => Ok ([], true)
      | Some b => '(bs, fin) ← drain n it; Ok (b :: bs, fin)
      end
  end.

Lemma drain_from `{Profile} self n i :
  wf self → 0 ≤ i → i + Z.of_nat n = capacity self →
  drain (S n) {| it_bitmap := bitmap self; it_idx := i |}
    = Ok (bits self <$> seqZ i (Z.of_nat n), true).
Proof.
  intros Hwf. revert i. induction n as [|n IH]; intros i Hi Hn.
  - cbn [drain]. rewrite next_ok by (done || lia). rewrite (proj2 (Z.ltb_ge _ _)) by lia. done.
  - remember (S n) as k eqn:Ek. cbn [drain].
    rewrite next_ok by (done || lia). rewrite (proj2 (Z.ltb_lt _ _)) by lia. run.
    subst k. rewrite IH by lia. run. by rewrite Nat2Z.inj_succ, (seqZ_cons i), Z.pred_succ, Z.add_1_r by lia.
Qed.

(** [BitmapIterator] yields the bits of all pages in order, once each, and then ends. *)
Lemma iter_enumerates `{Profile} (self : Bitmap) :
  wf self →
  drain (S (Z.to_nat (capacity self))) (iter self)
    = Ok (bits self <$> seqZ 0 (capacity self), true).
Proof.
  intros Hwf. assert (0 ≤ capacity self) by (unfold capacity, cells; lia).
  unfold iter. rewrite drain_from by (done || lia). by rewrite Z2Nat.id.
Qed.

Lemma iter_enumerates_witness :
  drain (H := dev) 129 (iter sample)
    = Ok ([true; false; true] ++ replicate 125 false, true).
Proof.
  pose proof (iter_enumerates (H := dev) sample sample_wf) as E.
  change (S (Z.to_nat (capacity sample))) with 129%nat in E. rewrite E.
  vm_compute. reflexivity.
Defined.
