(* ===== verification/Interrupts.v ===== *)
(** * Interrupt masking and the interrupt-safe mutex (kernel/src/aarch64/interrupts.rs)

    [IrqMutex] protects a global by masking interrupts on the single core: [lock] saves the
    DAIF register and masks IRQs, dropping the guard puts the saved value back.  The file is
    written over any machine state that has a DAIF register. *)

From S2P Require Import Prelude.

Local Open Scope Z_scope.

(** A state with the interrupt mask register of the core. *)
Class HasDaif (S : Type) : Type := {
  DAIF : S → Z;
  set_DAIF : Z → S → S;
  DAIF_set : ∀ x s, DAIF (set_DAIF x s) = x;
  set_DAIF_set : ∀ x y s, set_DAIF x (set_DAIF y s) = set_DAIF x s;
  set_DAIF_id : ∀ s, set_DAIF (DAIF s) s = s;
}.

(** The 4-bit immediates of [msr daifset] and [msr daifclr] name bits 6 to 9 of DAIF. *)
Definition daif_imm (imm : Z) : Z := Z.shiftl imm 6.

(** [IrqGuard]: the saved DAIF value; the mutex it borrows is the state itself. *)
Record IrqGuard : Type := mkGuard { prev_state : Z }.

Section ops.
Context {S : Type} `{HasDaif S}.

Definition enable : M S unit :=
  modify (λ s, set_DAIF (Z.land (DAIF s) (unot (daif_imm 2))) s).

Definition disable : M S unit :=
  modify (λ s, set_DAIF (Z.lor (DAIF s) (daif_imm 2)) s).

(** [IrqMutex::lock]. *)
Definition lock : M S IrqGuard :=
  prev_state ← gets DAIF;
  disable;;
  mret {| prev_state := prev_state |}.

(** [Drop for IrqGuard]. *)
Definition guard_drop (self : IrqGuard) : M S unit := modify (set_DAIF (prev_state self)).

(** What a statement means in Rust whose temporary is a guard: lock, run the statement, and drop the
    guard at its end.  A panic aborts, and leaves the mask as it is. *)
Definition critical {A} (body : M S A) : M S A :=
  guard ← lock;
  a ← body;
  guard_drop guard;;
  mret a.
End ops.

Section facts.
Context {S : Type} `{HasDaif S}.

(** The body runs from the same state but with IRQs masked, and the interrupt state of
    before comes back afterwards, whatever the body did to it. *)
Lemma critical_run {A} (body : M S A) s :
  critical body s =
    match body (set_DAIF (Z.lor (DAIF s) (daif_imm 2)) s) with
    | Ok (a, s') => Ok (a, set_DAIF (DAIF s) s')
    | Fault f => Fault f
    end.
Proof.
  unfold critical, lock, disable, guard_drop, gets, modify, mbind, M_bind, mret, M_ret.
  by destruct (body _) as [[a s']|f].
Qed.

End facts.
