(* ===== verification/Memory.v ===== *)
(** * Physical memory and addresses (kernel/src/page_alloc.rs, [PhyAddr] and [PhySlice])

    The kernel reaches physical memory through two linear maps of the high half of the
    address space, one cacheable ([virt]) and one for devices ([virt_dev]).  Memory itself is
    a finite map from frame numbers to the 512 words of the frame; an access outside it has
    no meaning. *)

From S2P Require Import Prelude.

Local Open Scope Z_scope.

Definition PAGE_SIZE : Z := 4096.

(** ** Addresses *)

(** [PhyAddr(usize)]. *)
Record PhyAddr : Type := mkPhyAddr { pa : Z }.

(** [PhySlice { base, len }]. *)
Record PhySlice : Type := mkPhySlice { base : PhyAddr; slice_len : Z }.

Definition from_virt (addr : Z) : PhyAddr := {| pa := Z.land addr 0x000000ffffffffff |}.

Definition virt (self : PhyAddr) : Z := Z.lor (pa self) 0xffffff0000000000.
Definition virt_mut (self : PhyAddr) : Z := Z.lor (pa self) 0xffffff0000000000.
Definition virt_dev (self : PhyAddr) : Z := Z.lor (pa self) 0xffffff8000000000.
Definition virt_dev_mut (self : PhyAddr) : Z := Z.lor (pa self) 0xffffff8000000000.

(** [PhySlice::virt] and its variants: the start and the length of the byte slice. *)
Definition slice_virt (self : PhySlice) : Z * Z := (virt (base self), slice_len self).
Definition slice_virt_mut (self : PhySlice) : Z * Z := (virt_mut (base self), slice_len self).
Definition slice_virt_dev (self : PhySlice) : Z * Z := (virt_dev (base self), slice_len self).
Definition slice_virt_dev_mut (self : PhySlice) : Z * Z :=
  (virt_dev_mut (base self), slice_len self).

(** ** Frames *)

Abbreviation pmem := (gmap Z (list Z)).

Definition read_word (m : pmem) (addr : Z) : res Z :=
  match m !! (addr / PAGE_SIZE) with
  | Some fr => if addr mod 8 =? 0 then aget fr (addr mod PAGE_SIZE / 8)
               else Fault UndefinedBehaviour
  | None => Fault UndefinedBehaviour
  end.

Definition write_word (m : pmem) (addr v : Z) : res pmem :=
  match m !! (addr / PAGE_SIZE) with
  | Some fr =>
      if addr mod 8 =? 0 then
        fr ← aset fr (addr mod PAGE_SIZE / 8) v;
        Ok (<[addr / PAGE_SIZE := fr]> m)
      else Fault UndefinedBehaviour
  | None => Fault UndefinedBehaviour
  end.

(** The word all of whose bytes are [b]. *)
Definition splat (b : Z) : Z := b * 0x0101010101010101.

(** [core::ptr::write_bytes] on [n] words from the kernel address [addr]. *)
Definition write_bytes (m : pmem) (addr b n : Z) : res pmem :=
  fold_each (seqZ 0 n) (λ i m, write_word m (pa (from_virt addr) + 8 * i) (splat b)) m.

(** ** The linear maps *)

(** The two windows of the high half: [virt] covers the first, [virt_dev] the second. *)
Definition VIRT_BASE : Z := 0xffffff0000000000.
Definition VIRT_DEV_BASE : Z := 0xffffff8000000000.

Lemma from_virt_mod addr : pa (from_virt addr) = addr mod 2 ^ 40.
Proof. simpl. change 0x000000ffffffffff with (Z.ones 40). by rewrite Z.land_ones by lia. Qed.

Lemma virt_add p : 0 ≤ p < 2 ^ 40 → virt {| pa := p |} = VIRT_BASE + p.
Proof. intros Hp. unfold virt. rewrite (lor_disjoint _ _ 40) by done. simpl. unfold VIRT_BASE. lia. Qed.

Lemma virt_dev_add p : 0 ≤ p < 2 ^ 39 → virt_dev {| pa := p |} = VIRT_DEV_BASE + p.
Proof. intros Hp. unfold virt_dev. rewrite (lor_disjoint _ _ 39) by done. simpl. unfold VIRT_DEV_BASE. lia. Qed.

Lemma from_virt_add p : 0 ≤ p < 2 ^ 40 → pa (from_virt (VIRT_BASE + p)) = p.
Proof. intros Hp. rewrite from_virt_mod. unfold VIRT_BASE. zdiv. Qed.

(** ** Word access *)

(** A frame of memory: 512 words. *)
Definition frame_ok (m : pmem) (f : Z) : Prop :=
  ∃ fr, m !! f = Some fr ∧ length fr = 512%nat.

Lemma frame_ok_insert m f fr g : length fr = 512%nat → frame_ok m g → frame_ok (<[f := fr]> m) g.
Proof.
  intros Hl (x & Hx & Hlx). destruct (decide (f = g)) as [->|].
  - exists fr. by rewrite lookup_insert_eq.
  - exists x. by rewrite lookup_insert_ne.
Qed.

Lemma read_word_frame m f fr i :
  m !! f = Some fr → 0 ≤ i < 512 → read_word m (PAGE_SIZE * f + 8 * i) = aget fr i.
Proof.
  intros Hf Hi. unfold read_word, PAGE_SIZE.
  replace ((4096 * f + 8 * i) / 4096) with f by zdiv. rewrite Hf.
  replace ((4096 * f + 8 * i) mod 8) with 0 by zdiv. simpl. f_equal. zdiv.
Qed.

Lemma write_word_frame m f fr i v :
  m !! f = Some fr → 0 ≤ i < Z.of_nat (length fr) → (length fr ≤ 512)%nat →
  write_word m (PAGE_SIZE * f + 8 * i) v = Ok (<[f := <[Z.to_nat i := v]> fr]> m).
Proof.
  intros Hf Hi Hl. unfold write_word, PAGE_SIZE.
  replace ((4096 * f + 8 * i) / 4096) with f by zdiv. rewrite Hf.
  replace ((4096 * f + 8 * i) mod 8) with 0 by zdiv. simpl.
  replace ((4096 * f + 8 * i) mod 4096 / 8) with i by zdiv.
  by rewrite aset_ok by done.
Qed.

(** Filling a frame replaces it and leaves the rest of memory alone. *)
Lemma fill_frame m f v p k :
  frame_ok m f → p + 8 * k = PAGE_SIZE * f →
  fold_each (seqZ k 512) (λ i m, write_word m (p + 8 * i) v) m
    = Ok (<[f := replicate 512 v]> m).
Proof.
  intros (fr & Hf & Hl) Hp. apply returns_eq. eapply returns_mono.
  - apply (fold_range_returns (λ i m',
      m' = <[f := replicate (Z.to_nat (i - k)) v ++ drop (Z.to_nat (i - k)) fr]> m)); [lia| |].
    + rewrite Z.sub_diag. simpl. by rewrite drop_0, insert_id.
    + intros i m' Hi ->.
      replace (p + 8 * i) with (PAGE_SIZE * f + 8 * (i - k)) by lia.
      rewrite (write_word_frame _ f
        (replicate (Z.to_nat (i - k)) v ++ drop (Z.to_nat (i - k)) fr));
        [|by rewrite lookup_insert_eq|rewrite length_app, length_replicate, length_drop; lia..].
      apply returns_ok. rewrite insert_insert_eq. f_equal.
      rewrite insert_app_r_alt by (rewrite length_replicate; lia).
      rewrite length_replicate, Nat.sub_diag.
      destruct (lookup_lt_is_Some_2 fr (Z.to_nat (i - k))) as [x Hx]; [lia|].
      rewrite (drop_S fr x) by done. replace (Z.to_nat (i + 1 - k)) with (S (Z.to_nat (i - k))) by lia.
      by rewrite replicate_S_end, <- app_assoc.
  - cbv beta. intros m' ->. replace (k + 512 - k) with 512 by lia.
    rewrite drop_ge, app_nil_r by lia. done.
Qed.

(** [m'] is [m] with the frames [f <= g < f + n] filled with [v]. *)
Record filled (m m' : pmem) (f n v : Z) : Prop := {
  fl_in : ∀ g, f ≤ g < f + n → m' !! g = Some (replicate 512 v);
  fl_out : ∀ g, ¬ (f ≤ g < f + n) → m' !! g = m !! g;
}.

Lemma filled_refl m f v : filled m m f 0 v.
Proof. split; [intros; lia|done]. Qed.

Lemma filled_frame_ok m m' f n v g : filled m m' f n v → frame_ok m g → frame_ok m' g.
Proof.
  intros [Hin Hout] (fr & Hg & Hl). destruct (decide (f ≤ g < f + n)).
  - exists (replicate 512 v). split; [by apply Hin|apply length_replicate].
  - exists fr. by rewrite Hout.
Qed.

Lemma filled_snoc m m' f n v :
  0 ≤ n → filled m m' f n v → filled m (<[f + n := replicate 512 v]> m') f (n + 1) v.
Proof.
  intros Hn [Hin Hout]. split; intros g Hg.
  - destruct (decide (g = f + n)) as [->|]; [by rewrite lookup_insert_eq|].
    rewrite lookup_insert_ne by done. apply Hin. lia.
  - rewrite lookup_insert_ne by lia. apply Hout. lia.
Qed.

(** Filling [n] whole frames. *)
Lemma write_bytes_ok m addr b f n :
  0 ≤ n → pa (from_virt addr) = PAGE_SIZE * f →
  (∀ g, f ≤ g < f + n → frame_ok m g) →
  returns (write_bytes m addr b (512 * n)) (λ m', filled m m' f n (splat b)).
Proof.
  intros Hn Hpa. unfold write_bytes. rewrite Hpa.
  pattern n; apply natlike_ind; [| |done]; clear n Hn.
  - intros _. apply returns_ok, filled_refl.
  - intros n Hn IH Hok. replace (512 * Z.succ n) with (512 * n + 512) by lia.
    rewrite seqZ_app, fold_each_app by lia.
    eapply returns_bind; [apply IH; intros; apply Hok; lia|].
    intros m' Hm'. rewrite (fill_frame m' (f + n)).
    + apply returns_ok. unfold Z.succ. by apply filled_snoc.
    + eapply filled_frame_ok; [exact Hm'|]. apply Hok. lia.
    + unfold PAGE_SIZE. lia.
Qed.

(** Writes never remove or resize a frame. *)
Lemma write_word_frame_ok m addr v m' g :
  write_word m addr v = Ok m' → frame_ok m g → frame_ok m' g.
Proof.
  unfold write_word. intros Hw (fr & Hg & Hl).
  destruct (m !! (addr / PAGE_SIZE)) as [fr'|] eqn:Hf; [|done].
  destruct (addr mod 8 =? 0); [|done].
  apply res_bind_inv in Hw as (fr'' & Hs & [= <-]).
  destruct (decide (addr / PAGE_SIZE = g)) as [<-|Hne].
  - exists fr''. rewrite lookup_insert_eq. split; [done|].
    unfold aset in Hs. destruct (fr' !! _); simplify_eq. by rewrite length_insert.
  - exists fr. by rewrite lookup_insert_ne.
Qed.

Lemma write_bytes_frame_ok m addr b n m' g :
  write_bytes m addr b n = Ok m' → frame_ok m g → frame_ok m' g.
Proof.
  unfold write_bytes. generalize (seqZ 0 n). intros l. revert m.
  induction l as [|i l IH]; simpl; intros m Hw Hg; [by simplify_eq|].
  apply res_bind_inv in Hw as (m1 & Hw1 & Hw). eapply IH; [done|].
  by eapply write_word_frame_ok.
Qed.
