(* ===== verification/PageAlloc.v ===== *)
(** * The page allocator (kernel/src/page_alloc.rs, [BitmapPageAlloc] and [PageSlice])

    The bitmap together with the kernel address of the page its bit 0 stands for. *)

From S2P Require Import Prelude.
From S2P Require Bitmap.
From S2P Require Import Memory.

Local Open Scope Z_scope.

Record BitmapPageAlloc : Type := mkAlloc { bitmap_alloc : Bitmap.Bitmap; ram_base : Z }.

(** [PageSlice { buf, len }]: a run of pages by kernel address and length in bytes. *)
Record PageSlice : Type := mkSlice { buf : Z; len : Z }.

Definition new (SIZE : nat) (ram_base : Z) : BitmapPageAlloc :=
  {| bitmap_alloc := Bitmap.new SIZE; ram_base := ram_base |}.

(** The accessors of [PageSlice]; a slice of bytes is its address and its length. *)
Definition as_ptr (self : PageSlice) : Z := buf self.
Definition as_mut_ptr (self : PageSlice) : Z := buf self.
Definition as_slice (self : PageSlice) : Z * Z := (as_ptr self, len self).
Definition as_mut_slice (self : PageSlice) : Z * Z := (as_mut_ptr self, len self).
Definition slice_len (self : PageSlice) : Z := len self.

(** [PageSlice::zero]. *)
Definition slice_zero (m : pmem) (self : PageSlice) : res pmem :=
  write_bytes m (as_ptr self) 0 (PAGE_SIZE / 8).

Section ops.
Context `{Profile}.

Definition alloc (self : BitmapPageAlloc) (page_count : Z)
    : res (option PageSlice * BitmapPageAlloc) :=
  '(o, bm) ← Bitmap.alloc (bitmap_alloc self) page_count;
  let self := {| bitmap_alloc := bm; ram_base := ram_base self |} in
  match o with
  | Some page_num =>
      off ← umul page_num PAGE_SIZE;
      addr ← uadd (ram_base self) off;
      len ← umul page_count PAGE_SIZE;
      Ok (Some {| buf := addr; len := len |}, self)
  | None => Ok (None, self)
  end.

Definition alloc_zeroed (m : pmem) (self : BitmapPageAlloc) (page_count : Z)
    : res (option PageSlice * BitmapPageAlloc * pmem) :=
  '(slice, self) ← alloc self page_count;
  match slice with
  | Some sl => m ← slice_zero m sl; Ok (slice, self, m)
  | None => Ok (slice, self, m)
  end.

(** The three [debug_assert!]s of [mark_allocated] and [free]. *)
Definition check_range (self : BitmapPageAlloc) (addr page_count : Z) : res unit :=
  debug_assert (addr mod PAGE_SIZE =? 0) "addr must be page-aligned";;
  debug_assert (ram_base self <=? addr) "addr was before RAM";;
  if debug_assertions then
    bytes ← umul page_count PAGE_SIZE;
    stop ← uadd addr bytes;
    cap ← Bitmap.bit_capacity (bitmap_alloc self);
    ram_len ← umul cap PAGE_SIZE;
    ram_end ← uadd (ram_base self) ram_len;
    assert (stop <=? ram_end) "(addr + count) was after RAM"
  else Ok tt.

Definition mark_allocated (self : BitmapPageAlloc) (addr page_count : Z) : res BitmapPageAlloc :=
  check_range self addr page_count;;
  off ← usub addr (ram_base self);
  bm ← Bitmap.mark_allocated (bitmap_alloc self) (off / 4096) page_count;
  Ok {| bitmap_alloc := bm; ram_base := ram_base self |}.

Definition free (self : BitmapPageAlloc) (addr page_count : Z) : res BitmapPageAlloc :=
  check_range self addr page_count;;
  off ← usub addr (ram_base self);
  bm ← Bitmap.free (bitmap_alloc self) (off / 4096) page_count;
  Ok {| bitmap_alloc := bm; ram_base := ram_base self |}.

(** [Drop for PageSlice], given the allocator behind [PAGE_ALLOC]. *)
Definition slice_drop (m : pmem) (self : BitmapPageAlloc) (sl : PageSlice)
    : res (BitmapPageAlloc * pmem) :=
  m ← (if debug_assertions then write_bytes m (buf sl) 0xa1 (len sl / 8) else Ok m);
  self ← free self (buf sl) (len sl / 4096);
  Ok (self, m).

(** One round of the loop of [overwrite_free_pages]: the iterator, the index of
    [enumerate], [counter], and the memory. *)
Definition overwrite_step (self : BitmapPageAlloc)
    '((it, i, counter, m, fin) : Bitmap.BitmapIterator * Z * Z * pmem * bool)
    : res (Bitmap.BitmapIterator * Z * Z * pmem * bool) :=
  '(o, it) ← Bitmap.next it;
  match o with
  | None => Ok (it, i, counter, m, true)
  | Some bit =>
      if (bit : bool) then i' ← uadd i 1; Ok (it, i', counter, m, false)
      else
        off ← umul i PAGE_SIZE;
        addr ← uadd (ram_base self) off;
        m ← write_bytes m addr 0xb4 (PAGE_SIZE / 8);
        counter ← iadd32 counter 1;
        i' ← uadd i 1;
        Ok (it, i', counter, m, false)
  end.

Definition overwrite_free_pages (m : pmem) (self : BitmapPageAlloc) : res pmem :=
  '(_, _, _, m, _) ←
    while (λ '(_, _, _, _, fin), negb (fin : bool)) (overwrite_step self)
      (Bitmap.iter (bitmap_alloc self), 0, 0, m, false);
  Ok m.

Definition rebase (self : BitmapPageAlloc) (new_base : Z) : BitmapPageAlloc :=
  {| bitmap_alloc := bitmap_alloc self; ram_base := new_base |}.

Definition expand_to (self : BitmapPageAlloc) (new_base new_len prev_len : Z)
    : res BitmapPageAlloc :=
  assert (ram_base self mod PAGE_SIZE =? 0) "ram_base is not aligned";;
  assert (new_base mod PAGE_SIZE =? 0) "new_base is not aligned";;
  assert (new_len mod PAGE_SIZE =? 0) "new_len is not aligned";;
  assert (prev_len mod PAGE_SIZE =? 0) "prev_len is not aligned";;
  assert (new_base <=? ram_base self) "new ram region must contain old ram region";;
  new_end ← uadd new_base new_len;
  old_end ← uadd (ram_base self) prev_len;
  assert (old_end <=? new_end) "new ram region must contain old ram region";;
  addr_delta ← usub (ram_base self) new_base;
  bm ← Bitmap.move_bit_range_forward (bitmap_alloc self) 0
         (addr_delta / PAGE_SIZE) (prev_len / PAGE_SIZE);
  bm ← Bitmap.zero_bit_range bm 0 (addr_delta / PAGE_SIZE);
  stop ← uadd addr_delta prev_len;
  rest ← usub new_len prev_len;
  rest ← usub rest addr_delta;
  bm ← Bitmap.zero_bit_range bm (stop / PAGE_SIZE) (rest / PAGE_SIZE);
  Ok (rebase {| bitmap_alloc := bm; ram_base := ram_base self |} new_base).
End ops.

(** ** The allocator's invariant *)

Definition capacity (self : BitmapPageAlloc) : Z := Bitmap.capacity (bitmap_alloc self).

(** Whether page [i] (counted from [ram_base]) is allocated. *)
Definition used (self : BitmapPageAlloc) (i : Z) : bool := Bitmap.bits (bitmap_alloc self) i.

Definition page_addr (self : BitmapPageAlloc) (i : Z) : Z := ram_base self + PAGE_SIZE * i.

(** A sound bitmap, an aligned base, and an end of RAM that is a [usize]. *)
Record wf (self : BitmapPageAlloc) : Prop := {
  wf_bitmap : Bitmap.wf (bitmap_alloc self);
  wf_aligned : ram_base self mod PAGE_SIZE = 0;
  wf_base : 0 ≤ ram_base self;
  wf_end : page_addr self (capacity self) < 2 ^ 64;
}.

(** [self'] is [self] with the pages [lo <= i < lo + n] set to [v]. *)
Record set_pages (self self' : BitmapPageAlloc) (lo n : Z) (v : bool) : Prop := {
  sp_wf : wf self';
  sp_base : ram_base self' = ram_base self;
  sp_capacity : capacity self' = capacity self;
  sp_used : ∀ i, 0 ≤ i → used self' i = if Bitmap.in_range lo n i then v else used self i;
}.

Lemma set_pages_intro self bm' lo n v :
  wf self → Bitmap.set_range (bitmap_alloc self) bm' lo n v →
  set_pages self {| bitmap_alloc := bm'; ram_base := ram_base self |} lo n v.
Proof.
  intros [Hbm Hal Hb Hend] [Hwf Hc Hbits].
  assert (Bitmap.capacity bm' = Bitmap.capacity (bitmap_alloc self)) as Hcap
    by (unfold Bitmap.capacity; lia).
  split; [|done|done|done]. split; simpl; [done|done|done|].
  unfold page_addr, capacity in *. simpl. by rewrite Hcap.
Qed.

Ltac u64 := unfold is_u64, page_addr, PAGE_SIZE, capacity, Bitmap.capacity in *; lia.

(** Unfolds what [wf] says about the numbers involved. *)
Ltac wf_facts H :=
  pose proof (Bitmap.wf_capacity _ (wf_bitmap _ H)); pose proof (wf_base _ H);
  pose proof (wf_end _ H).

Section lemmas.
Context `{Profile}.

Lemma check_range_ok self i n :
  wf self → 0 ≤ i → 0 ≤ n → i + n ≤ capacity self →
  check_range self (page_addr self i) n = Ok tt.
Proof.
  intros Hwf Hi Hn Hcap. wf_facts Hwf.
  unfold check_range, debug_assert, assert.
  destruct debug_assertions; [|done].
  assert (page_addr self i mod PAGE_SIZE = 0) as ->.
  { pose proof (wf_aligned _ Hwf). unfold page_addr, PAGE_SIZE in *. zdiv. }
  simpl. rewrite (proj2 (Z.leb_le _ _)) by u64. simpl.
  unfold Bitmap.bit_capacity. arith_ok u64.
  rewrite (proj2 (Z.leb_le _ _)); [done|]. u64.
Qed.

Lemma page_offset self i :
  wf self → 0 ≤ i ≤ capacity self →
  ∃ off, usub (page_addr self i) (ram_base self) = Ok off ∧ off / 4096 = i.
Proof.
  intros Hwf Hi. wf_facts Hwf.
  exists (PAGE_SIZE * i). rewrite usub_ok by u64. split; [f_equal; u64|].
  unfold PAGE_SIZE. zdiv.
Qed.

Lemma mark_pages_ok self i n :
  wf self → 0 ≤ i → 0 ≤ n → i + n ≤ capacity self →
  (debug_assertions = true → ∀ j, Bitmap.in_range i n j = true → used self j = false) →
  ∃ self', mark_allocated self (page_addr self i) n = Ok self' ∧ set_pages self self' i n true.
Proof.
  intros Hwf Hi Hn Hcap Hd. unfold mark_allocated. rewrite check_range_ok by done. run.
  destruct (page_offset self i Hwf) as (off & -> & Hoff); [lia|]. run. rewrite Hoff.
  destruct (Bitmap.mark_allocated_ok (bitmap_alloc self) i n) as (bm' & -> & Hsr);
    [apply Hwf|done..|]. run.
  eexists. split; [done|]. by apply set_pages_intro.
Qed.

Lemma free_pages_ok self i n :
  wf self → 0 ≤ i → 0 ≤ n → i + n ≤ capacity self →
  (debug_assertions = true → ∀ j, Bitmap.in_range i n j = true → used self j = true) →
  ∃ self', free self (page_addr self i) n = Ok self' ∧ set_pages self self' i n false.
Proof.
  intros Hwf Hi Hn Hcap Hd. unfold free. rewrite check_range_ok by done. run.
  destruct (page_offset self i Hwf) as (off & -> & Hoff); [lia|]. run. rewrite Hoff.
  destruct (Bitmap.free_ok (bitmap_alloc self) i n) as (bm' & -> & Hsr);
    [apply Hwf|done..|]. run.
  eexists. split; [done|]. by apply set_pages_intro.
Qed.

(** [n] consecutive free pages from page [i] on. *)
Definition hole (self : BitmapPageAlloc) (i n : Z) : Prop :=
  Bitmap.hole (bitmap_alloc self) i n.

(** The two outcomes of an allocation, neither of them a fault: the lowest hole, now
    marked, or nothing because no hole is large enough. *)
Lemma alloc_ok self n :
  wf self → 0 ≤ n →
  (∃ i self', alloc self n = Ok (Some {| buf := page_addr self i; len := PAGE_SIZE * n |}, self')
     ∧ 0 < n ∧ hole self i n ∧ (∀ j, hole self j n → i ≤ j) ∧ set_pages self self' i n true)
  ∨ (alloc self n = Ok (None, self) ∧ (0 < n → ∀ j, ¬ hole self j n)).
Proof.
  intros Hwf Hn. wf_facts Hwf. unfold alloc, Bitmap.alloc.
  destruct (Bitmap.find_hole_spec (bitmap_alloc self) n) as ([p|] & -> & Ho);
    [apply Hwf|done| |]; run.
  - left. destruct Ho as (? & Hhole & Hleast). pose proof Hhole as (? & ? & Hfree).
    destruct (Bitmap.mark_allocated_ok (bitmap_alloc self) p n) as (bm' & -> & Hsr);
      [apply Hwf|done..| |].
    { intros _ i Hi%Bitmap.in_range_spec. by apply Hfree. }
    run. simpl ram_base. arith_ok u64. 
    exists p, {| bitmap_alloc := bm'; ram_base := ram_base self |}. split.
    { unfold page_addr. by rewrite !(Z.mul_comm PAGE_SIZE). }
    split; [done|]. split; [done|]. split; [done|]. by apply set_pages_intro.
  - right. split; [by destruct self|done].
Qed.
End lemmas.

(** ** Growing the managed region *)

(** [self'] manages [nl] pages from [d] pages below the old base: the first [pl] old pages
    keep their state at their address, every other page of the new region is free. *)
Record expanded (self self' : BitmapPageAlloc) (d nl pl : Z) : Prop := {
  ex_wf : wf self';
  ex_base : ram_base self = ram_base self' + PAGE_SIZE * d;
  ex_capacity : capacity self' = capacity self;
  ex_old : ∀ i, 0 ≤ i < pl → used self' (d + i) = used self i;
  ex_new : ∀ i, 0 ≤ i < nl → ¬ (d ≤ i < d + pl) → used self' i = false;
  ex_rest : ∀ i, nl ≤ i → used self' i = used self i;
}.

Lemma expand_to_ok `{Profile} self new_base d nl pl :
  wf self → 0 ≤ new_base → ram_base self = new_base + PAGE_SIZE * d →
  0 ≤ d → 0 ≤ pl → d + pl ≤ nl ≤ capacity self →
  ∃ self', expand_to self new_base (PAGE_SIZE * nl) (PAGE_SIZE * pl) = Ok self'
    ∧ ram_base self' = new_base ∧ expanded self self' d nl pl.
Proof.
  intros Hwf Hnb Hbase Hd Hpl Hnl. wf_facts Hwf. pose proof (wf_aligned _ Hwf) as Hal.
  assert (∀ x, PAGE_SIZE * x mod PAGE_SIZE = 0) as Hm
    by (intros x; rewrite Z.mul_comm; by apply Z_mod_mult).
  assert (∀ x, PAGE_SIZE * x / PAGE_SIZE = x) as Hq
    by (intros x; rewrite Z.mul_comm; by apply Z_div_mult).
  assert (new_base mod PAGE_SIZE = 0) as Hnal.
  { rewrite Hbase in Hal. by rewrite (Z.mul_comm PAGE_SIZE), Z_mod_plus_full in Hal. }
  unfold expand_to, assert. rewrite Hal, Hnal, !Hm.
  rewrite (proj2 (Z.leb_le new_base _)) by u64. simpl Z.eqb. run.
  do 2 arith1 u64.
  rewrite (proj2 (Z.leb_le (ram_base self + _) _)) by u64. run.
  rewrite (usub_ok (ram_base self)) by u64. run. replace (ram_base self - new_base) with (PAGE_SIZE * d) by u64.
  rewrite !Hq. pose proof (wf_bitmap _ Hwf) as Hbm.
  destruct (Bitmap.move_bit_range_forward_ok (bitmap_alloc self) 0 d pl)
    as (b1 & -> & [Hw1 Hc1 Hb1]); [done|lia|lia|u64|]. run.
  destruct (Bitmap.zero_bit_range_ok b1 0 d) as (b2 & -> & [Hw2 Hc2 Hb2]);
    [done|lia|lia|u64|]. run.
  arith_ok u64.
  replace (PAGE_SIZE * d + PAGE_SIZE * pl) with (PAGE_SIZE * (d + pl)) by lia.
  replace (PAGE_SIZE * nl - PAGE_SIZE * pl - PAGE_SIZE * d) with (PAGE_SIZE * (nl - pl - d)) by lia.
  rewrite !Hq.
  destruct (Bitmap.zero_bit_range_ok b2 (d + pl) (nl - pl - d)) as (b3 & -> & [Hw3 Hc3 Hb3]);
    [done|lia|lia|u64|]. run.
  exists {| bitmap_alloc := b3; ram_base := new_base |}. split; [done|]. split; [done|].
  assert (∀ i, 0 ≤ i → Bitmap.bits b3 i =
    if Bitmap.in_range (d + pl) (nl - pl - d) i then false
    else if Bitmap.in_range 0 d i then false
    else if Bitmap.in_range d pl i then Bitmap.bits (bitmap_alloc self) (i - d + 0)
    else Bitmap.bits (bitmap_alloc self) i) as Hb.
  { intros i Hi. by rewrite Hb3, Hb2, Hb1 by done. }
  unfold Bitmap.in_range in Hb.
  split; unfold used; simpl.
  - split; [done|done|done|]. unfold page_addr, capacity. cbn [ram_base bitmap_alloc]. u64.
  - done.
  - unfold capacity, Bitmap.capacity. simpl. lia.
  - intros i Hi. rewrite Hb by lia.
    rewrite (proj2 (Z.leb_gt (d + pl) _)), (proj2 (Z.ltb_ge _ (0 + d))), (proj2 (Z.leb_le d _)),
      (proj2 (Z.ltb_lt (d + i) (d + pl))), andb_false_r by lia. simpl. f_equal. lia.
  - intros i Hi Hout. rewrite Hb by lia.
    destruct (Z.leb_spec (d + pl) i); [by rewrite (proj2 (Z.ltb_lt _ _)) by lia|].
    by rewrite (proj2 (Z.leb_le 0 i)), (proj2 (Z.ltb_lt i (0 + d))) by lia.
  - intros i Hi. rewrite Hb by lia.
    rewrite (proj2 (Z.ltb_ge i (d + pl + _))), (proj2 (Z.ltb_ge i (0 + d))),
      (proj2 (Z.ltb_ge i (d + pl))), !andb_false_r by lia. done.
Qed.

(** ** Pages and memory *)

(** The frame behind page [i] of the allocator. *)
Definition frame_of (self : BitmapPageAlloc) (i : Z) : Z :=
  (ram_base self - VIRT_BASE) / PAGE_SIZE + i.

(** The managed pages lie in the cacheable window of the kernel's address space. *)
Record window (self : BitmapPageAlloc) : Prop := {
  win_lo : VIRT_BASE ≤ ram_base self;
  win_hi : page_addr self (capacity self) ≤ VIRT_BASE + 2 ^ 39;
}.

Lemma page_frame self i :
  wf self → window self → 0 ≤ i < capacity self →
  pa (from_virt (page_addr self i)) = PAGE_SIZE * frame_of self i.
Proof.
  intros Hwf [Hlo Hhi] Hi. pose proof (wf_aligned _ Hwf).
  replace (page_addr self i) with (VIRT_BASE + (page_addr self i - VIRT_BASE)) by lia.
  rewrite from_virt_add by (unfold page_addr, PAGE_SIZE in *; lia).
  unfold frame_of, page_addr, PAGE_SIZE, VIRT_BASE in *. zdiv.
Qed.

Section memory.
Context `{Profile}.

(** [write_bytes] of one page's worth of words. *)
Lemma write_page_ok m self i b :
  wf self → window self → 0 ≤ i < capacity self → frame_ok m (frame_of self i) →
  write_bytes m (page_addr self i) b (PAGE_SIZE / 8)
    = Ok (<[frame_of self i := replicate 512 (splat b)]> m).
Proof.
  intros Hwf Hwin Hi Hfr. unfold write_bytes. change (PAGE_SIZE / 8) with 512.
  rewrite page_frame by done. apply fill_frame; [done|lia].
Qed.

Lemma slice_drop_ok m self i n :
  wf self → window self → 0 ≤ i → 0 < n → i + n ≤ capacity self →
  (∀ j, Bitmap.in_range i n j = true → used self j = true) →
  (∀ j, Bitmap.in_range i n j = true → frame_ok m (frame_of self j)) →
  ∃ self' m', slice_drop m self {| buf := page_addr self i; len := PAGE_SIZE * n |}
      = Ok (self', m') ∧ set_pages self self' i n false
    ∧ if debug_assertions then filled m m' (frame_of self i) n (splat 0xa1) else m' = m.
Proof.
  intros Hwf Hwin Hi Hn Hcap Hused Hfr. unfold slice_drop. cbn [buf len].
  replace (PAGE_SIZE * n / 8) with (512 * n) by (unfold PAGE_SIZE; zdiv).
  replace (PAGE_SIZE * n / 4096) with n by (unfold PAGE_SIZE; zdiv).
  destruct (free_pages_ok self i n Hwf Hi ltac:(lia) Hcap (λ _, Hused)) as (self' & Hfree & Hsp).
  destruct debug_assertions eqn:Hd; last first.
  { run. rewrite Hfree. run. by exists self', m. }
  destruct (write_bytes_ok m (page_addr self i) 0xa1 (frame_of self i) n)
    as (m' & -> & Hm'); [lia|apply page_frame; [done..|lia]| |].
  - intros g Hg. replace g with (frame_of self (g - frame_of self 0)) by (unfold frame_of; lia).
    apply Hfr, Bitmap.in_range_spec. unfold frame_of in *. lia.
  - run. rewrite Hfree. run. by exists self', m'.
Qed.

(** Before page [i] is visited, exactly the free pages below it have been overwritten. *)
Definition overwritten (m : pmem) (self : BitmapPageAlloc) (i : Z) (m' : pmem) : Prop :=
  ∀ g, m' !! g =
    if (frame_of self 0 <=? g) && (g <? frame_of self i) && negb (used self (g - frame_of self 0))
    then Some (replicate 512 (splat 0xb4)) else m !! g.

Lemma overwritten_used m self i m' :
  used self i = true → overwritten m self i m' → overwritten m self (i + 1) m'.
Proof.
  intros Hu Hm g. rewrite Hm. destruct (decide (g = frame_of self i)) as [->|Hne].
  - replace (frame_of self i - frame_of self 0) with i by (unfold frame_of; lia).
    by rewrite Hu, !andb_false_r.
  - by replace (g <? frame_of self (i + 1)) with (g <? frame_of self i)
      by (unfold frame_of in *; lia).
Qed.

Lemma overwritten_free m self i m' :
  0 ≤ i → used self i = false → overwritten m self i m' →
  overwritten m self (i + 1) (<[frame_of self i := replicate 512 (splat 0xb4)]> m').
Proof.
  intros Hi Hu Hm g. destruct (decide (g = frame_of self i)) as [->|Hne].
  - rewrite lookup_insert_eq. replace (frame_of self i - frame_of self 0) with i
      by (unfold frame_of; lia).
    rewrite Hu. unfold frame_of.
    by rewrite (proj2 (Z.leb_le _ _)), (proj2 (Z.ltb_lt _ _)) by lia.
  - rewrite lookup_insert_ne by done. rewrite Hm.
    by replace (g <? frame_of self (i + 1)) with (g <? frame_of self i)
      by (unfold frame_of in *; lia).
Qed.

Lemma overwrite_free_pages_ok m self :
  wf self → window self → capacity self < 2 ^ 31 →
  (∀ i, 0 ≤ i < capacity self → used self i = false → frame_ok m (frame_of self i)) →
  returns (overwrite_free_pages m self) (overwritten m self (capacity self)).
Proof.
  intros Hwf Hwin Hcap Hfr. wf_facts Hwf. unfold overwrite_free_pages.
  apply returns_bind with (λ '(_, _, _, m', _), overwritten m self (capacity self) m');
    [|intros [[[[it i] c] m'] fin] Hm'; by apply returns_ok].
  apply while_returns with
    (Inv := λ '(it, i, c, m', fin),
       it = {| Bitmap.it_bitmap := Bitmap.bitmap (bitmap_alloc self); Bitmap.it_idx := i |}
       ∧ 0 ≤ c ≤ i ∧ i ≤ capacity self ∧ overwritten m self i m'
       ∧ (fin = true → i = capacity self))
    (m := λ '(it, i, c, m', fin), capacity self - i + (if (fin : bool) then 0 else 1)).
  - split; [done|]. unfold capacity, Bitmap.capacity, Bitmap.cells. split; [lia|].
    split; [lia|]. split; [|done]. intros g.
    by destruct (Z.leb_spec (frame_of self 0) g), (Z.ltb_spec g (frame_of self 0)); try lia.
  - u64.
  - intros [[[[it i] c] m'] fin] (-> & Hc & Hi & Hm' & Hfin) Hf.
    destruct fin; [done|]. unfold overwrite_step.
    rewrite Bitmap.next_ok by (apply Hwf || unfold capacity in *; lia). run.
    destruct (Z.ltb_spec i (Bitmap.capacity (bitmap_alloc self))); last first.
    { run. apply returns_ok. unfold capacity in *. split; [|lia].
      split; [done|]. split; [lia|]. split; [lia|]. split; [done|]. lia. }
    run. fold (used self i). destruct (used self i) eqn:Hu.
    + arith_ok u64. apply returns_ok. split; [|u64]. split; [done|]. split; [lia|].
      split; [unfold capacity; lia|]. split; [by apply overwritten_used|done].
    + rewrite (umul_ok i) by u64. run. rewrite (uadd_ok (ram_base self)) by u64. run.
      replace (ram_base self + i * PAGE_SIZE) with (page_addr self i)
        by (unfold page_addr; lia).
      assert (frame_ok m' (frame_of self i)) as Hok.
      { destruct (Hfr i) as (fr & Hfr' & ?); [u64|done|]. exists fr. split; [|done].
        rewrite Hm'. unfold frame_of in *.
        by rewrite (proj2 (Z.ltb_ge _ _)), andb_false_r by lia. }
      rewrite write_page_ok by (done || unfold capacity; lia). run.
      unfold iadd32. rewrite (proj2 (Z.leb_le _ _)), (proj2 (Z.ltb_lt _ _)) by u64. run.
      arith_ok u64. apply returns_ok. split; [|u64]. split; [done|]. split; [lia|].
      split; [unfold capacity; lia|]. split; [apply overwritten_free; [lia|done|done]|done].
  - intros [[[[it i] c] m'] fin] (-> & Hc & Hi & Hm' & Hfin) Hf.
    destruct fin; [|done]. by rewrite <- Hfin.
Qed.
End memory.
