(* ===== verification/Ownership.v ===== *)
(** * Lifetimes of page slices (kernel/src/page_alloc.rs)

    A [PageSlice] owns the pages it was allocated with until it is dropped.  The file runs
    the allocator's operations as a transition system over the allocator, the memory and the
    slices that are alive, and shows what ownership relies on: live slices never overlap, and
    neither allocating nor dropping can fault. *)

From Stdlib Require Import List.
From S2P Require Import Prelude.
From S2P Require Bitmap.
From S2P Require Import Memory PageAlloc.

Local Open Scope Z_scope.

Record heap : Type := mkHeap { allocator : BitmapPageAlloc; memory : pmem; live : list PageSlice }.

Section steps.
Context `{Profile}.

(** What code holding slices can do: allocate (plain or zeroed), drop a slice, or give up
    ownership without freeing ([mem::forget], [PageBox::leak]). *)
Inductive step : heap → heap → Prop :=
| step_alloc a m l n sl a' :
    0 ≤ n → alloc a n = Ok (Some sl, a') →
    step (mkHeap a m l) (mkHeap a' m (sl :: l))
| step_alloc_none a m l n a' :
    0 ≤ n → alloc a n = Ok (None, a') →
    step (mkHeap a m l) (mkHeap a' m l)
| step_alloc_zeroed a m l n sl a' m' :
    0 ≤ n → alloc_zeroed m a n = Ok (Some sl, a', m') →
    step (mkHeap a m l) (mkHeap a' m' (sl :: l))
| step_drop a m l1 sl l2 a' m' :
    slice_drop m a sl = Ok (a', m') →
    step (mkHeap a m (l1 ++ sl :: l2)) (mkHeap a' m' (l1 ++ l2))
| step_forget a m l1 sl l2 :
    step (mkHeap a m (l1 ++ sl :: l2)) (mkHeap a m (l1 ++ l2)).
End steps.

(** ** The invariant *)

Definition disjoint_slices (s t : PageSlice) : Prop :=
  buf s + len s ≤ buf t ∨ buf t + len t ≤ buf s.

(** A slice whose pages are managed, marked as allocated, and backed by memory. *)
Definition live_ok (a : BitmapPageAlloc) (m : pmem) (sl : PageSlice) : Prop :=
  ∃ i n, 0 ≤ i ∧ 0 < n ∧ i + n ≤ capacity a
    ∧ sl = {| buf := page_addr a i; len := PAGE_SIZE * n |}
    ∧ ∀ j, Bitmap.in_range i n j = true → used a j = true ∧ frame_ok m (frame_of a j).

Record inv (h : heap) : Prop := {
  inv_wf : wf (allocator h);
  inv_window : window (allocator h);
  inv_backed : ∀ i, 0 ≤ i < capacity (allocator h) → used (allocator h) i = false →
    frame_ok (memory h) (frame_of (allocator h) i);
  inv_live : Forall (live_ok (allocator h) (memory h)) (live h);
  inv_disjoint : ForallOrdPairs disjoint_slices (live h);
}.

Lemma ordpairs_delete {A} (R : A → A → Prop) l1 x l2 :
  ForallOrdPairs R (l1 ++ x :: l2) → ForallOrdPairs R (l1 ++ l2).
Proof.
  induction l1 as [|y l1 IH]; simpl; inversion_clear 1 as [|?? Hy Hl]; [done|].
  constructor; [|by apply IH].
  apply Forall_app in Hy as [? Hy]. apply Forall_app. by inversion_clear Hy.
Qed.

Lemma ordpairs_other {A} (R : A → A → Prop) l1 x l2 :
  (∀ a b, R a b → R b a) → ForallOrdPairs R (l1 ++ x :: l2) → Forall (R x) (l1 ++ l2).
Proof.
  intros Hsym. induction l1 as [|y l1 IH]; simpl; inversion_clear 1 as [|?? Hy Hl]; [done|].
  constructor; [|by apply IH].
  apply Hsym. apply Forall_app in Hy as [? Hy]. by inversion_clear Hy.
Qed.

Lemma disjoint_slices_sym s t : disjoint_slices s t → disjoint_slices t s.
Proof. unfold disjoint_slices. lia. Qed.

(** Slices of one allocator are disjoint exactly when their page ranges are. *)
Lemma disjoint_pages a i n j k :
  disjoint_slices {| buf := page_addr a i; len := PAGE_SIZE * n |}
                  {| buf := page_addr a j; len := PAGE_SIZE * k |} ↔ i + n ≤ j ∨ j + k ≤ i.
Proof. unfold disjoint_slices, page_addr, PAGE_SIZE. simpl len. simpl buf. lia. Qed.

(** A live slice survives a change of the allocator that keeps its pages. *)
Lemma live_ok_mono a a' m m' sl :
  ram_base a' = ram_base a → capacity a' = capacity a →
  live_ok a m sl →
  (∀ i n, sl = {| buf := page_addr a i; len := PAGE_SIZE * n |} → 0 < n →
     ∀ j, Bitmap.in_range i n j = true → 0 ≤ j → used a j = true → used a' j = true) →
  (∀ g, frame_ok m g → frame_ok m' g) →
  live_ok a' m' sl.
Proof.
  intros Hb Hc (i & n & ? & ? & ? & Hsl & Hp) Hu Hm.
  exists i, n. rewrite Hc. split; [done|]. split; [done|]. split; [done|].
  split; [unfold page_addr; by rewrite Hb|]. intros j Hj. destruct (Hp j Hj).
  split; [apply (Hu i n); try done; apply Bitmap.in_range_spec in Hj; lia|].
  apply Hm. unfold frame_of in *. by rewrite Hb.
Qed.

Section preservation.
Context `{Profile}.

Lemma window_set_pages a a' lo n v : set_pages a a' lo n v → window a → window a'.
Proof.
  intros [_ Hb Hc _] [??]. split; [by rewrite Hb|]. unfold page_addr in *. by rewrite Hb, Hc.
Qed.

Lemma inv_memory a m l m' :
  (∀ g, frame_ok m g → frame_ok m' g) → inv (mkHeap a m l) → inv (mkHeap a m' l).
Proof.
  intros Hm [Hwf Hwin Hback Hlive Hdis]. split; simpl in *; [done|done| | |done].
  - intros i ??. apply Hm. by apply Hback.
  - eapply Forall_impl; [done|]. simpl. intros sl Hsl. by eapply live_ok_mono; eauto.
Qed.

Lemma inv_alloc a m l n sl a' :
  0 ≤ n → alloc a n = Ok (Some sl, a') → inv (mkHeap a m l) → inv (mkHeap a' m (sl :: l)).
Proof.
  intros Hn Ha [Hwf Hwin Hback Hlive Hdis]; simpl in *.
  destruct (alloc_ok a n Hwf Hn) as [(i & a1 & Heq & Hpos & Hhole & _ & Hsp)|[Heq _]];
    rewrite Heq in Ha; simplify_eq.
  pose proof Hsp as [Hwf' Hb Hc Hu]. destruct Hhole as (? & ? & Hfree).
  split; simpl; [done|by eapply window_set_pages| | |].
  - intros j Hj. rewrite Hu by lia. destruct (Bitmap.in_range i n j); [done|].
    intros Hj'. unfold frame_of. rewrite Hb. apply Hback; [lia|done].
  - constructor.
    + exists i, n. split; [lia|]. split; [done|]. split; [unfold capacity in *; lia|].
      split; [unfold page_addr; by rewrite Hb|]. intros j Hj.
      pose proof (proj1 (Bitmap.in_range_spec i n j) Hj) as Hj'. split; [rewrite Hu, Hj by lia; done|].
      unfold frame_of. rewrite Hb. apply Hback; [unfold capacity; lia|]. by apply Hfree.
    + eapply Forall_impl; [done|]. simpl. intros sl Hsl.
      eapply live_ok_mono; [done|done|done| |done].
      intros i' n' _ _ j _ ? Hj. rewrite Hu by done. by destruct (Bitmap.in_range i n j).
  - constructor; [|done]. eapply Forall_impl; [done|]. simpl.
    intros sl (j & k & ? & ? & ? & -> & Hp). apply disjoint_pages.
    destruct (decide (i + n ≤ j ∨ j + k ≤ i)) as [|Hov]; [done|].
    destruct (Hp (Z.max i j)) as [Hm _]; [apply Bitmap.in_range_spec; lia|].
    unfold used in Hm. rewrite Hfree in Hm by lia. done.
Qed.

Lemma inv_forget a m l1 sl l2 :
  inv (mkHeap a m (l1 ++ sl :: l2)) → inv (mkHeap a m (l1 ++ l2)).
Proof.
  intros [Hwf Hwin Hback Hlive Hdis]; simpl in *. split; simpl; [done|done|done| |].
  - apply Forall_app in Hlive as [? Hl]. apply Forall_app. by inversion_clear Hl.
  - by eapply ordpairs_delete.
Qed.

(** Dropping a live slice succeeds and keeps the invariant for the others. *)
Lemma inv_drop a m l1 sl l2 :
  inv (mkHeap a m (l1 ++ sl :: l2)) →
  ∃ a' m', slice_drop m a sl = Ok (a', m') ∧ inv (mkHeap a' m' (l1 ++ l2)).
Proof.
  intros Hinv. pose proof (inv_forget _ _ _ _ _ Hinv) as [Hwf Hwin Hback Hlive Hdis].
  pose proof (ordpairs_other _ _ _ _ disjoint_slices_sym (inv_disjoint _ Hinv)) as Hother.
  pose proof (inv_live _ Hinv) as Hsl. simpl in *.
  apply Forall_app in Hsl as [_ Hsl]. inversion_clear Hsl as [|?? Hsl' _].
  destruct Hsl' as (i & n & ? & ? & ? & -> & Hp).
  destruct (slice_drop_ok m a i n) as (a' & m' & Hd & Hsp & Hm); try done.
  { intros j Hj. by apply Hp. }
  { intros j Hj. by apply Hp. }
  assert (∀ g, frame_ok m g → frame_ok m' g) as Hmono.
  { destruct debug_assertions; [|by subst]. intros g. by eapply filled_frame_ok. }
  exists a', m'. split; [done|]. pose proof Hsp as [Hwf' Hb Hc Hu].
  split; simpl; [done|by eapply window_set_pages| | |done].
  - intros j Hj. rewrite Hu by lia. unfold frame_of. rewrite Hb. intros Hj'. apply Hmono.
    destruct (Bitmap.in_range i n j) eqn:Hr; [by apply Hp|]. apply Hback; [lia|done].
  - apply Forall_forall. intros t Ht. rewrite Forall_forall in Hlive, Hother.
    pose proof (Hother t Ht) as Hdt. eapply live_ok_mono; [done|done|by apply Hlive| |done].
    intros j k -> Hk x Hx ? Hux. rewrite Hu by done. apply disjoint_pages in Hdt.
    rewrite Bitmap.in_range_spec in Hx.
    destruct (Bitmap.in_range i n x) eqn:Hr; [|done]. rewrite Bitmap.in_range_spec in Hr. lia.
Qed.

Lemma inv_step h h' : step h h' → inv h → inv h'.
Proof.
  destruct 1 as [a m l n sl a' Hn Ha|a m l n a' Hn Ha|a m l n sl a' m' Hn Ha
    |a m l1 sl l2 a' m' Hd|]; intros Hinv.
  - by eapply inv_alloc.
  - destruct (alloc_ok a n (inv_wf _ Hinv) Hn) as [(i & a1 & Heq & _)|[Heq _]];
      rewrite Heq in Ha; by simplify_eq.
  - unfold alloc_zeroed in Ha. apply res_bind_inv in Ha as ([[sl'|] a1] & Ha & Hz); [|done].
    apply res_bind_inv in Hz as (m1 & Hz & [= <- <- <-]).
    apply inv_memory with m; [|by eapply inv_alloc]. intros g. by eapply write_bytes_frame_ok.
  - apply inv_drop in Hinv as (a1 & m1 & Hd' & Hinv). rewrite Hd' in Hd. by simplify_eq.
  - by eapply inv_forget.
Qed.
End preservation.
