(* ===== verification/HeapSpec.v ===== *)
(** * Properties of the page allocator (kernel/src/page_alloc.rs)

    Page slices are exclusive and always returnable, what allocation and freeing write to
    memory, and how the managed region grows. *)

From Stdlib Require Import List.
From S2P Require Import Prelude.
From S2P Require Bitmap.
From S2P Require Import Memory PageAlloc Ownership.

Local Open Scope Z_scope.

(** ** A small machine *)

(** RAM of 64 pages from the physical address [0x40000000], all of them zero and free. *)
Definition RAM_FRAME : Z := 0x40000.
Definition small_alloc : BitmapPageAlloc := new 1 (VIRT_BASE + PAGE_SIZE * RAM_FRAME).
Definition small_mem : pmem :=
  list_to_map ((λ i, (RAM_FRAME + i, replicate 512 0)) <$> seqZ 0 64).

Lemma small_alloc_wf : wf small_alloc.
Proof.
  split; [|done..]. split; [|done]. repeat constructor; done.
Qed.

Lemma small_alloc_window : window small_alloc.
Proof. by split. Qed.

Lemma small_used i : used small_alloc i = false.
Proof.
  unfold used, Bitmap.bits, Bitmap.cbits, small_alloc. simpl.
  destruct (Z.to_nat (i / 64)) as [|[|]]; [apply Z.testbit_0_l|done..].
Qed.

(** Frames can be checked by evaluation. *)
Definition frames_okb (m : pmem) (l : list Z) : bool :=
  forallb (λ g, match m !! g with Some fr => Nat.eqb (length fr) 512 | None => false end) l.

Lemma frames_okb_ok m lo n g :
  frames_okb m (seqZ lo n) = true → lo ≤ g < lo + n → frame_ok m g.
Proof.
  intros Hf Hg. unfold frames_okb in Hf. rewrite forallb_forall in Hf.
  specialize (Hf g). rewrite <- list_elem_of_In, elem_of_seqZ in Hf. specialize (Hf Hg).
  destruct (m !! g) as [fr|] eqn:E; [|done]. exists fr. split; [done|]. by apply Nat.eqb_eq.
Qed.

Lemma small_backed i : 0 ≤ i < capacity small_alloc → frame_ok small_mem (frame_of small_alloc i).
Proof.
  intros Hi. change (capacity small_alloc) with 64 in Hi.
  apply (frames_okb_ok _ RAM_FRAME 64); [vm_compute; reflexivity|].
  unfold frame_of. change ((ram_base small_alloc - VIRT_BASE) / PAGE_SIZE) with RAM_FRAME. lia.
Qed.

Definition small_heap : heap := {| allocator := small_alloc; memory := small_mem; live := [] |}.

(** ** Ownership *)

(** The allocator before anything was handed out: sound, and every free page is memory. *)
Record fresh (h : heap) : Prop := {
  fresh_wf : wf (allocator h);
  fresh_window : window (allocator h);
  fresh_backed : ∀ i, 0 ≤ i < capacity (allocator h) → used (allocator h) i = false →
    frame_ok (memory h) (frame_of (allocator h) i);
  fresh_live : live h = [];
}.

Lemma small_fresh : fresh small_heap.
Proof.
  split; [apply small_alloc_wf|apply small_alloc_window| |done].
  intros i Hi _. by apply small_backed.
Qed.

Lemma reachable_inv `{Profile} h h' : fresh h → rtc step h h' → inv h'.
Proof.
  intros [Hw Hwin Hb Hl] Hr.
  assert (inv h) as Hi by (split; [done..| |]; rewrite Hl; constructor).
  clear Hw Hwin Hb Hl. induction Hr as [|h1 h2 h3 Hs _ IH]; [done|].
  apply IH. by apply (inv_step h1).
Qed.

(** The small machine after two allocations, of three pages and of one page. *)
Definition two_allocs : heap :=
  {| allocator := {| bitmap_alloc := {| Bitmap.bitmap := [15] |}; ram_base := ram_base small_alloc |};
     memory := small_mem;
     live := [{| buf := page_addr small_alloc 3; len := 4096 |};
              {| buf := page_addr small_alloc 0; len := 12288 |}] |}.

Lemma two_allocs_reachable : rtc (step (H := dev)) small_heap two_allocs.
Proof.
  eapply rtc_l.
  { apply (step_alloc small_alloc small_mem [] 3); [lia|]. vm_compute. reflexivity. }
  eapply rtc_l; [|apply rtc_refl].
  refine (step_alloc _ small_mem _ 1 _ _ _ _); [lia|]. vm_compute. reflexivity.
Qed.

(** C1. Whatever sequence of allocations, zeroed allocations, drops and leaks is run, the live
    page slices are pairwise disjoint, lie inside the managed RAM, and all their pages are
    marked as allocated. *)
Theorem live_slices_disjoint `{Profile} (h h' : heap) :
  fresh h → rtc step h h' →
  ForallOrdPairs disjoint_slices (live h')
  ∧ Forall (λ sl, ∃ i n, 0 ≤ i ∧ 0 < n ∧ i + n ≤ capacity (allocator h')
      ∧ sl = {| buf := page_addr (allocator h') i; len := PAGE_SIZE * n |}
      ∧ ∀ j, Bitmap.in_range i n j = true → used (allocator h') j = true) (live h').
Proof.
  intros Hf Hr. pose proof (reachable_inv h h' Hf Hr) as [_ _ _ Hl Hd]. split; [done|].
  eapply Forall_impl; [done|]. intros sl (i & n & Hi & Hn & Hc & -> & Hj).
  exists i, n. split_and!; [done..|]. intros j Hij. by apply Hj.
Qed.

Lemma live_slices_disjoint_witness : ForallOrdPairs disjoint_slices (live two_allocs).
Proof.
  apply (live_slices_disjoint (H := dev) small_heap two_allocs small_fresh two_allocs_reachable).
Defined.

(** C2. Nothing faults: in a reachable state an allocation of any size returns (a slice, or
    [None]), and any live slice can be dropped, in either profile: the drop succeeds, exactly
    its pages become free, and the other slices stay live in a state that is again sound. *)
Theorem heap_operations_total `{Profile} (h h' : heap) (n : Z) :
  fresh h → rtc step h h' → 0 ≤ n →
  (∃ o a', alloc (allocator h') n = Ok (o, a'))
  ∧ (∃ o a' m', alloc_zeroed (memory h') (allocator h') n = Ok (o, a', m'))
  ∧ (∀ l1 sl l2, live h' = l1 ++ sl :: l2 →
       ∃ i k a' m', sl = {| buf := page_addr (allocator h') i; len := PAGE_SIZE * k |}
         ∧ slice_drop (memory h') (allocator h') sl = Ok (a', m')
         ∧ set_pages (allocator h') a' i k false
         ∧ step h' {| allocator := a'; memory := m'; live := l1 ++ l2 |}).
Proof.
  intros Hf Hr Hn. pose proof (reachable_inv h h' Hf Hr) as Hinv.
  destruct h' as [a m l]. pose proof Hinv as [Hw Hwin Hb Hl _]. simpl in *.
  split; [|split].
  - destruct (alloc_ok a n Hw Hn) as [(i & a' & -> & _)|[-> _]]; eauto.
  - unfold alloc_zeroed. destruct (alloc_ok a n Hw Hn) as [(i & a' & -> & ? & Hh & _)|[-> _]]; run.
    + destruct Hh as (? & ? & Hfree). unfold slice_zero, as_ptr. cbn [buf].
      rewrite write_page_ok; [run; eauto|done|done|unfold capacity; lia|].
      apply Hb; [unfold capacity; lia|apply Hfree; lia].
    + eauto.
  - intros l1 sl l2 ->. rewrite Forall_app, Forall_cons in Hl.
    destruct Hl as (_ & (i & k & Hi & Hk & Hc & -> & Hj) & _).
    destruct (slice_drop_ok m a i k) as (a' & m' & Hdrop & Hsp & _); [done..| | |].
    { intros j Hij. by apply Hj. }
    { intros j Hij. by apply Hj. }
    exists i, k, a', m'. split_and!; [done..|]. by apply step_drop.
Qed.

Lemma heap_operations_total_witness :
  ∃ a' m', slice_drop (H := dev) small_mem (allocator two_allocs)
      {| buf := page_addr small_alloc 0; len := 12288 |} = Ok (a', m')
    ∧ bitmap_alloc a' = {| Bitmap.bitmap := [8] |}.
Proof.
  destruct (heap_operations_total (H := dev) small_heap two_allocs 1 small_fresh
    two_allocs_reachable ltac:(lia)) as (_ & _ & Hdrop).
  destruct (Hdrop [{| buf := page_addr small_alloc 3; len := 4096 |}] _ [] eq_refl)
    as (i & k & a' & m' & _ & E & _ & _).
  change (memory two_allocs) with small_mem in E.
  exists a', m'. split; [exact E|].
  assert (match slice_drop (H := dev) small_mem (allocator two_allocs)
      {| buf := page_addr small_alloc 0; len := 12288 |} with
    | Ok (a, _) => bitmap_alloc a = {| Bitmap.bitmap := [8] |} | Fault _ => False end) as Hc
    by (vm_compute; reflexivity).
  rewrite E in Hc. exact Hc.
Defined.

(** ** Memory *)

(** An allocated slice can be dropped at once, which undoes the allocation. *)
Lemma alloc_drop_ok `{Profile} (m : pmem) (self : BitmapPageAlloc) (n : Z)
    (sl : PageSlice) (self' : BitmapPageAlloc) :
  wf self → window self → 0 ≤ n →
  (∀ i, 0 ≤ i < capacity self → used self i = false → frame_ok m (frame_of self i)) →
  alloc self n = Ok (Some sl, self') →
  ∃ i m', buf sl = page_addr self i ∧ slice_drop m self' sl = Ok (self, m')
    ∧ if debug_assertions then filled m m' (frame_of self i) n (splat 0xa1) else m' = m.
Proof.
  intros Hwf Hwin Hn Hb Ha.
  destruct (alloc_ok self n Hwf Hn) as [(i & a & Ha' & Hn0 & Hh & _ & Hsp)|[Ha' _]];
    rewrite Ha' in Ha; [|done].
  injection Ha as <- <-. destruct Hh as (Hi & Hc & Hfree). fold (capacity self) in Hc.
  pose proof Hsp as [Hw' Hb' Hc' Hu'].
  assert (∀ j, frame_of a j = frame_of self j) as Hfr by (intros; unfold frame_of; by rewrite Hb').
  assert (window a) as Hwin' by by eapply window_set_pages.
  destruct (slice_drop_ok m a i n) as (b & m' & Hd & [Hwb Hbb Hcb Hub] & Hm);
    [done|done|done|done|by rewrite Hc'| | |].
  - intros j Hj. rewrite Hu', Hj; [done|]. apply Bitmap.in_range_spec in Hj. lia.
  - intros j Hj%Bitmap.in_range_spec. rewrite Hfr. apply Hb; [lia|]. apply Hfree. lia.
  - assert (b = self) as ->.
    { destruct b as [bm rb], self as [bm0 rb0]. simpl in *. f_equal; [|congruence].
      apply Bitmap.bitmap_ext; [apply Hwb|apply Hwf| |].
      - unfold capacity, Bitmap.capacity, Bitmap.cells in *. simpl in *. lia.
      - intros j Hj. unfold used in *. simpl in *. rewrite Hub, Hu' by lia.
        destruct (Bitmap.in_range i n j) eqn:E; [|done]. symmetry. apply Hfree.
        by apply Bitmap.in_range_spec in E. }
    exists i, m'. unfold page_addr in Hd |- *. rewrite Hb', Hfr in *. done.
Qed.

(** An allocation followed by the drop of the slice gives back the allocator exactly as it
    was; in the dev profile the frames of the slice are filled with [0xa1], in the release
    profile memory is untouched. *)
Lemma alloc_drop_roundtrip `{Profile} (m : pmem) (self : BitmapPageAlloc) (n : Z)
    (sl : PageSlice) (self' : BitmapPageAlloc) :
  wf self → window self → 0 ≤ n →
  (∀ i, 0 ≤ i < capacity self → used self i = false → frame_ok m (frame_of self i)) →
  alloc self n = Ok (Some sl, self') →
  ∃ i m', buf sl = page_addr self i ∧ slice_drop m self' sl = Ok (self, m')
    ∧ if debug_assertions then filled m m' (frame_of self i) n (splat 0xa1) else m' = m.
Proof. apply alloc_drop_ok. Qed.

Lemma alloc_drop_roundtrip_witness :
  ∃ sl self' m', alloc (H := release) small_alloc 5 = Ok (Some sl, self')
    ∧ slice_drop (H := release) small_mem self' sl = Ok (small_alloc, m').
Proof.
  eexists _, _.
  destruct (alloc_drop_roundtrip (H := release) small_mem small_alloc 5
    {| buf := page_addr small_alloc 0; len := 20480 |}
    {| bitmap_alloc := {| Bitmap.bitmap := [31] |}; ram_base := ram_base small_alloc |})
    as (i & m' & _ & Hd & _).
  - exact small_alloc_wf.
  - exact small_alloc_window.
  - lia.
  - intros i Hi _. exact (small_backed i Hi).
  - vm_compute. reflexivity.
  - exists m'. split; [vm_compute; reflexivity|exact Hd].
Defined.

(** C35. [alloc_zeroed] fills the first page of the slice with zeros and no other frame: the
    remaining pages of a slice of several pages keep whatever was in memory. *)
Theorem alloc_zeroed_first_page `{Profile} (m : pmem) (self : BitmapPageAlloc) (n : Z)
    (sl : PageSlice) (self' : BitmapPageAlloc) (m' : pmem) :
  wf self → window self → 0 ≤ n →
  (∀ i, 0 ≤ i < capacity self → used self i = false → frame_ok m (frame_of self i)) →
  alloc_zeroed m self n = Ok (Some sl, self', m') →
  ∃ i, sl = {| buf := page_addr self i; len := PAGE_SIZE * n |}
    ∧ set_pages self self' i n true
    ∧ m' !! frame_of self i = Some (replicate 512 0)
    ∧ (∀ j, 0 < j < n → m' !! frame_of self (i + j) = m !! frame_of self (i + j))
    ∧ (∀ g, g ≠ frame_of self i → m' !! g = m !! g).
Proof.
  intros Hwf Hwin Hn Hb Ha. unfold alloc_zeroed in Ha.
  destruct (alloc_ok self n Hwf Hn) as [(i & a & Ha' & Hn0 & Hh & _ & Hsp)|[Ha' _]];
    rewrite Ha', res_bind_ok in Ha; [|done].
  cbv beta iota in Ha. destruct Hh as (Hi & Hc & Hfree). fold (capacity self) in Hc.
  unfold slice_zero, as_ptr in Ha. cbn [buf] in Ha.
  rewrite write_page_ok in Ha; [|done|done|lia|apply Hb; [lia|apply Hfree; lia]].
  rewrite res_bind_ok in Ha. injection Ha as <- <- <-. exists i.
  split_and!; [done|done|by rewrite lookup_insert_eq| |].
  - intros j Hj. rewrite lookup_insert_ne; [done|]. unfold frame_of. lia.
  - intros g Hg. by rewrite lookup_insert_ne.
Qed.

(** RAM that holds data of an earlier use. *)
Definition dirty_mem : pmem :=
  list_to_map ((λ i, (RAM_FRAME + i, replicate 512 (splat 0xa1))) <$> seqZ 0 64).

Lemma dirty_backed i : 0 ≤ i < capacity small_alloc → frame_ok dirty_mem (frame_of small_alloc i).
Proof.
  intros Hi. change (capacity small_alloc) with 64 in Hi.
  apply (frames_okb_ok _ RAM_FRAME 64); [vm_compute; reflexivity|].
  unfold frame_of. change ((ram_base small_alloc - VIRT_BASE) / PAGE_SIZE) with RAM_FRAME. lia.
Qed.

(** The second page of a zeroed slice of two pages still holds the old data. *)
Lemma alloc_zeroed_first_page_witness :
  ∃ sl a m', alloc_zeroed (H := release) dirty_mem small_alloc 2 = Ok (Some sl, a, m')
    ∧ m' !! RAM_FRAME = Some (replicate 512 0)
    ∧ m' !! (RAM_FRAME + 1) = Some (replicate 512 (splat 0xa1)).
Proof.
  destruct (alloc_zeroed (H := release) dirty_mem small_alloc 2) as [[[[sl|] a] m']|f] eqn:E.
  - destruct (alloc_zeroed_first_page (H := release) dirty_mem small_alloc 2 sl a m')
      as (i & -> & _ & Hz & Hrest & _).
    + exact small_alloc_wf.
    + exact small_alloc_window.
    + lia.
    + intros i Hi _. exact (dirty_backed i Hi).
    + exact E.
    + assert (i = 0) as ->.
      { assert (match alloc_zeroed (H := release) dirty_mem small_alloc 2 with
          | Ok (Some sl, _, _) => buf sl = page_addr small_alloc 0 | _ => False end) as Hc
          by (vm_compute; reflexivity).
        rewrite E in Hc. unfold page_addr, PAGE_SIZE in Hc. cbn [buf] in Hc. lia. }
      exists {| buf := page_addr small_alloc 0; len := PAGE_SIZE * 2 |}, a, m'.
      split; [reflexivity|]. split; [exact Hz|].
      pose proof (Hrest 1 ltac:(lia)) as H1. change (frame_of small_alloc (0 + 1)) with (RAM_FRAME + 1) in H1.
      rewrite H1. vm_compute. reflexivity.
  - exfalso. assert (match alloc_zeroed (H := release) dirty_mem small_alloc 2 with
      | Ok (Some _, _, _) => True | _ => False end) as Hc by (vm_compute; exact I).
    rewrite E in Hc. exact Hc.
  - exfalso. assert (match alloc_zeroed (H := release) dirty_mem small_alloc 2 with
      | Ok (Some _, _, _) => True | _ => False end) as Hc by (vm_compute; exact I).
    rewrite E in Hc. exact Hc.
Defined.



(** ** Growing *)

(** C37. [expand_to] for a page-aligned region that fits the bitmap: if the new region contains
    the old one, every old page keeps its state at its address and every new page is free; if
    it does not, the call panics.  Nothing else can happen. *)
Theorem expand_to_contract `{Profile} (self : BitmapPageAlloc) (new_base nl pl : Z) :
  wf self → 0 ≤ new_base → new_base mod PAGE_SIZE = 0 → 0 ≤ nl ≤ capacity self → 0 ≤ pl →
  new_base + PAGE_SIZE * nl < 2 ^ 64 → ram_base self + PAGE_SIZE * pl < 2 ^ 64 →
  if (new_base <=? ram_base self)
     && (ram_base self + PAGE_SIZE * pl <=? new_base + PAGE_SIZE * nl)
  then ∃ self', expand_to self new_base (PAGE_SIZE * nl) (PAGE_SIZE * pl) = Ok self'
    ∧ wf self' ∧ ram_base self' = new_base ∧ capacity self' = capacity self
    ∧ ∀ j, 0 ≤ j < nl → used self' j =
        let i := (new_base + PAGE_SIZE * j - ram_base self) / PAGE_SIZE in
        if (0 <=? i) && (i <? pl) then used self i else false
  else expand_to self new_base (PAGE_SIZE * nl) (PAGE_SIZE * pl)
    = Fault (PanicMsg "new ram region must contain old ram region").
Proof.
  intros Hwf Hnb Hal Hnl Hpl Hend Hold. pose proof (wf_aligned _ Hwf) as Hab.
  set (d := (ram_base self - new_base) / PAGE_SIZE).
  assert (ram_base self = new_base + PAGE_SIZE * d) as Hd
    by (unfold d, PAGE_SIZE in *; clear d; zdiv).
  clearbody d. pose proof (wf_base _ Hwf).
  destruct (Z.leb_spec new_base (ram_base self)) as [Hle|Hgt]; [|].
  - destruct (Z.leb_spec (ram_base self + PAGE_SIZE * pl) (new_base + PAGE_SIZE * nl)) as [Hin|Hout]; simpl.
    + destruct (expand_to_ok self new_base d nl pl) as (a & Ha & Hb & [Hw _ Hc Ho Hn _]);
        [done..|unfold PAGE_SIZE in *; lia|done|unfold PAGE_SIZE in *; lia|].
      exists a. split_and!; [done..|]. intros j Hj.
      replace ((new_base + PAGE_SIZE * j - ram_base self) / PAGE_SIZE) with (j - d)
        by (rewrite Hd; unfold PAGE_SIZE; zdiv).
      destruct (Z.leb_spec 0 (j - d)), (Z.ltb_spec (j - d) pl); simpl; try (apply Hn; lia).
      rewrite <- Ho by lia. f_equal. lia.
    + unfold expand_to. rewrite Hab, Hal. unfold assert.
      replace (PAGE_SIZE * nl mod PAGE_SIZE) with 0 by (unfold PAGE_SIZE; zdiv).
      replace (PAGE_SIZE * pl mod PAGE_SIZE) with 0 by (unfold PAGE_SIZE; zdiv).
      rewrite Z.eqb_refl, (proj2 (Z.leb_le _ _)) by lia. run.
      arith_ok ltac:(unfold is_u64, PAGE_SIZE in *; lia).
      by rewrite (proj2 (Z.leb_gt _ _)) by lia.
  - simpl. unfold expand_to. rewrite Hab, Hal. unfold assert.
    replace (PAGE_SIZE * nl mod PAGE_SIZE) with 0 by (unfold PAGE_SIZE; zdiv).
    replace (PAGE_SIZE * pl mod PAGE_SIZE) with 0 by (unfold PAGE_SIZE; zdiv).
    rewrite Z.eqb_refl, (proj2 (Z.leb_gt _ _)) by lia. done.
Qed.

Lemma expand_to_contract_witness :
  ∃ self', expand_to (H := dev) (allocator two_allocs) (VIRT_BASE + PAGE_SIZE * (RAM_FRAME - 8))
      (PAGE_SIZE * 40) (PAGE_SIZE * 16) = Ok self'
    ∧ bitmap_alloc self' = {| Bitmap.bitmap := [0xf00] |} ∧ wf self'.
Proof.
  pose proof (expand_to_contract (H := dev) (allocator two_allocs)
    (VIRT_BASE + PAGE_SIZE * (RAM_FRAME - 8)) 40 16) as Hc.
  destruct Hc as (a & Ha & Hw & _).
  - split; [|done..]. split; [|done]. repeat constructor; done.
  - vm_compute. discriminate.
  - reflexivity.
  - vm_compute. split; discriminate.
  - lia.
  - vm_compute. reflexivity.
  - vm_compute. reflexivity.
  - exists a. split; [exact Ha|]. split; [|exact Hw].
    assert (match expand_to (H := dev) (allocator two_allocs) (VIRT_BASE + PAGE_SIZE * (RAM_FRAME - 8))
      (PAGE_SIZE * 40) (PAGE_SIZE * 16) with
      | Ok a => bitmap_alloc a = {| Bitmap.bitmap := [0xf00] |} | Fault _ => False end) as Hv
      by (vm_compute; reflexivity).
    rewrite Ha in Hv. exact Hv.
Defined.
