(* ===== verification/Kernel.v ===== *)
(** * Kernel state, boxed pages and the memory map (kernel/src/page_alloc.rs)

    The machine state the kernel's code runs over, the global allocator [PAGE_ALLOC] behind
    its [IrqMutex], [PageBox], the early heap and the discovery of RAM. *)

From S2P Require Import Prelude Interrupts.
From S2P Require Bitmap.
From S2P Require Import Memory.
From S2P Require PageAlloc.
Import PageAlloc (PageSlice, buf, len, BitmapPageAlloc, bitmap_alloc, ram_base).

Local Open Scope Z_scope.

(** ** State *)

(** [PAGE_ALLOC], physical memory, the DAIF register of the core, and the translations its
    TLB may still hold (virtual page number to descriptor). *)
Record kst : Type := mkKst {
  PAGE_ALLOC : BitmapPageAlloc;
  phys : pmem;
  daif : Z;
  tlb : gmap Z Z;
}.

Definition set_alloc (a : BitmapPageAlloc) (s : kst) : kst :=
  {| PAGE_ALLOC := a; phys := phys s; daif := daif s; tlb := tlb s |}.
Definition set_phys (m : pmem) (s : kst) : kst :=
  {| PAGE_ALLOC := PAGE_ALLOC s; phys := m; daif := daif s; tlb := tlb s |}.
Definition set_tlb (t : gmap Z Z) (s : kst) : kst :=
  {| PAGE_ALLOC := PAGE_ALLOC s; phys := phys s; daif := daif s; tlb := t |}.

(** What page-table code leaves alone: the interrupt mask, and the region the allocator's pages
    come from. *)
Definition shape (s : kst) : Z * (Z * Z) :=
  (daif s, (ram_base (PAGE_ALLOC s), PageAlloc.capacity (PAGE_ALLOC s))).

Lemma shape_daif s s' : shape s' = shape s → daif s' = daif s.
Proof. unfold shape. congruence. Qed.

#[global, program] Instance kst_daif : HasDaif kst := {|
  DAIF := daif;
  set_DAIF x s := {| PAGE_ALLOC := PAGE_ALLOC s; phys := phys s; daif := x; tlb := tlb s |};
|}.
Next Obligation. done. Qed.
Next Obligation. done. Qed.
Next Obligation. by destruct s. Qed.

Definition PAGE_ALLOC_CELLS : nat := 1024.
Definition PAGE_ALLOC_PAGES : Z := Z.of_nat PAGE_ALLOC_CELLS * 64.

(** The initial value of the static. *)
Definition PAGE_ALLOC_INIT : BitmapPageAlloc := PageAlloc.new PAGE_ALLOC_CELLS 0.

(** A call on the locked allocator; some of them also write memory. *)
Definition on_alloc {A} (f : BitmapPageAlloc → res (A * BitmapPageAlloc)) : M kst A := λ s,
  '(a, al) ← f (PAGE_ALLOC s); Ok (a, set_alloc al s).
Definition on_alloc_mem {A} (f : pmem → BitmapPageAlloc → res (A * BitmapPageAlloc * pmem))
    : M kst A := λ s,
  '(a, al, m) ← f (phys s) (PAGE_ALLOC s); Ok (a, set_phys m (set_alloc al s)).
Definition update_alloc (f : BitmapPageAlloc → res BitmapPageAlloc) : M kst unit :=
  on_alloc (λ al, al ← f al; Ok (tt, al)).
Definition on_mem (f : pmem → res pmem) : M kst unit := λ s,
  m ← f (phys s); Ok (tt, set_phys m s).

(** Words at a kernel address. *)
Fixpoint store_words (m : pmem) (addr : Z) (ws : list Z) : res pmem :=
  match ws with
  | [] => Ok m
  | w :: ws => m ← write_word m (pa (from_virt addr)) w; store_words m (addr + 8) ws
  end.

Fixpoint load_words (m : pmem) (addr : Z) (n : nat) : res (list Z) :=
  match n with
  | O => Ok []
  | S n => w ← read_word m (pa (from_virt addr));
           ws ← load_words m (addr + 8) n;
           Ok (w :: ws)
  end.

Section ops.
Context `{Profile}.

(** The free function [alloc]. *)
Definition alloc (page_count : Z) : M kst PageSlice :=
  critical (
    slice ← on_alloc (λ al, PageAlloc.alloc al page_count);
    lift (expect slice "OOM")).

(** [Drop for PageSlice]: the poison is written before the lock is taken. *)
Definition slice_drop (self : PageSlice) : M kst unit :=
  (if debug_assertions then on_mem (λ m, write_bytes m (buf self) 0xa1 (len self / 8))
   else mret tt);;
  critical (update_alloc (λ al, PageAlloc.free al (buf self) (len self / 4096))).

(** ** [PageBox<T>], for a [T] of [size_of] bytes without drop glue, as its words *)

Record PageBox : Type := mkBox { slice : PageSlice }.

Definition box_new (size_of : Z) (value : list Z) : M kst PageBox :=
  slice ← alloc (div_ceil size_of PAGE_SIZE);
  on_mem (λ m, store_words m (PageAlloc.as_mut_ptr slice) value);;
  mret {| slice := slice |}.

Definition box_new_zeroed (size_of : Z) : M kst PageBox :=
  slice ← critical (
    slice ← on_alloc_mem (λ m al, PageAlloc.alloc_zeroed m al (div_ceil size_of PAGE_SIZE));
    lift (expect slice "OOM"));
  mret {| slice := slice |}.

(** [as_ref] and [deref]: the words of the boxed value. *)
Definition box_as_ref (size_of : Z) (self : PageBox) : M kst (list Z) :=
  m ← gets phys;
  lift (load_words m (PageAlloc.as_ptr (slice self)) (Z.to_nat (size_of / 8))).
Definition box_deref (size_of : Z) (self : PageBox) : M kst (list Z) := box_as_ref size_of self.

(** [as_mut] and [deref_mut]: the kernel address of the value. *)
Definition box_as_mut (self : PageBox) : Z := PageAlloc.as_mut_ptr (slice self).
Definition box_deref_mut (self : PageBox) : Z := box_as_mut self.

(** [Drop for PageBox], then of its slice. *)
Definition box_drop (self : PageBox) : M kst unit := slice_drop (slice self).

(** [into_inner]: the value is read, then the box is dropped. *)
Definition box_into_inner (size_of : Z) (self : PageBox) : M kst (list Z) :=
  value ← box_as_ref size_of self;
  box_drop self;;
  mret value.

(** [leak]: the kernel address of the value; nothing is freed. *)
Definition box_leak (self : PageBox) : M kst Z := mret (PageAlloc.as_mut_ptr (slice self)).
End ops.

(** ** The linked image *)

(** Addresses fixed by kernel/src/aarch64/linker.lds. *)
Definition _virt_base : Z := 0xffffff0000000000 + 0x40000000.
Definition _dtb_start : Z := _virt_base.
Definition _text_start : Z := _virt_base + 0x100000.

Definition EARLY_HEAP_SIZE : Z := 1024 * 1024.

(** Addresses the linker chooses: where the static [EARLY_HEAP] and the symbol [_end] are. *)
Class Linked : Type := { EARLY_HEAP : Z; _end : Z }.

(** What the linker script and the type of [EARLY_HEAP] promise: the static is page-aligned
    and lies inside the image, and the image in the kernel's window of the address space. *)
Class LinkedOk `{Linked} : Prop := {
  heap_aligned : EARLY_HEAP mod PAGE_SIZE = 0;
  heap_after_text : _text_start ≤ EARLY_HEAP;
  heap_before_end : EARLY_HEAP + EARLY_HEAP_SIZE ≤ _end;
  image_in_window : _end ≤ _virt_base + 2 ^ 38;
}.

Section memory_map.
Context `{Profile} `{Linked}.

Definition init_early_heap : M kst unit :=
  critical (
    let heap_base := EARLY_HEAP in
    update_alloc (λ al, Ok (PageAlloc.rebase al heap_base));;
    update_alloc (λ al, PageAlloc.mark_allocated al heap_base PAGE_ALLOC_PAGES);;
    update_alloc (λ al, PageAlloc.free al heap_base (EARLY_HEAP_SIZE / PAGE_SIZE))).

Definition add_memory_node (phy_addr : PhyAddr) (len : Z) : M kst unit :=
  critical (
    update_alloc (λ al, PageAlloc.expand_to al (virt phy_addr) len EARLY_HEAP_SIZE);;
    let kernel_region := (_text_start, _end) in
    dtb_end ← lift (uadd _dtb_start 0x10000);
    let dtb_region := (_dtb_start, dtb_end) in
    heap_end ← lift (uadd EARLY_HEAP EARLY_HEAP_SIZE);
    let early_heap_region := (EARLY_HEAP, heap_end) in
    lift (assert (kernel_region.1 <=? early_heap_region.1)
      "assertion failed: early_heap_region.0 >= kernel_region.0");;
    lift (assert (early_heap_region.2 <=? kernel_region.2)
      "assertion failed: early_heap_region.1 <= kernel_region.1");;
    before ← lift (usub early_heap_region.1 kernel_region.1);
    update_alloc (λ al, PageAlloc.mark_allocated al kernel_region.1 (before / PAGE_SIZE));;
    after ← lift (usub kernel_region.2 early_heap_region.1);
    update_alloc (λ al, PageAlloc.mark_allocated al early_heap_region.2 (after / PAGE_SIZE));;
    dtb_len ← lift (usub dtb_region.2 dtb_region.1);
    update_alloc (λ al, PageAlloc.mark_allocated al dtb_region.1 (dtb_len / PAGE_SIZE))).
End memory_map.

(** ** Running the wrappers *)

Lemma critical_ok {A} (body : M kst A) s a s' :
  body (set_DAIF (Z.lor (DAIF s) (daif_imm 2)) s) = Ok (a, s') →
  critical body s = Ok (a, set_DAIF (DAIF s) s').
Proof. intros Hb. by rewrite critical_run, Hb. Qed.

Lemma update_alloc_ok f s al :
  f (PAGE_ALLOC s) = Ok al → update_alloc f s = Ok (tt, set_alloc al s).
Proof. intros Hf. unfold update_alloc, on_alloc. by rewrite Hf. Qed.

Lemma set_alloc_set_alloc a b s : set_alloc a (set_alloc b s) = set_alloc a s.
Proof. done. Qed.

(** [x] as a page number of the region that starts at [b]. *)
Definition pg (b x : Z) : Z := (x - b) / PAGE_SIZE.

Lemma pg_addr b x : b mod PAGE_SIZE = 0 → x mod PAGE_SIZE = 0 → b + PAGE_SIZE * pg b x = x.
Proof. unfold pg, PAGE_SIZE. intros. zdiv. Qed.

(** The sizes involved, evaluated. *)
Ltac consts :=
  change (EARLY_HEAP_SIZE / PAGE_SIZE) with 256 in *; change PAGE_ALLOC_PAGES with 65536 in *.

(** ** The early heap *)

Section early_heap.
Context `{Profile} `{LinkedOk}.

Lemma heap_bounds : VIRT_BASE + 0x40100000 ≤ EARLY_HEAP < VIRT_BASE + 2 ^ 39 - 2 ^ 28.
Proof.
  pose proof heap_after_text. pose proof heap_before_end. pose proof image_in_window.
  unfold _text_start, _virt_base, VIRT_BASE, EARLY_HEAP_SIZE in *. lia.
Qed.

(** The state of the allocator between [init_early_heap] and [add_memory_node]: it manages
    the pages of [EARLY_HEAP], and the bits past them are set. *)
Record early (al : BitmapPageAlloc) : Prop := {
  early_wf : PageAlloc.wf al;
  early_base : ram_base al = EARLY_HEAP;
  early_capacity : PageAlloc.capacity al = PAGE_ALLOC_PAGES;
  early_rest : ∀ i, EARLY_HEAP_SIZE / PAGE_SIZE ≤ i < PAGE_ALLOC_PAGES → PageAlloc.used al i = true;
}.

Lemma bitmap_new_wf n : 64 * Z.of_nat n < 2 ^ 64 → Bitmap.wf (Bitmap.new n).
Proof.
  intros. split.
  - apply Forall_replicate. split; lia.
  - unfold Bitmap.capacity, Bitmap.cells. simpl. by rewrite length_replicate.
Qed.

Lemma bitmap_new_bits n i : Bitmap.bits (Bitmap.new n) i = false.
Proof.
  unfold Bitmap.bits, Bitmap.cbits. simpl.
  destruct (replicate n 0 !! _) as [w|] eqn:Hw; [|done].
  apply lookup_replicate in Hw as [-> _]. apply Z.testbit_0_l.
Qed.

Lemma init_early_heap_run s :
  PAGE_ALLOC s = PAGE_ALLOC_INIT →
  ∃ al, init_early_heap s = Ok (tt, set_alloc al s) ∧ early al
    ∧ ∀ i, 0 ≤ i < EARLY_HEAP_SIZE / PAGE_SIZE → PageAlloc.used al i = false.
Proof.
  intros Hinit. pose proof heap_bounds as Hh. unfold VIRT_BASE in Hh.
  set (a0 := PageAlloc.rebase PAGE_ALLOC_INIT EARLY_HEAP).
  assert (PageAlloc.capacity a0 = PAGE_ALLOC_PAGES) as Hc0.
  { reflexivity. }
  assert (PageAlloc.wf a0) as Hw0.
  { split; simpl; [by apply bitmap_new_wf|apply heap_aligned|lia|].
    unfold PageAlloc.page_addr. rewrite Hc0. change PAGE_ALLOC_PAGES with 65536. unfold PAGE_SIZE.
    cbn [PageAlloc.rebase ram_base a0]. lia. }
  assert (EARLY_HEAP = PageAlloc.page_addr a0 0) as Ha
    by (unfold a0, PageAlloc.page_addr, PAGE_SIZE; cbn [PageAlloc.rebase ram_base]; lia).
  destruct (PageAlloc.mark_pages_ok a0 0 PAGE_ALLOC_PAGES) as (a1 & Hm & [Hw1 Hb1 Hc1 Hu1]);
    [done|lia|done|lia|intros; apply bitmap_new_bits|].
  assert (EARLY_HEAP = PageAlloc.page_addr a1 0) as Ha1
    by (rewrite Ha; unfold PageAlloc.page_addr; by rewrite Hb1).
  destruct (PageAlloc.free_pages_ok a1 0 (EARLY_HEAP_SIZE / PAGE_SIZE)) as (a2 & Hf & [Hw2 Hb2 Hc2 Hu2]);
    [done|lia|done|rewrite Hc1, Hc0; done| |].
  { intros _ j Hj%Bitmap.in_range_spec. rewrite Hu1 by lia.
    assert (Bitmap.in_range 0 PAGE_ALLOC_PAGES j = true) as ->; [|done].
    apply Bitmap.in_range_spec. consts. lia. }
  exists a2. split; [|split].
  - unfold init_early_heap. rewrite (critical_ok _ s tt
      (set_alloc a2 (set_DAIF (Z.lor (DAIF s) (daif_imm 2)) s))); [by destruct s|].
    erewrite M_bind_ok; [|by apply update_alloc_ok].
    erewrite M_bind_ok; [|apply update_alloc_ok; simpl; rewrite Hinit; fold a0; rewrite Ha; exact Hm].
    rewrite (update_alloc_ok _ _ a2); [done|]. simpl. rewrite Ha1. exact Hf.
  - split; [done|by rewrite Hb2, Hb1|by rewrite Hc2, Hc1|].
    intros i Hi. rewrite Hu2, Hu1 by (consts; lia). unfold Bitmap.in_range. consts.
    by destruct (Z.ltb_spec i (0 + 256)), (Z.ltb_spec i (0 + 65536)), (Z.leb_spec 0 i);
      simpl; try lia.
  - intros i Hi. rewrite Hu2 by lia.
    assert (Bitmap.in_range 0 (EARLY_HEAP_SIZE / PAGE_SIZE) i = true) as ->; [|done].
    by apply Bitmap.in_range_spec.
Qed.
End early_heap.

(** ** Discovering RAM *)

Section regions.
Context `{Profile}.

Lemma used_range i n (b : bool) j :
  (if Bitmap.in_range i n j then true else b) = Bitmap.in_range i n j || b.
Proof. by destruct (Bitmap.in_range i n j). Qed.

(** The three regions, marked one after the other. *)
Lemma mark_regions al d t h a nl :
  PageAlloc.wf al → 0 ≤ d → t = d + 256 → t ≤ h → 0 ≤ a → h + 256 + a ≤ nl →
  nl ≤ PageAlloc.capacity al →
  (∀ i, 0 ≤ i < nl → ¬ (h ≤ i < h + 256) → PageAlloc.used al i = false) →
  ∃ a1 a2 a3,
    PageAlloc.mark_allocated al (PageAlloc.page_addr al t) (h - t) = Ok a1 ∧
    PageAlloc.mark_allocated a1 (PageAlloc.page_addr al (h + 256)) a = Ok a2 ∧
    PageAlloc.mark_allocated a2 (PageAlloc.page_addr al d) 16 = Ok a3 ∧
    PageAlloc.wf a3 ∧ ram_base a3 = ram_base al ∧
    PageAlloc.capacity a3 = PageAlloc.capacity al ∧
    ∀ i, 0 ≤ i → PageAlloc.used a3 i =
      (Bitmap.in_range d 16 i || Bitmap.in_range t (h - t) i || Bitmap.in_range (h + 256) a i)
      || PageAlloc.used al i.
Proof.
  intros Hwf ?????? Hfree.
  destruct (PageAlloc.mark_pages_ok al t (h - t)) as (a1 & Hm1 & [Hw1 Hb1 Hc1 Hu1]);
    [done|lia|lia|lia|intros _ i Hi%Bitmap.in_range_spec; apply Hfree; lia|].
  assert (∀ x, PageAlloc.page_addr a1 x = PageAlloc.page_addr al x) as Hp1
    by (intros; unfold PageAlloc.page_addr; by rewrite Hb1).
  destruct (PageAlloc.mark_pages_ok a1 (h + 256) a) as (a2 & Hm2 & [Hw2 Hb2 Hc2 Hu2]);
    [done|lia|lia|lia| |].
  { intros _ i Hi%Bitmap.in_range_spec. rewrite Hu1, used_range, Hfree by (done || lia).
    unfold Bitmap.in_range. lia. }
  assert (∀ x, PageAlloc.page_addr a2 x = PageAlloc.page_addr al x) as Hp2
    by (intros; unfold PageAlloc.page_addr; by rewrite Hb2, Hb1).
  destruct (PageAlloc.mark_pages_ok a2 d 16) as (a3 & Hm3 & [Hw3 Hb3 Hc3 Hu3]);
    [done|lia|lia|lia| |].
  { intros _ i Hi%Bitmap.in_range_spec.
    rewrite Hu2, Hu1, !used_range, Hfree by (done || lia). unfold Bitmap.in_range. lia. }
  rewrite Hp1 in Hm2. rewrite Hp2 in Hm3.
  exists a1, a2, a3. split; [done|]. split; [done|]. split; [done|]. split; [done|].
  split; [by rewrite Hb3, Hb2|]. split; [by rewrite Hc3, Hc2|].
  intros i Hi. rewrite Hu3, Hu2, Hu1, !used_range by done.
  destruct (Bitmap.in_range d 16 i), (Bitmap.in_range t (h - t) i),
    (Bitmap.in_range (h + 256) a i); done.
Qed.
End regions.

Section memory_node.
Context `{Profile} `{LinkedOk}.
Variables (phy_addr len_pages : Z).
Let base' : Z := VIRT_BASE + phy_addr.

(** RAM starts at or below the device tree, fits the bitmap, and reaches at least one early
    heap past the image. *)
Record ram_node : Prop := {
  node_aligned : phy_addr mod PAGE_SIZE = 0;
  node_low : 0 ≤ phy_addr ≤ 0x40000000;
  node_pages : len_pages ≤ PAGE_ALLOC_PAGES;
  node_end : _end + EARLY_HEAP_SIZE ≤ base' + PAGE_SIZE * len_pages;
}.

(** The pages marked by [add_memory_node] on top of the moved early-heap bits. *)
Definition reserved (i : Z) : bool :=
  Bitmap.in_range (pg base' _dtb_start) 16 i
  || Bitmap.in_range (pg base' _text_start) (pg _text_start EARLY_HEAP) i
  || Bitmap.in_range (pg base' (EARLY_HEAP + EARLY_HEAP_SIZE)) (pg EARLY_HEAP _end) i.

(** The allocator after [add_memory_node]. *)
Record noded (al al' : BitmapPageAlloc) : Prop := {
  nd_wf : PageAlloc.wf al';
  nd_base : ram_base al' = base';
  nd_capacity : PageAlloc.capacity al' = PAGE_ALLOC_PAGES;
  nd_heap : ∀ i, 0 ≤ i < EARLY_HEAP_SIZE / PAGE_SIZE →
    PageAlloc.used al' (pg base' EARLY_HEAP + i) = PageAlloc.used al i;
  nd_ram : ∀ i, 0 ≤ i < len_pages →
    ¬ (pg base' EARLY_HEAP ≤ i < pg base' EARLY_HEAP + EARLY_HEAP_SIZE / PAGE_SIZE) →
    PageAlloc.used al' i = reserved i;
  nd_rest : ∀ i, len_pages ≤ i → PageAlloc.used al' i = PageAlloc.used al i;
}.

(** Where the regions lie, in pages. *)
Lemma node_layout :
  ram_node →
  ∃ d t h a,
    pg base' _dtb_start = d ∧ pg base' _text_start = t ∧ pg base' EARLY_HEAP = h ∧
    pg base' (EARLY_HEAP + EARLY_HEAP_SIZE) = h + 256 ∧ pg _text_start EARLY_HEAP = h - t ∧
    pg EARLY_HEAP _end = a ∧ 0 ≤ d ∧ t = d + 256 ∧ t ≤ h ∧ 256 ≤ a ∧ h + 256 + a ≤ len_pages ∧
    _dtb_start = base' + PAGE_SIZE * d ∧ _text_start = base' + PAGE_SIZE * t ∧
    EARLY_HEAP = base' + PAGE_SIZE * h.
Proof.
  intros [Ha [Hl1 Hl2] Hp He]. pose proof heap_aligned as Hal. pose proof heap_after_text.
  pose proof heap_before_end.
  do 4 eexists. split; [done|]. split; [done|]. split; [done|].
  unfold base', pg, _dtb_start, _text_start, _virt_base, VIRT_BASE, PAGE_SIZE, EARLY_HEAP_SIZE in *.
  split; [zdiv|]. split; [zdiv|]. split; [done|].
  split; [zdiv|]. split; [zdiv|]. split; [zdiv|]. split; [zdiv|]. split; [zdiv|].
  split; [zdiv|]. split; [zdiv|]. zdiv.
Qed.

(** The run of [add_memory_node], given the four steps on the allocator. *)
Lemma add_memory_node_eval s a0 a1 a2 a3 :
  ram_node →
  PageAlloc.expand_to (PAGE_ALLOC s) base' (PAGE_SIZE * len_pages) (PAGE_SIZE * 256) = Ok a0 →
  PageAlloc.mark_allocated a0 _text_start (pg _text_start EARLY_HEAP) = Ok a1 →
  PageAlloc.mark_allocated a1 (EARLY_HEAP + EARLY_HEAP_SIZE) (pg EARLY_HEAP _end) = Ok a2 →
  PageAlloc.mark_allocated a2 _dtb_start 16 = Ok a3 →
  add_memory_node {| pa := phy_addr |} (PAGE_SIZE * len_pages) s = Ok (tt, set_alloc a3 s).
Proof.
  intros [_ Hlow _ _] Hex Hm1 Hm2 Hm3. pose proof heap_bounds as Hbd.
  unfold add_memory_node. rewrite (critical_ok _ s tt
    (set_alloc a3 (set_DAIF (Z.lor (DAIF s) (daif_imm 2)) s))); [by destruct s|].
  rewrite virt_add by lia. fold base'.
  erewrite M_bind_ok; [|apply update_alloc_ok; exact Hex].
  unfold VIRT_BASE in Hbd. pose proof heap_before_end. pose proof image_in_window.
  pose proof heap_after_text.
  assert (∀ x y, 0 ≤ y ≤ x → x < 2 ^ 64 → usub x y = Ok (x - y)) as Hsub
    by (intros; apply usub_ok; unfold is_u64; lia).
  assert (∀ x y, x ≤ y → assert (x <=? y) = λ _, Ok tt) as Has
    by (intros x y ?; unfold assert; by rewrite (proj2 (Z.leb_le _ _))).
  assert (0 ≤ _text_start) by done. assert (_virt_base + 2 ^ 38 < 2 ^ 64) by done.
  assert (0 ≤ EARLY_HEAP_SIZE) by done.
  rewrite (lift_bind_ok _ _ _ (_dtb_start + 0x10000)) by by apply uadd_ok.
  rewrite (lift_bind_ok _ _ _ (EARLY_HEAP + EARLY_HEAP_SIZE))
    by (apply uadd_ok; unfold is_u64; lia).
  cbn [fst snd]. rewrite !Has by lia. rewrite !(lift_bind_ok _ _ _ tt) by done.
  assert (0 ≤ _text_start ≤ EARLY_HEAP) as Hs1 by done.
  rewrite (lift_bind_ok _ _ _ (EARLY_HEAP - _text_start)) by (apply Hsub; lia).
  fold (pg _text_start EARLY_HEAP).
  erewrite M_bind_ok; [|apply update_alloc_ok; exact Hm1].
  rewrite (lift_bind_ok _ _ _ (_end - EARLY_HEAP)) by (apply Hsub; lia).
  fold (pg EARLY_HEAP _end).
  erewrite M_bind_ok; [|apply update_alloc_ok; exact Hm2].
  rewrite (lift_bind_ok _ _ _ 0x10000) by (by rewrite Hsub).
  rewrite (update_alloc_ok _ _ a3); [done|exact Hm3].
Qed.

Lemma add_memory_node_run s :
  ram_node → early (PAGE_ALLOC s) →
  ∃ al', add_memory_node {| pa := phy_addr |} (PAGE_SIZE * len_pages) s
      = Ok (tt, set_alloc al' s) ∧ noded (PAGE_ALLOC s) al'.
Proof.
  intros Hn [Hwf Hb Hc Hrest].
  destruct (node_layout Hn) as (d & t & h & a & Hd & Ht & Hh & Hh2 & Hht & Ha &
    ? & ? & ? & ? & ? & Ed & Et & Eh).
  pose proof Hn as [_ Hlow Hpages _].
  destruct (PageAlloc.expand_to_ok (PAGE_ALLOC s) base' h len_pages 256)
    as (a0 & Hex & Hb0 & [Hw0 Hbb0 Hc0 Hold Hnew Hrest0]);
    [done|unfold base', VIRT_BASE; lia|by rewrite Hb|lia|lia|rewrite Hc; lia|].
  destruct (mark_regions a0 d t h a len_pages) as (a1 & a2 & a3 & Hm1 & Hm2 & Hm3 & Hw3 & Hb3 & Hc3 & Hu3);
    [done|lia..|rewrite Hc0, Hc; lia|done|].
  assert (∀ x, PageAlloc.page_addr a0 x = base' + PAGE_SIZE * x) as Hpa
    by (intros; unfold PageAlloc.page_addr; by rewrite Hb0).
  rewrite !Hpa in Hm1, Hm2, Hm3.
  assert (PAGE_SIZE * 256 = EARLY_HEAP_SIZE) as Hhs by done.
  replace (base' + PAGE_SIZE * (h + 256)) with (EARLY_HEAP + EARLY_HEAP_SIZE) in Hm2 by lia.
  rewrite <- Ed in Hm3. rewrite <- Et, <- Hht in Hm1. rewrite <- Ha in Hm2.
  exists a3. split; [by apply (add_memory_node_eval s a0 a1 a2)|split].
  - done.
  - by rewrite Hb3, Hb0.
  - by rewrite Hc3, Hc0.
  - intros i Hi. rewrite Hh, Hu3, Hold by (consts; lia). unfold Bitmap.in_range.
    by destruct (PageAlloc.used (PAGE_ALLOC s) i); [rewrite orb_true_r|consts; lia].
  - intros i Hi Hout. rewrite Hh in Hout. consts.
    rewrite Hu3, Hnew by lia. unfold reserved. by rewrite Hd, Ht, Hht, Hh2, Ha, orb_false_r.
  - intros i Hi. rewrite Hu3, Hrest0 by lia. unfold Bitmap.in_range.
    by destruct (PageAlloc.used (PAGE_ALLOC s) i); [rewrite orb_true_r|lia].
Qed.

(** Announcing the same RAM a second time, without debug assertions: the pages of the early
    heap are free. *)
Lemma add_memory_node_again s :
  ram_node → debug_assertions = false → PageAlloc.wf (PAGE_ALLOC s) → ram_base (PAGE_ALLOC s) = base' →
  PageAlloc.capacity (PAGE_ALLOC s) = PAGE_ALLOC_PAGES →
  ∃ al', add_memory_node {| pa := phy_addr |} (PAGE_SIZE * len_pages) s = Ok (tt, set_alloc al' s)
    ∧ ram_base al' = base' ∧ PageAlloc.capacity al' = PAGE_ALLOC_PAGES
    ∧ ∀ i, 0 ≤ i < EARLY_HEAP_SIZE / PAGE_SIZE → PageAlloc.used al' (pg base' EARLY_HEAP + i) = false.
Proof.
  intros Hn Hrel Hwf Hb Hc.
  destruct (node_layout Hn) as (d & t & h & a & Hd & Ht & Hh & Hh2 & Hht & Ha &
    ? & ? & ? & ? & ? & Ed & Et & Eh).
  pose proof Hn as [_ Hlow Hpages _].
  assert (PAGE_SIZE * 256 = EARLY_HEAP_SIZE) as Hhs by done.
  destruct (PageAlloc.expand_to_ok (PAGE_ALLOC s) base' 0 len_pages 256)
    as (a0 & Hex & Hb0 & [Hw0 _ Hc0 _ Hnew _]);
    [done|unfold base', VIRT_BASE; lia|rewrite Hb; lia|lia|lia|rewrite Hc; lia|].
  assert (∀ (b : bool), debug_assertions = true → b = false) as Hnd by (by rewrite Hrel).
  destruct (PageAlloc.mark_pages_ok a0 t (h - t)) as (a1 & Hm1 & [Hw1 Hb1 Hc1 Hu1]);
    [done|lia|lia|rewrite Hc0, Hc; lia|by intros; apply Hnd|].
  destruct (PageAlloc.mark_pages_ok a1 (h + 256) a) as (a2 & Hm2 & [Hw2 Hb2 Hc2 Hu2]);
    [done|lia|lia|rewrite Hc1, Hc0, Hc; lia|by intros; apply Hnd|].
  destruct (PageAlloc.mark_pages_ok a2 d 16) as (a3 & Hm3 & [Hw3 Hb3 Hc3 Hu3]);
    [done|lia|lia|rewrite Hc2, Hc1, Hc0, Hc; lia|by intros; apply Hnd|].
  unfold PageAlloc.page_addr in Hm1, Hm2, Hm3. rewrite Hb2, Hb1, Hb0, <- Ed in Hm3.
  rewrite Hb1, Hb0 in Hm2. rewrite Hb0, <- Et, <- Hht in Hm1.
  replace (base' + PAGE_SIZE * (h + 256)) with (EARLY_HEAP + EARLY_HEAP_SIZE) in Hm2 by lia.
  rewrite <- Ha in Hm2. exists a3. split; [by apply (add_memory_node_eval s a0 a1 a2)|].
  split; [by rewrite Hb3, Hb2, Hb1|]. split; [by rewrite Hc3, Hc2, Hc1, Hc0|].
  intros i Hi. change (EARLY_HEAP_SIZE / PAGE_SIZE) with 256 in Hi.
  rewrite Hh, Hu3, Hu2, Hu1, Hnew by lia. unfold Bitmap.in_range.
  repeat match goal with |- context [?x <=? ?y] => destruct (Z.leb_spec x y); try lia end;
    repeat match goal with |- context [?x <? ?y] => destruct (Z.ltb_spec x y); try lia end; done.
Qed.
End memory_node.
