(* ===== verification/PageTable.v ===== *)
(** * Page tables (kernel/src/aarch64/mmu.rs, [PageTable])

    The four-level tables of the AArch64 MMU.  A table is one frame of 512 descriptors; code
    refers to it by its kernel address.  Level-0 entries cover 512 GiB, level-1 entries
    1 GiB, level-2 entries 2 MiB and level-3 entries one page. *)

From S2P Require Import Prelude Interrupts Memory Kernel.

Local Open Scope Z_scope.

Definition PT_PAGE : Z := 3.
Definition PT_BLOCK : Z := 1.
Definition PT_AF : Z := Z.shiftl 1 10.
Definition PT_RW_EL1 : Z := Z.shiftl 0 6.
Definition PT_RW_EL0 : Z := Z.shiftl 1 6.
Definition PT_RO_EL1 : Z := Z.shiftl 2 6.
Definition PT_RO_EL0 : Z := Z.shiftl 3 6.
Definition PT_ISH : Z := Z.shiftl 3 8.
Definition PT_MEM : Z := Z.shiftl 0 2.
Definition PT_DEV : Z := Z.shiftl 1 2.

(** The two constants of [vmap_at]. *)
Definition COMMON_FLAGS : Z := Z.lor PT_PAGE PT_AF.
Definition TABLE_FLAGS : Z := Z.lor (Z.lor (Z.lor PT_PAGE PT_AF) PT_ISH) PT_MEM.

(** The address bits the code keeps of a table descriptor. *)
Definition TABLE_MASK : Z := 0x7FFFFFF000.

Definition size_of_PageTable : Z := 4096.

(** [PageTable::new], for the static tables. *)
Definition table_new : list Z := replicate 512 0.

(** [PageGetResult] and [PageGetMutResult]; a table by its kernel address. *)
Inductive PageGetResult : Type :=
| PGFree
| PGTable (table : Z)
| PGBlock.

Inductive ContiguousRegion : Type :=
| Allocated (len_bytes : Z)
| Free (len_bytes : Z).

(** [self.0[idx]] and [self.0[idx] = e]. *)
Definition tget (m : pmem) (self idx : Z) : res Z :=
  if idx <? 512 then read_word m (pa (from_virt self) + 8 * idx) else Fault IndexOutOfBounds.

Definition tset (m : pmem) (self idx e : Z) : res pmem :=
  if idx <? 512 then write_word m (pa (from_virt self) + 8 * idx) e else Fault IndexOutOfBounds.

(** Where a descriptor points. *)
Definition table_of (raw : Z) : Z := virt {| pa := Z.land raw TABLE_MASK |}.

(** [PageTable::get] (and [get_mut], which differs in mutability only). *)
Definition get (m : pmem) (self idx : Z) : res PageGetResult :=
  raw ← tget m self idx;
  Ok (if raw =? 0 then PGFree
      else if Z.land raw 3 =? PT_BLOCK then PGBlock
      else PGTable (table_of raw)).

Definition get_mut (m : pmem) (self idx : Z) : res PageGetResult :=
  raw ← tget m self idx;
  Ok (if raw =? 0 then PGFree
      else if Z.land raw 3 =? PT_BLOCK then PGBlock
      else PGTable (virt_mut {| pa := Z.land raw TABLE_MASK |})).

(** [tlb_flush]: nothing cached survives. *)
Definition tlb_flush : M kst unit := modify (set_tlb ∅).

(** What page-table code needs from the page allocator: a fresh zeroed table, or the panic
    of an allocator that has run out of pages.  [free_frame] is the allocator's pool and
    [src_ok] its invariant, neither of which depends on the contents of memory. *)
Class TableAlloc : Type := {
  new_table : M kst Z;
  src_ok : kst → Prop;
  free_frame : kst → Z → Prop;
  new_table_spec s :
    src_ok s →
    match new_table s with
    | Ok (t, s') => ∃ g, t = VIRT_BASE + PAGE_SIZE * g ∧ 0 ≤ g < 2 ^ 27 ∧ free_frame s g
        ∧ src_ok s' ∧ (∀ h, free_frame s' h ↔ free_frame s h ∧ h ≠ g)
        ∧ phys s' = <[g := replicate 512 0]> (phys s) ∧ shape s' = shape s ∧ tlb s' = tlb s
    | Fault f => f = PanicMsg "OOM" ∧ ∀ g, ¬ free_frame s g
    end;
  free_frame_backed s g : src_ok s → free_frame s g → frame_ok (phys s) g;
  src_ok_phys s m : (∀ g, frame_ok (phys s) g → frame_ok m g) → src_ok s → src_ok (set_phys m s);
  src_ok_tlb s t : src_ok s → src_ok (set_tlb t s);
  free_frame_phys s m g : free_frame (set_phys m s) g ↔ free_frame s g;
  free_frame_tlb s t g : free_frame (set_tlb t s) g ↔ free_frame s g;
}.

Section ops.
Context `{Profile} `{TableAlloc}.

Definition get_mut_or_alloc (self idx flags : Z) : M kst Z :=
  m ← gets phys;
  raw ← lift (tget m self idx);
  if raw =? 0 then
    new_table ← new_table;
    let phy_addr := from_virt new_table in
    on_mem (λ m, tset m self idx (Z.lor (pa phy_addr) flags));;
    mret new_table
  else
    let phy_addr := {| pa := Z.land raw TABLE_MASK |} in
    mret (virt_mut phy_addr).

Definition vmap_at (self vaddr : Z) (paddr : PhyAddr) (attrs : Z) : M kst unit :=
  lift (assert (PAGE_SIZE =? 4096) "assertion failed: PAGE_SIZE == 4096");;
  lift (assert (vaddr <? 0x8000000000) "assertion failed: vaddr < 0x8000000000");;
  lift (assert (vaddr mod PAGE_SIZE =? 0) "assertion failed: vaddr % PAGE_SIZE == 0");;
  l1 ← get_mut_or_alloc self (Z.shiftr vaddr 39) TABLE_FLAGS;
  l2 ← get_mut_or_alloc l1 (Z.shiftr vaddr 30 mod 512) TABLE_FLAGS;
  l3 ← get_mut_or_alloc l2 (Z.shiftr vaddr 21 mod 512) TABLE_FLAGS;
  m ← gets phys;
  entry ← lift (tget m l3 (Z.shiftr vaddr 12 mod 512));
  lift (assert (entry =? 0) "Tried to map memory that is already occupied");;
  on_mem (λ m, tset m l3 (Z.shiftr vaddr 12 mod 512)
                 (Z.lor (Z.lor (pa paddr) COMMON_FLAGS) attrs));;
  tlb_flush.

Definition vunmap_single (self vaddr : Z) : M kst unit :=
  lift (assert (PAGE_SIZE =? 4096) "assertion failed: PAGE_SIZE == 4096");;
  lift (assert (vaddr <? 0x8000000000) "assertion failed: vaddr < 0x8000000000");;
  lift (assert (vaddr mod PAGE_SIZE =? 0) "assertion failed: vaddr % PAGE_SIZE == 0");;
  m ← gets phys;
  r0 ← lift (get_mut m self (Z.shiftr vaddr 39));
  match r0 with
  | PGFree => mret tt
  | PGTable l1 =>
      r1 ← lift (get_mut m l1 (Z.shiftr vaddr 30 mod 512));
      match r1 with
      | PGFree => mret tt
      | PGTable l2 =>
          r2 ← lift (get_mut m l2 (Z.shiftr vaddr 21 mod 512));
          match r2 with
          | PGFree => mret tt
          | PGTable l3 =>
              on_mem (λ m, tset m l3 (Z.shiftr vaddr 12 mod 512) 0);;
              tlb_flush
          | PGBlock => lift (Fault (PanicMsg "Splitting L2 blocks is not implemented"))
          end
      | PGBlock => lift (Fault (PanicMsg "Splitting L1 blocks is not implemented"))
      end
  | PGBlock => lift (Fault (PanicMsg "Splitting L0 blocks is not implemented"))
  end.

(** [for offset in (0..size_bytes).step_by(PAGE_SIZE)]. *)
Fixpoint each_offset (offsets : list Z) (body : Z → M kst unit) : M kst unit :=
  match offsets with
  | [] => mret tt
  | offset :: rest => body offset;; each_offset rest body
  end.

Definition offsets (size_bytes : Z) : list Z :=
  (λ k, PAGE_SIZE * k) <$> seqZ 0 (div_ceil size_bytes PAGE_SIZE).

Definition vunmap (self vaddr size_bytes : Z) : M kst unit :=
  each_offset (offsets size_bytes) (λ offset,
    va ← lift (uadd vaddr offset);
    vunmap_single self va).

(** ** Looking for room *)

(** The loop state of the helper: [current_vaddr], [current_len], [is_allocated]. *)
Definition measure_state : Type := Z * Z * bool.

(** One round of its loop; [recurse] is the recursive call on an inner table, at
    [current_vaddr] and [addr_shift - 9]. *)
Definition measure_round (m : pmem) (self max_alloc_bytes max_free_bytes addr_shift : Z)
    (recurse : Z → Z → res ContiguousRegion) (idx : Z)
    '((current_vaddr, current_len, is_allocated) : measure_state)
    : res (ctl measure_state ContiguousRegion) :=
  let page_size := ubit (addr_shift - 9) in
  result ← (if negb (addr_shift =? 21) then get m self idx
            else raw ← tget m self idx; Ok (if raw =? 0 then PGFree else PGBlock));
  c ← match result with
      | PGBlock =>
          if negb is_allocated && negb (current_len =? 0)
          then Ok (Return (Free current_len)) else Ok (Continue true)
      | PGFree =>
          if is_allocated && negb (current_len =? 0)
          then Ok (Return (Allocated current_len)) else Ok (Continue false)
      | PGTable inner_table =>
          assert (negb (addr_shift =? 12)) "Got an inner page table at a L3 table";;
          let max_expected_size :=
            (512 - Z.shiftr current_vaddr (addr_shift - 9) mod 512) * (page_size / 512) in
          r ← recurse inner_table current_vaddr;
          match r with
          | Allocated len_bytes =>
              if negb is_allocated && negb (current_len =? 0)
              then Ok (Return (Free current_len))
              else if negb (len_bytes =? max_expected_size)
              then len ← uadd current_len len_bytes; Ok (Return (Allocated len))
              else Ok (Continue true)
          | Free len_bytes =>
              if is_allocated && negb (current_len =? 0)
              then Ok (Return (Allocated current_len))
              else if negb (len_bytes =? max_expected_size)
              then len ← uadd current_len len_bytes; Ok (Return (Free len))
              else Ok (Continue false)
          end
      end;
  match c with
  | Return region => Ok (Return region)
  | Continue is_allocated =>
      current_len ← uadd current_len page_size;
      current_vaddr ← uadd current_vaddr page_size;
      if (is_allocated : bool) && (max_alloc_bytes <=? current_len)
      then Ok (Return (Allocated current_len))
      else if negb is_allocated && (max_free_bytes <=? current_len)
      then Ok (Return (Free current_len))
      else Ok (Continue (current_vaddr, current_len, is_allocated))
  end.

Fixpoint measure_contiguous_region_helper (depth : nat) (m : pmem)
    (self start_vaddr max_alloc_bytes max_free_bytes addr_shift : Z) : res ContiguousRegion :=
  match depth with
  | O => Fault OutOfFuel
  | S depth =>
      assert (21 <=? addr_shift) "addr_shift < 21";;
      assert (addr_shift <=? 39) "addr_shift > 39";;
      r ← for_range (Z.shiftr start_vaddr addr_shift mod 512) 512
            (measure_round m self max_alloc_bytes max_free_bytes addr_shift
              (λ inner_table current_vaddr,
                 measure_contiguous_region_helper depth m inner_table current_vaddr
                   max_alloc_bytes max_free_bytes (addr_shift - 9)))
            (start_vaddr, 0, false);
      match r with
      | Return region => Ok region
      | Continue (_, current_len, is_allocated) =>
          Ok (if (is_allocated : bool) then Allocated current_len else Free current_len)
      end
  end.

(** Tables nest three deep below the root before pages start. *)
Definition measure_contiguous_region (m : pmem)
    (self start_vaddr max_alloc_bytes max_free_bytes : Z) : res ContiguousRegion :=
  measure_contiguous_region_helper 3 m self start_vaddr max_alloc_bytes max_free_bytes 39.

(** The loop state of [find_hole]: [current_vaddr], and the returned address once there is
    one. *)
Definition find_hole_step (m : pmem) (self size_bytes : Z)
    '((current_vaddr, found) : Z * option Z) : res (Z * option Z) :=
  r ← measure_contiguous_region m self current_vaddr 0xffffffffffffffff size_bytes;
  match r with
  | Allocated len_bytes =>
      current_vaddr ← uadd current_vaddr len_bytes; Ok (current_vaddr, found)
  | Free len_bytes =>
      if size_bytes <=? len_bytes then Ok (current_vaddr, Some current_vaddr)
      else current_vaddr ← uadd current_vaddr len_bytes; Ok (current_vaddr, found)
  end.

Definition find_hole (m : pmem) (self start_vaddr size_bytes : Z) : res (option Z) :=
  '(_, found) ← while
    (λ '(current_vaddr, found), bool_decide (found = None) && (current_vaddr <? 0x8000000000))
    (find_hole_step m self size_bytes) (start_vaddr, None);
  Ok found.

Definition vmap (self : Z) (paddr : PhyAddr) (size_bytes attrs : Z) : M kst Z :=
  lift (assert (size_bytes mod PAGE_SIZE =? 0) "assertion failed: size_bytes % PAGE_SIZE == 0");;
  m ← gets phys;
  hole ← lift (find_hole m self 0x50000000 size_bytes);
  vaddr ← lift (expect hole "Out of virtual memory space");
  each_offset (offsets size_bytes) (λ offset,
    va ← lift (uadd vaddr offset);
    p ← lift (uadd (pa paddr) offset);
    vmap_at self va {| pa := p |} attrs);;
  mret vaddr.
End ops.

(** ** The kernel's own tables *)

(** [make_page_table_l0] and [make_page_table_l1], given the physical addresses of the two
    level-1 tables. *)
Definition make_page_table_l0 (page_table : list Z) (TABLE_L1_MEM TABLE_L1_DEV : Z)
    : res (list Z) :=
  t ← aset page_table 0 (Z.lor TABLE_L1_MEM PT_PAGE);
  t ← aset t 510 (Z.lor TABLE_L1_MEM PT_PAGE);
  aset t 511 (Z.lor TABLE_L1_DEV PT_PAGE).

Definition make_page_table_l1 (page_table : list Z) (attr : Z) : res (list Z) :=
  fold_each (seqZ 0 512) (λ i t,
    aset t i (Z.lor (Z.lor (Z.lor (Z.lor (Z.lor (Z.shiftl i 30) PT_BLOCK) PT_AF) PT_RW_EL1)
                           PT_ISH) attr)) page_table.
