(* ===== verification/KernelTables.v ===== *)
(** * Page tables from the page allocator (kernel/src/aarch64/mmu.rs, kernel/src/page_alloc.rs)

    [PageBox::leak(PageBox::<PageTable>::new_zeroed())] as the source of tables: the global
    allocator keeps the promise [TableAlloc] makes to the page-table code. *)

From S2P Require Import Prelude Interrupts.
From S2P Require Bitmap.
From S2P Require Import Memory.
From S2P Require PageAlloc.
From S2P Require Import Kernel PageTable.
Import PageAlloc (buf, len, BitmapPageAlloc, ram_base).

Local Open Scope Z_scope.

(** A sound allocator whose free pages are memory. *)
Record alloc_ok (s : kst) : Prop := {
  ao_wf : PageAlloc.wf (PAGE_ALLOC s);
  ao_window : PageAlloc.window (PAGE_ALLOC s);
  ao_backed : ∀ i, 0 ≤ i < PageAlloc.capacity (PAGE_ALLOC s) →
    PageAlloc.used (PAGE_ALLOC s) i = false → frame_ok (phys s) (PageAlloc.frame_of (PAGE_ALLOC s) i);
}.

(** The frames of the free pages. *)
Definition free_page_frame (al : BitmapPageAlloc) (g : Z) : Prop :=
  ∃ i, 0 ≤ i < PageAlloc.capacity al ∧ PageAlloc.used al i = false ∧ g = PageAlloc.frame_of al i.

Section source.
Context `{Profile}.

Definition kernel_new_table : M kst Z :=
  b ← box_new_zeroed size_of_PageTable;
  box_leak b.

Lemma frame_bounds al i :
  PageAlloc.window al → 0 ≤ i < PageAlloc.capacity al →
  0 ≤ PageAlloc.frame_of al i < 2 ^ 27.
Proof.
  intros [Hlo Hhi] Hi. unfold PageAlloc.frame_of, PageAlloc.page_addr, PAGE_SIZE in *. zdiv.
Qed.

Lemma page_va al i :
  PageAlloc.wf al → PageAlloc.window al →
  PageAlloc.page_addr al i = VIRT_BASE + PAGE_SIZE * PageAlloc.frame_of al i.
Proof.
  intros Hwf [Hlo _]. pose proof (PageAlloc.wf_aligned _ Hwf).
  unfold PageAlloc.frame_of, PageAlloc.page_addr, PAGE_SIZE, VIRT_BASE in *. zdiv.
Qed.

(** Marking a hole as allocated takes exactly its frames out of the pool. *)
Lemma taken_pool al al' i n :
  PageAlloc.window al → PageAlloc.hole al i n → PageAlloc.set_pages al al' i n true →
  PageAlloc.window al' ∧ (∀ j, PageAlloc.frame_of al' j = PageAlloc.frame_of al j)
  ∧ ∀ h, free_page_frame al' h
      ↔ free_page_frame al h ∧ ¬ (PageAlloc.frame_of al i ≤ h < PageAlloc.frame_of al i + n).
Proof.
  intros [Hlo Hhi] (Hi & Hn & Hfree) [Hwf' Hb Hc Hu].
  assert (∀ j, PageAlloc.frame_of al' j = PageAlloc.frame_of al j) as Hfr
    by (intros; unfold PageAlloc.frame_of; by rewrite Hb).
  split; [|split; [done|]].
  { split; [by rewrite Hb|]. unfold PageAlloc.page_addr in *. by rewrite Hb, Hc. }
  intros h. split.
  - intros (j & Hj & Huj & ->). rewrite Hc in Hj. rewrite Hu in Huj by lia. rewrite Hfr.
    unfold Bitmap.in_range in Huj. destruct ((i <=? j) && (j <? i + n)) eqn:E; [done|].
    split; [by exists j|]. unfold PageAlloc.frame_of. lia.
  - intros [(j & Hj & Huj & ->) Hne]. exists j. rewrite Hc, Hu, Hfr by lia.
    split; [done|]. split; [|done]. unfold Bitmap.in_range, PageAlloc.frame_of in *.
    destruct ((i <=? j) && (j <? i + n)) eqn:E; [lia|done].
Qed.

Lemma taken_shape s s' i n :
  PageAlloc.set_pages (PAGE_ALLOC s) (PAGE_ALLOC s') i n true → daif s' = daif s → shape s' = shape s.
Proof. intros [_ Hb Hc _] Hd. unfold shape. by rewrite Hb, Hc, Hd. Qed.

(** An allocator that has handed out a hole is sound again, whatever is written to the frames
    of the hole. *)
Lemma taken_ok s al' m' i n :
  alloc_ok s → PageAlloc.hole (PAGE_ALLOC s) i n → PageAlloc.set_pages (PAGE_ALLOC s) al' i n true →
  (∀ g, frame_ok (phys s) g → frame_ok m' g) → alloc_ok (set_phys m' (set_alloc al' s)).
Proof.
  intros [Hwf Hwin Hback] Hhole Hsp Hm.
  destruct (taken_pool _ _ _ _ Hwin Hhole Hsp) as (Hwin' & Hfr & Hpool).
  split; [apply Hsp|done|]. cbn [set_phys set_alloc PAGE_ALLOC phys]. intros j Hj Hu.
  destruct (proj1 (Hpool (PageAlloc.frame_of al' j))) as [(k & Hk & Huk & E) _]; [by exists j|].
  apply Hm. rewrite E. by apply Hback.
Qed.

Lemma kernel_new_table_spec s :
  alloc_ok s →
  match kernel_new_table s with
  | Ok (t, s') => ∃ g, t = VIRT_BASE + PAGE_SIZE * g ∧ 0 ≤ g < 2 ^ 27
      ∧ free_page_frame (PAGE_ALLOC s) g ∧ alloc_ok s'
      ∧ (∀ h, free_page_frame (PAGE_ALLOC s') h ↔ free_page_frame (PAGE_ALLOC s) h ∧ h ≠ g)
      ∧ phys s' = <[g := replicate 512 0]> (phys s) ∧ shape s' = shape s ∧ tlb s' = tlb s
  | Fault f => f = PanicMsg "OOM" ∧ ∀ g, ¬ free_page_frame (PAGE_ALLOC s) g
  end.
Proof.
  intros [Hwf Hwin Hback].
  unfold kernel_new_table, box_new_zeroed, box_leak, mbind, M_bind, mret, M_ret.
  rewrite critical_run. unfold on_alloc_mem, PageAlloc.alloc_zeroed. cbn [set_DAIF kst_daif phys PAGE_ALLOC].
  change (div_ceil size_of_PageTable PAGE_SIZE) with 1.
  destruct (PageAlloc.alloc_ok (PAGE_ALLOC s) 1 Hwf ltac:(lia))
    as [(i & al' & -> & _ & Hhole & _ & Hsp)|[-> Hnone]]; run.
  - destruct Hhole as (? & ? & Hfree). fold (PageAlloc.capacity (PAGE_ALLOC s)) in *.
    assert (0 ≤ i < PageAlloc.capacity (PAGE_ALLOC s)) as Hi by lia.
    assert (PageAlloc.used (PAGE_ALLOC s) i = false) as Hui by (apply Hfree; lia).
    unfold PageAlloc.slice_zero, PageAlloc.as_ptr. cbn [buf].
    rewrite PageAlloc.write_page_ok by auto. run.
    exists (PageAlloc.frame_of (PAGE_ALLOC s) i).
    assert (PageAlloc.hole (PAGE_ALLOC s) i 1) as Hh by done.
    destruct (taken_pool _ _ _ _ Hwin Hh Hsp) as (_ & _ & Hpool).
    split; [by apply page_va|]. split; [by apply frame_bounds|].
    split; [by exists i|]. split; [|split; [|split; [done|split; [|done]]]].
    + apply (taken_ok s al' (<[PageAlloc.frame_of (PAGE_ALLOC s) i := replicate 512 0]> (phys s)) i 1);
        [by split|done|done|]. intros g Hg. by apply frame_ok_insert.
    + intros h. rewrite Hpool. split; intros [? ?]; (split; [done|lia]).
    + by apply (taken_shape s _ i 1).
  - simpl. split; [done|]. intros g (i & Hi & Hui & _). apply (Hnone ltac:(lia) i).
    split; [lia|]. split; [unfold PageAlloc.capacity in Hi; lia|].
    intros j Hj. by replace j with i by lia.
Qed.

#[export] Program Instance kernel_tables : TableAlloc := {|
  new_table := kernel_new_table;
  src_ok := alloc_ok;
  free_frame s := free_page_frame (PAGE_ALLOC s);
|}.
Next Obligation. intros s Hs. by apply kernel_new_table_spec. Qed.
Next Obligation. intros s g [_ _ Hb] (i & Hi & Hu & ->). by apply Hb. Qed.
Next Obligation. intros s m Hm [Hw Hwin Hb]. split; simpl; auto. Qed.
Next Obligation. intros s t [Hw Hwin Hb]. by split. Qed.
Next Obligation. done. Qed.
Next Obligation. done. Qed.
End source.
