(* ===== verification/KernelSpec.v ===== *)
(** * Properties of boot memory and boxed pages (kernel/src/page_alloc.rs)

    The memory map after boot, values kept in [PageBox]es, and the source of page tables. *)

From S2P Require Import Prelude Interrupts.
From S2P Require Bitmap.
From S2P Require Import Memory.
From S2P Require PageAlloc.
From S2P Require HeapSpec.
From S2P Require Import Kernel PageTable KernelTables.
Import PageAlloc (PageSlice, buf, len, BitmapPageAlloc, ram_base).

Local Open Scope Z_scope.

(** ** Words of memory *)

(** Word [k] of physical memory. *)
Definition word (m : pmem) (k : Z) : option Z := fr ← m !! (k / 512); fr !! Z.to_nat (k mod 512).

Definition words_ok (m : pmem) (k n : Z) : Prop := ∀ j, k ≤ j < k + n → frame_ok m (j / 512).

Lemma addr_word k : 0 ≤ k < 2 ^ 36 → pa (from_virt (VIRT_BASE + 8 * k)) = 8 * k.
Proof. intros Hk. apply from_virt_add. lia. Qed.

Lemma word_addr k : 0 ≤ k → 8 * k = PAGE_SIZE * (k / 512) + 8 * (k mod 512).
Proof. intros. unfold PAGE_SIZE. zdiv. Qed.

Lemma read_word_word m k :
  0 ≤ k → frame_ok m (k / 512) → ∃ w, word m k = Some w ∧ read_word m (8 * k) = Ok w.
Proof.
  intros Hk (fr & Hf & Hl). assert (0 ≤ k mod 512 < 512) by (apply Z.mod_pos_bound; lia).
  unfold word. rewrite Hf. simpl. destruct (lookup_lt_is_Some_2 fr (Z.to_nat (k mod 512))) as [w Hw]; [lia|].
  exists w. split; [done|]. rewrite word_addr, (read_word_frame m _ fr) by done. by apply aget_ok.
Qed.

Lemma write_word_word m k v :
  0 ≤ k → frame_ok m (k / 512) →
  ∃ m', write_word m (8 * k) v = Ok m'
    ∧ (∀ j, 0 ≤ j → word m' j = if j =? k then Some v else word m j)
    ∧ (∀ g, g ≠ k / 512 → m' !! g = m !! g).
Proof.
  intros Hk (fr & Hf & Hl). assert (0 ≤ k mod 512 < 512) by (apply Z.mod_pos_bound; lia).
  rewrite word_addr, (write_word_frame m _ fr) by (done || lia).
  eexists. split; [done|]. split.
  - intros j Hj. unfold word. destruct (Z.eqb_spec j k) as [->|Hne].
    + rewrite lookup_insert_eq. simpl. by rewrite list_lookup_insert_eq by lia.
    + destruct (decide (j / 512 = k / 512)) as [E|E].
      * rewrite E, lookup_insert_eq, Hf. simpl. rewrite list_lookup_insert_ne; [done|]. zdiv.
      * by rewrite lookup_insert_ne.
  - intros g Hg. by rewrite lookup_insert_ne.
Qed.

Lemma store_words_ok ws : ∀ m k,
  0 ≤ k → k + Z.of_nat (length ws) ≤ 2 ^ 36 → words_ok m k (Z.of_nat (length ws)) →
  ∃ m', store_words m (VIRT_BASE + 8 * k) ws = Ok m'
    ∧ (∀ j, 0 ≤ j → word m' j =
         if (k <=? j) && (j <? k + Z.of_nat (length ws)) then ws !! Z.to_nat (j - k) else word m j)
    ∧ (∀ g, (∀ j, k ≤ j < k + Z.of_nat (length ws) → g ≠ j / 512) → m' !! g = m !! g)
    ∧ (∀ g, frame_ok m g → frame_ok m' g).
Proof.
  induction ws as [|w ws IH]; intros m k Hk Hb Hw.
  - exists m. split_and!; [done| |done|done]. intros j Hj. simpl.
    destruct (Z.leb_spec k j), (Z.ltb_spec j (k + Z.of_nat 0)); simpl; done || lia.
  - cbn [length] in *. cbn [store_words].
    destruct (write_word_word m k w Hk ltac:(apply Hw; lia)) as (m1 & Hm1 & Hw1 & Hg1).
    rewrite addr_word by lia. rewrite Hm1. run.
    replace (VIRT_BASE + 8 * k + 8) with (VIRT_BASE + 8 * (k + 1)) by lia.
    assert (∀ g, frame_ok m g → frame_ok m1 g) as Hf1
      by (intros g; by eapply write_word_frame_ok).
    destruct (IH m1 (k + 1)) as (m2 & Hm2 & Hw2 & Hg2 & Hf2); [lia|lia| |].
    { intros j Hj. apply Hf1, Hw. lia. }
    exists m2. split_and!; [done| | |auto].
    + intros j Hj. rewrite Hw2, Hw1 by done.
      destruct (Z.leb_spec (k + 1) j), (Z.ltb_spec j (k + 1 + Z.of_nat (length ws))),
        (Z.leb_spec k j), (Z.ltb_spec j (k + Z.of_nat (S (length ws)))), (Z.eqb_spec j k);
        simpl; try lia; try done.
      * replace (Z.to_nat (j - k)) with (S (Z.to_nat (j - (k + 1)))) by lia. done.
      * subst j. by rewrite Z.sub_diag.
    + intros g Hg. rewrite Hg2, Hg1; [done| |]; [|intros j Hj]; apply Hg; lia.
Qed.

Lemma load_words_ok ws : ∀ m k,
  0 ≤ k → k + Z.of_nat (length ws) ≤ 2 ^ 36 → words_ok m k (Z.of_nat (length ws)) →
  (∀ j, k ≤ j < k + Z.of_nat (length ws) → word m j = ws !! Z.to_nat (j - k)) →
  load_words m (VIRT_BASE + 8 * k) (length ws) = Ok ws.
Proof.
  induction ws as [|w ws IH]; intros m k Hk Hb Hok Hw; [done|].
  cbn [length] in *. cbn [load_words]. rewrite addr_word by lia.
  destruct (read_word_word m k Hk ltac:(apply Hok; lia)) as (x & Hx & ->). run.
  rewrite Hw, Z.sub_diag in Hx by lia. simpl in Hx. injection Hx as <-.
  replace (VIRT_BASE + 8 * k + 8) with (VIRT_BASE + 8 * (k + 1)) by lia.
  rewrite (IH m (k + 1)); [done|lia|lia| |].
  - intros j Hj. apply Hok. lia.
  - intros j Hj. rewrite Hw by lia.
    by replace (Z.to_nat (j - k)) with (S (Z.to_nat (j - (k + 1)))) by lia.
Qed.

(** ** Boxes *)

Section boxes.
Context `{Profile}.

(** The statement [drop(slice)] is the allocator's operation under the lock. *)
Lemma slice_drop_run s sl :
  slice_drop sl s = match PageAlloc.slice_drop (phys s) (PAGE_ALLOC s) sl with
                    | Ok (al, m) => Ok (tt, set_phys m (set_alloc al s))
                    | Fault f => Fault f
                    end.
Proof.
  unfold slice_drop, PageAlloc.slice_drop. destruct debug_assertions.
  - unfold mbind at 1, M_bind at 1. unfold on_mem.
    destruct (write_bytes (phys s) (buf sl) 161 (len sl / 8)) as [m|f]; [|done]. run.
    rewrite critical_run. unfold update_alloc, on_alloc. cbn [set_DAIF kst_daif PAGE_ALLOC set_phys].
    by destruct (PageAlloc.free _ _ _).
  - run. unfold mbind at 1, M_bind at 1. cbn.
    rewrite critical_run. unfold update_alloc, on_alloc. cbn [set_DAIF kst_daif PAGE_ALLOC set_phys].
    destruct (PageAlloc.free _ _ _); [|done]. by destruct s.
Qed.

Lemma alloc_run s n :
  alloc n s = match PageAlloc.alloc (PAGE_ALLOC s) n with
              | Ok (Some sl, al) => Ok (sl, set_alloc al s)
              | Ok (None, _) => Fault (PanicMsg "OOM")
              | Fault f => Fault f
              end.
Proof.
  unfold alloc. rewrite critical_run. unfold mbind, M_bind, on_alloc.
  cbn [set_DAIF kst_daif PAGE_ALLOC]. by destruct (PageAlloc.alloc _ _) as [[[sl|] al]|f].
Qed.

(** The words of a slice of [n] pages from page [i] on. *)
Lemma slice_words al i n :
  PageAlloc.wf al → PageAlloc.window al → 0 ≤ i → 0 ≤ n → i + n ≤ PageAlloc.capacity al →
  PageAlloc.page_addr al i = VIRT_BASE + 8 * (512 * PageAlloc.frame_of al i)
  ∧ 0 ≤ PageAlloc.frame_of al i ∧ PageAlloc.frame_of al i + n ≤ 2 ^ 27.
Proof.
  intros Hwf Hwin Hi Hn Hc. split.
  - rewrite page_va by done. unfold PAGE_SIZE. lia.
  - destruct Hwin as [Hlo Hhi]. unfold PageAlloc.frame_of, PageAlloc.page_addr, PAGE_SIZE in *. zdiv.
Qed.

Lemma box_new_run s value :
  alloc_ok s →
  let size := 8 * Z.of_nat (length value) in
  (∃ i al m, box_new size value s
       = Ok ({| slice := {| buf := PageAlloc.page_addr (PAGE_ALLOC s) i;
                            len := PAGE_SIZE * div_ceil size PAGE_SIZE |} |},
             set_phys m (set_alloc al s))
     ∧ PageAlloc.alloc (PAGE_ALLOC s) (div_ceil size PAGE_SIZE)
       = Ok (Some {| buf := PageAlloc.page_addr (PAGE_ALLOC s) i;
                     len := PAGE_SIZE * div_ceil size PAGE_SIZE |}, al)
     ∧ PageAlloc.hole (PAGE_ALLOC s) i (div_ceil size PAGE_SIZE)
     ∧ load_words m (PageAlloc.page_addr (PAGE_ALLOC s) i) (length value) = Ok value
     ∧ (∀ g, frame_ok (phys s) g → frame_ok m g)
     ∧ (∀ g, ¬ free_page_frame (PAGE_ALLOC s) g → m !! g = phys s !! g))
  ∨ (box_new size value s = Fault (PanicMsg "OOM")
     ∧ (value = [] ∨ ∀ i, ¬ PageAlloc.hole (PAGE_ALLOC s) i (div_ceil size PAGE_SIZE))).
Proof.
  intros [Hwf Hwin Hback] size. set (n := div_ceil size PAGE_SIZE).
  assert (8 * Z.of_nat (length value) ≤ PAGE_SIZE * n < 8 * Z.of_nat (length value) + PAGE_SIZE) as Hn.
  { unfold n, size. rewrite div_ceil_spec by done. unfold PAGE_SIZE. zdiv. }
  assert (box_new size value s = match PageAlloc.alloc (PAGE_ALLOC s) n with
    | Ok (Some sl, al) => m ← store_words (phys s) (buf sl) value;
                          Ok ({| slice := sl |}, set_phys m (set_alloc al s))
    | Ok (None, _) => Fault (PanicMsg "OOM")
    | Fault f => Fault f
    end) as ->.
  { unfold box_new. unfold mbind at 1, M_bind at 1. rewrite alloc_run. fold n.
    destruct (PageAlloc.alloc _ _) as [[[sl|] al]|f]; [|done..].
    unfold mbind, M_bind, on_mem. cbn [phys set_alloc]. by destruct (store_words _ _ _). }
  destruct (PageAlloc.alloc_ok (PAGE_ALLOC s) n Hwf) as [(i & al & Ha & Hn0 & Hh & _ & Hsp)|[Ha Hno]];
    [unfold PAGE_SIZE in *; lia| |]; rewrite Ha.
  - left. exists i, al. pose proof Hh as (Hi & Hc & Hfree). fold (PageAlloc.capacity (PAGE_ALLOC s)) in Hc.
    destruct (slice_words (PAGE_ALLOC s) i n) as (Haddr & Hf0 & Hf1); [done|done|done|lia|done|].
    set (f := PageAlloc.frame_of (PAGE_ALLOC s) i) in *.
    assert (∀ j, 512 * f ≤ j < 512 * f + Z.of_nat (length value) →
      free_page_frame (PAGE_ALLOC s) (j / 512)) as Hpool.
    { intros j Hj. unfold PAGE_SIZE in Hn. exists (i + (j / 512 - f)). split; [zdiv|].
      split; [apply Hfree; zdiv|]. unfold f, PageAlloc.frame_of. lia. }
    assert (words_ok (phys s) (512 * f) (Z.of_nat (length value))) as Hwords.
    { intros j Hj. destruct (Hpool j Hj) as (x & Hx & Hux & ->). by apply Hback. }
    assert (512 * f + Z.of_nat (length value) ≤ 2 ^ 36) as Hlim by (unfold PAGE_SIZE in Hn; lia).
    destruct (store_words_ok value (phys s) (512 * f)) as (m & Hm & Hw & Hg & Hok); [lia|done|done|].
    exists m. split_and!; [|done|done| |done|].
    + cbn [buf]. rewrite Haddr, Hm. done.
    + rewrite Haddr. apply load_words_ok; [lia|done| |].
      * intros j Hj. by apply Hok, Hwords.
      * intros j Hj. rewrite Hw by lia.
        by rewrite (proj2 (Z.leb_le _ _)), (proj2 (Z.ltb_lt _ _)) by lia.
    + intros g Hgn. apply Hg. intros j Hj ->. by apply Hgn, Hpool.
  - right. split; [done|]. destruct value as [|v value]; [by left|right].
    apply Hno. cbn [length] in Hn. unfold PAGE_SIZE in Hn. lia.
Qed.
End boxes.

(** ** A kernel with 64 free pages *)

Definition small_kernel : kst :=
  {| PAGE_ALLOC := HeapSpec.small_alloc; phys := HeapSpec.small_mem; daif := 0; tlb := ∅ |}.

Lemma small_kernel_ok : alloc_ok small_kernel.
Proof.
  split; [apply HeapSpec.small_alloc_wf|apply HeapSpec.small_alloc_window|].
  intros i Hi _. by apply HeapSpec.small_backed.
Qed.

(** C32. A value moved into a [PageBox] comes back from [into_inner] word for word, and the
    allocator, the interrupt mask and every frame that was not free are as before; the only
    other outcome is the "OOM" panic, when no hole is large enough or the type has size zero. *)
Theorem box_roundtrip `{Profile} (s : kst) (value : list Z) :
  alloc_ok s →
  let size := 8 * Z.of_nat (length value) in
  match (b ← box_new size value; box_into_inner size b) s with
  | Ok (v, s') => v = value ∧ PAGE_ALLOC s' = PAGE_ALLOC s ∧ daif s' = daif s ∧ tlb s' = tlb s
      ∧ ∀ g, ¬ free_page_frame (PAGE_ALLOC s) g → phys s' !! g = phys s !! g
  | Fault f => f = PanicMsg "OOM"
      ∧ (value = [] ∨ ∀ i, ¬ PageAlloc.hole (PAGE_ALLOC s) i (div_ceil size PAGE_SIZE))
  end.
Proof.
  intros Hok size. unfold mbind at 1, M_bind at 1.
  pose proof (box_new_run s value Hok) as Hnew. cbv zeta in Hnew. fold size in Hnew.
  destruct Hnew as [(i & al & m & Hb & Ha & Hh & Hload & Hfr & Hg)|[Hb Hno]]; rewrite Hb; [|done].
  unfold box_into_inner, box_as_ref, box_drop, PageAlloc.as_ptr, mbind, M_bind, gets, lift. cbn [phys set_phys slice buf].
  replace (Z.to_nat (size / 8)) with (length value) by (unfold size; zdiv).
  rewrite Hload. run. rewrite slice_drop_run. cbn [phys set_phys PAGE_ALLOC set_alloc].
  destruct Hok as [Hwf Hwin Hback].
  assert (0 ≤ div_ceil size PAGE_SIZE) as Hn
    by (rewrite div_ceil_spec by done; unfold size, PAGE_SIZE; zdiv).
  destruct (HeapSpec.alloc_drop_ok m (PAGE_ALLOC s) (div_ceil size PAGE_SIZE) _ al Hwf Hwin Hn
    (λ j Hj Hu, Hfr _ (Hback j Hj Hu)) Ha) as (i' & m' & Hi' & -> & Hm).
  assert (i' = i) as -> by (unfold PageAlloc.page_addr, PAGE_SIZE in Hi'; cbn [buf] in Hi'; lia).
  cbn. split_and!; [done..|]. intros g Hgn. rewrite <- Hg by done.
  destruct debug_assertions; [|by subst]. apply (fl_out _ _ _ _ _ Hm). intros Hin. apply Hgn.
  destruct Hh as (? & Hc & Hfree). exists (g - PageAlloc.frame_of (PAGE_ALLOC s) 0).
  unfold PageAlloc.capacity, PageAlloc.frame_of in *. split; [lia|]. split; [apply Hfree; lia|lia].
Qed.

Lemma box_roundtrip_witness :
  match (b ← box_new (H := dev) 24 [7; 8; 9]; box_into_inner (H := dev) 24 b) small_kernel with
  | Ok (v, s') => v = [7; 8; 9] ∧ PAGE_ALLOC s' = PAGE_ALLOC small_kernel
  | Fault _ => False
  end.
Proof.
  pose proof (box_roundtrip (H := dev) small_kernel [7; 8; 9] small_kernel_ok) as Hr.
  change (8 * Z.of_nat (length [7; 8; 9])) with 24 in Hr. cbv zeta in Hr.
  destruct ((b ← box_new (H := dev) 24 [7; 8; 9]; box_into_inner (H := dev) 24 b) small_kernel)
    as [[v s']|f] eqn:E.
  - destruct Hr as (Hv & Ha & _). split; [exact Hv|exact Ha].
  - assert (match (b ← box_new (H := dev) 24 [7; 8; 9]; box_into_inner (H := dev) 24 b) small_kernel with
      | Ok _ => True | Fault _ => False end) as Hc by (vm_compute; exact I).
    rewrite E in Hc. exact Hc.
Defined.

(** ** Addresses *)

(** [virt] and [from_virt] are inverse on the cacheable window, [virt_dev] and [from_virt]
    agree on the low 40 bits, and the two windows never meet. *)
Lemma virt_roundtrip (p : Z) :
  0 ≤ p < 2 ^ 39 →
  from_virt (virt {| pa := p |}) = {| pa := p |}
  ∧ virt (from_virt (VIRT_BASE + p)) = VIRT_BASE + p
  ∧ virt_dev {| pa := p |} = virt {| pa := p |} + 2 ^ 39
  ∧ ∀ q, 0 ≤ q < 2 ^ 39 → virt {| pa := p |} < virt_dev {| pa := q |} < 2 ^ 64.
Proof.
  intros Hp. rewrite virt_add by lia. split_and!.
  - pose proof (from_virt_add p ltac:(lia)) as E. destruct (from_virt (VIRT_BASE + p)) as [x].
    simpl in E. by rewrite E.
  - pose proof (from_virt_add p ltac:(lia)) as E. destruct (from_virt (VIRT_BASE + p)) as [x].
    simpl in E. rewrite E. apply virt_add. lia.
  - rewrite virt_dev_add by lia. unfold VIRT_BASE, VIRT_DEV_BASE. lia.
  - intros q Hq. rewrite virt_dev_add by lia. unfold VIRT_BASE, VIRT_DEV_BASE. lia.
Qed.

Lemma virt_roundtrip_witness :
  from_virt (virt {| pa := 0x40100000 |}) = {| pa := 0x40100000 |}.
Proof. apply (virt_roundtrip 0x40100000). lia. Defined.

(** ** The memory map *)

Lemma in_range_pg b a n x :
  b mod PAGE_SIZE = 0 → a mod PAGE_SIZE = 0 → x mod PAGE_SIZE = 0 →
  Bitmap.in_range (pg b a) n (pg b x) = (a <=? x) && (x <? a + PAGE_SIZE * n).
Proof.
  intros Hb Ha Hx. pose proof (pg_addr b a Hb Ha). pose proof (pg_addr b x Hb Hx).
  unfold Bitmap.in_range, PAGE_SIZE in *. lia.
Qed.

(** The page that holds a byte. *)
Lemma page_floor x :
  x - PAGE_SIZE < PAGE_SIZE * (x / PAGE_SIZE) ≤ x ∧ PAGE_SIZE * (x / PAGE_SIZE) mod PAGE_SIZE = 0.
Proof. unfold PAGE_SIZE. zdiv. Qed.

Lemma page_floor_le x a : a mod PAGE_SIZE = 0 → a ≤ x → a ≤ PAGE_SIZE * (x / PAGE_SIZE).
Proof. unfold PAGE_SIZE. intros. zdiv. Qed.

Lemma pg_floor b x : b mod PAGE_SIZE = 0 → pg b (PAGE_SIZE * (x / PAGE_SIZE)) = pg b x.
Proof. unfold pg, PAGE_SIZE. intros. zdiv. Qed.

Section node.
Context `{LinkedOk}.
Variables (phy_addr len_pages : Z).
Let base' : Z := VIRT_BASE + phy_addr.
Let heap_end : Z := EARLY_HEAP + EARLY_HEAP_SIZE.

Lemma image_layout :
  ram_node phy_addr len_pages →
  base' mod PAGE_SIZE = 0 ∧ base' + 256 * PAGE_SIZE ≤ _text_start
  ∧ _end + EARLY_HEAP_SIZE ≤ base' + PAGE_SIZE * len_pages
  ∧ _text_start ≤ EARLY_HEAP
  ∧ heap_end ≤ _end < EARLY_HEAP + PAGE_SIZE + PAGE_SIZE * pg EARLY_HEAP _end
  ∧ EARLY_HEAP mod PAGE_SIZE = 0 ∧ heap_end mod PAGE_SIZE = 0.
Proof.
  intros [Hal Hlow _ Hend]. pose proof heap_aligned as Hha. split_and!.
  - unfold base', VIRT_BASE, PAGE_SIZE in *. clear - Hal. zdiv.
  - unfold base', _text_start, _virt_base, VIRT_BASE, PAGE_SIZE. lia.
  - done.
  - apply heap_after_text.
  - apply heap_before_end.
  - unfold pg, PAGE_SIZE. clear. zdiv.
  - done.
  - unfold heap_end, EARLY_HEAP_SIZE, PAGE_SIZE in *. clear - Hha. zdiv.
Qed.

(** The map after [add_memory_node], by address. *)
Lemma node_map al al' :
  ram_node phy_addr len_pages → noded phy_addr len_pages al al' →
  ∀ x, x mod PAGE_SIZE = 0 → base' ≤ x < base' + PAGE_SIZE * len_pages →
    PageAlloc.used al' (pg base' x) =
      if (EARLY_HEAP <=? x) && (x <? heap_end) then PageAlloc.used al (pg EARLY_HEAP x)
      else ((_dtb_start <=? x) && (x <? _dtb_start + 0x10000))
           || ((_text_start <=? x) && (x <? EARLY_HEAP))
           || ((heap_end <=? x) && (x <? heap_end + PAGE_SIZE * pg EARLY_HEAP _end)).
Proof.
  intros Hnode Hnd x Hx Hxr. destruct (image_layout Hnode) as (Hba & _ & _ & _ & _ & Hha & Hea).
  pose proof (pg_addr base' x Hba Hx) as Hpx. pose proof (pg_addr base' EARLY_HEAP Hba Hha) as Hph.
  pose proof (pg_addr EARLY_HEAP x Hha Hx) as Hhx.
  destruct ((EARLY_HEAP <=? x) && (x <? heap_end)) eqn:E.
  - rewrite <- (nd_heap _ _ _ _ Hnd);
      change (EARLY_HEAP_SIZE / PAGE_SIZE) with 256; fold base';
      unfold heap_end, EARLY_HEAP_SIZE, PAGE_SIZE in *; [f_equal|]; lia.
  - rewrite (nd_ram _ _ _ _ Hnd).
    + unfold reserved. fold base' heap_end. rewrite !in_range_pg by done.
      by rewrite (pg_addr _text_start EARLY_HEAP eq_refl Hha).
    + unfold PAGE_SIZE in *. lia.
    + fold base'. change (EARLY_HEAP_SIZE / PAGE_SIZE) with 256.
      unfold heap_end, EARLY_HEAP_SIZE, PAGE_SIZE in *. lia.
Qed.
End node.

(** An image of 128 KiB of code before the early heap and 64 KiB of data after it. *)
Definition sample_link : Linked := {|
  EARLY_HEAP := _text_start + 0x20000;
  _end := _text_start + 0x20000 + EARLY_HEAP_SIZE + 0x10000;
|}.

Lemma sample_link_ok : @LinkedOk sample_link.
Proof. by split; vm_compute. Qed.

(** The state before boot. *)
Definition reset_state : kst :=
  {| PAGE_ALLOC := PAGE_ALLOC_INIT; phys := ∅; daif := 0x3c0; tlb := ∅ |}.

(** After [init_early_heap] the allocator is sound, the pages of the static [EARLY_HEAP] are
    free and nothing else can be allocated: whatever slice it then hands out lies inside the
    early heap. *)
Lemma init_early_heap_confined `{Profile} `{LinkedOk} (s : kst) :
  PAGE_ALLOC s = PAGE_ALLOC_INIT →
  ∃ al, init_early_heap s = Ok (tt, set_alloc al s) ∧ PageAlloc.wf al
    ∧ PageAlloc.hole al 0 (EARLY_HEAP_SIZE / PAGE_SIZE)
    ∧ ∀ n sl al', 0 ≤ n → PageAlloc.alloc al n = Ok (Some sl, al') →
        EARLY_HEAP ≤ buf sl ∧ buf sl + len sl ≤ EARLY_HEAP + EARLY_HEAP_SIZE.
Proof.
  intros Hs. destruct (init_early_heap_run s Hs) as (al & Hrun & [Hw Hb Hc Hrest] & Hfree).
  exists al. split_and!; [done|done| |].
  - split; [lia|]. split; [|intros i Hi; apply Hfree; lia].
    fold (PageAlloc.capacity al). rewrite Hc. by vm_compute.
  - intros n sl al' Hn Ha.
    destruct (PageAlloc.alloc_ok al n Hw Hn) as [(i & a & Ha' & Hn0 & (Hi & Hin & Hfr) & _)|[Ha' _]];
      rewrite Ha' in Ha; [|done].
    injection Ha as <- _. cbn [buf len]. unfold PageAlloc.page_addr. rewrite Hb.
    fold (PageAlloc.capacity al) in Hin. rewrite Hc in Hin.
    assert (i + n ≤ EARLY_HEAP_SIZE / PAGE_SIZE) as Hle.
    { apply Z.nlt_ge. intros Hgt. pose proof (Hfr (i + n - 1) ltac:(lia)) as Hx.
      fold (PageAlloc.used al (i + n - 1)) in Hx. rewrite Hrest in Hx; [done|]. lia. }
    change (EARLY_HEAP_SIZE / PAGE_SIZE) with 256 in Hle. change EARLY_HEAP_SIZE with 1048576.
    unfold PAGE_SIZE. lia.
Qed.

Lemma init_early_heap_confined_witness :
  ∃ al, init_early_heap (H := dev) (H0 := sample_link) reset_state = Ok (tt, set_alloc al reset_state)
    ∧ PageAlloc.hole al 0 256.
Proof.
  destruct (@init_early_heap_confined dev sample_link sample_link_ok reset_state eq_refl)
    as (al & Hrun & _ & Hh & _).
  exists al. split; [exact Hrun|exact Hh].
Defined.

(** C25. [add_memory_node] on a RAM node that contains the kernel: every page of the early heap
    keeps its state; among the other pages of the node exactly those of the device tree's
    first 64 KiB, of the image before the heap, and of a stretch after the heap as long as
    the rest of the image {e plus the heap} are marked.  So no page of the image can be handed
    out, and a further 1 MiB after [_end] is lost. *)
Theorem add_memory_node_map `{Profile} `{LinkedOk} (s : kst) (phy_addr len_pages : Z) :
  let base' := VIRT_BASE + phy_addr in
  let heap_end := EARLY_HEAP + EARLY_HEAP_SIZE in
  ram_node phy_addr len_pages → early (PAGE_ALLOC s) →
  ∃ al', add_memory_node {| pa := phy_addr |} (PAGE_SIZE * len_pages) s = Ok (tt, set_alloc al' s)
    ∧ PageAlloc.wf al' ∧ ram_base al' = base'
    ∧ (∀ x, x mod PAGE_SIZE = 0 → base' ≤ x < base' + PAGE_SIZE * len_pages →
        PageAlloc.used al' (pg base' x) =
          if (EARLY_HEAP <=? x) && (x <? heap_end) then PageAlloc.used (PAGE_ALLOC s) (pg EARLY_HEAP x)
          else ((_dtb_start <=? x) && (x <? _dtb_start + 0x10000))
               || ((_text_start <=? x) && (x <? EARLY_HEAP))
               || ((heap_end <=? x) && (x <? heap_end + PAGE_SIZE * pg EARLY_HEAP _end)))
    ∧ (∀ x, _text_start ≤ x < _end → ¬ (EARLY_HEAP ≤ x < heap_end) →
         PageAlloc.used al' (pg base' x) = true)
    ∧ (∀ x, x mod PAGE_SIZE = 0 → _end ≤ x → x + PAGE_SIZE ≤ _end + EARLY_HEAP_SIZE →
         PageAlloc.used al' (pg base' x) = true).
Proof.
  intros base' heap_end Hnode Hearly.
  destruct (add_memory_node_run phy_addr len_pages s Hnode Hearly) as (al' & Hrun & Hnd).
  exists al'. split; [done|]. split; [apply Hnd|]. split; [apply Hnd|].
  pose proof (node_map phy_addr len_pages _ _ Hnode Hnd) as Hmap. fold base' heap_end in Hmap.
  split; [exact Hmap|].
  pose proof (image_layout phy_addr len_pages Hnode) as (Hba & Hlo & Hhi & Ht & Hh & Hha & Hea).
  fold base' heap_end in Hba, Hlo, Hhi, Hea, Hh.
  assert (∀ y, y mod PAGE_SIZE = 0 → _text_start ≤ y → y + PAGE_SIZE ≤ _end + EARLY_HEAP_SIZE →
    ¬ (EARLY_HEAP ≤ y < heap_end) → PageAlloc.used al' (pg base' y) = true) as Hpage.
  { intros y Hy Hty Hye Hout. rewrite Hmap by (done || unfold PAGE_SIZE in *; lia).
    destruct ((EARLY_HEAP <=? y) && (y <? heap_end)) eqn:E; [exfalso; lia|].
    unfold heap_end, PAGE_SIZE in *. lia. }
  split.
  - intros x Hx Hout. rewrite <- pg_floor by done. destruct (page_floor x) as [Hfl Hfm].
    pose proof (page_floor_le x _text_start) as F1. pose proof (page_floor_le x EARLY_HEAP) as F2.
    pose proof (page_floor_le x heap_end) as F3. set (y := PAGE_SIZE * (x / PAGE_SIZE)) in *.
    change EARLY_HEAP_SIZE with 1048576 in *. unfold PAGE_SIZE in Hpage |- *.
    apply Hpage; [done|apply F1; [done|lia]|unfold PAGE_SIZE in *; lia|].
    intros [Hy1 Hy2]. apply Hout. split; [lia|]. apply Z.nle_gt. intros Hge. specialize (F3 Hea Hge). lia.
  - intros x Hx Hge Hle. apply Hpage; [done|unfold PAGE_SIZE in *; lia|done|unfold heap_end; lia].
Qed.

(** Booting with 64 MiB of RAM: the page of the first instruction and the page just past the
    image are both taken. *)
Lemma add_memory_node_map_witness :
  ∃ al al', init_early_heap (H := dev) (H0 := sample_link) reset_state = Ok (tt, set_alloc al reset_state)
    ∧ add_memory_node (H := dev) (H0 := sample_link) {| pa := 0x40000000 |} (PAGE_SIZE * 0x4000)
        (set_alloc al reset_state) = Ok (tt, set_alloc al' (set_alloc al reset_state))
    ∧ PageAlloc.used al' (pg (VIRT_BASE + 0x40000000) _text_start) = true
    ∧ PageAlloc.used al' (pg (VIRT_BASE + 0x40000000) (@_end sample_link)) = true.
Proof.
  destruct (@init_early_heap_run dev sample_link sample_link_ok reset_state eq_refl)
    as (al & Hrun & Hearly & _).
  destruct (@add_memory_node_map dev sample_link sample_link_ok (set_alloc al reset_state)
    0x40000000 0x4000) as (al' & Hadd & _ & _ & _ & Himg & Hover).
  - split; [reflexivity|lia|vm_compute; discriminate|vm_compute; discriminate].
  - exact Hearly.
  - exists al, al'. split; [exact Hrun|]. split; [exact Hadd|]. split.
    + apply Himg; [vm_compute; split; [discriminate|reflexivity]|].
      vm_compute. intros [Hx _]. apply Hx. reflexivity.
    + apply Hover; [reflexivity|lia|vm_compute; discriminate].
Defined.

(** ** Page tables out of the allocator *)

(** C38. A page table taken from the allocator ([PageBox::leak(PageBox::new_zeroed())]) is a frame
    that was free, entirely zero, and no longer in the pool, and nothing else in the kernel's
    state changes, the interrupt mask of the caller and the TLB included; the only panic is
    "OOM", when no page is free. *)
Theorem kernel_new_table_fresh `{Profile} (s : kst) :
  alloc_ok s →
  match kernel_new_table s with
  | Ok (t, s') => ∃ g, t = VIRT_BASE + PAGE_SIZE * g ∧ free_page_frame (PAGE_ALLOC s) g
      ∧ phys s' = <[g := replicate 512 0]> (phys s)
      ∧ (∀ h, free_page_frame (PAGE_ALLOC s') h ↔ free_page_frame (PAGE_ALLOC s) h ∧ h ≠ g)
      ∧ alloc_ok s' ∧ daif s' = daif s ∧ tlb s' = tlb s
  | Fault f => f = PanicMsg "OOM" ∧ ∀ g, ¬ free_page_frame (PAGE_ALLOC s) g
  end.
Proof.
  intros Hok. generalize (kernel_new_table_spec s Hok).
  destruct (kernel_new_table s) as [[t s']|f]; [|done].
  intros (g & -> & _ & Hg & Hok' & Hpool & Hm & Hd%shape_daif & Ht). exists g. by split_and!.
Qed.

Lemma kernel_new_table_fresh_witness :
  match kernel_new_table (H := dev) small_kernel with
  | Ok (t, s') => phys s' !! HeapSpec.RAM_FRAME = Some (replicate 512 0)
      ∧ ¬ free_page_frame (PAGE_ALLOC s') HeapSpec.RAM_FRAME
  | Fault _ => False
  end.
Proof.
  pose proof (kernel_new_table_fresh (H := dev) small_kernel small_kernel_ok) as Hn.
  assert (match kernel_new_table (H := dev) small_kernel with
    | Ok (t, _) => t = VIRT_BASE + PAGE_SIZE * HeapSpec.RAM_FRAME | Fault _ => False end) as Hv
    by (vm_compute; reflexivity).
  destruct (kernel_new_table (H := dev) small_kernel) as [[t s']|f]; [|exact Hv].
  destruct Hn as (g & Ht & _ & Hm & Hpool & _).
  assert (g = HeapSpec.RAM_FRAME) as -> by (rewrite Hv in Ht; unfold PAGE_SIZE in Ht; lia).
  split.
  - rewrite Hm. apply lookup_insert_eq.
  - intros Hf. apply Hpool in Hf. tauto.
Defined.
