(* ===== verification/PageTree.v ===== *)
(** * The tree of page tables (kernel/src/aarch64/mmu.rs)

    What a set of tables means: [descend] follows descriptors from the root, [pte] is the
    descriptor the MMU finds for a virtual address.  [tree_wf] is the invariant of the tables
    the kernel builds; the lemmas say how installing a table or writing a leaf changes the
    tree. *)

From S2P Require Import Prelude Memory PageTable.

Local Open Scope Z_scope.

(** The kernel address of a frame. *)
Definition va_of (f : Z) : Z := VIRT_BASE + PAGE_SIZE * f.

(** Entry [i] of the table in frame [f]. *)
Definition entry (m : pmem) (f i : Z) : option Z := fr ← m !! f; fr !! Z.to_nat i.

(** The frame a table descriptor points to. *)
Definition frame_at (e : Z) : Z := Z.land e TABLE_MASK / PAGE_SIZE.

Definition child (m : pmem) (f i : Z) : option Z :=
  e ← entry m f i; if e =? 0 then None else Some (frame_at e).

(** The table reached from [f] by a path of indices. *)
Fixpoint descend (m : pmem) (f : Z) (p : list Z) : option Z :=
  match p with
  | [] => Some f
  | i :: p => g ← child m f i; descend m g p
  end.

(** The indices of a virtual address, from level 0 to level 3. *)
Definition path (va : Z) : list Z :=
  [Z.shiftr va 39; Z.shiftr va 30 mod 512; Z.shiftr va 21 mod 512].
Definition leaf_index (va : Z) : Z := Z.shiftr va 12 mod 512.

(** The level-3 descriptor of a virtual address; [0] when some table is missing. *)
Definition pte (m : pmem) (root va : Z) : Z :=
  default 0 (f ← descend m root (path va); entry m f (leaf_index va)).

(** A path inside the tables: at most three indices, each below 512. *)
Definition valid_path (p : list Z) : Prop :=
  (length p ≤ 3)%nat ∧ Forall (λ i, 0 ≤ i < 512) p.

Record tree_wf (m : pmem) (root : Z) : Prop := {
  tw_frame : ∀ p f, valid_path p → descend m root p = Some f → frame_ok m f ∧ 0 ≤ f < 2 ^ 27;
  tw_entry : ∀ p f i e, valid_path p → (length p < 3)%nat → descend m root p = Some f →
    0 ≤ i < 512 → entry m f i = Some e → e = 0 ∨ ∃ g, 0 ≤ g < 2 ^ 27 ∧ e = Z.lor (PAGE_SIZE * g) TABLE_FLAGS;
  tw_inj : ∀ p q f, valid_path p → valid_path q →
    descend m root p = Some f → descend m root q = Some f → p = q;
}.

(** ** Descriptors *)

Lemma table_entry g : 0 ≤ g → Z.lor (PAGE_SIZE * g) TABLE_FLAGS = PAGE_SIZE * g + TABLE_FLAGS.
Proof.
  intros Hg. rewrite Z.lor_comm, (lor_disjoint _ _ 12) by (done || unfold PAGE_SIZE; zdiv). lia.
Qed.

Lemma land_mask x : 0 ≤ x < 2 ^ 39 → Z.land x TABLE_MASK = x - x mod PAGE_SIZE.
Proof.
  intros Hx. transitivity (Z.ldiff x (Z.ones 12)).
  - apply Z.bits_inj'. intros i Hi. rewrite Z.land_spec, Z.ldiff_spec.
    destruct (decide (i < 39)).
    + f_equal. change TABLE_MASK with (Z.ldiff (Z.ones 39) (Z.ones 12)).
      rewrite Z.ldiff_spec, Z.ones_spec_low by lia. done.
    + by rewrite (testbit_small x 39) by lia.
  - rewrite Z.ldiff_ones_r, Z.shiftl_mul_pow2, Z.shiftr_div_pow2 by lia.
    unfold PAGE_SIZE. zdiv.
Qed.

Lemma table_entry_spec g :
  0 ≤ g < 2 ^ 27 → let e := Z.lor (PAGE_SIZE * g) TABLE_FLAGS in
  e ≠ 0 ∧ Z.land e 3 = 3 ∧ Z.land e TABLE_MASK = PAGE_SIZE * g ∧ frame_at e = g.
Proof.
  intros Hg. cbv zeta. rewrite table_entry by lia.
  assert (0 ≤ PAGE_SIZE * g + TABLE_FLAGS < 2 ^ 39) as Hb
    by (change TABLE_FLAGS with 1795; unfold PAGE_SIZE; lia).
  assert (Z.land (PAGE_SIZE * g + TABLE_FLAGS) TABLE_MASK = PAGE_SIZE * g) as Hm.
  { rewrite land_mask by done. change TABLE_FLAGS with 1795. unfold PAGE_SIZE. zdiv. }
  split; [change TABLE_FLAGS with 1795; unfold PAGE_SIZE; lia|]. split; [|split; [done|]].
  - change 3 with (Z.ones 2) at 1. rewrite Z.land_ones by lia.
    change TABLE_FLAGS with 1795. unfold PAGE_SIZE. zdiv.
  - unfold frame_at. rewrite Hm. unfold PAGE_SIZE. zdiv.
Qed.

Lemma va_of_pa f : 0 ≤ f < 2 ^ 27 → pa (from_virt (va_of f)) = PAGE_SIZE * f.
Proof. intros. unfold va_of. apply from_virt_add. unfold PAGE_SIZE. lia. Qed.

Lemma va_of_virt f : 0 ≤ f < 2 ^ 27 → virt {| pa := PAGE_SIZE * f |} = va_of f.
Proof. intros. rewrite virt_add; [done|]. unfold PAGE_SIZE. lia. Qed.

(** ** Reading and writing entries *)

Lemma entry_lt m f i : frame_ok m f → 0 ≤ i < 512 → ∃ e, entry m f i = Some e.
Proof.
  intros (fr & Hf & Hl) Hi. unfold entry. rewrite Hf. simpl.
  apply lookup_lt_is_Some_2. lia.
Qed.

Lemma tget_entry m f i e :
  0 ≤ f < 2 ^ 27 → 0 ≤ i < 512 → entry m f i = Some e → tget m (va_of f) i = Ok e.
Proof.
  intros Hf Hi He. unfold tget. rewrite (proj2 (Z.ltb_lt _ _)), va_of_pa by lia.
  unfold entry in He. destruct (m !! f) as [fr|] eqn:Hm; [|done]. simpl in He.
  rewrite (read_word_frame m f fr) by done. by apply aget_ok.
Qed.

Definition write_entry (m : pmem) (f i e : Z) : pmem :=
  match m !! f with Some fr => <[f := <[Z.to_nat i := e]> fr]> m | None => m end.

Lemma tset_entry m f i e :
  0 ≤ f < 2 ^ 27 → 0 ≤ i < 512 → frame_ok m f → tset m (va_of f) i e = Ok (write_entry m f i e).
Proof.
  intros Hf Hi (fr & Hm & Hl). unfold tset, write_entry.
  rewrite (proj2 (Z.ltb_lt _ _)), va_of_pa, Hm by lia.
  rewrite (write_word_frame m f fr) by (done || lia). done.
Qed.

Lemma write_entry_frame_ok m f i e g : frame_ok m g → frame_ok (write_entry m f i e) g.
Proof.
  intros (fr & Hg & Hl). unfold write_entry. destruct (m !! f) as [fr'|] eqn:Hf; [|by exists fr].
  destruct (decide (f = g)) as [->|].
  - exists (<[Z.to_nat i := e]> fr'). rewrite lookup_insert_eq, length_insert. by simplify_eq.
  - exists fr. by rewrite lookup_insert_ne.
Qed.

Lemma entry_write m f i e g j :
  frame_ok m f → 0 ≤ i < 512 → 0 ≤ j →
  entry (write_entry m f i e) g j = if bool_decide (g = f ∧ j = i) then Some e else entry m g j.
Proof.
  intros (fr & Hf & Hl) Hi Hj. unfold write_entry, entry. rewrite Hf.
  destruct (decide (g = f)) as [->|Hne].
  - rewrite lookup_insert_eq, Hf. simpl. destruct (decide (j = i)) as [->|Hji].
    + rewrite list_lookup_insert_eq by lia. by rewrite bool_decide_true.
    + rewrite list_lookup_insert_ne by lia. rewrite bool_decide_false; [done|]. tauto.
  - rewrite lookup_insert_ne by done. rewrite bool_decide_false; [done|]. tauto.
Qed.

(** ** Paths *)

Lemma descend_snoc m f p i : descend m f (p ++ [i]) = (g ← descend m f p; child m g i).
Proof.
  revert f. induction p as [|j p IH]; intros f; simpl.
  - by destruct (child m f i).
  - destruct (child m f j) as [g|]; simpl; [apply IH|done].
Qed.

Lemma valid_path_snoc p i : valid_path (p ++ [i]) → valid_path p ∧ (length p < 3)%nat ∧ 0 ≤ i < 512.
Proof.
  unfold valid_path. rewrite length_app, Forall_app, Forall_singleton. simpl.
  intros (? & ? & ?). split; [split; [lia|done]|]. lia.
Qed.

Lemma valid_path_extend p i : valid_path p → (length p < 3)%nat → 0 ≤ i < 512 → valid_path (p ++ [i]).
Proof.
  intros [? ?] ? ?. split; [rewrite length_app; simpl; lia|].
  apply Forall_app. by rewrite Forall_singleton.
Qed.

Lemma valid_path_va va : 0 ≤ va < 2 ^ 39 → valid_path (path va).
Proof.
  intros Hva. split; [done|]. unfold path. rewrite !Z.shiftr_div_pow2 by lia.
  repeat constructor; zdiv.
Qed.

(** A child of a well-formed table is a table descriptor's frame. *)
Lemma tree_child m root p f i g :
  tree_wf m root → valid_path p → (length p < 3)%nat → descend m root p = Some f →
  0 ≤ i < 512 → child m f i = Some g →
  0 ≤ g < 2 ^ 27 ∧ entry m f i = Some (Z.lor (PAGE_SIZE * g) TABLE_FLAGS).
Proof.
  intros Hwf Hp Hl Hd Hi Hc. unfold child in Hc. destruct (entry m f i) as [e|] eqn:He; [|done].
  destruct (tw_entry _ _ Hwf p f i e Hp Hl Hd Hi He) as [->|(g' & Hg' & ->)]; [done|].
  destruct (table_entry_spec g' Hg') as (Hne & _ & _ & Hfr). simpl in Hc.
  rewrite (proj2 (Z.eqb_neq _ _)) in Hc by done. simplify_eq. by rewrite Hfr.
Qed.

(** ** Installing a table *)

Section install.
Variables (m : pmem) (root : Z) (p : list Z) (f i g : Z).
Hypothesis Hwf : tree_wf m root.
Hypothesis Hp : valid_path p.
Hypothesis Hlen : (length p < 3)%nat.
Hypothesis Hd : descend m root p = Some f.
Hypothesis Hi : 0 ≤ i < 512.
Hypothesis Hnone : entry m f i = Some 0.
Hypothesis Hg : 0 ≤ g < 2 ^ 27.
Hypothesis Hfresh : ∀ q, valid_path q → descend m root q ≠ Some g.
Hypothesis Hzero : m !! g = Some (replicate 512 0).

Let m' : pmem := write_entry m f i (Z.lor (PAGE_SIZE * g) TABLE_FLAGS).

Lemma install_entry h j :
  0 ≤ j → entry m' h j = if bool_decide (h = f ∧ j = i)
                         then Some (Z.lor (PAGE_SIZE * g) TABLE_FLAGS) else entry m h j.
Proof.
  intros Hj. apply entry_write; [|done|done]. by apply (tw_frame _ _ Hwf p).
Qed.

Lemma install_ne : g ≠ f.
Proof. intros E. apply (Hfresh p Hp). by rewrite Hd, E. Qed.

Lemma install_zero j : 0 ≤ j → entry m g j = None ∨ entry m g j = Some 0.
Proof.
  intros Hj. unfold entry. rewrite Hzero. unfold mbind, option_bind.
  destruct (replicate 512 0 !! Z.to_nat j) eqn:Hl; [|by left].
  apply lookup_replicate in Hl as [-> _]. by right.
Qed.

Lemma install_no_child : child m f i = None.
Proof. unfold child. by rewrite Hnone. Qed.

Lemma install_descend q :
  valid_path q →
  descend m' root q = if bool_decide (q = p ++ [i]) then Some g else descend m root q.
Proof.
  induction q as [|j q IH] using rev_ind; intros Hq.
  { rewrite bool_decide_false; [done|]. by destruct p. }
  destruct (valid_path_snoc _ _ Hq) as (Hq' & Hlq & Hj).
  rewrite !descend_snoc, (IH Hq'). clear IH.
  destruct (decide (q = p ++ [i])) as [->|Hne].
  - rewrite bool_decide_true by done. simpl.
    rewrite bool_decide_false by (intros E%(f_equal length); rewrite !length_app in E; simpl in E; lia).
    rewrite descend_snoc, Hd. simpl. rewrite install_no_child. simpl.
    unfold child. rewrite install_entry, bool_decide_false by (lia || intros [E _]; by apply install_ne).
    by destruct (install_zero j) as [->| ->]; [lia| |].
  - rewrite (bool_decide_false (q = _)) by done.
    destruct (descend m root q) as [h|] eqn:Hh; simpl; last first.
    { rewrite bool_decide_false; [done|]. intros [-> _]%app_inj_tail. by rewrite Hd in Hh. }
    unfold child. rewrite install_entry by lia.
    destruct (decide (h = f ∧ j = i)) as [[-> ->]|Hn].
    + assert (q = p) as -> by by apply (tw_inj _ _ Hwf q p f).
      rewrite !bool_decide_true by done. simpl.
      destruct (table_entry_spec g Hg) as (? & _ & _ & Hfr).
      by rewrite (proj2 (Z.eqb_neq _ _)), Hfr by done.
    + rewrite (bool_decide_false (h = f ∧ j = i)) by done.
      rewrite bool_decide_false; [done|]. intros [-> ->]%app_inj_tail. simplify_eq. tauto.
Qed.

Lemma install_wf : tree_wf m' root.
Proof.
  assert (∀ h, frame_ok m h → frame_ok m' h) as Hok by (intros; by apply write_entry_frame_ok).
  split.
  - intros q h Hq. rewrite install_descend by done.
    destruct (decide (q = p ++ [i])) as [->|Hne].
    + rewrite bool_decide_true by done. intros [= <-]. split; [|done].
      apply Hok. exists (replicate 512 0). by rewrite length_replicate.
    + rewrite bool_decide_false by done. intros Hh.
      destruct (tw_frame _ _ Hwf q h Hq Hh). auto.
  - intros q h j e Hq Hlq. rewrite install_descend by done. intros Hh Hj.
    rewrite install_entry by lia. destruct (decide (h = f ∧ j = i)) as [E|E].
    { rewrite bool_decide_true by done. intros [= <-]. right. by exists g. }
    rewrite (bool_decide_false (h = f ∧ j = i)) by done.
    destruct (decide (q = p ++ [i])) as [->|Hne].
    + rewrite bool_decide_true in Hh by done. injection Hh as <-. intros He.
      destruct (install_zero j); [lia|congruence|left; congruence].
    + rewrite bool_decide_false in Hh by done. by apply (tw_entry _ _ Hwf q).
  - intros q r h Hq Hr. rewrite !install_descend by done.
    destruct (decide (q = p ++ [i])) as [->|Hq1]; [rewrite bool_decide_true by done|
      rewrite bool_decide_false by done];
    (destruct (decide (r = p ++ [i])) as [->|Hr1]; [rewrite bool_decide_true by done|
      rewrite bool_decide_false by done]); try done.
    + intros [= <-] Hh. by destruct (Hfresh r).
    + intros Hh [= <-]. by destruct (Hfresh q).
    + by apply (tw_inj _ _ Hwf).
Qed.

(** The mappings stay as they were: the new table is empty. *)
Lemma install_pte va : 0 ≤ va < 2 ^ 39 → pte m' root va = pte m root va.
Proof.
  intros Hva. pose proof (valid_path_va va Hva) as Hv. unfold pte.
  assert (0 ≤ leaf_index va) by (apply Z.mod_pos_bound; lia).
  rewrite install_descend by done. destruct (decide (path va = p ++ [i])) as [Heq|Hne].
  - rewrite bool_decide_true by done. rewrite Heq, descend_snoc, Hd. simpl.
    rewrite install_no_child. simpl.
    rewrite install_entry, bool_decide_false by (lia || intros [E _]; by apply install_ne).
    by destruct (install_zero (leaf_index va)) as [->| ->]; [lia| |].
  - rewrite bool_decide_false by done.
    destruct (descend m root (path va)) as [h|] eqn:Hh; simpl; [|done].
    rewrite install_entry, bool_decide_false; [done| |done].
    intros [-> _]. apply (tw_inj _ _ Hwf (path va) p f) in Hh; [|done..].
    rewrite <- Hh in Hlen. simpl in Hlen. lia.
Qed.
End install.

(** ** Writing a leaf *)

Section leaf.
Variables (m : pmem) (root : Z) (p : list Z) (f i e : Z).
Hypothesis Hwf : tree_wf m root.
Hypothesis Hp : valid_path p.
Hypothesis Hlen : length p = 3%nat.
Hypothesis Hd : descend m root p = Some f.
Hypothesis Hi : 0 ≤ i < 512.

Let m' : pmem := write_entry m f i e.

Lemma leaf_entry h j :
  0 ≤ j → entry m' h j = if bool_decide (h = f ∧ j = i) then Some e else entry m h j.
Proof. intros Hj. apply entry_write; [|done|done]. by apply (tw_frame _ _ Hwf p). Qed.

(** A table above level 3 is not the one written. *)
Lemma leaf_other q h : valid_path q → (length q < 3)%nat → descend m root q = Some h → h ≠ f.
Proof. intros Hq Hl Hh ->. assert (q = p) as -> by by apply (tw_inj _ _ Hwf q p f). lia. Qed.

Lemma leaf_descend q : valid_path q → descend m' root q = descend m root q.
Proof.
  induction q as [|j q IH] using rev_ind; intros Hq; [done|].
  destruct (valid_path_snoc _ _ Hq) as (Hq' & Hlq & Hj).
  rewrite !descend_snoc, (IH Hq'). destruct (descend m root q) as [h|] eqn:Hh; simpl; [|done].
  unfold child. rewrite leaf_entry, bool_decide_false; [done| |lia].
  intros [E _]. by apply (leaf_other q h).
Qed.

Lemma leaf_wf : tree_wf m' root.
Proof.
  split.
  - intros q h Hq. rewrite leaf_descend by done. intros Hh.
    destruct (tw_frame _ _ Hwf q h Hq Hh). split; [by apply write_entry_frame_ok|done].
  - intros q h j x Hq Hlq. rewrite leaf_descend by done. intros Hh Hj.
    rewrite leaf_entry, bool_decide_false; [by apply (tw_entry _ _ Hwf q)| |lia].
    intros [E _]. by apply (leaf_other q h).
  - intros q r h Hq Hr. rewrite !leaf_descend by done. by apply (tw_inj _ _ Hwf).
Qed.

Lemma leaf_pte va :
  0 ≤ va < 2 ^ 39 →
  pte m' root va = if bool_decide (path va = p ∧ leaf_index va = i) then e else pte m root va.
Proof.
  intros Hva. pose proof (valid_path_va va Hva) as Hv. unfold pte.
  assert (0 ≤ leaf_index va) by (apply Z.mod_pos_bound; lia).
  rewrite leaf_descend by done. destruct (descend m root (path va)) as [h|] eqn:Hh; simpl.
  - rewrite leaf_entry by done. destruct (decide (h = f)) as [->|Hne].
    + assert (path va = p) as E by by apply (tw_inj _ _ Hwf _ _ f).
      destruct (decide (leaf_index va = i)) as [E'|E'].
      * by rewrite !bool_decide_true.
      * by rewrite !bool_decide_false by tauto.
    + rewrite (bool_decide_false (h = f ∧ _)) by tauto.
      rewrite bool_decide_false; [done|]. intros [E _]. rewrite E in Hh. congruence.
  - rewrite bool_decide_false; [done|]. intros [E _]. rewrite E in Hh. congruence.
Qed.
End leaf.

(** ** Frames outside the tree *)

Definition is_table (m : pmem) (root h : Z) : Prop := ∃ q, valid_path q ∧ descend m root q = Some h.

Section outside.
Variables (m : pmem) (root g : Z) (fr : list Z).
Hypothesis Hwf : tree_wf m root.
Hypothesis Hout : ¬ is_table m root g.

Lemma outside_entry h j : is_table m root h → entry (<[g := fr]> m) h j = entry m h j.
Proof.
  intros Hh. unfold entry. rewrite lookup_insert_ne; [done|]. by intros ->.
Qed.

Lemma outside_descend q : valid_path q → descend (<[g := fr]> m) root q = descend m root q.
Proof.
  induction q as [|j q IH] using rev_ind; intros Hq; [done|].
  destruct (valid_path_snoc _ _ Hq) as (Hq' & _ & _). rewrite !descend_snoc, (IH Hq').
  destruct (descend m root q) as [h|] eqn:Hh; simpl; [|done].
  unfold child. rewrite outside_entry; [done|]. by exists q.
Qed.

Lemma outside_wf : tree_wf (<[g := fr]> m) root.
Proof.
  split.
  - intros q h Hq. rewrite outside_descend by done. intros Hh.
    destruct (tw_frame _ _ Hwf q h Hq Hh) as [(x & Hx & ?) ?]. split; [|done]. exists x.
    rewrite lookup_insert_ne; [done|]. intros ->. apply Hout. by exists q.
  - intros q h j e Hq Hl. rewrite outside_descend by done. intros Hh Hj.
    rewrite outside_entry by (by exists q). by apply (tw_entry _ _ Hwf q).
  - intros p q h Hp Hq. rewrite !outside_descend by done. by apply (tw_inj _ _ Hwf).
Qed.

Lemma outside_pte va : 0 ≤ va < 2 ^ 39 → pte (<[g := fr]> m) root va = pte m root va.
Proof.
  intros Hva. pose proof (valid_path_va va Hva) as Hv. unfold pte.
  rewrite outside_descend by done. destruct (descend m root (path va)) as [h|] eqn:Hh; simpl; [|done].
  rewrite outside_entry; [done|]. by exists (path va).
Qed.
End outside.
