(* ===== verification/Mapping.v ===== *)
(** * Mapping and unmapping pages (kernel/src/aarch64/mmu.rs, [vmap_at] and [vunmap])

    The effect of the page-table operations on the mapping a set of tables stands for, proved
    for any source of tables that keeps the promise of [TableAlloc]. *)

From S2P Require Import Prelude Interrupts Memory Kernel PageTable PageTree.

Local Open Scope Z_scope.

Section mapping.
Context `{TableAlloc}.
Variable root : Z.

(** Well-formed tables, none of them in the pool of free frames. *)
Record mm_ok (s : kst) : Prop := {
  mm_src : src_ok s;
  mm_tree : tree_wf (phys s) root;
  mm_owned : ∀ h, is_table (phys s) root h → ¬ free_frame s h;
}.

(** [s'] has the same mappings as [s], the tables of [s] and possibly more, taken from the
    pool; nothing else has changed. *)
Record extends (s s' : kst) : Prop := {
  ext_ok : mm_ok s';
  ext_pte : ∀ va, 0 ≤ va < 2 ^ 39 → pte (phys s') root va = pte (phys s) root va;
  ext_tables : ∀ q h, valid_path q → descend (phys s) root q = Some h →
    descend (phys s') root q = Some h;
  ext_new : ∀ h, is_table (phys s') root h → is_table (phys s) root h ∨ free_frame s h;
  ext_free : ∀ h, free_frame s' h → free_frame s h;
  ext_frames : ∀ h, ¬ free_frame s h → ¬ is_table (phys s) root h → phys s' !! h = phys s !! h;
  ext_shape : shape s' = shape s;
  ext_tlb : tlb s' = tlb s;
}.

Lemma extends_refl s : mm_ok s → extends s s.
Proof. intros. split; auto. Qed.

Lemma extends_trans s1 s2 s3 : extends s1 s2 → extends s2 s3 → extends s1 s3.
Proof.
  intros [O1 P1 T1 N1 F1 R1 D1 L1] [O2 P2 T2 N2 F2 R2 D2 L2]. split.
  - done.
  - intros va Hva. by rewrite P2, P1.
  - auto.
  - intros h Hh. destruct (N2 h Hh) as [Hh'|Hh']; [auto|right; auto].
  - auto.
  - intros h Hf Ht. rewrite R2; [auto| |].
    + intros Hf'. by apply Hf, F1.
    + intros Ht'. destruct (N1 h Ht'); auto.
  - by rewrite D2.
  - by rewrite L2.
Qed.

Lemma va_of_table s p f : mm_ok s → valid_path p → descend (phys s) root p = Some f →
  0 ≤ f < 2 ^ 27 ∧ frame_ok (phys s) f.
Proof. intros Hok Hp Hf. destruct (tw_frame _ _ (mm_tree _ Hok) p f Hp Hf). done. Qed.

(** A fresh table installed at an empty entry. *)
Lemma install_extends s s1 p f i g :
  mm_ok s → valid_path p → (length p < 3)%nat → descend (phys s) root p = Some f →
  0 ≤ i < 512 → entry (phys s) f i = Some 0 →
  0 ≤ g < 2 ^ 27 → free_frame s g → src_ok s1 → (∀ h, free_frame s1 h ↔ free_frame s h ∧ h ≠ g) →
  phys s1 = <[g := replicate 512 0]> (phys s) → shape s1 = shape s → tlb s1 = tlb s →
  let s2 := set_phys (write_entry (phys s1) f i (Z.lor (PAGE_SIZE * g) TABLE_FLAGS)) s1 in
  extends s s2 ∧ descend (phys s2) root (p ++ [i]) = Some g.
Proof.
  intros [Hsrc Hwf Hown] Hp Hl Hd Hi He Hg Hfree Hsrc1 Hpool Hphys Hdaif Htlb s2.
  assert (¬ is_table (phys s) root g) as Hnt by (intros Ht; by apply (Hown g)).
  assert (is_table (phys s) root f) as Hf by by exists p.
  pose proof (outside_wf _ root g (replicate 512 0) Hwf Hnt) as Hwf1.
  assert (∀ q, valid_path q → descend (phys s1) root q = descend (phys s) root q) as Hd1
    by (intros; rewrite Hphys; by apply outside_descend).
  rewrite <- Hphys in Hwf1.
  assert (entry (phys s1) f i = Some 0) as He1 by (rewrite Hphys, (outside_entry _ root); done).
  assert (∀ q, valid_path q → descend (phys s1) root q ≠ Some g) as Hfresh.
  { intros q Hq. rewrite Hd1 by done. intros Hq'. apply Hnt. by exists q. }
  assert (phys s1 !! g = Some (replicate 512 0)) as Hz by (rewrite Hphys; apply lookup_insert_eq).
  assert (descend (phys s1) root p = Some f) as Hd1p by by rewrite Hd1.
  pose proof (install_descend _ root p f i g Hwf1 Hp Hl Hd1p Hi He1 Hg Hfresh Hz) as Hdesc.
  pose proof (install_wf _ root p f i g Hwf1 Hp Hl Hd1p Hi He1 Hg Hfresh Hz) as Hwf2.
  assert (valid_path (p ++ [i])) as Hvi by by apply valid_path_extend.
  assert (∀ h, is_table (phys s2) root h → is_table (phys s) root h ∨ h = g) as Htab.
  { intros h (q & Hq & Hh). simpl in Hh. rewrite Hdesc in Hh by done.
    destruct (decide (q = p ++ [i])) as [->|].
    - rewrite bool_decide_true in Hh by done. right. congruence.
    - rewrite bool_decide_false, Hd1 in Hh by done. left. by exists q. }
  split; [split|]; simpl.
  - split; simpl; [|done|].
    + apply src_ok_phys; [|done]. intros; by apply write_entry_frame_ok.
    + intros h Hh Hfr. apply free_frame_phys, Hpool in Hfr as [Hfr Hne].
      destruct (Htab h Hh) as [Ht|Ht]; [by apply (Hown h)|done].
  - intros va Hva.
    rewrite (install_pte _ root p f i g Hwf1 Hp Hl Hd1p Hi He1 Hg Hfresh Hz va Hva).
    rewrite Hphys. by apply outside_pte.
  - intros q h Hq Hh. rewrite Hdesc by done. destruct (decide (q = p ++ [i])) as [->|].
    + rewrite descend_snoc, Hd in Hh. simpl in Hh. unfold child in Hh. by rewrite He in Hh.
    + by rewrite bool_decide_false, Hd1.
  - intros h Hh. destruct (Htab h Hh) as [| ->]; auto.
  - intros h Hh. apply free_frame_phys, Hpool in Hh. tauto.
  - intros h Hfr Ht. unfold write_entry. rewrite Hphys.
    assert (h ≠ g) by (by intros ->). assert (h ≠ f) by (by intros ->).
    destruct (<[g:=_]> (phys s) !! f); rewrite ?lookup_insert_ne by done; done.
  - done.
  - done.
  - rewrite Hdesc by done. by rewrite bool_decide_true.
Qed.

(** ** Frames taken from the pool *)

(** At most [k] frames of the pool of [s] are missing in that of [s']. *)
Definition pool_loses (s s' : kst) (k : Z) : Prop :=
  ∃ l : list Z, Z.of_nat (length l) ≤ k ∧ ∀ h, free_frame s h → free_frame s' h ∨ h ∈ l.

(** The pool holds fewer than [k] frames. *)
Definition pool_below (s : kst) (k : Z) : Prop :=
  ∃ l : list Z, Z.of_nat (length l) < k ∧ ∀ h, free_frame s h → h ∈ l.

Lemma pool_loses_refl s : pool_loses s s 0.
Proof. exists []. split; [done|]. auto. Qed.

Lemma pool_loses_trans s1 s2 s3 j k : pool_loses s1 s2 j → pool_loses s2 s3 k → pool_loses s1 s3 (j + k).
Proof.
  intros (l1 & H1 & Hp1) (l2 & H2 & Hp2). exists (l1 ++ l2). rewrite length_app. split; [lia|].
  intros h Hh. rewrite elem_of_app. destruct (Hp1 h Hh) as [Hh'|]; [|auto]. destruct (Hp2 h Hh'); auto.
Qed.

Lemma pool_loses_le s s' j k : j ≤ k → pool_loses s s' j → pool_loses s s' k.
Proof. intros Hle (l & Hl & Hp). exists l. split; [lia|done]. Qed.

Lemma pool_loses_below s s' j k : pool_loses s s' j → pool_below s' k → pool_below s (j + k).
Proof.
  intros (l1 & H1 & Hp1) (l2 & H2 & Hp2). exists (l1 ++ l2). rewrite length_app. split; [lia|].
  intros h Hh. rewrite elem_of_app. destruct (Hp1 h Hh) as [Hh'|]; auto.
Qed.

Lemma pool_below_le s j k : j ≤ k → pool_below s j → pool_below s k.
Proof. intros Hle (l & Hl & Hp). exists l. split; [lia|done]. Qed.

(** What reaching the table at [p] costs, where each missing table is one frame. *)
Definition cost (s : kst) (p : list Z) (k : Z) : Z :=
  match descend (phys s) root p with Some _ => 0 | None => k end.

Lemma cost_bounds s p k : 0 ≤ k → 0 ≤ cost s p k ≤ k.
Proof. intros Hk. unfold cost. case_match; lia. Qed.

(** [get_mut_or_alloc] on a table of the tree returns the table below it, creating an empty
    one if there is none; it takes at most one frame from the pool. *)
Lemma get_mut_or_alloc_spec s p f i :
  mm_ok s → valid_path p → (length p < 3)%nat → descend (phys s) root p = Some f →
  0 ≤ i < 512 →
  match get_mut_or_alloc (va_of f) i TABLE_FLAGS s with
  | Ok (t, s') => ∃ g, t = va_of g ∧ extends s s'
      ∧ descend (phys s') root (p ++ [i]) = Some g
      ∧ pool_loses s s' (cost s (p ++ [i]) 1)
  | Fault x => x = PanicMsg "OOM" ∧ pool_below s (cost s (p ++ [i]) 1)
  end.
Proof.
  intros Hok Hp Hl Hd Hi. destruct (va_of_table s p f Hok Hp Hd) as [Hf Hfr].
  destruct (entry_lt _ _ _ Hfr Hi) as [e He].
  unfold get_mut_or_alloc, gets. unfold mbind at 1, M_bind at 1.
  rewrite (lift_bind_ok _ _ _ e) by by apply tget_entry.
  destruct (tw_entry _ _ (mm_tree _ Hok) p f i e Hp Hl Hd Hi He) as [->|(g & Hg & ->)].
  - assert (cost s (p ++ [i]) 1 = 1) as Hcost.
    { unfold cost. rewrite descend_snoc, Hd. simpl. unfold child. by rewrite He. }
    rewrite Z.eqb_refl, Hcost. pose proof (new_table_spec s (mm_src _ Hok)) as Hnew.
    unfold mbind at 1, M_bind at 1. destruct (new_table s) as [[t s1]|x]; last first.
    { destruct Hnew as [-> Hno]. split; [done|]. exists []. split; [done|]. intros h Hh. by destruct (Hno h). }
    destruct Hnew as (g & -> & Hg & Hfree & Hsrc1 & Hpool & Hphys & Hdaif & Htlb).
    destruct (install_extends s s1 p f i g) as [Hext Hdg]; try done.
    fold (va_of g). rewrite va_of_pa by done.
    assert (frame_ok (phys s1) f) as Hfr1.
    { destruct Hfr as (x & Hx & ?). rewrite Hphys. destruct (decide (g = f)) as [->|].
      - exists (replicate 512 0). by rewrite lookup_insert_eq, length_replicate.
      - exists x. by rewrite lookup_insert_ne. }
    unfold on_mem, mbind, M_bind. rewrite tset_entry by done. simpl.
    exists g. split; [done|]. split; [done|]. split; [done|]. exists [g]. split; [done|]. intros h Hh.
    destruct (decide (h = g)); [right; by apply list_elem_of_singleton|left]. by apply free_frame_phys, Hpool.
  - destruct (table_entry_spec g Hg) as (Hne & _ & Hmask & Hfa).
    rewrite (proj2 (Z.eqb_neq _ _)) by done. rewrite Hmask. exists g.
    assert (descend (phys s) root (p ++ [i]) = Some g) as Hdg.
    { rewrite descend_snoc, Hd. simpl. unfold child. rewrite He. simpl.
      by rewrite (proj2 (Z.eqb_neq _ _)), Hfa by done. }
    split; [by apply va_of_virt|]. split; [by apply extends_refl|]. split; [done|].
    unfold cost. rewrite Hdg. apply pool_loses_refl.
Qed.

(** ** [vmap_at] *)

(** [s'] maps the page of [va] by the descriptor [e] and every other page as [s] does; no
    frame has changed except tables and frames of the pool, and no translation is cached. *)
Record remapped (s s' : kst) (va e : Z) : Prop := {
  rm_ok : mm_ok s';
  rm_pte : ∀ va', 0 ≤ va' < 2 ^ 39 →
    pte (phys s') root va' =
      if va' / PAGE_SIZE =? va / PAGE_SIZE then e else pte (phys s) root va';
  rm_new : ∀ h, is_table (phys s') root h → is_table (phys s) root h ∨ free_frame s h;
  rm_free : ∀ h, free_frame s' h → free_frame s h;
  rm_frames : ∀ h, ¬ free_frame s h → ¬ is_table (phys s) root h → phys s' !! h = phys s !! h;
  rm_shape : shape s' = shape s;
  rm_tlb : tlb s' = ∅;
}.

Lemma same_page va va' :
  0 ≤ va < 2 ^ 39 → 0 ≤ va' < 2 ^ 39 →
  bool_decide (path va' = path va ∧ leaf_index va' = leaf_index va)
    = (va' / PAGE_SIZE =? va / PAGE_SIZE).
Proof.
  intros Hva Hva'. unfold path, leaf_index, PAGE_SIZE. rewrite !Z.shiftr_div_pow2 by lia.
  destruct (Z.eqb_spec (va' / 4096) (va / 4096)) as [E|E].
  - apply bool_decide_eq_true.
    change (2 ^ 39) with (4096 * 134217728). change (2 ^ 30) with (4096 * 262144).
    change (2 ^ 21) with (4096 * 512). change (2 ^ 12) with 4096.
    by rewrite <- !Z.div_div, E by lia.
  - apply bool_decide_eq_false. intros [[= E1 E2 E3] E4]. apply E. zdiv.
Qed.

Lemma pte_page m va va' :
  0 ≤ va < 2 ^ 39 → 0 ≤ va' < 2 ^ 39 → va / PAGE_SIZE = va' / PAGE_SIZE →
  pte m root va = pte m root va'.
Proof.
  intros Hva Hva' E. pose proof (same_page va' va Hva' Hva) as Hb.
  rewrite (proj2 (Z.eqb_eq _ _) E) in Hb. apply bool_decide_eq_true in Hb as [Hp Hl].
  unfold pte. by rewrite Hp, Hl.
Qed.

(** Writing the leaf of [va] and flushing the TLB. *)
Lemma write_leaf_remapped s s1 va f e :
  extends s s1 → 0 ≤ va < 2 ^ 39 → descend (phys s1) root (path va) = Some f →
  remapped s (set_tlb ∅ (set_phys (write_entry (phys s1) f (leaf_index va) e) s1)) va e.
Proof.
  intros Hext Hva Hd. pose proof (valid_path_va va Hva) as Hp.
  pose proof (ext_ok _ _ Hext) as [Hsrc Hwf Hown].
  assert (0 ≤ leaf_index va < 512) as Hi by (apply Z.mod_pos_bound; lia).
  split; simpl.
  - split; simpl.
    + apply src_ok_tlb, src_ok_phys; [|done]. intros; by apply write_entry_frame_ok.
    + by apply leaf_wf with (path va).
    + intros h (q & Hq & Hh). rewrite leaf_descend with (p := path va) in Hh by done.
      intros Hfr%free_frame_tlb%free_frame_phys. apply (Hown h); [|done]. by exists q.
  - intros va' Hva'. rewrite leaf_pte with (p := path va) by done.
    rewrite same_page, (ext_pte _ _ Hext) by done. done.
  - intros h (q & Hq & Hh). rewrite leaf_descend with (p := path va) in Hh by done.
    apply (ext_new _ _ Hext). by exists q.
  - intros h Hh%free_frame_tlb%free_frame_phys. by apply (ext_free _ _ Hext).
  - intros h Hfr Ht. unfold write_entry.
    assert (h ≠ f) as Hne.
    { intros ->. destruct (ext_new _ _ Hext f) as [|]; [by exists (path va)|done..]. }
    destruct (phys s1 !! f); [rewrite lookup_insert_ne by done|]; by apply (ext_frames _ _ Hext).
  - apply (ext_shape _ _ Hext).
  - done.
Qed.

(** Reaching the last table, level by level. *)
Lemma cost_path s va :
  let i0 := Z.shiftr va 39 in let i1 := Z.shiftr va 30 mod 512 in
  0 ≤ cost s [i0] 1 ∧ 0 ≤ cost s [i0; i1] 1 ∧ 0 ≤ cost s (path va) 1
  ∧ cost s [i0] 1 + cost s [i0; i1] 1 + cost s (path va) 1 ≤ cost s (path va) 3.
Proof.
  intros i0 i1. pose proof (descend_snoc (phys s) root [i0] i1) as E1.
  pose proof (descend_snoc (phys s) root [i0; i1] (Z.shiftr va 21 mod 512)) as E2.
  cbn [app] in E1, E2. unfold cost, path. fold i0 i1. rewrite E2.
  generalize dependent (descend (phys s) root [i0; i1]). generalize (descend (phys s) root [i0]).
  intros d1 d2 -> _. destruct d1 as [g|]; simpl; [|lia]. destruct (child _ g i1) as [h|]; simpl; [|lia].
  destruct (child _ h _); lia.
Qed.

(** More tables cost less. *)
Lemma cost_extends s s' p k : 0 ≤ k → extends s s' → valid_path p → cost s' p k ≤ cost s p k.
Proof.
  intros Hk He Hp. unfold cost. destruct (descend (phys s) root p) as [h|] eqn:E.
  - by rewrite (ext_tables _ _ He p h).
  - destruct (descend (phys s') root p); lia.
Qed.

(** Descending the three levels, creating tables on the way. *)
Lemma walk_or_alloc s va :
  mm_ok s → 0 ≤ va < 2 ^ 39 →
  match (l1 ← get_mut_or_alloc (va_of root) (Z.shiftr va 39) TABLE_FLAGS;
         l2 ← get_mut_or_alloc l1 (Z.shiftr va 30 mod 512) TABLE_FLAGS;
         get_mut_or_alloc l2 (Z.shiftr va 21 mod 512) TABLE_FLAGS) s with
  | Ok (l3, s') => ∃ f, l3 = va_of f ∧ extends s s' ∧ descend (phys s') root (path va) = Some f
      ∧ pool_loses s s' (cost s (path va) 3)
  | Fault x => x = PanicMsg "OOM" ∧ pool_below s (cost s (path va) 3)
  end.
Proof.
  intros Hok Hva. pose proof (valid_path_va va Hva) as Hv3.
  destruct (valid_path_snoc [_; _] _ Hv3) as (Hv2 & Hl2 & H2).
  destruct (valid_path_snoc [_] _ Hv2) as (Hv1 & Hl1 & H1).
  destruct (valid_path_snoc [] _ Hv1) as (Hv0 & Hl0 & H0).
  unfold mbind, M_bind.
  pose proof (get_mut_or_alloc_spec s [] root (Z.shiftr va 39) Hok
    Hv0 Hl0 eq_refl H0) as Hs1. cbn [app] in Hs1.
  destruct (get_mut_or_alloc (va_of root) _ _ s) as [[l1 s1]|x]; last first.
  { destruct Hs1 as [-> Hno]. split; [done|]. eapply pool_below_le; [|exact Hno].
    pose proof (cost_path s va). cbv zeta in *. lia. }
  destruct Hs1 as (f1 & -> & He1 & Hd1 & Hx1).
  pose proof (get_mut_or_alloc_spec s1 [Z.shiftr va 39] f1 (Z.shiftr va 30 mod 512) (ext_ok _ _ He1)
    Hv1 Hl1 Hd1 H1) as Hs2. cbn [app] in Hs2.
  pose proof (cost_extends s s1 _ 1 Z.le_0_1 He1 Hv2) as Hc2. cbn [app] in Hc2.
  destruct (get_mut_or_alloc (va_of f1) _ _ s1) as [[l2 s2]|x]; last first.
  { destruct Hs2 as [-> Hno]. split; [done|]. eapply pool_below_le; [|exact (pool_loses_below _ _ _ _ Hx1 Hno)].
    pose proof (cost_path s va). cbv zeta in *. lia. }
  destruct Hs2 as (f2 & -> & He2 & Hd2 & Hx2).
  pose proof (extends_trans _ _ _ He1 He2) as He12.
  pose proof (get_mut_or_alloc_spec s2 [Z.shiftr va 39; Z.shiftr va 30 mod 512] f2
    (Z.shiftr va 21 mod 512) (ext_ok _ _ He2)
    Hv2 Hl2 Hd2 H2) as Hs3. cbn [app] in Hs3.
  pose proof (cost_extends s s2 _ 1 Z.le_0_1 He12 Hv3) as Hc3. cbn [app] in Hc3.
  pose proof (pool_loses_trans _ _ _ _ _ Hx1 Hx2) as Hx12.
  destruct (get_mut_or_alloc (va_of f2) _ _ s2) as [[l3 s3]|x]; last first.
  { destruct Hs3 as [-> Hno]. split; [done|]. eapply pool_below_le; [|exact (pool_loses_below _ _ _ _ Hx12 Hno)].
    pose proof (cost_path s va). cbv zeta in *. unfold path in *. lia. }
  destruct Hs3 as (f3 & -> & He3 & Hd3 & Hx3). exists f3. split; [done|].
  split; [by eapply extends_trans|]. split; [done|].
  eapply pool_loses_le; [|exact (pool_loses_trans _ _ _ _ _ Hx12 Hx3)].
  pose proof (cost_path s va). cbv zeta in *. unfold path in *. lia.
Qed.

(** [vmap_at] refuses an address that is too high or not aligned. *)
Lemma vmap_at_high s va paddr attrs :
  2 ^ 39 ≤ va →
  vmap_at (va_of root) va paddr attrs s = Fault (PanicMsg "assertion failed: vaddr < 0x8000000000").
Proof.
  intros Hva. unfold vmap_at. rewrite (lift_bind_ok _ _ _ tt) by done.
  unfold assert, mbind at 1, M_bind at 1, lift at 1. by rewrite (proj2 (Z.ltb_ge _ _)) by lia.
Qed.

Lemma vmap_at_unaligned s va paddr attrs :
  va < 2 ^ 39 → va mod PAGE_SIZE ≠ 0 →
  vmap_at (va_of root) va paddr attrs s = Fault (PanicMsg "assertion failed: vaddr % PAGE_SIZE == 0").
Proof.
  intros Hva Hal. unfold vmap_at. rewrite (lift_bind_ok _ _ _ tt) by done.
  rewrite (lift_bind_ok _ _ _ tt) by (unfold assert; by rewrite (proj2 (Z.ltb_lt _ _)) by lia).
  unfold assert, mbind at 1, M_bind at 1, lift at 1. by rewrite (proj2 (Z.eqb_neq _ _)) by done.
Qed.

(** [vmap_at] on an aligned address below 512 GiB: it succeeds on an unmapped page, panics
    on a mapped one, and panics when fewer than three frames are left for tables. *)
Lemma vmap_at_pool s va paddr attrs :
  mm_ok s → 0 ≤ va < 2 ^ 39 → va mod PAGE_SIZE = 0 →
  match vmap_at (va_of root) va paddr attrs s with
  | Ok (_, s') => pte (phys s) root va = 0
      ∧ remapped s s' va (Z.lor (Z.lor (pa paddr) COMMON_FLAGS) attrs)
      ∧ pool_loses s s' (cost s (path va) 3) ∧ is_Some (descend (phys s') root (path va))
  | Fault x => (x = PanicMsg "OOM" ∧ pool_below s (cost s (path va) 3))
      ∨ (x = PanicMsg "Tried to map memory that is already occupied" ∧ pte (phys s) root va ≠ 0)
  end.
Proof.
  intros Hok Hva Hal. unfold vmap_at.
  rewrite (lift_bind_ok _ _ _ tt) by done.
  rewrite (lift_bind_ok _ _ _ tt) by (unfold assert; by rewrite (proj2 (Z.ltb_lt _ _)) by lia).
  rewrite (lift_bind_ok _ _ _ tt) by (unfold assert; by rewrite Hal).
  pose proof (walk_or_alloc s va Hok Hva) as Hw. unfold mbind, M_bind in Hw |- *.
  destruct (get_mut_or_alloc (va_of root) _ _ s) as [[l1 s1]|x]; [|by left].
  destruct (get_mut_or_alloc l1 _ _ s1) as [[l2 s2]|x]; [|by left].
  destruct (get_mut_or_alloc l2 _ _ s2) as [[l3 s3]|x]; [|by left].
  destruct Hw as (f & -> & Hext & Hd & Hpl). fold (leaf_index va).
  assert (0 ≤ leaf_index va < 512) as Hi by (apply Z.mod_pos_bound; lia).
  destruct (va_of_table s3 (path va) f (ext_ok _ _ Hext) (valid_path_va va Hva) Hd) as [Hf Hfr].
  destruct (entry_lt _ _ _ Hfr Hi) as [e He]. simpl. rewrite (tget_entry _ f _ e) by done. simpl.
  assert (pte (phys s) root va = e) as Hpte.
  { rewrite <- (ext_pte _ _ Hext) by done. unfold pte. rewrite Hd. simpl. by rewrite He. }
  unfold assert. destruct (Z.eqb_spec e 0) as [->|Hne]; simpl; [|right; by rewrite Hpte].
  unfold on_mem. rewrite tset_entry by done. simpl. split; [done|].
  split; [by apply write_leaf_remapped|]. split.
  - destruct Hpl as (l & Hl & Hp). exists l. split; [done|]. intros h Hh.
    destruct (Hp h Hh); [left|by right]. by apply free_frame_tlb, free_frame_phys.
  - pose proof (ext_ok _ _ Hext) as [_ Hwf _]. exists f.
    match goal with |- ?g = _ => change g with (descend (write_entry (phys s3) f (leaf_index va)
      (Z.lor (Z.lor (pa paddr) COMMON_FLAGS) attrs)) root (path va)) end.
    by rewrite leaf_descend with (p := path va) by (done || by apply valid_path_va).
Qed.

Lemma pool_below_three s va :
  pool_below s (cost s (path va) 3) → ∃ a b, ∀ h, free_frame s h → h = a ∨ h = b.
Proof.
  intros Hb. apply (pool_below_le _ _ 3) in Hb; [|by apply cost_bounds].
  destruct Hb as (l & Hl & Hp). exists (nth 0 l 0), (nth 1 l 0). intros h Hh. apply Hp, list_elem_of_In in Hh.
  destruct l as [|a [|b [|c l]]]; cbn [length nth List.In] in *; [done|intuition auto..|lia].
Qed.

Lemma vmap_at_spec s va paddr attrs :
  mm_ok s → 0 ≤ va < 2 ^ 39 → va mod PAGE_SIZE = 0 →
  match vmap_at (va_of root) va paddr attrs s with
  | Ok (_, s') => pte (phys s) root va = 0
      ∧ remapped s s' va (Z.lor (Z.lor (pa paddr) COMMON_FLAGS) attrs)
  | Fault x => (x = PanicMsg "OOM" ∧ ∃ a b, ∀ h, free_frame s h → h = a ∨ h = b)
      ∨ (x = PanicMsg "Tried to map memory that is already occupied" ∧ pte (phys s) root va ≠ 0)
  end.
Proof.
  intros Hok Hva Hal. pose proof (vmap_at_pool s va paddr attrs Hok Hva Hal) as Hm.
  destruct (vmap_at _ _ _ _ s) as [[[] s']|x]; [by destruct Hm as (? & ? & _)|].
  destruct Hm as [[-> Hb]|]; [left|by right]. split; [done|]. by eapply pool_below_three.
Qed.

(** ** [vunmap] *)

(** [get_mut] on a table of the tree. *)
Lemma get_mut_spec s p f i :
  mm_ok s → valid_path p → (length p < 3)%nat → descend (phys s) root p = Some f →
  0 ≤ i < 512 →
  get_mut (phys s) (va_of f) i =
    Ok (match descend (phys s) root (p ++ [i]) with Some g => PGTable (va_of g) | None => PGFree end).
Proof.
  intros Hok Hp Hl Hd Hi. destruct (va_of_table s p f Hok Hp Hd) as [Hf Hfr].
  destruct (entry_lt _ _ _ Hfr Hi) as [e He]. unfold get_mut.
  rewrite (tget_entry _ f _ e) by done. run. rewrite descend_snoc, Hd. simpl.
  unfold child. rewrite He. simpl.
  destruct (tw_entry _ _ (mm_tree _ Hok) p f i e Hp Hl Hd Hi He) as [->|(g & Hg & ->)]; [done|].
  destruct (table_entry_spec g Hg) as (Hne & H3 & Hmask & Hfa).
  rewrite (proj2 (Z.eqb_neq _ _)), H3, Hmask, Hfa by done. simpl. by rewrite <- va_of_virt.
Qed.

(** Unmapping never panics on the kernel's tables; where some table is missing it leaves
    the state alone. *)
Lemma vunmap_single_spec s va :
  mm_ok s → 0 ≤ va < 2 ^ 39 → va mod PAGE_SIZE = 0 →
  (vunmap_single (va_of root) va s = Ok (tt, s) ∧ pte (phys s) root va = 0)
  ∨ ∃ s', vunmap_single (va_of root) va s = Ok (tt, s') ∧ remapped s s' va 0.
Proof.
  intros Hok Hva Hal. pose proof (valid_path_va va Hva) as Hv3.
  destruct (valid_path_snoc [_; _] _ Hv3) as (Hv2 & Hl2 & H2).
  destruct (valid_path_snoc [_] _ Hv2) as (Hv1 & Hl1 & H1).
  destruct (valid_path_snoc [] _ Hv1) as (Hv0 & Hl0 & H0).
  unfold vunmap_single. rewrite (lift_bind_ok _ _ _ tt) by done.
  rewrite (lift_bind_ok _ _ _ tt) by (unfold assert; by rewrite (proj2 (Z.ltb_lt _ _)) by lia).
  rewrite (lift_bind_ok _ _ _ tt) by (unfold assert; by rewrite Hal).
  rewrite (M_bind_ok _ _ s (phys s) s) by done.
  rewrite (lift_bind_ok _ _ _ _ (get_mut_spec s [] root _ Hok Hv0 Hl0 eq_refl H0)).
  cbn [app]. unfold pte, path.
  change [Z.shiftr va 39; ?b; ?c] with (([Z.shiftr va 39] ++ [b]) ++ [c]).
  rewrite (descend_snoc _ _ (_ ++ _)), (descend_snoc _ _ [_]).
  destruct (descend (phys s) root [Z.shiftr va 39]) as [f1|] eqn:D1; [|by left].
  rewrite (lift_bind_ok _ _ _ _ (get_mut_spec s [_] f1 _ Hok Hv1 Hl1 D1 H1)).
  rewrite descend_snoc, D1. cbn [mbind option_bind].
  destruct (child (phys s) f1 _) as [f2|] eqn:C2; [|by left].
  assert (descend (phys s) root [Z.shiftr va 39; Z.shiftr va 30 mod 512] = Some f2) as D2
    by (change [?a; ?b] with ([a] ++ [b]); by rewrite descend_snoc, D1).
  rewrite (lift_bind_ok _ _ _ _ (get_mut_spec s [_; _] f2 _ Hok Hv2 Hl2 D2 H2)).
  rewrite descend_snoc, D2. cbn [mbind option_bind].
  destruct (child (phys s) f2 _) as [f3|] eqn:C3; [|by left].
  assert (descend (phys s) root (path va) = Some f3) as D3
    by (unfold path; change [?a; ?b; ?c] with ([a; b] ++ [c]); by rewrite descend_snoc, D2).
  destruct (va_of_table s _ f3 Hok Hv3 D3) as [Hf Hfr].
  assert (0 ≤ leaf_index va < 512) as Hi by (apply Z.mod_pos_bound; lia).
  right. eexists. split; [|by apply write_leaf_remapped; [apply extends_refl|..]].
  fold (leaf_index va). unfold mbind, M_bind, on_mem. rewrite tset_entry by done. done.
Qed.

(** ** Ranges of pages *)

(** [s'] maps the [n] pages from page number [lo] by the descriptors [e] and every other
    page as [s] does. *)
Record range_mapped (s s' : kst) (lo n : Z) (e : Z → Z) : Prop := {
  rg_ok : mm_ok s';
  rg_pte : ∀ va, 0 ≤ va < 2 ^ 39 →
    pte (phys s') root va =
      if (lo <=? va / PAGE_SIZE) && (va / PAGE_SIZE <? lo + n) then e (va / PAGE_SIZE)
      else pte (phys s) root va;
  rg_new : ∀ h, is_table (phys s') root h → is_table (phys s) root h ∨ free_frame s h;
  rg_free : ∀ h, free_frame s' h → free_frame s h;
  rg_frames : ∀ h, ¬ free_frame s h → ¬ is_table (phys s) root h → phys s' !! h = phys s !! h;
  rg_shape : shape s' = shape s;
  rg_tlb : tlb s' = ∅ ∨ (tlb s' = tlb s ∧ phys s' = phys s);
}.

Lemma range_mapped_nil s lo e : mm_ok s → range_mapped s s lo 0 e.
Proof.
  intros Hok. split; auto. intros va _.
  destruct (Z.leb_spec lo (va / PAGE_SIZE)), (Z.ltb_spec (va / PAGE_SIZE) (lo + 0));
    simpl; done || lia.
Qed.

Lemma range_mapped_snoc s s1 s2 lo n e :
  0 ≤ n → range_mapped s s1 lo n e → remapped s1 s2 (PAGE_SIZE * (lo + n)) (e (lo + n)) →
  range_mapped s s2 lo (n + 1) e.
Proof.
  intros Hn [O1 P1 N1 F1 R1 D1 L1] [O2 P2 N2 F2 R2 D2 L2]. split.
  - done.
  - intros va Hva. rewrite P2, P1 by done.
    replace (PAGE_SIZE * (lo + n) / PAGE_SIZE) with (lo + n) by (unfold PAGE_SIZE; zdiv).
    destruct (Z.eqb_spec (va / PAGE_SIZE) (lo + n)) as [E|E].
    + rewrite E. by rewrite (proj2 (Z.leb_le _ _)), (proj2 (Z.ltb_lt _ _)) by lia.
    + destruct (Z.leb_spec lo (va / PAGE_SIZE)), (Z.ltb_spec (va / PAGE_SIZE) (lo + n)),
        (Z.ltb_spec (va / PAGE_SIZE) (lo + (n + 1))); simpl; done || lia.
  - intros h Hh. destruct (N2 h Hh); auto.
  - auto.
  - intros h Hf Ht. rewrite R2; [auto| |].
    + intros Hf'. by apply Hf, F1.
    + intros Ht'. destruct (N1 h Ht'); auto.
  - by rewrite D2.
  - by left.
Qed.

(** A page that was already unmapped may be left alone. *)
Lemma range_mapped_same s s1 lo n e :
  0 ≤ n → 0 ≤ PAGE_SIZE * (lo + n) < 2 ^ 39 → range_mapped s s1 lo n e →
  pte (phys s1) root (PAGE_SIZE * (lo + n)) = e (lo + n) →
  range_mapped s s1 lo (n + 1) e.
Proof.
  intros Hn Hlo [O1 P1 N1 F1 R1 D1 L1] He. split; [done| |done..].
  intros va Hva. rewrite P1 by done.
  destruct (Z.eqb_spec (va / PAGE_SIZE) (lo + n)) as [E|E].
  - rewrite (proj2 (Z.ltb_ge _ _)), andb_false_r by lia.
    rewrite (proj2 (Z.leb_le _ _)), (proj2 (Z.ltb_lt (va / PAGE_SIZE) (lo + (n + 1)))) by lia. simpl.
    rewrite E, <- He, P1 by done.
    rewrite (proj2 (Z.ltb_ge (PAGE_SIZE * (lo + n) / PAGE_SIZE) _)), andb_false_r
      by (unfold PAGE_SIZE; zdiv).
    apply pte_page; [done|done|]. rewrite E. unfold PAGE_SIZE. zdiv.
  - destruct (Z.leb_spec lo (va / PAGE_SIZE)), (Z.ltb_spec (va / PAGE_SIZE) (lo + n)),
      (Z.ltb_spec (va / PAGE_SIZE) (lo + (n + 1))); simpl; done || lia.
Qed.

Lemma each_offset_rule (Inv : Z → kst → Prop) (Q : fault → Prop) body k n s :
  0 ≤ n → Inv k s →
  (∀ i s, k ≤ i < k + n → Inv i s →
    match body (PAGE_SIZE * i) s with Ok (_, s') => Inv (i + 1) s' | Fault f => Q f end) →
  match each_offset ((λ i, PAGE_SIZE * i) <$> seqZ k n) body s with
  | Ok (_, s') => Inv (k + n) s'
  | Fault f => Q f
  end.
Proof.
  intros Hn. revert k s. pattern n; apply natlike_ind; [| |done]; clear n Hn.
  - intros k s Hs _. simpl. by rewrite Z.add_0_r.
  - intros n Hn IH k s Hs Hbody. rewrite seqZ_cons, Z.pred_succ by lia. simpl.
    unfold mbind, M_bind. generalize (Hbody k s ltac:(lia) Hs).
    destruct (body (PAGE_SIZE * k) s) as [[[] s']|x]; [|done]. intros Hs'.
    replace (k + Z.succ n) with (Z.succ k + n) by lia.
    apply IH; [by rewrite <- Z.add_1_r|]. intros i s0 Hi. apply Hbody. lia.
Qed.

(** [vunmap] of pages below 512 GiB always succeeds and removes exactly those pages. *)
Lemma vunmap_spec `{Profile} s lo n :
  mm_ok s → 0 ≤ lo → 0 ≤ n → PAGE_SIZE * (lo + n) ≤ 2 ^ 39 →
  ∃ s', vunmap (va_of root) (PAGE_SIZE * lo) (PAGE_SIZE * n) s = Ok (tt, s')
    ∧ range_mapped s s' lo n (λ _, 0).
Proof.
  intros Hok Hlo Hn Hb. unfold vunmap, offsets.
  replace (div_ceil (PAGE_SIZE * n) PAGE_SIZE) with n
    by (rewrite div_ceil_spec by done; unfold PAGE_SIZE; zdiv).
  pose proof (each_offset_rule (λ i s', range_mapped s s' lo i (λ _, 0)) (λ _, False)
    (λ offset, va ← lift (uadd (PAGE_SIZE * lo) offset); vunmap_single (va_of root) va)
    0 n s Hn (range_mapped_nil s lo _ Hok)) as Hr.
  destruct (each_offset _ _ s) as [[[] s']|x]; [exists s'; split; [done|]; apply Hr|exfalso; apply Hr].
  all: intros i s1 Hi H1.
  all: rewrite (lift_bind_ok _ _ _ (PAGE_SIZE * (lo + i)))
    by (rewrite uadd_ok by (unfold is_u64, PAGE_SIZE in *; lia); f_equal; lia).
  all: assert (0 ≤ PAGE_SIZE * (lo + i) < 2 ^ 39) as Hva by (unfold PAGE_SIZE in *; lia).
  all: destruct (vunmap_single_spec s1 (PAGE_SIZE * (lo + i)) (rg_ok _ _ _ _ _ H1) Hva)
    as [[-> Hz]|(s2 & -> & Hrm)].
  all: try by (unfold PAGE_SIZE; zdiv).
  all: try by (eapply range_mapped_snoc; [lia|..]).
  all: by apply range_mapped_same; [lia|..].
Qed.

(** [vunmap_single] refuses an address that is too high or not aligned. *)
Lemma vunmap_single_high s va :
  2 ^ 39 ≤ va → vunmap_single (va_of root) va s = Fault (PanicMsg "assertion failed: vaddr < 0x8000000000").
Proof.
  intros Hva. unfold vunmap_single. rewrite (lift_bind_ok _ _ _ tt) by done.
  unfold assert, mbind at 1, M_bind at 1, lift at 1. by rewrite (proj2 (Z.ltb_ge _ _)) by lia.
Qed.

Lemma vunmap_single_unaligned s va :
  va < 2 ^ 39 → va mod PAGE_SIZE ≠ 0 →
  vunmap_single (va_of root) va s = Fault (PanicMsg "assertion failed: vaddr % PAGE_SIZE == 0").
Proof.
  intros Hva Hal. unfold vunmap_single. rewrite (lift_bind_ok _ _ _ tt) by done.
  rewrite (lift_bind_ok _ _ _ tt) by (unfold assert; by rewrite (proj2 (Z.ltb_lt _ _)) by lia).
  unfold assert, mbind at 1, M_bind at 1, lift at 1. by rewrite (proj2 (Z.eqb_neq _ _)) by done.
Qed.

(** [vunmap] of any range: the pages it touches are unmapped, or it starts off a page boundary,
    or it ends past 512 GiB. *)
Lemma vunmap_total `{Profile} s va size :
  mm_ok s → is_u64 va → 0 ≤ size →
  let n := div_ceil size PAGE_SIZE in
  match vunmap (va_of root) va size s with
  | Ok (_, s') => (size = 0 ∨ va mod PAGE_SIZE = 0 ∧ va + PAGE_SIZE * n ≤ 2 ^ 39)
      ∧ range_mapped s s' (va / PAGE_SIZE) n (λ _, 0)
  | Fault x => 0 < size
      ∧ ((x = PanicMsg "assertion failed: vaddr % PAGE_SIZE == 0" ∧ va mod PAGE_SIZE ≠ 0)
         ∨ (x = PanicMsg "assertion failed: vaddr < 0x8000000000" ∧ 2 ^ 39 < va + PAGE_SIZE * n))
  end.
Proof.
  intros Hok Hva Hsz n. unfold is_u64 in Hva.
  assert (0 ≤ n ∧ (0 < size → 0 < n) ∧ (size = 0 → n = 0)) as (Hn & Hpos & Hz)
    by (unfold n; rewrite div_ceil_spec by done; unfold PAGE_SIZE; split_and!; intros; zdiv).
  unfold vunmap, offsets. fold n. destruct (Z.eq_dec size 0) as [->|Hne].
  { rewrite (Hz eq_refl). split; [by left|]. by apply range_mapped_nil. }
  assert (∀ x, vunmap_single (va_of root) va s = Fault x →
    each_offset ((λ k, PAGE_SIZE * k) <$> seqZ 0 n)
      (λ offset, va ← lift (uadd va offset); vunmap_single (va_of root) va) s = Fault x) as Hfirst.
  { intros x Hx. rewrite seqZ_cons by lia. cbn [fmap list_fmap each_offset].
    unfold mbind at 1, M_bind at 1.
    rewrite (lift_bind_ok _ _ _ va) by (rewrite Z.mul_0_r, uadd_ok by (unfold is_u64; lia); f_equal; lia).
    by rewrite Hx. }
  destruct (Z.lt_ge_cases va (2 ^ 39)) as [Hlt|Hge]; last first.
  { rewrite (Hfirst _ (vunmap_single_high s va Hge)). split; [lia|]. right. split; [done|]. unfold PAGE_SIZE; lia. }
  destruct (Z.eq_dec (va mod PAGE_SIZE) 0) as [Hal|Hal]; last first.
  { rewrite (Hfirst _ (vunmap_single_unaligned s va Hlt Hal)). split; [lia|]. by left. }
  clear Hfirst. set (lo := va / PAGE_SIZE). assert (va = PAGE_SIZE * lo) as Hlo by (unfold lo, PAGE_SIZE in *; zdiv).
  pose proof (each_offset_rule (λ i s', range_mapped s s' lo i (λ _, 0) ∧ lo + i ≤ 2 ^ 27)
    (λ x, x = PanicMsg "assertion failed: vaddr < 0x8000000000" ∧ 2 ^ 39 < va + PAGE_SIZE * n)
    (λ offset, va ← lift (uadd va offset); vunmap_single (va_of root) va) 0 n s Hn) as Hr.
  destruct (each_offset _ _ s) as [[[] s']|x]; [destruct Hr as [Hr Hend]|split; [lia|]; right; apply Hr].
  all: try (split; [by apply range_mapped_nil|unfold PAGE_SIZE in *; lia]).
  2: { split; [|done]. right. split; [done|]. unfold PAGE_SIZE in *; lia. }
  all: intros i s1 Hi [H1 Hle].
  all: rewrite (lift_bind_ok _ _ _ (PAGE_SIZE * (lo + i)))
    by (rewrite uadd_ok by (unfold is_u64, PAGE_SIZE in *; lia); f_equal; lia).
  all: destruct (Z.lt_ge_cases (lo + i) (2 ^ 27)) as [Hi27|Hi27];
    [|rewrite vunmap_single_high by (unfold PAGE_SIZE; lia); split; [done|unfold PAGE_SIZE in *; lia]].
  all: assert (0 ≤ PAGE_SIZE * (lo + i) < 2 ^ 39) as Hi39 by (unfold PAGE_SIZE in *; lia).
  all: destruct (vunmap_single_spec s1 (PAGE_SIZE * (lo + i)) (rg_ok _ _ _ _ _ H1) Hi39 ltac:(unfold PAGE_SIZE; zdiv))
    as [[-> Hzero]|(s2 & -> & Hrm)]; (split; [|lia]).
  all: try by (eapply range_mapped_snoc; [lia|..]).
  all: by apply range_mapped_same; [lia|..].
Qed.

Lemma offsets_pages n : 0 ≤ n → offsets (PAGE_SIZE * n) = (λ i, PAGE_SIZE * i) <$> seqZ 0 n.
Proof.
  intros. unfold offsets. do 2 f_equal. rewrite div_ceil_spec by done. unfold PAGE_SIZE. zdiv.
Qed.

(** The number of 2 MiB slots that the [k] pages from page number [lo] touch. *)
Definition slots (lo k : Z) : Z := if k =? 0 then 0 else (lo + k - 1) / 512 - lo / 512 + 1.

(** The frames that mapping [n] consecutive pages may need for tables. *)
Definition tables_for (n : Z) : Z := 3 * (n / 512 + 2).

Lemma slots_le lo n k : 0 ≤ lo → 0 ≤ k ≤ n → 3 * slots lo k ≤ tables_for n.
Proof. unfold slots, tables_for. intros. destruct (Z.eqb_spec k 0); zdiv. Qed.

Lemma path_slot lo lo' : 0 ≤ lo → 0 ≤ lo' → lo / 512 = lo' / 512 → path (PAGE_SIZE * lo) = path (PAGE_SIZE * lo').
Proof.
  intros Hlo Hlo' E. unfold path, PAGE_SIZE. rewrite !Z.shiftr_div_pow2 by lia.
  change (2 ^ 39) with (4096 * (512 * 262144)). change (2 ^ 30) with (4096 * (512 * 512)).
  change (2 ^ 21) with (4096 * 512). rewrite !Z.div_mul_cancel_l, <- !(Z.div_div _ 512) by lia. by rewrite E.
Qed.

(** Why mapping the [n] pages from page number [lo] on may fail: too few frames for tables, a
    page of the range that is mapped, or a range that ends past 512 GiB. *)
Definition map_panics (s : kst) (lo n : Z) (x : fault) : Prop :=
  (x = PanicMsg "OOM" ∧ pool_below s (tables_for n))
  ∨ (x = PanicMsg "Tried to map memory that is already occupied"
     ∧ ∃ i, lo ≤ i < lo + n ∧ i < 2 ^ 27 ∧ pte (phys s) root (PAGE_SIZE * i) ≠ 0)
  ∨ (x = PanicMsg "assertion failed: vaddr < 0x8000000000" ∧ 2 ^ 39 < PAGE_SIZE * (lo + n)).

(** Mapping [n] pages from page number [lo] on, page [lo + i] to [p i]: every page of the
    range was free, or the code panics. *)
Definition map_outcome (s : kst) (lo n : Z) (p : Z → PhyAddr) (attrs : Z) (r : res (unit * kst)) : Prop :=
  match r with
  | Ok (_, s') => PAGE_SIZE * (lo + n) ≤ 2 ^ 39
      ∧ (∀ i, lo ≤ i < lo + n → pte (phys s) root (PAGE_SIZE * i) = 0)
      ∧ range_mapped s s' lo n (λ i, Z.lor (Z.lor (pa (p (i - lo))) COMMON_FLAGS) attrs)
  | Fault x => map_panics s lo n x
  end.

(** The state after [k] pages. *)
Record map_inv (s : kst) (lo : Z) (e : Z → Z) (k : Z) (s' : kst) : Prop := {
  mi_end : PAGE_SIZE * (lo + k) ≤ 2 ^ 39;
  mi_unmapped : ∀ i, lo ≤ i < lo + k → pte (phys s) root (PAGE_SIZE * i) = 0;
  mi_range : range_mapped s s' lo k e;
  mi_pool : pool_loses s s' (3 * slots lo k);
  mi_last : 0 < k → is_Some (descend (phys s') root (path (PAGE_SIZE * (lo + k - 1))));
}.

(** A page in the slot of its predecessor needs no table. *)
Lemma slots_step s lo i :
  0 ≤ lo → 0 ≤ i → (0 < i → is_Some (descend (phys s) root (path (PAGE_SIZE * (lo + i - 1))))) →
  3 * slots lo i + cost s (path (PAGE_SIZE * (lo + i))) 3 ≤ 3 * slots lo (i + 1).
Proof.
  intros Hlo Hi Hlast. assert (cost s (path (PAGE_SIZE * (lo + i))) 3 ≤ 3) as Hc3
    by (by apply cost_bounds).
  unfold slots. rewrite (proj2 (Z.eqb_neq (i + 1) 0)) by lia. replace (lo + (i + 1) - 1) with (lo + i) by lia.
  destruct (Z.eqb_spec i 0) as [->|Hne]; [rewrite Z.add_0_r in *; lia|].
  destruct (Z.eq_dec ((lo + i) / 512) ((lo + i - 1) / 512)) as [E|E]; [|zdiv].
  rewrite (path_slot (lo + i) (lo + i - 1)), E by lia. unfold cost.
  destruct Hlast as [h ->]; lia.
Qed.

Lemma map_step s lo n e i s1 paddr attrs :
  0 ≤ lo → 0 ≤ i < n → map_inv s lo e i s1 → e (lo + i) = Z.lor (Z.lor (pa paddr) COMMON_FLAGS) attrs →
  match vmap_at (va_of root) (PAGE_SIZE * (lo + i)) paddr attrs s1 with
  | Ok (_, s2) => map_inv s lo e (i + 1) s2
  | Fault x => map_panics s lo n x
  end.
Proof.
  intros Hlo Hi [Hb Hz Hr Hpl Hlast] He.
  destruct (Z.lt_ge_cases (lo + i) (2 ^ 27)) as [Hlt|Hge]; last first.
  { rewrite vmap_at_high by (unfold PAGE_SIZE; lia).
    right; right. split; [done|]. unfold PAGE_SIZE; lia. }
  assert (0 ≤ PAGE_SIZE * (lo + i) < 2 ^ 39) as Hva by (unfold PAGE_SIZE; lia).
  assert (pte (phys s1) root (PAGE_SIZE * (lo + i)) = pte (phys s) root (PAGE_SIZE * (lo + i))) as Hp.
  { rewrite (rg_pte _ _ _ _ _ Hr) by done.
    rewrite (proj2 (Z.ltb_ge _ _)), andb_false_r by (unfold PAGE_SIZE; zdiv). done. }
  pose proof (slots_step s1 lo i Hlo ltac:(lia) Hlast) as Hcost.
  pose proof (vmap_at_pool s1 (PAGE_SIZE * (lo + i)) paddr attrs
    (rg_ok _ _ _ _ _ Hr) Hva ltac:(unfold PAGE_SIZE; zdiv)) as Hm.
  destruct (vmap_at _ _ _ _ s1) as [[[] s2]|x].
  - destruct Hm as (Hz1 & Hrm & Hpl1 & Hd1). split.
    + unfold PAGE_SIZE; lia.
    + intros j Hj. destruct (Z.eq_dec j (lo + i)) as [->|]; [by rewrite <- Hp|]. apply Hz. lia.
    + eapply range_mapped_snoc; [lia|done|]. by rewrite He.
    + eapply pool_loses_le; [exact Hcost|by eapply pool_loses_trans].
    + intros _. by replace (lo + (i + 1) - 1) with (lo + i) by lia.
  - destruct Hm as [[-> Hbelow]|[-> Hne]].
    + left. split; [done|]. eapply pool_below_le; [|exact (pool_loses_below _ _ _ _ Hpl Hbelow)].
      etrans; [exact Hcost|]. apply slots_le; lia.
    + right; left. split; [done|]. exists (lo + i). rewrite <- Hp. split; [lia|]. done.
Qed.

Lemma map_loop s lo n p attrs body :
  mm_ok s → 0 ≤ lo < 2 ^ 27 → 0 ≤ n →
  (∀ i s, 0 ≤ i < n → lo + i ≤ 2 ^ 27 →
     body (PAGE_SIZE * i) s = vmap_at (va_of root) (PAGE_SIZE * (lo + i)) (p i) attrs s) →
  map_outcome s lo n p attrs (each_offset ((λ i, PAGE_SIZE * i) <$> seqZ 0 n) body s).
Proof.
  intros Hok Hlo Hn Hbody.
  set (e := λ i, Z.lor (Z.lor (pa (p (i - lo))) COMMON_FLAGS) attrs).
  pose proof (each_offset_rule (map_inv s lo e) (map_panics s lo n) body 0 n s Hn) as Hrule.
  unfold map_outcome. destruct (each_offset _ _ s) as [[[] s']|x].
  1: enough (map_inv s lo e n s') as [Hend Hz Hr _ _] by (by split_and!).
  all: apply Hrule; [|intros i s1 Hi Hinv; rewrite Hbody;
    [by apply map_step; [lia..|done|unfold e; by replace (lo + i - lo) with i by lia]|lia|]].
  all: try (destruct Hinv as [Hb _ _ _ _]; unfold PAGE_SIZE in *; lia).
  all: split; [unfold PAGE_SIZE; lia|lia|by apply range_mapped_nil|apply pool_loses_refl|lia].
Qed.

(** The loop of [vmap]. *)
Lemma vmap_loop `{Profile} s lo n paddr attrs :
  mm_ok s → 0 ≤ lo < 2 ^ 27 → 0 ≤ n → 0 ≤ paddr → paddr + PAGE_SIZE * n ≤ 2 ^ 64 →
  map_outcome s lo n (λ i, {| pa := paddr + PAGE_SIZE * i |}) attrs
    (each_offset ((λ i, PAGE_SIZE * i) <$> seqZ 0 n) (λ offset,
          va ← lift (uadd (PAGE_SIZE * lo) offset);
          p ← lift (uadd paddr offset);
          vmap_at (va_of root) va {| pa := p |} attrs) s).
Proof.
  intros Hok Hlo Hn Hpa Hpn. apply map_loop; [done..|]. intros i s1 Hi Hle.
  rewrite (lift_bind_ok _ _ _ (PAGE_SIZE * (lo + i)))
    by (rewrite uadd_ok by (unfold is_u64, PAGE_SIZE in *; lia); f_equal; lia).
  by rewrite (lift_bind_ok _ _ _ (paddr + PAGE_SIZE * i))
    by (rewrite uadd_ok by (unfold is_u64, PAGE_SIZE in *; lia); done).
Qed.

(** ** What any sequence of these operations keeps *)

(** [s'] has well-formed tables, made of tables of [s] and frames of the pool of [s]; no
    frame has been given back, and frames outside the tables and the pool are as in [s]. *)
Record evolves (s s' : kst) : Prop := {
  ev_ok : mm_ok s';
  ev_new : ∀ h, is_table (phys s') root h → is_table (phys s) root h ∨ free_frame s h;
  ev_free : ∀ h, free_frame s' h → free_frame s h;
  ev_frames : ∀ h, ¬ free_frame s h → ¬ is_table (phys s) root h → phys s' !! h = phys s !! h;
  ev_shape : shape s' = shape s;
}.

Lemma evolves_refl s : mm_ok s → evolves s s.
Proof. intros. split; auto. Qed.

Lemma evolves_trans s1 s2 s3 : evolves s1 s2 → evolves s2 s3 → evolves s1 s3.
Proof.
  intros [O1 N1 F1 R1 D1] [O2 N2 F2 R2 D2]. split; [done| |auto| |congruence].
  - intros h Hh. destruct (N2 h Hh); auto.
  - intros h Hf Ht. rewrite R2, R1; auto. intros Hh. destruct (N1 h Hh); auto.
Qed.

Lemma range_evolves s s' lo n e : range_mapped s s' lo n e → evolves s s'.
Proof. intros [O P N F R D L]. by split. Qed.

Lemma remapped_evolves s s' va e : remapped s s' va e → evolves s s'.
Proof. intros [O P N F R D L]. by split. Qed.

(** Faults that a check in the code raises. *)
Definition checked (x : fault) : Prop := match x with PanicMsg _ | ArithOverflow => True | _ => False end.

Lemma uadd_cases `{Profile} a b :
  (∃ c, uadd a b = Ok c ∧ 0 ≤ c < 2 ^ 64) ∨ uadd a b = Fault ArithOverflow.
Proof.
  destruct (uadd a b) as [c|f] eqn:E.
  - left. exists c. split; [done|]. by eapply arith64_u64.
  - right. unfold uadd, arith64 in E. by repeat case_match; simplify_eq.
Qed.

(** [vmap_at] and [vunmap_single] at any address. *)
Lemma vmap_at_evolves s va paddr attrs :
  mm_ok s → 0 ≤ va →
  match vmap_at (va_of root) va paddr attrs s with
  | Ok (_, s') => evolves s s' | Fault x => checked x
  end.
Proof.
  intros Hok Hva. destruct (Z.lt_ge_cases va (2 ^ 39)) as [Hlt|Hge]; [|by rewrite vmap_at_high].
  destruct (Z.eq_dec (va mod PAGE_SIZE) 0) as [Hal|Hal]; [|by rewrite vmap_at_unaligned].
  pose proof (vmap_at_spec s va paddr attrs Hok (conj Hva Hlt) Hal) as Hm.
  destruct (vmap_at _ _ _ _ s) as [[[] s']|x].
  - destruct Hm as [_ Hm]. by eapply remapped_evolves.
  - by destruct Hm as [[-> _]|[-> _]].
Qed.

Lemma vunmap_single_evolves s va :
  mm_ok s → 0 ≤ va →
  match vunmap_single (va_of root) va s with
  | Ok (_, s') => evolves s s' | Fault x => checked x
  end.
Proof.
  intros Hok Hva. destruct (Z.lt_ge_cases va (2 ^ 39)) as [Hlt|Hge]; last first.
  { unfold vunmap_single. rewrite (lift_bind_ok _ _ _ tt) by done.
    unfold assert, lift, mbind, M_bind. by rewrite (proj2 (Z.ltb_ge va 0x8000000000)). }
  destruct (Z.eqb_spec (va mod PAGE_SIZE) 0) as [Hal|Hal]; last first.
  { unfold vunmap_single. rewrite (lift_bind_ok _ _ _ tt) by done.
    rewrite (lift_bind_ok _ _ _ tt) by (unfold assert; by rewrite (proj2 (Z.ltb_lt va 0x8000000000))).
    unfold assert, lift, mbind, M_bind. by rewrite (proj2 (Z.eqb_neq _ _)). }
  destruct (vunmap_single_spec s va Hok (conj Hva Hlt) Hal) as [[-> _]|(s' & -> & Hr)].
  - by apply evolves_refl.
  - by eapply remapped_evolves.
Qed.

(** A loop over pages, whatever the number of pages. *)
Lemma each_offset_evolves s n body :
  mm_ok s →
  (∀ i s, 0 ≤ i → mm_ok s → match body (PAGE_SIZE * i) s with
                            | Ok (_, s') => evolves s s' | Fault x => checked x end) →
  match each_offset ((λ i, PAGE_SIZE * i) <$> seqZ 0 n) body s with
  | Ok (_, s') => evolves s s' | Fault x => checked x
  end.
Proof.
  intros Hok Hbody. destruct (Z.lt_ge_cases n 0) as [Hn|Hn].
  { rewrite seqZ_nil by lia. by apply evolves_refl. }
  apply (each_offset_rule (λ _ s', evolves s s')); [done|by apply evolves_refl|].
  intros i s1 Hi H1. pose proof (Hbody i s1 ltac:(lia) (ev_ok _ _ H1)) as Hb.
  destruct (body _ s1) as [[[] s2]|x]; [|done]. by eapply evolves_trans.
Qed.

(** [vunmap] with any arguments. *)
Lemma vunmap_evolves `{Profile} s va len :
  mm_ok s → match vunmap (va_of root) va len s with
            | Ok (_, s') => evolves s s' | Fault x => checked x end.
Proof.
  intros Hok. apply each_offset_evolves; [done|]. intros i s1 Hi H1.
  destruct (uadd_cases va (PAGE_SIZE * i)) as [(c & Hc & ?)|Hc].
  - rewrite (lift_bind_ok _ _ _ c) by done. apply vunmap_single_evolves; [done|lia].
  - unfold lift, mbind, M_bind. by rewrite Hc.
Qed.
End mapping.
