(* ===== verification/Translation.v ===== *)
(** * Translation by the MMU (kernel/src/aarch64/mmu.rs)

    The walk the hardware performs on the tables (4 KiB granule, 48-bit addresses), and what it
    gives on the tables the kernel builds: the identity maps of [make_page_table_l0] and
    [make_page_table_l1], and the pages mapped by [vmap_at]. *)

From S2P Require Import Prelude Interrupts Memory Kernel PageTable.
From S2P Require Import KernelTables PageTree Mapping.

Local Open Scope Z_scope.

(** Bits 47 to 12 of a descriptor. *)
Definition OUTPUT_MASK : Z := 0xfffffffff000.

(** The descriptor for [va] in the table at physical address [table]. *)
Definition descriptor (m : pmem) (table va shift : Z) : option Z :=
  entry m (table / PAGE_SIZE) (Z.shiftr va shift mod 512).

(** A walk from a table whose entries cover [2^shift] bytes: the physical address and the
    descriptor that maps it.  Blocks exist at levels 1 and 2. *)
Fixpoint walk_from (levels : nat) (m : pmem) (table va shift : Z) : option (Z * Z) :=
  match levels with
  | O => None
  | S levels =>
      e ← descriptor m table va shift;
      if Z.land e 3 =? 3 then
        if shift =? 12 then Some (Z.land e OUTPUT_MASK + va mod 2 ^ 12, e)
        else walk_from levels m (Z.land e OUTPUT_MASK) va (shift - 9)
      else if (Z.land e 3 =? 1) && ((shift =? 30) || (shift =? 21)) then
        Some (2 ^ shift * (Z.land e OUTPUT_MASK / 2 ^ shift) + va mod 2 ^ shift, e)
      else None
  end.

Definition walk (m : pmem) (ttbr va : Z) : option (Z * Z) := walk_from 4 m ttbr va 39.

(** ** The kernel's identity maps *)

(** Entry [i] of a level-1 table. *)
Definition block_desc (i attr : Z) : Z :=
  Z.lor (Z.lor (Z.lor (Z.lor (Z.lor (Z.shiftl i 30) PT_BLOCK) PT_AF) PT_RW_EL1) PT_ISH) attr.

Lemma make_page_table_l1_run t attr :
  length t = 512%nat →
  make_page_table_l1 t attr = Ok ((λ i, block_desc i attr) <$> seqZ 0 512).
Proof.
  intros Hl. apply returns_eq.
  eapply returns_mono; [apply (fold_range_returns (λ i t', length t' = 512%nat
    ∧ ∀ j, 0 ≤ j < i → t' !! Z.to_nat j = Some (block_desc j attr)))|].
  - lia.
  - split; [done|lia].
  - intros i t' Hi [Hl' Ht']. fold (block_desc i attr).
    rewrite aset_ok by lia. apply returns_ok.
    split; [by rewrite length_insert|]. intros j Hj.
    destruct (Z.eq_dec j i) as [->|].
    + by rewrite list_lookup_insert_eq by lia.
    + rewrite list_lookup_insert_ne by lia. apply Ht'. lia.
  - intros t' [Hl' Ht']. apply list_eq. intros k.
    destruct (decide (k < 512)%nat) as [Hk|Hk].
    + rewrite list_lookup_fmap. replace k with (Z.to_nat (Z.of_nat k)) at 1 by lia.
      rewrite Ht' by lia. rewrite lookup_seqZ_lt by lia. done.
    + rewrite !lookup_ge_None_2; [done| |]; [rewrite length_fmap, length_seqZ|]; lia.
Qed.

(** ** Reading descriptors *)

Lemma land_3 e : 0 ≤ e → Z.land e 3 = e mod 4.
Proof. intros. change 3 with (Z.ones 2). by rewrite Z.land_ones by lia. Qed.

Lemma land_output f x :
  0 ≤ f < 2 ^ 36 → 0 ≤ x < PAGE_SIZE → Z.land (PAGE_SIZE * f + x) OUTPUT_MASK = PAGE_SIZE * f.
Proof.
  intros Hf Hx. transitivity (Z.ldiff (PAGE_SIZE * f + x) (Z.ones 12)).
  - apply Z.bits_inj'. intros i Hi. rewrite Z.land_spec, Z.ldiff_spec.
    destruct (decide (i < 48)).
    + f_equal. change OUTPUT_MASK with (Z.ldiff (Z.ones 48) (Z.ones 12)).
      rewrite Z.ldiff_spec, Z.ones_spec_low by lia. done.
    + by rewrite (testbit_small _ 48) by (unfold PAGE_SIZE in *; lia).
  - rewrite Z.ldiff_ones_r, Z.shiftl_mul_pow2, Z.shiftr_div_pow2 by lia. unfold PAGE_SIZE in *. zdiv.
Qed.

Lemma block_desc_sum i attr :
  0 ≤ i → attr = PT_MEM ∨ attr = PT_DEV → block_desc i attr = 2 ^ 30 * i + (1793 + attr).
Proof.
  intros Hi Ha. unfold block_desc. rewrite <- !Z.lor_assoc, Z.shiftl_mul_pow2 by lia.
  rewrite Z.lor_comm, (lor_disjoint _ _ 30); [|lia|by destruct Ha as [-> | ->]|zdiv].
  rewrite (Z.mul_comm i), Z.add_comm. f_equal. by destruct Ha as [-> | ->].
Qed.

(** A table descriptor made of an aligned address and flags below a page. *)
Lemma walk_table levels m table va shift f x :
  shift ≠ 12 → 0 ≤ f < 2 ^ 36 → 0 ≤ x < PAGE_SIZE → x mod 4 = 3 →
  descriptor m table va shift = Some (PAGE_SIZE * f + x) →
  walk_from (S levels) m table va shift = walk_from levels m (PAGE_SIZE * f) va (shift - 9).
Proof.
  intros Hs Hf Hx H3 Hd. cbn [walk_from]. rewrite Hd. cbn [mbind option_bind].
  rewrite land_3 by (unfold PAGE_SIZE; lia).
  replace ((PAGE_SIZE * f + x) mod 4) with 3 by (unfold PAGE_SIZE; zdiv).
  rewrite Z.eqb_refl, (proj2 (Z.eqb_neq _ _)) by done. by rewrite land_output.
Qed.

(** A block of 1 GiB of the identity map. *)
Lemma walk_block levels m table va i attr :
  0 ≤ i < 512 → attr = PT_MEM ∨ attr = PT_DEV →
  descriptor m table va 30 = Some (block_desc i attr) →
  walk_from (S levels) m table va 30 = Some (2 ^ 30 * i + va mod 2 ^ 30, block_desc i attr).
Proof.
  intros Hi Ha Hd. cbn [walk_from]. rewrite Hd. cbn [mbind option_bind].
  rewrite block_desc_sum by (done || lia).
  replace (2 ^ 30 * i + (1793 + attr)) with (PAGE_SIZE * (262144 * i) + (1793 + attr))
    by (unfold PAGE_SIZE; lia).
  assert (attr = 0 ∨ attr = 4) as Ha' by (destruct Ha as [-> | ->]; [by left|by right]).
  rewrite land_3, land_output by (unfold PAGE_SIZE; lia).
  replace ((PAGE_SIZE * (262144 * i) + (1793 + attr)) mod 4) with 1 by (unfold PAGE_SIZE; zdiv).
  cbn [Z.eqb andb orb Pos.eqb]. do 2 f_equal. unfold PAGE_SIZE. f_equal. zdiv.
Qed.

Lemma page_desc f : Z.lor (PAGE_SIZE * f) PT_PAGE = PAGE_SIZE * f + 3.
Proof.
  rewrite Z.lor_comm, (lor_disjoint _ _ 12) by (done || unfold PAGE_SIZE; zdiv).
  unfold PT_PAGE. lia.
Qed.

Lemma make_page_table_l0_run t fm fd :
  length t = 512%nat →
  make_page_table_l0 t (PAGE_SIZE * fm) (PAGE_SIZE * fd)
    = Ok (<[511%nat := PAGE_SIZE * fd + 3]> (<[510%nat := PAGE_SIZE * fm + 3]>
           (<[0%nat := PAGE_SIZE * fm + 3]> t))).
Proof.
  intros Hl. unfold make_page_table_l0. rewrite !page_desc.
  rewrite aset_ok by lia. run. rewrite aset_ok by (rewrite length_insert; lia). run.
  by rewrite aset_ok by (rewrite !length_insert; lia).
Qed.

(** From level 1 on. *)
Lemma walk_identity m f attr va :
  m !! f = Some ((λ i, block_desc i attr) <$> seqZ 0 512) → attr = PT_MEM ∨ attr = PT_DEV →
  walk_from 3 m (PAGE_SIZE * f) va 30 = Some (va mod 2 ^ 39, block_desc (Z.shiftr va 30 mod 512) attr).
Proof.
  intros Hf Ha. assert (0 ≤ Z.shiftr va 30 mod 512 < 512) by (apply Z.mod_pos_bound; lia).
  rewrite (walk_block 2 m _ va (Z.shiftr va 30 mod 512) attr); [|done|done|].
  - do 2 f_equal. rewrite Z.shiftr_div_pow2 by lia. zdiv.
  - unfold descriptor, entry. replace (PAGE_SIZE * f / PAGE_SIZE) with f by (unfold PAGE_SIZE; zdiv).
    rewrite Hf. cbn [mbind option_bind]. rewrite list_lookup_fmap, lookup_seqZ_lt by lia.
    cbn [fmap option_fmap option_map]. do 2 f_equal. lia.
Qed.

Lemma walk_l0 m f0 t0 va f :
  m !! f0 = Some t0 → 0 ≤ f < 2 ^ 36 →
  t0 !! Z.to_nat (Z.shiftr va 39 mod 512) = Some (PAGE_SIZE * f + 3) →
  walk m (PAGE_SIZE * f0) va = walk_from 3 m (PAGE_SIZE * f) va 30.
Proof.
  intros H0 Hf He. unfold walk. rewrite (walk_table 3 m _ va 39 f 3); [done|done|done|done|done|].
  unfold descriptor, entry. replace (PAGE_SIZE * f0 / PAGE_SIZE) with f0 by (unfold PAGE_SIZE; zdiv).
  by rewrite H0.
Qed.

(** C28. The tables built at boot map physical memory three times: for every physical address
    [p] below 512 GiB the walk of [p] itself, of [virt(p)] and of [virt_dev(p)] ends at [p],
    the first two through a block of normal memory and the last through one of device memory.
    The table frames are any three frames below 2^48. *)
Theorem boot_tables_identity (m : pmem) (f0 fm fd : Z) (t0 tm td : list Z) (p : Z) :
  0 ≤ fm < 2 ^ 36 → 0 ≤ fd < 2 ^ 36 →
  make_page_table_l0 table_new (PAGE_SIZE * fm) (PAGE_SIZE * fd) = Ok t0 →
  make_page_table_l1 table_new PT_MEM = Ok tm →
  make_page_table_l1 table_new PT_DEV = Ok td →
  m !! f0 = Some t0 → m !! fm = Some tm → m !! fd = Some td →
  0 ≤ p < 2 ^ 39 →
  walk m (PAGE_SIZE * f0) p = Some (p, block_desc (p / 2 ^ 30) PT_MEM)
  ∧ walk m (PAGE_SIZE * f0) (virt {| pa := p |}) = Some (p, block_desc (p / 2 ^ 30) PT_MEM)
  ∧ walk m (PAGE_SIZE * f0) (virt_dev {| pa := p |}) = Some (p, block_desc (p / 2 ^ 30) PT_DEV).
Proof.
  intros Hfm Hfd E0 Em Ed H0 Hm Hd Hp.
  rewrite make_page_table_l0_run in E0 by apply length_replicate.
  rewrite make_page_table_l1_run in Em by apply length_replicate.
  rewrite make_page_table_l1_run in Ed by apply length_replicate.
  apply ok_inj in E0, Em, Ed. rewrite <- Em in Hm. rewrite <- Ed in Hd. clear Em Ed tm td.
  rewrite virt_add, virt_dev_add by lia.
  assert (∀ k, 0 ≤ k → (2 ^ 39 * k + p) mod 2 ^ 39 = p
    ∧ Z.shiftr (2 ^ 39 * k + p) 30 mod 512 = p / 2 ^ 30
    ∧ Z.shiftr (2 ^ 39 * k + p) 39 = k) as Hk.
  { intros k Hk. rewrite !Z.shiftr_div_pow2 by lia. split_and!; zdiv. }
  pose proof (walk_identity m fm PT_MEM) as Wm. pose proof (walk_identity m fd PT_DEV) as Wd.
  change VIRT_BASE with (2 ^ 39 * 0x1fffffe). change VIRT_DEV_BASE with (2 ^ 39 * 0x1ffffff).
  replace p with (2 ^ 39 * 0 + p) at 1 by lia.
  destruct (Hk 0 ltac:(lia)) as (A1 & A2 & A3). destruct (Hk 0x1fffffe ltac:(lia)) as (B1 & B2 & B3).
  destruct (Hk 0x1ffffff ltac:(lia)) as (C1 & C2 & C3). split_and!.
  - rewrite (walk_l0 m f0 t0 _ fm); [|done|done|].
    + rewrite Wm by auto. by rewrite A1, A2.
    + rewrite A3, <- E0. change (Z.to_nat (0 mod 512)) with 0%nat.
      rewrite !list_lookup_insert_ne by done. rewrite list_lookup_insert_eq; [done|].
      cbn; lia.
  - rewrite (walk_l0 m f0 t0 _ fm); [|done|done|].
    + rewrite Wm by auto. by rewrite B1, B2.
    + rewrite B3, <- E0. change (Z.to_nat (0x1fffffe mod 512)) with 510%nat.
      rewrite list_lookup_insert_ne by done. rewrite list_lookup_insert_eq; [done|].
      rewrite length_insert. cbn; lia.
  - rewrite (walk_l0 m f0 t0 _ fd); [|done|done|].
    + rewrite Wd by auto. by rewrite C1, C2.
    + rewrite C3, <- E0. change (Z.to_nat (0x1ffffff mod 512)) with 511%nat.
      rewrite list_lookup_insert_eq; [done|]. rewrite !length_insert. cbn; lia.
Qed.

(** Three frames with the boot tables. *)
Definition boot_l1 (attr : Z) : list Z := (λ i, block_desc i attr) <$> seqZ 0 512.
Definition boot_l0 : list Z :=
  <[511%nat := PAGE_SIZE * 0x40082 + 3]> (<[510%nat := PAGE_SIZE * 0x40081 + 3]>
    (<[0%nat := PAGE_SIZE * 0x40081 + 3]> (replicate 512 0))).
Definition boot_mem : pmem :=
  <[0x40080 := boot_l0]> (<[0x40081 := boot_l1 PT_MEM]> (<[0x40082 := boot_l1 PT_DEV]> ∅)).

Lemma boot_tables_identity_witness :
  walk boot_mem (PAGE_SIZE * 0x40080) (virt {| pa := 0x40100010 |})
    = Some (0x40100010, block_desc 1 PT_MEM).
Proof.
  apply (boot_tables_identity boot_mem 0x40080 0x40081 0x40082 boot_l0 (boot_l1 PT_MEM)
    (boot_l1 PT_DEV) 0x40100010).
  - lia.
  - lia.
  - apply make_page_table_l0_run. apply length_replicate.
  - apply make_page_table_l1_run. apply length_replicate.
  - apply make_page_table_l1_run. apply length_replicate.
  - apply lookup_insert_eq.
  - unfold boot_mem. rewrite lookup_insert_ne by lia. apply lookup_insert_eq.
  - unfold boot_mem. rewrite !lookup_insert_ne by lia. apply lookup_insert_eq.
  - lia.
Defined.

(** ** Process tables *)

(** What a level-3 descriptor gives. *)
Definition leaf_walk (e va : Z) : option (Z * Z) :=
  if Z.land e 3 =? 3 then Some (Z.land e OUTPUT_MASK + va mod 2 ^ 12, e) else None.

Lemma walk_child levels m root p f va shift i :
  tree_wf m root → valid_path p → (length p < 3)%nat → descend m root p = Some f →
  shift ≠ 12 → i = Z.shiftr va shift mod 512 →
  walk_from (S levels) m (PAGE_SIZE * f) va shift
    = match child m f i with
      | Some g => walk_from levels m (PAGE_SIZE * g) va (shift - 9)
      | None => None
      end.
Proof.
  intros Hwf Hp Hl Hd Hs Hi'. assert (0 ≤ i < 512) as Hi by (subst i; apply Z.mod_pos_bound; lia).
  destruct (tw_frame _ _ Hwf p f Hp Hd) as [Hfr Hf]. destruct (entry_lt _ _ _ Hfr Hi) as [e He].
  assert (descriptor m (PAGE_SIZE * f) va shift = Some e) as Hde.
  { unfold descriptor. rewrite <- Hi'.
    by replace (PAGE_SIZE * f / PAGE_SIZE) with f by (unfold PAGE_SIZE; zdiv). }
  unfold child. rewrite He. cbn [mbind option_bind].
  destruct (tw_entry _ _ Hwf p f i e Hp Hl Hd Hi He) as [->|(g & Hg & ->)].
  - cbn [walk_from]. by rewrite Hde.
  - destruct (table_entry_spec g Hg) as (Hne & _ & _ & Hfa).
    rewrite (proj2 (Z.eqb_neq _ _)), Hfa by done. rewrite table_entry in Hde by lia.
    by apply walk_table with TABLE_FLAGS; [|lia|..].
Qed.

(** The walk of an address is the walk of its level-3 descriptor. *)
Lemma walk_pte m root va :
  tree_wf m root → 0 ≤ va < 2 ^ 39 → walk m (PAGE_SIZE * root) va = leaf_walk (pte m root va) va.
Proof.
  intros Hwf Hva. pose proof (valid_path_va va Hva) as Hv3.
  destruct (valid_path_snoc [_; _] _ Hv3) as (Hv2 & Hl2 & _).
  destruct (valid_path_snoc [_] _ Hv2) as (Hv1 & Hl1 & _).
  destruct (valid_path_snoc [] _ Hv1) as (Hv0 & Hl0 & _).
  unfold walk, pte, path. cbn [descend].
  assert (Z.shiftr va 39 = Z.shiftr va 39 mod 512) as Hi0 by (rewrite Z.shiftr_div_pow2 by lia; zdiv).
  rewrite (walk_child 3 m root [] root va 39 _ Hwf Hv0 Hl0 eq_refl ltac:(lia) Hi0).
  destruct (child m root _) as [f1|] eqn:C1; [|done]. cbn [mbind option_bind].
  assert (descend m root [Z.shiftr va 39] = Some f1) as D1 by (simpl; by rewrite C1).
  change (39 - 9) with 30.
  rewrite (walk_child 2 m root _ f1 va 30 _ Hwf Hv1 Hl1 D1 ltac:(lia) eq_refl).
  destruct (child m f1 _) as [f2|] eqn:C2; [|done]. cbn [mbind option_bind].
  assert (descend m root [Z.shiftr va 39; Z.shiftr va 30 mod 512] = Some f2) as D2
    by (simpl; rewrite C1; simpl; by rewrite C2).
  change (30 - 9) with 21.
  rewrite (walk_child 1 m root _ f2 va 21 _ Hwf Hv2 Hl2 D2 ltac:(lia) eq_refl).
  destruct (child m f2 _) as [f3|] eqn:C3; [|done]. cbn [mbind option_bind].
  assert (descend m root (path va) = Some f3) as D3
    by (unfold path; simpl; rewrite C1; simpl; rewrite C2; simpl; by rewrite C3).
  destruct (tw_frame _ _ Hwf _ f3 Hv3 D3) as [Hfr _].
  assert (0 ≤ leaf_index va < 512) as Hi by (apply Z.mod_pos_bound; lia).
  destruct (entry_lt _ _ _ Hfr Hi) as [e He]. rewrite He. cbn [default].
  change (21 - 9) with 12. cbn [walk_from]. unfold descriptor. fold (leaf_index va).
  replace (PAGE_SIZE * f3 / PAGE_SIZE) with f3 by (unfold PAGE_SIZE; zdiv). rewrite He.
  cbn [mbind option_bind]. unfold leaf_walk, id. rewrite Z.eqb_refl. destruct (Z.land e 3 =? 3); [done|].
  by rewrite andb_false_r.
Qed.

(** The descriptor of [vmap_at] for an aligned physical address. *)
Lemma leaf_walk_desc f attrs va :
  0 ≤ f < 2 ^ 36 → 0 ≤ attrs < PAGE_SIZE →
  let e := Z.lor (Z.lor (PAGE_SIZE * f) COMMON_FLAGS) attrs in
  leaf_walk e va = Some (PAGE_SIZE * f + va mod 2 ^ 12, e).
Proof.
  intros Hf Ha e. unfold leaf_walk, e. rewrite !Z.land_lor_distr_l.
  rewrite (land_3 attrs), (land_3 (PAGE_SIZE * f)) by (unfold PAGE_SIZE; lia).
  replace (PAGE_SIZE * f mod 4) with 0 by (unfold PAGE_SIZE; zdiv).
  change (Z.land COMMON_FLAGS 3) with 3. change (Z.land COMMON_FLAGS OUTPUT_MASK) with 0.
  pose proof (land_output f 0 Hf ltac:(done)) as H1. rewrite Z.add_0_r in H1.
  pose proof (land_output 0 attrs ltac:(lia) Ha) as H2. rewrite Z.mul_0_r, Z.add_0_l in H2.
  rewrite H1, H2, !Z.lor_0_r. assert (Z.lor (Z.lor 0 3) (attrs mod 4) = 3) as ->; [|done].
  assert (attrs mod 4 = 0 ∨ attrs mod 4 = 1 ∨ attrs mod 4 = 2 ∨ attrs mod 4 = 3) as
    [->|[->|[->| ->]]] by zdiv; done.
Qed.
