(* ===== verification/FindHole.v ===== *)
(** * Looking for free virtual memory (kernel/src/aarch64/mmu.rs, [find_hole] and [vmap])

    What [measure_contiguous_region] and [find_hole] return on well-formed tables: they
    always terminate without a panic, and the slot of 2 MiB that holds a returned address is
    unmapped.  The last part shows that a returned region larger than the slot may overlap
    mapped memory. *)

From S2P Require Import Prelude Interrupts Memory Kernel PageTable PageTree Mapping.

Local Open Scope Z_scope.

(** The descriptor index of [va] in a table [depth] levels above the pages. *)
Definition shift_of (depth : nat) : Z := 12 + 9 * Z.of_nat depth.
Definition index_at (depth : nat) (va : Z) : Z := Z.shiftr va (shift_of depth) mod 512.

(** Whether the walk of [va] from table [f] finds a level-3 table. *)
Fixpoint slot_used (m : pmem) (depth : nat) (f va : Z) : bool :=
  match depth with
  | O => true
  | S d => match child m f (index_at (S d) va) with
           | None => false
           | Some g => slot_used m d g va
           end
  end.

Definition region (b : bool) (len : Z) : ContiguousRegion := if b then Allocated len else Free len.

(** The answer of the helper at [depth]: it is about the slot of [va], and its length is a
    positive number of pages. *)
Definition measured (m : pmem) (depth : nat) (f va : Z) (r : ContiguousRegion) : Prop :=
  ∃ len, r = region (slot_used m depth f va) len ∧ 0 < len ≤ 2 * 2 ^ shift_of depth
    ∧ len mod PAGE_SIZE = 0.

Section measure.
Context `{Profile}.
Variables (m : pmem) (root : Z).
Hypothesis Hwf : tree_wf m root.

Lemma get_spec p f i :
  valid_path p → (length p < 3)%nat → descend m root p = Some f → 0 ≤ i < 512 →
  get m (va_of f) i = Ok (match child m f i with Some g => PGTable (va_of g) | None => PGFree end).
Proof.
  intros Hp Hl Hd Hi. destruct (tw_frame _ _ Hwf p f Hp Hd) as [Hfr Hf].
  destruct (entry_lt _ _ _ Hfr Hi) as [e He]. unfold get.
  rewrite (tget_entry _ f _ e) by done. run. unfold child. rewrite He. simpl.
  destruct (tw_entry _ _ Hwf p f i e Hp Hl Hd Hi He) as [->|(g & Hg & ->)]; [done|].
  destruct (table_entry_spec g Hg) as (Hne & H3 & Hmask & Hfa). unfold table_of.
  rewrite (proj2 (Z.eqb_neq _ _)), H3, Hmask, Hfa by done. simpl. by rewrite <- va_of_virt.
Qed.

(** The level-2 table: an entry is free or allocated. *)
Lemma raw_spec p f i :
  valid_path p → (length p < 3)%nat → descend m root p = Some f → 0 ≤ i < 512 →
  (raw ← tget m (va_of f) i; Ok (if raw =? 0 then PGFree else PGBlock))
    = Ok (match child m f i with Some g => PGBlock | None => PGFree end).
Proof.
  intros Hp Hl Hd Hi. destruct (tw_frame _ _ Hwf p f Hp Hd) as [Hfr Hf].
  destruct (entry_lt _ _ _ Hfr Hi) as [e He].
  rewrite (tget_entry _ f _ e) by done. run. unfold child. rewrite He. simpl.
  by destruct (e =? 0).
Qed.

(** The two ways of reading an entry, by the level of the table. *)
Lemma read_entry depth p f i :
  valid_path p → (length p + S depth = 3)%nat → descend m root p = Some f → 0 ≤ i < 512 →
  (if negb (shift_of (S depth) =? 21) then get m (va_of f) i
   else raw ← tget m (va_of f) i; Ok (if raw =? 0 then PGFree else PGBlock))
    = Ok (match child m f i with
          | None => PGFree
          | Some g => match depth with O => PGBlock | S _ => PGTable (va_of g) end
          end).
Proof.
  intros Hp Hl Hd Hi. destruct depth as [|depth].
  - change (shift_of 1) with 21. rewrite Z.eqb_refl. simpl. by apply raw_spec with p; [|lia|..].
  - rewrite (proj2 (Z.eqb_neq _ _)) by (unfold shift_of; lia). simpl negb.
    by apply get_spec with p; [|lia|..].
Qed.

(** The loop after [n] entries, the first of which decides [b]. *)
Definition loop_inv (b : bool) (va unit n : Z) '((cv, cl, ia) : measure_state) : Prop :=
  cl = n * unit ∧ cv = va + cl ∧ ia = (if n =? 0 then false else b).

(** What a returned or a finished loop gives. *)
Definition loop_post (b : bool) (bound : Z) (c : ctl measure_state ContiguousRegion) : Prop :=
  let good r := ∃ len, r = region b len ∧ 0 < len ≤ bound ∧ len mod PAGE_SIZE = 0 in
  match c with
  | Return r => good r
  | Continue (_, cl, ia) => good (region ia cl)
  end.

Definition unit_of (depth : nat) : Z := 2 ^ shift_of depth.

Lemma unit_facts depth : (depth ≤ 2)%nat →
  ubit (shift_of depth) = unit_of depth ∧ unit_of depth mod PAGE_SIZE = 0
  ∧ 4096 ≤ unit_of depth ≤ 2 ^ 30 ∧ 2 ^ shift_of (S depth) = 512 * unit_of depth.
Proof. intros Hd. by destruct depth as [|[|[|]]]; [..|lia]. Qed.

Lemma loop_post_return b bound len :
  0 < len ≤ bound → len mod PAGE_SIZE = 0 → loop_post b bound (Return (region b len)).
Proof. intros. by exists len. Qed.

Lemma pages_add x y : x mod PAGE_SIZE = 0 → y mod PAGE_SIZE = 0 → (x + y) mod PAGE_SIZE = 0.
Proof. unfold PAGE_SIZE. intros. zdiv. Qed.

Lemma pages_mul n x : x mod PAGE_SIZE = 0 → (n * x) mod PAGE_SIZE = 0.
Proof. intros Hx. by rewrite <- Z.mul_mod_idemp_r, Hx, Z.mul_0_r by done. Qed.

(** The end of a round that goes on. *)
Lemma round_tail d b va max_alloc max_free n :
  (d ≤ 2)%nat → 0 ≤ va < 2 ^ 43 - 1024 * unit_of d → 0 ≤ n < 512 →
  match (current_len ← uadd (n * unit_of d) (unit_of d);
         current_vaddr ← uadd (va + n * unit_of d) (unit_of d);
         if (b : bool) && (max_alloc <=? current_len)
         then Ok (Return (Allocated current_len))
         else if negb b && (max_free <=? current_len)
         then Ok (Return (Free current_len))
         else Ok (Continue (current_vaddr, current_len, b))) with
  | Ok (Continue st') => loop_inv b va (unit_of d) (n + 1) st'
  | Ok (Return r) => loop_post b (1024 * unit_of d) (Return r)
  | Fault _ => False
  end.
Proof.
  intros Hd Hva Hn. destruct (unit_facts d Hd) as (_ & Hmod & Hu & _).
  assert (0 ≤ n * unit_of d ≤ 511 * unit_of d) by nia.
  rewrite (uadd_ok (n * _)) by (unfold is_u64; lia). run.
  rewrite (uadd_ok (va + _)) by (unfold is_u64; lia). run.
  assert ((n * unit_of d + unit_of d) mod PAGE_SIZE = 0)
    by by apply pages_add; [apply pages_mul|].
  assert (loop_inv b va (unit_of d) (n + 1)
    (va + n * unit_of d + unit_of d, n * unit_of d + unit_of d, b)).
  { split; [lia|]. split; [lia|]. by rewrite (proj2 (Z.eqb_neq _ _)) by lia. }
  destruct b; simpl.
  - destruct (max_alloc <=? _); [|done]. apply (loop_post_return true); [lia|done].
  - destruct (max_free <=? _); [|done]. apply (loop_post_return false); [lia|done].
Qed.

Lemma round_spec d p f va max_alloc max_free recurse idx st :
  valid_path p → (length p + S d = 3)%nat → descend m root p = Some f →
  0 ≤ va < 2 ^ 43 - 1024 * unit_of d →
  index_at (S d) va ≤ idx < 512 →
  (∀ g cv, (1 ≤ d)%nat → child m f idx = Some g → 0 ≤ cv < 2 ^ 43 - 512 * unit_of d →
    returns (recurse (va_of g) cv) (measured m d g cv)) →
  let b := slot_used m (S d) f va in
  let n := idx - index_at (S d) va in
  loop_inv b va (unit_of d) n st →
  match measure_round m (va_of f) max_alloc max_free (shift_of (S d)) recurse idx st with
  | Ok (Continue st') => loop_inv b va (unit_of d) (n + 1) st'
  | Ok (Return r) => loop_post b (1024 * unit_of d) (Return r)
  | Fault _ => False
  end.
Proof.
  intros Hp Hl Hd Hva Hidx Hrec b n. destruct st as [[cv cl] ia]. intros (-> & -> & ->).
  assert (0 ≤ index_at (S d) va < 512) as Hlo by (apply Z.mod_pos_bound; lia).
  destruct (unit_facts d ltac:(lia)) as (Hub & Hmod & Hu & Hbig).
  unfold measure_round. replace (shift_of (S d) - 9) with (shift_of d) by (unfold shift_of; lia).
  rewrite Hub, (read_entry d p) by (done || lia). run.
  pose proof (round_tail d b va max_alloc max_free n ltac:(lia) Hva ltac:(lia)) as Htail.
  assert (0 ≤ n * unit_of d ≤ 511 * unit_of d) as Hnu by nia.
  assert ((n * unit_of d) mod PAGE_SIZE = 0) as Hnm by by apply pages_mul.
  assert (n = 0 → b = match child m f idx with None => false | Some g => slot_used m d g va end) as Hb.
  { intros E. subst b. simpl. by replace (index_at (S d) va) with idx by lia. }
  assert (n ≠ 0 → (n * unit_of d =? 0) = false) as Hnz by (intros; apply Z.eqb_neq; nia).
  destruct (child m f idx) as [g|] eqn:Hc; [destruct d as [|d']|].
  - destruct (Z.eqb_spec n 0) as [E|E].
    + rewrite (Hb E) in Htail |- *. rewrite E in Htail |- *. exact Htail.
    + rewrite (Hnz E). clear Hb. clearbody b. destruct b; [exact Htail|].
      apply (loop_post_return false); [nia|done].
  - unfold assert. rewrite (proj2 (Z.eqb_neq _ 12)) by (unfold shift_of; lia). run.
    destruct (Hrec g (va + n * unit_of (S d')) ltac:(lia) eq_refl ltac:(lia)) as (r & -> & len & -> & Hlen & Hlm).
    fold (unit_of (S d')) in Hlen. run.
    set (b' := slot_used m (S d') g (va + n * unit_of (S d'))).
    set (expected := (_ - _) * _). clearbody expected.
    assert (n = 0 → b' = b) as Hbb.
    { intros E. rewrite (Hb E). unfold b'. by rewrite E, Z.add_0_r. }
    assert (∀ c, loop_post c (1024 * unit_of (S d')) (Return (region c (n * unit_of (S d') + len)))) as Hlast.
    { intros c. apply loop_post_return; [lia|]. by apply pages_add. }
    assert (uadd (n * unit_of (S d')) len = Ok (n * unit_of (S d') + len)) as Hadd
      by (apply uadd_ok; unfold is_u64; lia).
    assert (n ≠ 0 → ∀ c, loop_post c (1024 * unit_of (S d')) (Return (region c (n * unit_of (S d'))))) as Hstop.
    { intros E c. apply loop_post_return; [nia|done]. }
    clearbody b b'. clear Hb. destruct (Z.eqb_spec n 0) as [E|E].
    + rewrite (Hbb E). replace (n * unit_of (S d') =? 0) with true by (by rewrite E).
      rewrite !andb_false_r. destruct b; simpl; (destruct (len =? expected); simpl; [exact Htail|]);
        rewrite Hadd; run; [apply (Hlast true)|apply (Hlast false)].
    + rewrite (Hnz E). destruct b, b'; simpl;
        (exact (Hstop E true) || exact (Hstop E false) ||
         (destruct (len =? expected); simpl; [exact Htail|]; rewrite Hadd; run;
          apply (Hlast true) || apply (Hlast false))).
  - destruct (Z.eqb_spec n 0) as [E|E].
    + rewrite (Hb E) in Htail |- *. rewrite E in Htail |- *. exact Htail.
    + rewrite (Hnz E). clear Hb. clearbody b. destruct b; [|exact Htail].
      apply (loop_post_return true); [nia|done].
Qed.

Lemma measure_helper_spec depth : ∀ p f va max_alloc max_free,
  valid_path p → (length p + depth = 3)%nat → (1 ≤ depth)%nat → descend m root p = Some f →
  0 ≤ va < 2 ^ 43 - 2 * 2 ^ shift_of depth →
  returns (measure_contiguous_region_helper depth m (va_of f) va max_alloc max_free (shift_of depth))
    (measured m depth f va).
Proof.
  induction depth as [|d IH]; intros p f va max_alloc max_free Hp Hl H1 Hd Hva; [lia|].
  cbn [measure_contiguous_region_helper]. unfold assert at 1 2.
  rewrite (proj2 (Z.leb_le 21 _)), (proj2 (Z.leb_le _ 39)) by (unfold shift_of; lia). run.
  replace (shift_of (S d) - 9) with (shift_of d) by (unfold shift_of; lia).
  destruct (unit_facts d ltac:(lia)) as (_ & _ & Hu & Hbig). rewrite Hbig in Hva.
  fold (index_at (S d) va).
  assert (0 ≤ index_at (S d) va < 512) as Hlo by (apply Z.mod_pos_bound; lia).
  set (b := slot_used m (S d) f va). set (rec := λ _ _, measure_contiguous_region_helper _ _ _ _ _ _ _).
  assert (∀ idx g cv, 0 ≤ idx < 512 → (1 ≤ d)%nat → child m f idx = Some g →
    0 ≤ cv < 2 ^ 43 - 512 * unit_of d → returns (rec (va_of g) cv) (measured m d g cv)) as Hrec.
  { intros idx g cv Hidx Hd1 Hc Hcv. apply IH with (p ++ [idx]); [| |done| |].
    - by apply valid_path_extend; [|lia|].
    - rewrite length_app. simpl. lia.
    - by rewrite descend_snoc, Hd.
    - fold (unit_of d). lia. }
  apply returns_bind with (loop_post b (1024 * unit_of d)).
  - apply (for_range_rule (λ idx, loop_inv b va (unit_of d) (idx - index_at (S d) va))
      (λ r, returns r (loop_post b (1024 * unit_of d)))); [lia| | |].
    + rewrite Z.sub_diag. split; [lia|]. split; [lia|done].
    + intros idx st Hidx Hst.
      pose proof (round_spec d p f va max_alloc max_free rec idx st Hp Hl Hd ltac:(lia) Hidx
        (λ g cv, Hrec idx g cv ltac:(lia)) Hst) as Hround.
      destruct (measure_round _ _ _ _ _ _ idx st) as [[st'|r]|x]; [|by apply returns_ok|done].
      by replace (idx + 1 - index_at (S d) va) with (idx - index_at (S d) va + 1) by lia.
    + intros [[cv cl] ia] (-> & -> & ->). apply returns_ok.
      rewrite (proj2 (Z.eqb_neq _ _)) by lia. apply loop_post_return; [nia|].
      apply pages_mul, unit_facts. lia.
  - intros [[[cv cl] ia]|r] Hpost; apply returns_ok; unfold measured; rewrite Hbig;
      replace (2 * (512 * unit_of d)) with (1024 * unit_of d) by lia; exact Hpost.
Qed.

(** ** [find_hole] *)

(** The level-3 table of [va]'s slot of 2 MiB is missing. *)
Definition slot_free (va : Z) : Prop := descend m root (path va) = None.

Lemma slot_used_path va :
  0 ≤ va < 2 ^ 39 → slot_used m 3 root va = bool_decide (descend m root (path va) ≠ None).
Proof.
  intros Hva. unfold path, slot_used, index_at. cbn [descend].
  change (shift_of 3) with 39. change (shift_of 2) with 30. change (shift_of 1) with 21.
  replace (Z.shiftr va 39 mod 512) with (Z.shiftr va 39)
    by (rewrite Z.shiftr_div_pow2 by lia; zdiv).
  destruct (child m root _) as [f1|]; [|done]. simpl.
  destruct (child m f1 _) as [f2|]; [|done]. simpl.
  by destruct (child m f2 _).
Qed.

Lemma slot_free_pte va va' :
  0 ≤ va < 2 ^ 39 → 0 ≤ va' → va' / 2 ^ 21 = va / 2 ^ 21 → slot_free va → pte m root va' = 0.
Proof.
  intros Hva Hva' Hs Hf. unfold pte. assert (path va' = path va) as ->; [|by rewrite Hf].
  unfold path. rewrite !Z.shiftr_div_pow2 by lia.
  change (2 ^ 39) with (2 ^ 21 * 262144). change (2 ^ 30) with (2 ^ 21 * 512).
  by rewrite <- !Z.div_div, Hs by lia.
Qed.

Lemma measure_spec va max_alloc max_free :
  0 ≤ va < 2 ^ 39 →
  returns (measure_contiguous_region m (va_of root) va max_alloc max_free) (λ r,
    ∃ len, 0 < len ≤ 2 ^ 40 ∧ len mod PAGE_SIZE = 0
      ∧ (r = Allocated len ∧ ¬ slot_free va ∨ r = Free len ∧ slot_free va)).
Proof.
  intros Hva. unfold measure_contiguous_region.
  eapply returns_mono; [apply (measure_helper_spec 3 []); [|done|lia|done|]|].
  { split; [simpl; lia|done]. }
  { change (2 * 2 ^ shift_of 3) with (2 ^ 40). lia. }
  intros r (len & -> & Hlen & Hm). change (2 * 2 ^ shift_of 3) with (2 ^ 40) in Hlen.
  exists len. split; [done|]. split; [done|]. rewrite slot_used_path by done.
  unfold slot_free. case_bool_decide as E; [left|right]; split; try done.
Qed.

(** The loop of [find_hole]: where it is, what it may have found, and how far it is from
    the end. *)
Definition hole_inv (start : Z) '((v, found) : Z * option Z) : Prop :=
  start ≤ v < 2 ^ 64 ∧ (v - start) mod PAGE_SIZE = 0
  ∧ match found with Some w => w = v ∧ v < 2 ^ 39 ∧ slot_free v | None => True end.
Definition hole_left '((v, found) : Z * option Z) : Z :=
  match found with Some _ => 0 | None => 1 + Z.max 0 (2 ^ 39 - v) end.

Lemma find_hole_step_spec start size v :
  0 ≤ start → v < 2 ^ 39 → hole_inv start (v, None) →
  returns (find_hole_step m (va_of root) size (v, None))
    (λ st, hole_inv start st ∧ 0 ≤ hole_left st < hole_left (v, None)).
Proof.
  intros Hs Hlt (Hv & Hm & _). unfold find_hole_step.
  eapply returns_bind; [apply measure_spec; lia|]. intros r (len & Hlen & Hlm & Hr).
  assert (returns (va ← uadd v len; Ok (va, None))
    (λ st, hole_inv start st ∧ 0 ≤ hole_left st < hole_left (v, None))) as Hmove.
  { rewrite uadd_ok by (unfold is_u64; lia). run. apply returns_ok.
    unfold hole_inv, hole_left. split; [split; [lia|split; [|done]]|lia].
    replace (v + len - start) with (v - start + len) by lia. by apply pages_add. }
  destruct Hr as [[-> _]|[-> Hfree]]; [exact Hmove|].
  destruct (size <=? len); [|exact Hmove]. apply returns_ok.
  unfold hole_inv, hole_left. repeat split; done || lia.
Qed.

(** Whatever the request, the search ends without a panic: every round moves forward by at
    least a page.  The address found is at or after the start and its slot is unmapped. *)
Lemma vm_hole_spec start size :
  0 ≤ start < 2 ^ 64 →
  returns (find_hole m (va_of root) start size) (λ r,
    ∀ v, r = Some v → start ≤ v < 2 ^ 39 ∧ (v - start) mod PAGE_SIZE = 0 ∧ slot_free v).
Proof.
  intros Hstart. unfold find_hole. eapply returns_bind.
  - apply (while_returns _ _ (hole_inv start) hole_left (λ '(v, found), ∀ w, found = Some w →
      start ≤ w < 2 ^ 39 ∧ (w - start) mod PAGE_SIZE = 0 ∧ slot_free w)).
    + split; [lia|]. by rewrite Z.sub_diag.
    + unfold hole_left. lia.
    + intros [v found] Hinv [Hn Hlt]%andb_true_iff. apply bool_decide_eq_true in Hn as ->.
      apply find_hole_step_spec; [lia| |done]. by apply Z.ltb_lt in Hlt.
    + intros [v found] (Hv & Hm & Hf) _ w ->. destruct Hf as (-> & ? & ?). by repeat split; try lia.
  - intros [v found] Hf. by apply returns_ok.
Qed.
End measure.

(** ** [vmap] *)

Section vmap.
Context `{TableAlloc} `{Profile}.
Variable root : Z.

(** Why [vmap] of [n] pages may fail: [find_hole] finds no room; there are too few frames for the
    tables; or the region it finds runs into a mapped page or past 512 GiB, which cannot
    happen inside the 2 MiB slot of the address found. *)
Definition vmap_panics (s : kst) (n : Z) (x : fault) : Prop :=
  match find_hole (phys s) (va_of root) 0x50000000 (PAGE_SIZE * n) with
  | Ok None => x = PanicMsg "Out of virtual memory space"
  | Ok (Some v) => (x = PanicMsg "OOM" ∧ pool_below s (tables_for n))
      ∨ (2 ^ 21 < v mod 2 ^ 21 + PAGE_SIZE * n
         ∧ ((x = PanicMsg "Tried to map memory that is already occupied"
             ∧ ∃ va, v ≤ va < v + PAGE_SIZE * n ∧ va < 2 ^ 39 ∧ pte (phys s) root va ≠ 0)
            ∨ (x = PanicMsg "assertion failed: vaddr < 0x8000000000" ∧ 2 ^ 39 < v + PAGE_SIZE * n)))
  | Fault _ => False
  end.

(** [vmap] of [n] pages: the pages from the address found are mapped, or it panics. *)
Lemma vmap_spec s paddr n attrs :
  mm_ok root s → 0 ≤ n → 0 ≤ paddr → paddr + PAGE_SIZE * n ≤ 2 ^ 64 →
  match vmap (va_of root) {| pa := paddr |} (PAGE_SIZE * n) attrs s with
  | Ok (v, s') => ∃ lo, v = PAGE_SIZE * lo ∧ 0x50000000 ≤ v ∧ v + PAGE_SIZE * n ≤ 2 ^ 39
      ∧ (∀ i, lo ≤ i < lo + n → pte (phys s) root (PAGE_SIZE * i) = 0)
      ∧ range_mapped root s s' lo n
          (λ i, Z.lor (Z.lor (paddr + PAGE_SIZE * (i - lo)) COMMON_FLAGS) attrs)
  | Fault x => vmap_panics s n x
  end.
Proof.
  intros Hok Hn Hp Hpn. unfold vmap.
  rewrite (lift_bind_ok _ _ _ tt)
    by (unfold assert; replace (PAGE_SIZE * n mod PAGE_SIZE) with 0 by (unfold PAGE_SIZE; zdiv); done).
  rewrite (M_bind_ok _ _ s (phys s) s) by done.
  destruct (vm_hole_spec (phys s) root (mm_tree _ _ Hok) 0x50000000 (PAGE_SIZE * n) ltac:(lia))
    as (r & Hr & Hv). rewrite (lift_bind_ok _ _ _ r) by done.
  unfold vmap_panics. rewrite Hr. destruct r as [v|]; [|done].
  rewrite (lift_bind_ok _ _ _ v) by done. destruct (Hv v eq_refl) as (Hb & Hal & Hfree). clear Hv.
  rewrite offsets_pages by done.
  assert (∃ lo, v = PAGE_SIZE * lo) as (lo & ->)
    by (exists (v / PAGE_SIZE); unfold PAGE_SIZE in *; zdiv).
  assert (0 ≤ lo < 2 ^ 27) as Hlo by (unfold PAGE_SIZE in *; lia).
  pose proof (vmap_loop root s lo n paddr attrs Hok Hlo Hn Hp Hpn) as Hl.
  unfold mbind at 1, M_bind at 1. cbn [pa].
  destruct (each_offset _ _ s) as [[[] s']|x].
  - destruct Hl as (Hend & Hz & Hr'). exists lo. split_and!; [done|lia|lia|done|done].
  - destruct Hl as [?|[(-> & i & Hi & Hi27 & Hne)|[-> Hend]]]; [by left|right..].
    + split; [|left; split; [done|]; exists (PAGE_SIZE * i); split_and!; [unfold PAGE_SIZE; lia..|done]].
      apply Z.nle_gt. intros Hle. apply Hne.
      apply (slot_free_pte (phys s) root (PAGE_SIZE * lo)); [lia|unfold PAGE_SIZE; lia| |done].
      unfold PAGE_SIZE in *. clear - Hi Hle. zdiv.
    + split; [|right; split; [done|lia]]. unfold PAGE_SIZE in *. clear - Hend Hb. zdiv.
Qed.

(** [vmap] with any arguments keeps the tables sound, or a check fails. *)
Lemma vmap_evolves s paddr len attrs :
  mm_ok root s →
  match vmap (va_of root) paddr len attrs s with
  | Ok (v, s') => is_u64 v ∧ evolves root s s' | Fault x => checked x
  end.
Proof.
  intros Hok. unfold vmap. destruct (len mod PAGE_SIZE =? 0); [|done].
  rewrite (lift_bind_ok _ _ _ tt) by done. rewrite (M_bind_ok _ _ s (phys s) s) by done.
  destruct (vm_hole_spec (phys s) root (mm_tree _ _ Hok) 0x50000000 len ltac:(lia)) as (r & Hr & Hv).
  rewrite (lift_bind_ok _ _ _ r) by done. destruct r as [v|]; [|done].
  assert (is_u64 v) as Hu64 by (destruct (Hv v eq_refl) as (Hb & _ & _); unfold is_u64; lia).
  rewrite (lift_bind_ok _ _ _ v) by done. unfold mbind at 1, M_bind at 1.
  unfold offsets. match goal with |- context [each_offset _ ?b s] =>
    pose proof (each_offset_evolves root s (div_ceil len PAGE_SIZE) b Hok) as Hl end.
  destruct (each_offset _ _ s) as [[[] s']|x]; [split; [done|]|]; apply Hl.
  all: clear - Hok; intros i s1 Hi H1.
  all: destruct (uadd_cases v (PAGE_SIZE * i)) as [(c & Hc & ?)|Hc];
    [rewrite (lift_bind_ok _ _ _ c) by done|unfold lift, mbind, M_bind; by rewrite Hc].
  all: destruct (uadd_cases (pa paddr) (PAGE_SIZE * i)) as [(d & Hd & ?)|Hd];
    [rewrite (lift_bind_ok _ _ _ d) by done|unfold lift, mbind, M_bind; by rewrite Hd].
  all: apply vmap_at_evolves; [done|lia].
Qed.
End vmap.
