(* ===== verification/MapSpec.v ===== *)
(** * Properties of the page tables (kernel/src/aarch64/mmu.rs)

    What mapping and unmapping do to the address space, the coherence of the TLB, and the
    search for free virtual memory; proved for any source of tables, with concrete runs on the
    kernel's allocator. *)

From S2P Require Import Prelude Interrupts Memory.
From S2P Require PageAlloc HeapSpec.
From S2P Require Import Kernel PageTable KernelTables.
From S2P Require KernelSpec.
From S2P Require Import PageTree Mapping Translation FindHole.

Local Open Scope Z_scope.

(** ** An empty address space *)

Lemma empty_root_wf m root :
  0 ≤ root < 2 ^ 27 → m !! root = Some (replicate 512 0) → tree_wf m root.
Proof.
  intros Hr Hm.
  assert (∀ i p, descend m root (i :: p) = None) as Hnone.
  { intros i p. simpl. unfold child, entry. rewrite Hm. cbn [mbind option_bind].
    destruct (replicate 512 0 !! Z.to_nat i) as [e|] eqn:E; [|done].
    by apply lookup_replicate in E as [-> _]. }
  split.
  - intros [|i p] f _; [|by rewrite Hnone]. intros [= <-]. split; [|done].
    exists (replicate 512 0). by rewrite length_replicate.
  - intros [|i p] f j e _ _; [|by rewrite Hnone]. intros [= <-] _. unfold entry. rewrite Hm.
    intros [-> _]%lookup_replicate. by left.
  - intros [|i p] [|j q] f _ _; rewrite ?Hnone; done.
Qed.

Lemma empty_root_tables m root h :
  m !! root = Some (replicate 512 0) → is_table m root h → h = root.
Proof.
  intros Hm ([|i p] & _ & Hd); [by injection Hd|]. simpl in Hd. unfold child, entry in Hd.
  rewrite Hm in Hd. cbn [mbind option_bind] in Hd.
  destruct (replicate 512 0 !! Z.to_nat i) as [e|] eqn:E; [|done].
  by apply lookup_replicate in E as [-> _].
Qed.

(** The small kernel with an empty level-0 table in frame 1. *)
Definition ROOT : Z := 1.
Definition map_kernel : kst :=
  set_phys (<[ROOT := replicate 512 0]> (phys KernelSpec.small_kernel)) KernelSpec.small_kernel.

#[local] Existing Instance dev.

Lemma map_kernel_ok : mm_ok ROOT map_kernel.
Proof.
  assert (phys map_kernel !! ROOT = Some (replicate 512 0)) as Hroot
    by (unfold map_kernel, set_phys; cbn [phys]; apply lookup_insert_eq).
  split.
  - apply (src_ok_phys (TableAlloc := kernel_tables)); [|apply KernelSpec.small_kernel_ok].
    intros g (fr & Hg & Hl). destruct (decide (ROOT = g)) as [<-|].
    + exists (replicate 512 0). by rewrite lookup_insert_eq, length_replicate.
    + exists fr. by rewrite lookup_insert_ne.
  - by apply empty_root_wf.
  - intros h Hh. apply empty_root_tables in Hh as ->; [|done].
    intros (i & Hi & _ & E). unfold PageAlloc.frame_of in E.
    change ((PageAlloc.ram_base (PAGE_ALLOC map_kernel) - VIRT_BASE) / PAGE_SIZE) with 262144 in E.
    unfold ROOT in E. lia.
Qed.

(** ** Mapping *)

(** C3. [vmap_at] with any arguments.  It succeeds exactly by giving the page of [vaddr] the
    descriptor [paddr | COMMON_FLAGS | attrs]: the page was unmapped before, every other page
    translates as before, the tables stay well formed and apart from the free pool, no frame
    outside them and the pool is written, the interrupt mask is unchanged and the TLB is
    flushed.  It panics only for an address of 512 GiB or more, an unaligned address, a page
    that is already mapped, or when at most two frames were left for tables. *)
Theorem vmap_at_contract `{TableAlloc} (root : Z) (s : kst) (vaddr : Z) (paddr : PhyAddr) (attrs : Z) :
  mm_ok root s → 0 ≤ vaddr →
  match vmap_at (va_of root) vaddr paddr attrs s with
  | Ok (_, s') =>
      vaddr < 2 ^ 39 ∧ vaddr mod PAGE_SIZE = 0 ∧ pte (phys s) root vaddr = 0
      ∧ (∀ va, 0 ≤ va < 2 ^ 39 → pte (phys s') root va =
           if va / PAGE_SIZE =? vaddr / PAGE_SIZE
           then Z.lor (Z.lor (pa paddr) COMMON_FLAGS) attrs else pte (phys s) root va)
      ∧ mm_ok root s'
      ∧ (∀ h, ¬ free_frame s h → ¬ is_table (phys s) root h → phys s' !! h = phys s !! h)
      ∧ daif s' = daif s ∧ tlb s' = ∅
  | Fault x =>
      (x = PanicMsg "assertion failed: vaddr < 0x8000000000" ∧ 2 ^ 39 ≤ vaddr)
      ∨ (x = PanicMsg "assertion failed: vaddr % PAGE_SIZE == 0" ∧ vaddr mod PAGE_SIZE ≠ 0)
      ∨ (x = PanicMsg "Tried to map memory that is already occupied" ∧ pte (phys s) root vaddr ≠ 0)
      ∨ (x = PanicMsg "OOM" ∧ ∃ a b, ∀ h, free_frame s h → h = a ∨ h = b)
  end.
Proof.
  intros Hok Hva. destruct (Z.lt_ge_cases vaddr (2 ^ 39)) as [Hlt|Hge]; last first.
  { rewrite vmap_at_high by done. by left. }
  destruct (Z.eq_dec (vaddr mod PAGE_SIZE) 0) as [Hal|Hal]; last first.
  { rewrite vmap_at_unaligned by done. right. by left. }
  pose proof (vmap_at_spec root s vaddr paddr attrs Hok (conj Hva Hlt) Hal) as Hm.
  destruct (vmap_at _ _ _ _ s) as [[[] s']|x].
  - destruct Hm as [Hz [Hok' Hp _ _ Hfr Hd%shape_daif Ht]]. by split_and!.
  - destruct Hm as [Hm|Hm]; auto.
Qed.

Lemma vmap_at_contract_witness :
  match vmap_at (va_of ROOT) 0x50003000 {| pa := 0x40020000 |} PT_RW_EL0 map_kernel with
  | Ok (_, s') => pte (phys s') ROOT 0x50003123 = 0x40020443 ∧ pte (phys s') ROOT 0x50004000 = 0
  | Fault _ => False
  end.
Proof.
  pose proof (vmap_at_contract ROOT map_kernel 0x50003000 {| pa := 0x40020000 |} PT_RW_EL0
    map_kernel_ok ltac:(lia)) as Hm.
  assert (match vmap_at (va_of ROOT) 0x50003000 {| pa := 0x40020000 |} PT_RW_EL0 map_kernel with
    | Ok _ => True | Fault _ => False end) as Hv by (vm_compute; exact I).
  destruct (vmap_at _ _ _ _ map_kernel) as [[[] s']|x]; [|exact Hv].
  destruct Hm as (_ & _ & _ & Hp & _). split; rewrite Hp by lia.
  - reflexivity.
  - vm_compute. reflexivity.
Defined.

(** C4. After a successful [vmap_at] of a page-aligned physical address, the hardware walk of
    every byte of the page ends at the corresponding physical byte, with the requested
    attributes; the walk of every address of any other page is as before. *)
Theorem vmap_at_translates `{TableAlloc} (root : Z) (s s' : kst) (page f attrs : Z) :
  mm_ok root s → 0 ≤ page < 2 ^ 27 → 0 ≤ f < 2 ^ 36 → 0 ≤ attrs < PAGE_SIZE →
  vmap_at (va_of root) (PAGE_SIZE * page) {| pa := PAGE_SIZE * f |} attrs s = Ok (tt, s') →
  (∀ off, 0 ≤ off < PAGE_SIZE → walk (phys s') (PAGE_SIZE * root) (PAGE_SIZE * page + off)
     = Some (PAGE_SIZE * f + off, Z.lor (Z.lor (PAGE_SIZE * f) COMMON_FLAGS) attrs))
  ∧ (∀ va, 0 ≤ va < 2 ^ 39 → va / PAGE_SIZE ≠ page →
       walk (phys s') (PAGE_SIZE * root) va = walk (phys s) (PAGE_SIZE * root) va).
Proof.
  intros Hok Hp Hf Ha Hmap.
  assert (0 ≤ PAGE_SIZE * page < 2 ^ 39) as Hva by (unfold PAGE_SIZE; lia).
  pose proof (vmap_at_spec root s (PAGE_SIZE * page) {| pa := PAGE_SIZE * f |} attrs Hok Hva
    ltac:(unfold PAGE_SIZE; zdiv)) as Hm.
  rewrite Hmap in Hm. destruct Hm as [_ [Hok' Hpte _ _ _ _ _]].
  replace (PAGE_SIZE * page / PAGE_SIZE) with page in Hpte by (unfold PAGE_SIZE; zdiv). split.
  - intros off Hoff. rewrite walk_pte by (apply Hok' || unfold PAGE_SIZE in *; lia).
    rewrite Hpte by (unfold PAGE_SIZE in *; lia).
    rewrite (proj2 (Z.eqb_eq _ _)) by (unfold PAGE_SIZE in *; zdiv). cbn [pa].
    rewrite leaf_walk_desc by done. do 2 f_equal. unfold PAGE_SIZE in *. zdiv.
  - intros va Hv Hne. rewrite !walk_pte by (apply Hok' || apply Hok || done).
    by rewrite Hpte, (proj2 (Z.eqb_neq _ _)) by done.
Qed.

Lemma vmap_at_translates_witness :
  match vmap_at (va_of ROOT) (PAGE_SIZE * 0x50003) {| pa := PAGE_SIZE * 0x40020 |} PT_RW_EL0 map_kernel with
  | Ok (_, s') => walk (phys s') (PAGE_SIZE * ROOT) (PAGE_SIZE * 0x50003 + 0x123)
      = Some (PAGE_SIZE * 0x40020 + 0x123, 0x40020443)
  | Fault _ => False
  end.
Proof.
  destruct (vmap_at (va_of ROOT) (PAGE_SIZE * 0x50003) {| pa := PAGE_SIZE * 0x40020 |} PT_RW_EL0 map_kernel)
    as [[[] s']|x] eqn:E.
  - destruct (vmap_at_translates ROOT map_kernel s' 0x50003 0x40020 PT_RW_EL0 map_kernel_ok
      ltac:(lia) ltac:(lia) ltac:(vm_compute; split; [discriminate|reflexivity]) E) as [Hin _].
    apply Hin. vm_compute. split; [discriminate|reflexivity].
  - assert (match vmap_at (va_of ROOT) (PAGE_SIZE * 0x50003) {| pa := PAGE_SIZE * 0x40020 |} PT_RW_EL0 map_kernel with
      | Ok _ => True | Fault _ => False end) as Hv by (vm_compute; exact I).
    rewrite E in Hv. exact Hv.
Defined.

(** ** Unmapping *)

(** C27. [vunmap] of any range, of any size.  It unmaps whole pages: as many as the size rounded up
    takes.  If it returns, the range was empty, or started on a page boundary and its last page
    was below 512 GiB; then exactly those pages are unmapped and every other page translates as
    before, whether or not the range was mapped; no frame goes back to the pool, and no frame
    other than tables is written.  It panics only for a range that is not empty and starts off
    a page boundary, or ends past 512 GiB. *)
Theorem vunmap_contract `{TableAlloc} `{Profile} (root : Z) (s : kst) (vaddr size_bytes : Z) :
  mm_ok root s → is_u64 vaddr → 0 ≤ size_bytes →
  let n := div_ceil size_bytes PAGE_SIZE in
  match vunmap (va_of root) vaddr size_bytes s with
  | Ok (_, s') => (size_bytes = 0 ∨ vaddr mod PAGE_SIZE = 0 ∧ vaddr + PAGE_SIZE * n ≤ 2 ^ 39)
      ∧ mm_ok root s'
      ∧ (∀ va, 0 ≤ va < 2 ^ 39 → pte (phys s') root va =
           if (vaddr / PAGE_SIZE <=? va / PAGE_SIZE) && (va / PAGE_SIZE <? vaddr / PAGE_SIZE + n)
           then 0 else pte (phys s) root va)
      ∧ (∀ h, ¬ free_frame s h → ¬ is_table (phys s) root h → phys s' !! h = phys s !! h)
      ∧ (∀ h, free_frame s' h → free_frame s h)
  | Fault x => 0 < size_bytes
      ∧ ((x = PanicMsg "assertion failed: vaddr % PAGE_SIZE == 0" ∧ vaddr mod PAGE_SIZE ≠ 0)
         ∨ (x = PanicMsg "assertion failed: vaddr < 0x8000000000" ∧ 2 ^ 39 < vaddr + PAGE_SIZE * n))
  end.
Proof.
  intros Hok Hva Hsz n. pose proof (vunmap_total root s vaddr size_bytes Hok Hva Hsz) as Hu. cbv zeta in Hu.
  destruct (vunmap _ _ _ s) as [[[] s']|x]; [|exact Hu]. destruct Hu as [Hc Hr]. destruct Hr. by split_and!.
Qed.

(** Unmapping one byte of a page unmaps the page. *)
Lemma vunmap_contract_witness :
  match vmap (va_of ROOT) {| pa := 0x40020000 |} (PAGE_SIZE * 2) PT_RW_EL0 map_kernel with
  | Ok (_, s) => match vunmap (va_of ROOT) 0x50001000 1 s with
      | Ok (_, s') => pte (phys s) ROOT 0x50001000 = 0x40021443 ∧ pte (phys s') ROOT 0x50001000 = 0
          ∧ pte (phys s') ROOT 0x50000000 = pte (phys s) ROOT 0x50000000
      | Fault _ => False
      end
  | Fault _ => False
  end.
Proof.
  pose proof (vmap_spec ROOT map_kernel 0x40020000 2 PT_RW_EL0 map_kernel_ok
    ltac:(lia) ltac:(lia) ltac:(vm_compute; discriminate)) as Hm.
  assert (match vmap (va_of ROOT) {| pa := 0x40020000 |} (PAGE_SIZE * 2) PT_RW_EL0 map_kernel with
    | Ok (_, s) => pte (phys s) ROOT 0x50001000 = 0x40021443
    | Fault _ => False end) as Hv by (vm_compute; reflexivity).
  destruct (vmap _ _ _ _ map_kernel) as [[v s]|x]; [|exact Hv].
  destruct Hm as (lo & _ & _ & _ & _ & Hr).
  pose proof (vunmap_contract ROOT s 0x50001000 1 (rg_ok _ _ _ _ _ _ Hr) ltac:(unfold is_u64; lia) ltac:(lia)) as Hu.
  cbv zeta in Hu. destruct (vunmap _ _ _ s) as [[[] s']|x].
  - destruct Hu as (_ & _ & Hp & _). split; [exact Hv|]. rewrite !Hp by lia. split; reflexivity.
  - destruct Hu as [_ [[_ Hne]|[_ Hend]]]; [apply Hne; reflexivity|vm_compute in Hend; discriminate].
Defined.

(** C29. Mapping a page and unmapping it again restores the address space: every address
    translates as before the mapping. *)
Theorem map_unmap_roundtrip `{TableAlloc} `{Profile} (root : Z) (s s' : kst) (page : Z)
    (paddr : PhyAddr) (attrs : Z) :
  mm_ok root s → 0 ≤ page < 2 ^ 27 →
  vmap_at (va_of root) (PAGE_SIZE * page) paddr attrs s = Ok (tt, s') →
  ∃ s'', vunmap (va_of root) (PAGE_SIZE * page) PAGE_SIZE s' = Ok (tt, s'')
    ∧ ∀ va, 0 ≤ va < 2 ^ 39 → pte (phys s'') root va = pte (phys s) root va.
Proof.
  intros Hok Hp Hmap.
  assert (0 ≤ PAGE_SIZE * page < 2 ^ 39) as Hva by (unfold PAGE_SIZE; lia).
  pose proof (vmap_at_spec root s (PAGE_SIZE * page) paddr attrs Hok Hva
    ltac:(unfold PAGE_SIZE; zdiv)) as Hm.
  rewrite Hmap in Hm. destruct Hm as [Hz [Hok' Hpte _ _ _ _ _]].
  destruct (vunmap_spec root s' page 1 Hok') as (s'' & Hs'' & Hr);
    [lia|lia|unfold PAGE_SIZE; lia|]. rewrite Z.mul_1_r in Hs''.
  exists s''. split; [done|]. intros va Hv. rewrite (rg_pte _ _ _ _ _ _ Hr), Hpte by done.
  replace (PAGE_SIZE * page / PAGE_SIZE) with page by (unfold PAGE_SIZE; zdiv).
  destruct (Z.eqb_spec (va / PAGE_SIZE) page) as [E|E].
  - rewrite (proj2 (Z.leb_le _ _)), (proj2 (Z.ltb_lt _ _)) by lia. simpl.
    rewrite (pte_page root _ va (PAGE_SIZE * page)), Hz by (done || rewrite E; unfold PAGE_SIZE; zdiv). done.
  - destruct (Z.leb_spec page (va / PAGE_SIZE)), (Z.ltb_spec (va / PAGE_SIZE) (page + 1)); simpl; done || lia.
Qed.

Lemma map_unmap_roundtrip_witness :
  match vmap_at (va_of ROOT) (PAGE_SIZE * 0x50003) {| pa := 0x40020000 |} PT_RW_EL0 map_kernel with
  | Ok (_, s') => ∃ s'', vunmap (va_of ROOT) (PAGE_SIZE * 0x50003) PAGE_SIZE s' = Ok (tt, s'')
      ∧ pte (phys s'') ROOT 0x50003000 = pte (phys map_kernel) ROOT 0x50003000
  | Fault _ => False
  end.
Proof.
  destruct (vmap_at (va_of ROOT) (PAGE_SIZE * 0x50003) {| pa := 0x40020000 |} PT_RW_EL0 map_kernel)
    as [[[] s']|x] eqn:E.
  - destruct (map_unmap_roundtrip ROOT map_kernel s' 0x50003 {| pa := 0x40020000 |} PT_RW_EL0
      map_kernel_ok ltac:(lia) E) as (s'' & Hs & Hp).
    exists s''. split; [exact Hs|]. apply Hp. lia.
  - assert (match vmap_at (va_of ROOT) (PAGE_SIZE * 0x50003) {| pa := 0x40020000 |} PT_RW_EL0 map_kernel with
      | Ok _ => True | Fault _ => False end) as Hv by (vm_compute; exact I).
    rewrite E in Hv. exact Hv.
Defined.

(** ** The TLB *)

(** What changes the address space or the TLB of the core: the walker caches a translation, a
    store hits a frame that is not a table, and the kernel maps or unmaps pages. *)
Inductive mmu_step `{TableAlloc} `{Profile} (root : Z) : kst → kst → Prop :=
| mmu_fill s page :
    0 ≤ page < 2 ^ 27 → pte (phys s) root (PAGE_SIZE * page) ≠ 0 →
    mmu_step root s (set_tlb (<[page := pte (phys s) root (PAGE_SIZE * page)]> (tlb s)) s)
| mmu_store s g fr :
    ¬ is_table (phys s) root g → length fr = 512%nat →
    mmu_step root s (set_phys (<[g := fr]> (phys s)) s)
| mmu_map s s' vaddr paddr attrs :
    0 ≤ vaddr → vmap_at (va_of root) vaddr paddr attrs s = Ok (tt, s') → mmu_step root s s'
| mmu_unmap s s' lo n :
    0 ≤ lo → 0 ≤ n → PAGE_SIZE * (lo + n) ≤ 2 ^ 39 →
    vunmap (va_of root) (PAGE_SIZE * lo) (PAGE_SIZE * n) s = Ok (tt, s') → mmu_step root s s'.

(** The TLB only knows pages below 512 GiB, and what it knows agrees with the tables. *)
Definition tlb_ok (root : Z) (s : kst) : Prop :=
  ∀ page e, tlb s !! page = Some e →
    0 ≤ page < 2 ^ 27 ∧ pte (phys s) root (PAGE_SIZE * page) = e.

Section tlb.
Context `{TableAlloc} `{Profile}.
Variable root : Z.

Lemma mm_ok_tlb s t : mm_ok root s → mm_ok root (set_tlb t s).
Proof.
  intros [Hs Hw Ho]. split; [by apply src_ok_tlb|done|].
  intros h Hh Hf%free_frame_tlb. by apply (Ho h).
Qed.

Lemma mm_ok_store s g fr :
  ¬ is_table (phys s) root g → length fr = 512%nat → mm_ok root s →
  mm_ok root (set_phys (<[g := fr]> (phys s)) s).
Proof.
  intros Hg Hl [Hs Hw Ho]. split.
  - apply src_ok_phys; [|done]. intros h (x & Hx & Hlx). destruct (decide (g = h)) as [->|].
    + exists fr. by rewrite lookup_insert_eq.
    + exists x. by rewrite lookup_insert_ne.
  - by apply outside_wf.
  - intros h (q & Hq & Hd) Hf%free_frame_phys. cbn [phys set_phys] in Hd.
    rewrite outside_descend in Hd by done. apply (Ho h); [by exists q|done].
Qed.

Lemma mmu_step_ok s s' :
  mmu_step root s s' → mm_ok root s ∧ tlb_ok root s → mm_ok root s' ∧ tlb_ok root s'.
Proof.
  intros Hstep [Hok Ht]. destruct Hstep as [s page Hp Hne|s g fr Hg Hl|s s' va p at' Hva Hm|s s' lo n Hlo Hn Hb Hu].
  - split; [by apply mm_ok_tlb|]. intros q e. cbn [tlb set_tlb phys].
    destruct (decide (page = q)) as [->|].
    + rewrite lookup_insert_eq. by intros [= <-].
    + rewrite lookup_insert_ne by done. apply Ht.
  - split; [by apply mm_ok_store|]. intros q e Hq. cbn [phys set_phys tlb] in *.
    destruct (Ht q e Hq) as [Hr Hp]. split; [done|].
    rewrite outside_pte; [done|done|unfold PAGE_SIZE; lia].
  - destruct (Z.lt_ge_cases va (2 ^ 39)) as [Hlt|Hge]; [|by rewrite vmap_at_high in Hm].
    destruct (Z.eq_dec (va mod PAGE_SIZE) 0) as [Hal|Hal]; [|by rewrite vmap_at_unaligned in Hm].
    pose proof (vmap_at_spec root s va p at' Hok (conj Hva Hlt) Hal) as Hs. rewrite Hm in Hs.
    destruct Hs as [_ [Hok' _ _ _ _ _ Htlb]]. split; [done|]. intros q e. by rewrite Htlb.
  - destruct (vunmap_spec root s lo n Hok Hlo Hn Hb) as (s1 & Hs1 & Hr). rewrite Hs1 in Hu.
    injection Hu as <-. split; [apply Hr|]. intros q e.
    destruct (rg_tlb _ _ _ _ _ _ Hr) as [->|[-> ->]]; [done|apply Ht].
Qed.
End tlb.

(** C5. No stale translation: however the kernel's mapping and unmapping interleave with table
    walks of the hardware and with stores to frames that hold no page table, every translation
    the TLB holds is the one the tables give at that moment, and the tables stay well formed.
    (A store into a table is not covered: it changes the mapping without a flush.) *)
Theorem tlb_never_stale `{TableAlloc} `{Profile} (root : Z) (s s' : kst) :
  mm_ok root s → tlb s = ∅ → rtc (mmu_step root) s s' →
  mm_ok root s' ∧ ∀ page e, tlb s' !! page = Some e → pte (phys s') root (PAGE_SIZE * page) = e.
Proof.
  intros Hok Ht Hr. assert (mm_ok root s' ∧ tlb_ok root s') as [Hok' Ht'].
  { assert (tlb_ok root s) as Hts by (intros q e; by rewrite Ht).
    clear Ht. induction Hr as [|s1 s2 s3 Hs _ IH]; [done|].
    destruct (mmu_step_ok root s1 s2 Hs (conj Hok Hts)). by apply IH. }
  split; [done|]. intros page e He. by apply (Ht' page e).
Qed.

(** Mapping a page, caching it, and unmapping it: the cached entry is gone. *)
Lemma tlb_never_stale_witness :
  ∃ s1 s2 s3, vmap_at (va_of ROOT) (PAGE_SIZE * 0x50003) {| pa := 0x40020000 |} PT_RW_EL0 map_kernel = Ok (tt, s1)
    ∧ s2 = set_tlb (<[0x50003 := pte (phys s1) ROOT (PAGE_SIZE * 0x50003)]> (tlb s1)) s1
    ∧ vunmap (va_of ROOT) (PAGE_SIZE * 0x50003) (PAGE_SIZE * 1) s2 = Ok (tt, s3)
    ∧ tlb s3 = ∅ ∧ mm_ok ROOT s3.
Proof.
  destruct (vmap_at (va_of ROOT) (PAGE_SIZE * 0x50003) {| pa := 0x40020000 |} PT_RW_EL0 map_kernel)
    as [[[] s1]|x] eqn:E1; last first.
  { assert (match vmap_at (va_of ROOT) (PAGE_SIZE * 0x50003) {| pa := 0x40020000 |} PT_RW_EL0 map_kernel with
      | Ok _ => True | Fault _ => False end) as Hv by (vm_compute; exact I).
    rewrite E1 in Hv. destruct Hv. }
  set (s2 := set_tlb (<[0x50003 := pte (phys s1) ROOT (PAGE_SIZE * 0x50003)]> (tlb s1)) s1).
  assert (match vmap_at (va_of ROOT) (PAGE_SIZE * 0x50003) {| pa := 0x40020000 |} PT_RW_EL0 map_kernel with
    | Ok (_, s1) => pte (phys s1) ROOT (PAGE_SIZE * 0x50003) ≠ 0 ∧
        match vunmap (va_of ROOT) (PAGE_SIZE * 0x50003) (PAGE_SIZE * 1)
          (set_tlb (<[0x50003 := pte (phys s1) ROOT (PAGE_SIZE * 0x50003)]> (tlb s1)) s1) with
        | Ok (_, s3) => tlb s3 = ∅ | Fault _ => False end
    | Fault _ => False end) as Hv by (vm_compute; split; [discriminate|reflexivity]).
  rewrite E1 in Hv. destruct Hv as [Hne Hv]. fold s2 in Hv.
  destruct (vunmap (va_of ROOT) (PAGE_SIZE * 0x50003) (PAGE_SIZE * 1) s2) as [[[] s3]|x] eqn:E3;
    [|destruct Hv].
  exists s1, s2, s3. split; [reflexivity|]. split; [reflexivity|]. split; [exact E3|].
  split; [exact Hv|].
  apply (tlb_never_stale ROOT map_kernel s3 map_kernel_ok eq_refl).
  eapply rtc_l; [apply (mmu_map ROOT map_kernel s1 (PAGE_SIZE * 0x50003) {| pa := 0x40020000 |} PT_RW_EL0); [vm_compute; discriminate|exact E1]|].
  eapply rtc_l; [apply (mmu_fill ROOT s1 0x50003); [lia|exact Hne]|].
  eapply rtc_l; [apply (mmu_unmap ROOT s2 s3 0x50003 1); [lia|lia|vm_compute; discriminate|exact E3]|].
  apply rtc_refl.
Defined.

(** ** Finding room *)

(** C26. [find_hole] on well-formed tables, for any start and size, in either profile: it ends
    without a panic, and the address it returns is at or above the start, below 512 GiB, a
    whole number of pages from the start, and in a slot of 2 MiB in which nothing is mapped. *)
Theorem find_hole_sound `{Profile} (m : pmem) (root start size : Z) :
  tree_wf m root → 0 ≤ start < 2 ^ 64 →
  ∃ r, find_hole m (va_of root) start size = Ok r
    ∧ ∀ v, r = Some v → start ≤ v < 2 ^ 39 ∧ (v - start) mod PAGE_SIZE = 0
        ∧ ∀ va, 0 ≤ va → va / 2 ^ 21 = v / 2 ^ 21 → pte m root va = 0.
Proof.
  intros Hwf Hs. destruct (vm_hole_spec m root Hwf start size Hs) as (r & -> & Hr).
  exists r. split; [done|]. intros v Hv. destruct (Hr v Hv) as (Hb & Hp & Hf).
  split_and!; [lia|lia|done|]. intros va Hva Hslot. apply (slot_free_pte m root v va); [lia|done..].
Qed.

Lemma find_hole_sound_witness :
  find_hole (H := dev) (phys map_kernel) (va_of ROOT) 0x50000000 0x1000 = Ok (Some 0x50000000)
  ∧ pte (phys map_kernel) ROOT 0x501ff000 = 0.
Proof.
  destruct (find_hole_sound (H := dev) (phys map_kernel) ROOT 0x50000000 0x1000
    (mm_tree _ _ map_kernel_ok) ltac:(lia)) as (r & Hr & Hv).
  assert (find_hole (H := dev) (phys map_kernel) (va_of ROOT) 0x50000000 0x1000
    = Ok (Some 0x50000000)) as E by (vm_compute; reflexivity).
  split; [exact E|]. rewrite E in Hr. injection Hr as <-.
  destruct (Hv _ eq_refl) as (_ & _ & Hp). apply Hp; [lia|reflexivity].
Defined.

(** C6. [vmap] of [n] pages.  If it returns [v], then [v] is page aligned and at least
    [0x50000000], all [n] pages from [v] were unmapped and are now mapped to consecutive
    physical pages with the given attributes, and every other page translates as before.
    Otherwise it panics: [find_hole] found no address; the pool of free frames holds too few
    for the tables (fewer than three for each 2 MiB slot that [n] pages can touch); or the
    region found runs past 512 GiB or into a page that is mapped, and both are impossible when
    the region fits the 2 MiB slot of the address found ([vmap_panics]).  The physical range
    must not wrap around 2^64. *)
Theorem vmap_contract `{TableAlloc} `{Profile} (root : Z) (s : kst) (paddr n attrs : Z) :
  mm_ok root s → 0 ≤ n → 0 ≤ paddr → paddr + PAGE_SIZE * n ≤ 2 ^ 64 →
  match vmap (va_of root) {| pa := paddr |} (PAGE_SIZE * n) attrs s with
  | Ok (v, s') => ∃ lo, v = PAGE_SIZE * lo ∧ 0x50000000 ≤ v ∧ v + PAGE_SIZE * n ≤ 2 ^ 39
      ∧ (∀ i, lo ≤ i < lo + n → pte (phys s) root (PAGE_SIZE * i) = 0)
      ∧ mm_ok root s'
      ∧ (∀ va, 0 ≤ va < 2 ^ 39 → pte (phys s') root va =
           if (lo <=? va / PAGE_SIZE) && (va / PAGE_SIZE <? lo + n)
           then Z.lor (Z.lor (paddr + PAGE_SIZE * (va / PAGE_SIZE - lo)) COMMON_FLAGS) attrs
           else pte (phys s) root va)
  | Fault x => vmap_panics root s n x
  end.
Proof.
  intros Hok Hn Hp Hpn. pose proof (vmap_spec root s paddr n attrs Hok Hn Hp Hpn) as Hm.
  destruct (vmap _ _ _ _ s) as [[v s']|x]; [|done].
  destruct Hm as (lo & -> & Hlo & Hend & Hz & [Hok' Hpte _ _ _ _ _]). exists lo. by split_and!.
Qed.

Lemma vmap_contract_witness :
  match vmap (va_of ROOT) {| pa := 0x40020000 |} (PAGE_SIZE * 2) PT_RW_EL0 map_kernel with
  | Ok (v, s') => v = 0x50000000 ∧ pte (phys s') ROOT 0x50001000 = 0x40021443
  | Fault _ => False
  end.
Proof.
  pose proof (vmap_contract ROOT map_kernel 0x40020000 2 PT_RW_EL0 map_kernel_ok
    ltac:(lia) ltac:(lia) ltac:(vm_compute; discriminate)) as Hm.
  assert (match vmap (va_of ROOT) {| pa := 0x40020000 |} (PAGE_SIZE * 2) PT_RW_EL0 map_kernel with
    | Ok (v, _) => v = 0x50000000 | Fault _ => False end) as Hv by (vm_compute; reflexivity).
  destruct (vmap (va_of ROOT) {| pa := 0x40020000 |} (PAGE_SIZE * 2) PT_RW_EL0 map_kernel)
    as [[v s']|x]; [|exact Hv].
  destruct Hm as (lo & E & _ & _ & _ & _ & Hp). split; [exact Hv|].
  assert (lo = 0x50000) as -> by (rewrite Hv in E; unfold PAGE_SIZE in E; lia).
  rewrite Hp by lia. reflexivity.
Defined.

(** The address space with one page mapped, at 2 GiB. *)
Definition one_page : pmem :=
  match vmap_at (va_of ROOT) 0x80000000 {| pa := 0x40020000 |} PT_RW_EL0 map_kernel with
  | Ok (_, s) => phys s
  | Fault _ => ∅
  end.

Lemma one_page_wf : tree_wf one_page ROOT.
Proof.
  unfold one_page. pose proof (vmap_at_spec ROOT map_kernel 0x80000000 {| pa := 0x40020000 |} PT_RW_EL0
    map_kernel_ok ltac:(lia) eq_refl) as Hm.
  assert (match vmap_at (va_of ROOT) 0x80000000 {| pa := 0x40020000 |} PT_RW_EL0 map_kernel with
    | Ok _ => True | Fault _ => False end) as Hv by (vm_compute; exact I).
  destruct (vmap_at (va_of ROOT) 0x80000000 _ _ map_kernel) as [[[] s]|x]; [|done].
  destruct Hm as [_ Hm]. apply Hm.
Qed.

(** [find_hole] can return a region that is not free: with a single page mapped at 2 GiB,
    the search for 800 MiB from [0x50000000] answers [0x50000000], although the mapped page
    lies inside the region.  (The helper measures
    entries in units one level too small, and resumes a search in the next table at an
    address that is not the start of the entry.) *)
Lemma find_hole_overlap :
  tree_wf one_page ROOT
  ∧ find_hole (H := dev) one_page (va_of ROOT) 0x50000000 0x32000000 = Ok (Some 0x50000000)
  ∧ 0x50000000 ≤ 0x80000000 < 0x50000000 + 0x32000000
  ∧ pte one_page ROOT 0x80000000 ≠ 0.
Proof.
  split; [exact one_page_wf|]. split; [vm_compute; reflexivity|]. split; [lia|].
  vm_compute. discriminate.
Qed.
