(* ===== verification/KernelApi.v ===== *)
(** * The system-call interface (kernel_api/src/lib.rs, and the decoding half in init/src/utils.rs)

    Numbers, error codes, flag sets and the device record that cross the boundary between the
    kernel and user mode.  The conversions derived by [num_enum] and [bitflags] are interfaces
    with the documented behaviour of the derives as laws. *)

From S2P Require Import Prelude.

Local Open Scope Z_scope.

(** ** System calls *)

Inductive Syscall : Type :=
| Exit | Log | PhyMap | MemMap | MemUnmap | DownloadMoreRam | LoadKernelDevice | SleepSec.

#[global] Instance Syscall_eq_dec : EqDecision Syscall.
Proof. solve_decision. Defined.

(** [Syscall as u32]: the declared discriminants. *)
Definition syscall_num (c : Syscall) : Z :=
  match c with
  | Exit => 0 | Log => 1 | PhyMap => 2 | MemMap => 3 | MemUnmap => 4
  | DownloadMoreRam => 5 | LoadKernelDevice => 6 | SleepSec => 7
  end.

(** [#[derive(TryFromPrimitive)]]: a number converts to the variant that has it, if any. *)
Class TryFromPrimitive {E : Type} (discriminant : E → Z) : Type := {
  try_from : Z → option E;
  try_from_iff : ∀ n c, try_from n = Some c ↔ n = discriminant c;
}.

Definition all_syscalls : list Syscall :=
  [Exit; Log; PhyMap; MemMap; MemUnmap; DownloadMoreRam; LoadKernelDevice; SleepSec].

#[export] Program Instance Syscall_try_from : TryFromPrimitive syscall_num := {|
  try_from n := list_find (λ c, syscall_num c = n) all_syscalls ≫= λ p, Some (p.2);
|}.
Next Obligation.
  intros n c. split.
  - destruct (list_find _ _) as [[i c']|] eqn:E; [|done]. intros [= <-].
    apply list_find_Some in E as (_ & -> & _). done.
  - intros ->. by destruct c.
Qed.

(** ** Errors *)

Inductive KError : Type :=
| Unknown (code : Z)
| AlreadyExists
| OOM
| InvalidArgument.

#[global] Instance KError_eq_dec : EqDecision KError.
Proof. solve_decision. Defined.

(** [#[derive(IntoPrimitive)]] to [i32]: the declared discriminants, and the payload of the
    catch-all variant. *)
Definition kerror_code (e : KError) : Z :=
  match e with Unknown n => n | AlreadyExists => -1 | OOM => -2 | InvalidArgument => -3 end.

(** [#[derive(FromPrimitive)]] with [#[num_enum(catch_all)]]: a named variant if one has the
    number, the catch-all otherwise. *)
Class FromPrimitive : Type := {
  from_primitive : Z → KError;
  from_primitive_code : ∀ n, kerror_code (from_primitive n) = n;
  from_primitive_named : ∀ e, (∀ n, e ≠ Unknown n) → from_primitive (kerror_code e) = e;
}.

#[export] Program Instance KError_from_primitive : FromPrimitive := {|
  from_primitive n :=
    if n =? -1 then AlreadyExists else if n =? -2 then OOM
    else if n =? -3 then InvalidArgument else Unknown n;
|}.
Next Obligation.
  intros n. unfold kerror_code. destruct (n =? -1) eqn:E1, (n =? -2) eqn:E2, (n =? -3) eqn:E3; lia.
Qed.
Next Obligation. intros [n| | |] Hn; [by destruct (Hn n)|done..]. Qed.

(** [x as i32] and [x as i64] of a [u64], and [x as u64] of a signed number. *)
Definition as_i32 (x : Z) : Z := (x + 2 ^ 31) mod 2 ^ 32 - 2 ^ 31.
Definition as_i64 (x : Z) : Z := (x + 2 ^ 63) mod 2 ^ 64 - 2 ^ 63.
Definition as_u64 (x : Z) : Z := x mod 2 ^ 64.

(** [impl Into<u64> for KError]. *)
Definition kerror_into_u64 (e : KError) : Z := as_u64 (kerror_code e).

(** How user mode reads a result register: [phy_map] and [mem_map] (the address or the
    error), [mem_unmap], [download_more_ram] and [load_kernel_device] (success or error). *)
Definition decode_address `{FromPrimitive} (virt_addr : Z) : Z + KError :=
  if as_i64 virt_addr <? 0 then inr (from_primitive (as_i32 virt_addr)) else inl virt_addr.

Definition decode_status `{FromPrimitive} (x0 : Z) : unit + KError :=
  let res := as_i64 x0 in
  if res <? 0 then inr (from_primitive (as_i32 res)) else inl tt.

(** ** Flags *)

(** A type declared by [bitflags!]: the union of the declared flags, and the two operations
    the kernel uses. *)
Class BitFlags (all : Z) : Type := {
  from_bits_truncate : Z → Z;
  contains : Z → Z → bool;
  from_bits_truncate_spec : ∀ bits, from_bits_truncate bits = Z.land bits all;
  contains_spec : ∀ flags other, contains flags other = (Z.land flags other =? other);
}.

Definition PhyMap_ReadWrite : Z := Z.shiftl 1 0.
Definition PhyMap_DeviceMem : Z := Z.shiftl 1 1.
Definition PhyMapFlags : Z := Z.lor PhyMap_ReadWrite PhyMap_DeviceMem.
Definition MemMap_ReadWrite : Z := Z.shiftl 1 0.
Definition MemMapFlags : Z := MemMap_ReadWrite.

#[export] Instance bitflags (all : Z) : BitFlags all.
Proof.
  refine {| from_bits_truncate bits := Z.land bits all;
            contains flags other := Z.land flags other =? other |}; done.
Defined.

(** ** The device record *)

(** [kernel_device::GicAndTimer]. *)
Record GicAndTimer : Type := mkGicAndTimer {
  gicd_base : Z;
  gicc_base : Z;
  timer_ppi_interrupt : Z;
  _padding : Z;
}.

Definition GicAndTimer_ID : Z := 1.
Definition size_of_GicAndTimer : Z := 24.

(** [#[repr(C)]] on a little-endian target: the bytes of the fields in order. *)
Fixpoint to_le (n : nat) (x : Z) : list Z :=
  match n with O => [] | S n => x mod 256 :: to_le n (x / 256) end.
Fixpoint of_le (bs : list Z) : Z :=
  match bs with [] => 0 | b :: bs => b + 256 * of_le bs end.

Definition gic_as_bytes (g : GicAndTimer) : list Z :=
  to_le 8 (gicd_base g) ++ to_le 8 (gicc_base g) ++ to_le 4 (timer_ppi_interrupt g)
  ++ to_le 4 (_padding g).
Definition gic_of_bytes (bs : list Z) : GicAndTimer :=
  {| gicd_base := of_le (take 8 bs); gicc_base := of_le (take 8 (drop 8 bs));
     timer_ppi_interrupt := of_le (take 4 (drop 16 bs)); _padding := of_le (take 4 (drop 20 bs)) |}.

(** ** Lemmas *)

Lemma to_le_length n x : length (to_le n x) = n.
Proof. revert x. induction n as [|n IH]; intros x; [done|]. simpl. by rewrite IH. Qed.

Lemma to_le_bytes n x : Forall (λ b, 0 ≤ b < 256) (to_le n x).
Proof.
  revert x. induction n as [|n IH]; intros x; constructor; [|apply IH].
  apply Z.mod_pos_bound. lia.
Qed.

Lemma of_to_le n x : 0 ≤ x < 256 ^ Z.of_nat n → of_le (to_le n x) = x.
Proof.
  revert x. induction n as [|n IH]; intros x Hx; simpl.
  - change (256 ^ Z.of_nat 0) with 1 in Hx. lia.
  - rewrite Nat2Z.inj_succ, Z.pow_succ_r in Hx by lia.
    rewrite IH; [pose proof (Z.div_mod x 256); lia|]. split; [zdiv|].
    apply Z.div_lt_upper_bound; lia.
Qed.

Lemma to_of_le bs : Forall (λ b, 0 ≤ b < 256) bs → to_le (length bs) (of_le bs) = bs.
Proof.
  induction 1 as [|b bs Hb _ IH]; [done|]. simpl. f_equal.
  - rewrite Z.mul_comm, Z.mod_add by lia. by apply Z.mod_small.
  - rewrite Z.mul_comm, Z.div_add by lia. rewrite Z.div_small by done. by rewrite Z.add_0_l.
Qed.

(** ** Properties *)

(** Results cross the boundary intact: a negative error code sent by the kernel is decoded
    by user mode as that error, by either kind of wrapper, and an address below 2^63 is decoded
    as that address.  (A catch-all code equal to a named variant's is read as that variant.) *)
Lemma result_roundtrip `{FromPrimitive} (e : KError) (v : Z) :
  - 2 ^ 31 ≤ kerror_code e < 0 → (∀ n, e = Unknown n → n < -3) → 0 ≤ v < 2 ^ 63 →
  decode_address (kerror_into_u64 e) = inr e ∧ decode_status (kerror_into_u64 e) = inr e
  ∧ decode_address v = inl v ∧ decode_status v = inl tt.
Proof.
  intros Hc Hu Hv.
  assert (as_i64 (kerror_into_u64 e) = kerror_code e) as E64
    by (unfold as_i64, kerror_into_u64, as_u64; zdiv).
  assert (as_i32 (kerror_into_u64 e) = kerror_code e) as E32.
  { unfold as_i32, kerror_into_u64, as_u64. generalize dependent (kerror_code e). intros c. zdiv. }
  assert (as_i32 (kerror_code e) = kerror_code e) as E32' by (unfold as_i32; zdiv).
  assert (as_i64 v = v) as Ev by (unfold as_i64; zdiv).
  assert (from_primitive (kerror_code e) = e) as Hf.
  { destruct e as [n| | |]; [|apply from_primitive_named; congruence..].
    pose proof (from_primitive_code n) as Hn. specialize (Hu n eq_refl). simpl in *.
    destruct (from_primitive n) as [k| | |]; simpl in Hn; [by subst|lia..]. }
  unfold decode_address, decode_status. rewrite E64, E32, E32', Ev, Hf.
  rewrite (proj2 (Z.ltb_lt _ _)), (proj2 (Z.ltb_ge _ _)) by lia. done.
Qed.

Lemma result_roundtrip_witness :
  decode_address (kerror_into_u64 InvalidArgument) = inr InvalidArgument
  ∧ kerror_into_u64 InvalidArgument = 0xfffffffffffffffd.
Proof.
  split; [|reflexivity].
  apply (result_roundtrip InvalidArgument 0); [simpl; lia|discriminate|lia].
Defined.

(** Encoding a record and decoding it again. *)
Lemma gic_of_as_bytes g :
  0 ≤ gicd_base g < 2 ^ 64 → 0 ≤ gicc_base g < 2 ^ 64 →
  0 ≤ timer_ppi_interrupt g < 2 ^ 32 → 0 ≤ _padding g < 2 ^ 32 → gic_of_bytes (gic_as_bytes g) = g.
Proof.
  intros H1 H2 H3 H4. destruct g as [a b c d]. unfold gic_of_bytes, gic_as_bytes. simpl gicd_base in *.
  simpl gicc_base in *. simpl timer_ppi_interrupt in *. simpl _padding in *.
  f_equal.
  - rewrite take_app_length' by (by rewrite to_le_length). by apply of_to_le.
  - rewrite drop_app_length', take_app_length' by (by rewrite to_le_length). by apply of_to_le.
  - rewrite app_assoc, drop_app_length', take_app_length'
      by (rewrite ?length_app, !to_le_length; done). by apply of_to_le.
  - rewrite !app_assoc, drop_app_length' by (rewrite !length_app, !to_le_length; done).
    rewrite take_ge by (rewrite to_le_length; lia). by apply of_to_le.
Qed.

(** The device record survives the copy between user mode and the kernel: its 24 bytes are
    read back as the same fields, and any 24 bytes are the bytes of the record they encode. *)
Lemma gic_bytes_roundtrip (g : GicAndTimer) (bs : list Z) :
  0 ≤ gicd_base g < 2 ^ 64 → 0 ≤ gicc_base g < 2 ^ 64 →
  0 ≤ timer_ppi_interrupt g < 2 ^ 32 → 0 ≤ _padding g < 2 ^ 32 →
  Z.of_nat (length bs) = size_of_GicAndTimer → Forall (λ b, 0 ≤ b < 256) bs →
  Z.of_nat (length (gic_as_bytes g)) = size_of_GicAndTimer
  ∧ gic_of_bytes (gic_as_bytes g) = g ∧ gic_as_bytes (gic_of_bytes bs) = bs.
Proof.
  intros H1 H2 H3 H4 Hl Hb. unfold size_of_GicAndTimer in Hl. split_and!.
  - unfold gic_as_bytes. by rewrite !length_app, !to_le_length.
  - by apply gic_of_as_bytes.
  - unfold gic_as_bytes, gic_of_bytes. cbn [gicd_base gicc_base timer_ppi_interrupt _padding].
    assert (∀ n k, (k + n ≤ 24)%nat → to_le n (of_le (take n (drop k bs))) = take n (drop k bs)) as Ht.
    { intros n k Hk. rewrite <- (to_of_le (take n (drop k bs))) at 2
        by (by apply Forall_take, Forall_drop). rewrite length_take, length_drop. f_equal. lia. }
    pose proof (Ht 8%nat 0%nat ltac:(lia)) as T0. rewrite drop_0 in T0.
    rewrite T0, !Ht by lia.
    rewrite (take_ge (drop 20 bs)) by (rewrite length_drop; lia).
    rewrite <- (take_drop 8 bs) at 5. rewrite <- (take_drop 8 (drop 8 bs)) at 2.
    rewrite <- (take_drop 4 (drop 8 (drop 8 bs))). by rewrite !drop_drop.
Qed.

Lemma gic_bytes_roundtrip_witness :
  let g := {| gicd_base := 0x8000000; gicc_base := 0x8010000; timer_ppi_interrupt := 30; _padding := 0 |} in
  gic_of_bytes (gic_as_bytes g) = g ∧ gic_as_bytes (gic_of_bytes (replicate 24 7)) = replicate 24 7.
Proof.
  intros g. destruct (gic_bytes_roundtrip g (replicate 24 7)) as (_ & H1 & H2).
  - simpl. lia.
  - simpl. lia.
  - simpl. lia.
  - simpl. lia.
  - reflexivity.
  - repeat constructor; lia.
  - split; [exact H1|exact H2].
Defined.
