(* ===== verification/Console.v ===== *)
(** * The console and printing (kernel/src/drv/qemu_console.rs)

    The UART driver as the sequence of bytes it stores, the text [core::fmt] produces for the
    format strings the kernel and the init process use, and the hex dumps, which exist twice
    in the sources with the same body over two different [print!]s. *)

From S2P Require Import Prelude.

Local Open Scope Z_scope.

(** ** Text *)

(** The bytes of a string literal. *)
Definition text (s : string) : list Z := (λ a, Z.of_N (Ascii.N_of_ascii a)) <$> String.list_ascii_of_string s.

Definition NEWLINE : Z := 10.
Definition SPACE : Z := 32.
Definition ZERO_DIGIT : Z := 48.

(** Lower-case digits of a number, most significant first, in front of [acc]; [n] bounds their
    number. *)
Definition digit (d : Z) : Z := if d <? 10 then ZERO_DIGIT + d else 87 + d.
Fixpoint digits (base : Z) (n : nat) (x : Z) (acc : list Z) : list Z :=
  match n with
  | O => acc
  | S n =>
      let acc := digit (x mod base) :: acc in
      if x / base =? 0 then acc else digits base n (x / base) acc
  end.

(** [{}], [{:x}] and [{:0wx}] of a 64-bit number: at most 20 and 16 digits. *)
Definition fmt_dec (x : Z) : list Z := digits 10 20 x [].
Definition fmt_hex (x : Z) : list Z := digits 16 16 x [].
Definition fmt_hex_pad (w : nat) (x : Z) : list Z :=
  replicate (w - length (fmt_hex x)) ZERO_DIGIT ++ fmt_hex x.

(** ** Printing in any monad *)

(** [core::fmt::Write]: the one method an adapter implements. *)
Class FmtWrite (m : Type → Type) : Type := write_str : list Z → m unit.

(** [for x in l { body }]. *)
Fixpoint for_M {m : Type → Type} `{MRet m} `{MBind m} {I} (l : list I) (body : I → m unit) : m unit :=
  match l with
  | [] => mret tt
  | x :: l => body x;; for_M l body
  end.

Section print.
Context {m : Type → Type} `{MRet m} `{MBind m} `{FmtWrite m}.

(** [_print], given the pieces the formatter hands to [write_str]: literals and arguments. *)
Definition _print (args : list (list Z)) : m unit := for_M args write_str.

Definition print (args : list (list Z)) : m unit := _print args.
Definition println (args : list (list Z)) : m unit := print (args ++ [[NEWLINE]]).

(** The body of the loops below, for byte number [i]. *)
Definition dump_byte (i byte : Z) : m unit :=
  print [fmt_hex_pad 2 byte];;
  (if i mod 4 =? 3 then print [[SPACE]] else mret tt);;
  (if i mod 32 =? 31 then println [] else mret tt).

Definition dump_hex_slice (val : list Z) : m unit :=
  for_M (zip (seqZ 0 (Z.of_nat (length val))) val) (λ '(i, byte), dump_byte i byte);;
  println [].

(** [dump_hex] of a value whose bytes in memory are [bytes]. *)
Definition dump_hex (bytes : Z → Z) (size : Z) : m unit :=
  for_M (seqZ 0 size) (λ i, dump_byte i (bytes i));;
  println [].
End print.

(** ** The UART *)

(** [UART0_ADDR], and the stores to the device so far: address and byte. *)
Record uart_st : Type := mkUart {
  UART0_ADDR : Z;
  stores : list (Z * Z);
}.

Definition UART0_INIT : Z := 0x9000000.

Definition putc (ch : Z) : M uart_st unit :=
  modify (λ u, {| UART0_ADDR := UART0_ADDR u; stores := stores u ++ [(UART0_ADDR u, ch)] |}).

Definition puts (s : list Z) : M uart_st unit := for_M s putc.

#[export] Instance uart_write : FmtWrite (M uart_st) := puts.

Definition eject_lowmem : M uart_st unit :=
  modify (λ u, let new_value := Z.lor (UART0_ADDR u) 0xffffff0000000000 in
               {| UART0_ADDR := new_value; stores := stores u |}).

(** The state after [bs] has been sent. *)
Definition sent (bs : list Z) (u : uart_st) : uart_st :=
  {| UART0_ADDR := UART0_ADDR u; stores := stores u ++ ((λ b, (UART0_ADDR u, b)) <$> bs) |}.

(** ** What is printed *)

Lemma sent_nil u : sent [] u = u.
Proof. destruct u. unfold sent. simpl. by rewrite app_nil_r. Qed.

Lemma sent_sent a b u : sent b (sent a u) = sent (a ++ b) u.
Proof. unfold sent. simpl. by rewrite fmap_app, app_assoc. Qed.

Lemma puts_run bs u : puts bs u = Ok (tt, sent bs u).
Proof.
  unfold puts. revert u. induction bs as [|b bs IH]; intros u; simpl.
  - by rewrite sent_nil.
  - rewrite (M_bind_ok _ _ u tt (sent [b] u)) by done.
    rewrite IH. by rewrite sent_sent.
Qed.

Lemma mjoin_newline (args : list (list Z)) : mjoin (args ++ [[NEWLINE]]) = mjoin args ++ [NEWLINE].
Proof. induction args as [|a args IH]; [done|]. simpl. by rewrite IH, app_assoc. Qed.

(** Printing in any state in which writing a piece of text has an effect [out] that composes. *)
Section prints.
Context {S : Type} `{FmtWrite (M S)} (out : list Z → S → S).
Hypothesis out_nil : ∀ s, out [] s = s.
Hypothesis out_app : ∀ a b s, out b (out a s) = out (a ++ b) s.
Hypothesis write_out : ∀ bs s, write_str bs s = Ok (tt, out bs s).

Lemma print_out args s : print args s = Ok (tt, out (mjoin args) s).
Proof using out_nil out_app write_out.
  unfold print, _print. revert s. induction args as [|a args IH]; intros s; simpl.
  - by rewrite out_nil.
  - erewrite M_bind_ok by apply write_out. by rewrite IH, out_app.
Qed.

Lemma println_out args s : println args s = Ok (tt, out (mjoin args ++ [NEWLINE]) s).
Proof using out_nil out_app write_out.
  unfold println. by rewrite print_out, mjoin_newline.
Qed.

(** A loop whose body prints. *)
Lemma for_M_out {I} (l : list I) (f : I → M S unit) (t : I → list Z) s :
  (∀ x s, x ∈ l → f x s = Ok (tt, out (t x) s)) → for_M l f s = Ok (tt, out (l ≫= t) s).
Proof using out_nil out_app write_out.
  revert s. induction l as [|x l IH]; intros s Hf; simpl.
  - by rewrite out_nil.
  - erewrite M_bind_ok by (apply Hf; set_solver).
    rewrite IH by (intros; apply Hf; set_solver). by rewrite out_app.
Qed.

(** The text of one byte of a dump. *)
Definition dump_byte_text (i byte : Z) : list Z :=
  fmt_hex_pad 2 byte ++ (if i mod 4 =? 3 then [SPACE] else [])
    ++ (if i mod 32 =? 31 then [NEWLINE] else []).

Lemma dump_byte_out i byte s : dump_byte i byte s = Ok (tt, out (dump_byte_text i byte) s).
Proof using out_nil out_app write_out.
  unfold dump_byte, dump_byte_text. erewrite M_bind_ok by apply print_out.
  erewrite (M_bind_ok _ _ _ tt (out (fmt_hex_pad 2 byte ++ if i mod 4 =? 3 then [SPACE] else []) s)).
  - destruct (i mod 32 =? 31).
    + rewrite println_out, out_app, <- app_assoc. done.
    + unfold mret, M_ret. by rewrite app_nil_r.
  - destruct (i mod 4 =? 3); simpl; rewrite ?print_out, ?out_app; simpl; by rewrite app_nil_r.
Qed.

Definition dump_text (val : list Z) : list Z :=
  zip (seqZ 0 (Z.of_nat (length val))) val ≫= (λ '(i, byte), dump_byte_text i byte).

Lemma dump_hex_slice_out val s : dump_hex_slice val s = Ok (tt, out (dump_text val ++ [NEWLINE]) s).
Proof using out_nil out_app write_out.
  unfold dump_hex_slice. erewrite M_bind_ok.
  - rewrite println_out, out_app. done.
  - apply for_M_out. intros [i b] ? _. apply dump_byte_out.
Qed.
End prints.

Lemma println_run args u : println args u = Ok (tt, sent (mjoin args ++ [NEWLINE]) u).
Proof. apply (println_out sent sent_nil sent_sent puts_run). Qed.

Lemma dump_hex_slice_run val u : dump_hex_slice val u = Ok (tt, sent (dump_text val ++ [NEWLINE]) u).
Proof. apply (dump_hex_slice_out sent sent_nil sent_sent puts_run). Qed.

Lemma bind_ext_in {A B} (f g : A → list B) (l : list A) :
  (∀ x, x ∈ l → f x = g x) → l ≫= f = l ≫= g.
Proof.
  induction l as [|x l IH]; intros Hfg; [done|]. cbn [mbind list_bind].
  rewrite Hfg, IH; [done|intros; apply Hfg|]; set_solver.
Qed.

(** The bytes by index, as [dump_hex] reads them. *)
Lemma zip_nth_bind (val : list Z) (t : Z → Z → list Z) : ∀ k,
  zip (seqZ k (Z.of_nat (length val))) val ≫= (λ '(i, b), t i b)
    = seqZ k (Z.of_nat (length val)) ≫= (λ i, t i (nth (Z.to_nat (i - k)) val 0)).
Proof.
  induction val as [|b val IH]; intros k; [done|]. cbn [length]. rewrite seqZ_cons by lia.
  replace (Z.pred (Z.of_nat (S (length val)))) with (Z.of_nat (length val)) by lia.
  cbn [zip zip_with mbind list_bind]. rewrite Z.sub_diag. cbn [Z.to_nat nth]. f_equal. rewrite IH.
  apply bind_ext_in. intros i Hi%elem_of_seqZ. f_equal.
  by replace (Z.to_nat (i - k)) with (S (Z.to_nat (i - Z.succ k))) by lia.
Qed.

Lemma dump_hex_run val u :
  dump_hex (λ i, nth (Z.to_nat i) val 0) (Z.of_nat (length val)) u
    = Ok (tt, sent (dump_text val ++ [NEWLINE]) u).
Proof.
  unfold dump_hex. rewrite (M_bind_ok _ _ u tt (sent (dump_text val) u)).
  - by rewrite println_run, sent_sent.
  - rewrite (for_M_out sent sent_nil sent_sent puts_run _ _ (λ i, dump_byte_text i (nth (Z.to_nat i) val 0)))
      by (intros; apply (dump_byte_out sent sent_nil sent_sent puts_run)).
    unfold dump_text. rewrite zip_nth_bind. do 3 f_equal. apply bind_ext_in. intros i _. by rewrite Z.sub_0_r.
Qed.

(** ** Reading a dump back *)

(** The value of a hex digit; spaces and newlines have none. *)
Definition nibble (ch : Z) : option Z :=
  if (48 <=? ch) && (ch <=? 57) then Some (ch - 48)
  else if (97 <=? ch) && (ch <=? 102) then Some (ch - 87) else None.

Fixpoint pair_up (ns : list Z) : list Z :=
  match ns with
  | a :: b :: ns => 16 * a + b :: pair_up ns
  | _ => []
  end.

Definition undump (t : list Z) : list Z := pair_up (omap nibble t).

Lemma nibble_digit d : 0 ≤ d < 16 → nibble (digit d) = Some d.
Proof.
  intros Hd. unfold nibble, digit, ZERO_DIGIT. destruct (Z.ltb_spec d 10).
  - rewrite (proj2 (Z.leb_le _ _)), (proj2 (Z.leb_le _ _)) by lia. simpl. f_equal. lia.
  - rewrite (proj2 (Z.leb_gt (87 + d) 57)), andb_false_r by lia.
    rewrite (proj2 (Z.leb_le _ _)), (proj2 (Z.leb_le _ _)) by lia. simpl. f_equal. lia.
Qed.

Lemma fmt_hex_byte b : 0 ≤ b < 256 → fmt_hex_pad 2 b = [digit (b / 16); digit (b mod 16)].
Proof.
  intros Hb. unfold fmt_hex_pad, fmt_hex. cbn [digits].
  destruct (Z.eqb_spec (b / 16) 0) as [E|E].
  - cbn. by rewrite E.
  - assert (b / 16 / 16 = 0) as -> by zdiv. cbn.
    by replace ((b / 16) mod 16) with (b / 16) by zdiv.
Qed.

Lemma dump_byte_nibbles i b :
  0 ≤ b < 256 → omap nibble (dump_byte_text i b) = [b / 16; b mod 16].
Proof.
  intros Hb. unfold dump_byte_text. rewrite fmt_hex_byte by done. rewrite !omap_app.
  cbn [omap list_omap]. rewrite !nibble_digit by zdiv.
  by destruct (i mod 4 =? 3), (i mod 32 =? 31).
Qed.

Lemma undump_bytes (l : list (Z * Z)) :
  Forall (λ p, 0 ≤ p.2 < 256) l →
  pair_up (omap nibble (l ≫= (λ '(i, byte), dump_byte_text i byte))) = l.*2.
Proof.
  induction 1 as [|[i b] l Hb Hl IH]; [done|]. cbn [mbind list_bind].
  rewrite omap_app. rewrite dump_byte_nibbles by done. cbn [app pair_up fmap list_fmap snd].
  f_equal; [|apply IH]. simpl in Hb. zdiv.
Qed.

Lemma zip_index_snd (l : list Z) lo : (zip (seqZ lo (Z.of_nat (length l))) l).*2 = l.
Proof. apply snd_zip. rewrite length_seqZ. lia. Qed.

Lemma undump_dump_text val tail :
  Forall (λ b, 0 ≤ b < 256) val → omap nibble tail = [] → undump (dump_text val ++ tail) = val.
Proof.
  intros Hv Ht. unfold undump. rewrite omap_app, Ht, app_nil_r. unfold dump_text.
  rewrite undump_bytes; [apply zip_index_snd|].
  apply Forall_forall. intros [i b] Hin%elem_of_zip_r. by eapply Forall_forall in Hv.
Qed.
