(* ===== verification/Gic.v ===== *)
(** * Interrupt controller and timer (kernel/src/drv/arm_gic.rs)

    The driver's statics and the registers it programs.  What a device register or the
    counter reads back is up to the machine: reads are numbered, and [Board] says what the
    [n]-th read returns.  Writes are recorded in order.  The functions that print work on the
    console as well. *)

From S2P Require Import Prelude Memory Console.

Local Open Scope Z_scope.

(** The machine: the [n]-th device read at an address, the frequency register, and the
    [n]-th read of the system counter. *)
Class Board : Type := {
  bus : nat → Z → Z;
  cntfrq_el0 : Z;
  cntpct_el0 : nat → Z;
}.

(** Device writes: the kernel address written and the value. *)
Record gic_st : Type := mkGic {
  GICD_BASE : Z;
  GICC_BASE : Z;
  reads : nat;
  counter_reads : nat;
  writes : list (Z * Z);
  cntp_ctl_el0 : Z;
  cntp_tval_el0 : Z;
  cntkctl_el1 : Z;
}.

Definition set_bases (d c : Z) (s : gic_st) : gic_st :=
  mkGic d c (reads s) (counter_reads s) (writes s) (cntp_ctl_el0 s) (cntp_tval_el0 s) (cntkctl_el1 s).
Definition log_write (a v : Z) (s : gic_st) : gic_st :=
  mkGic (GICD_BASE s) (GICC_BASE s) (reads s) (counter_reads s) (writes s ++ [(a, v)])
    (cntp_ctl_el0 s) (cntp_tval_el0 s) (cntkctl_el1 s).
Definition count_read (s : gic_st) : gic_st :=
  mkGic (GICD_BASE s) (GICC_BASE s) (S (reads s)) (counter_reads s) (writes s)
    (cntp_ctl_el0 s) (cntp_tval_el0 s) (cntkctl_el1 s).
Definition count_counter (s : gic_st) : gic_st :=
  mkGic (GICD_BASE s) (GICC_BASE s) (reads s) (S (counter_reads s)) (writes s)
    (cntp_ctl_el0 s) (cntp_tval_el0 s) (cntkctl_el1 s).
Definition set_ctl (x : Z) (s : gic_st) : gic_st :=
  mkGic (GICD_BASE s) (GICC_BASE s) (reads s) (counter_reads s) (writes s)
    x (cntp_tval_el0 s) (cntkctl_el1 s).
Definition set_tval (x : Z) (s : gic_st) : gic_st :=
  mkGic (GICD_BASE s) (GICC_BASE s) (reads s) (counter_reads s) (writes s)
    (cntp_ctl_el0 s) x (cntkctl_el1 s).
Definition set_kctl (x : Z) (s : gic_st) : gic_st :=
  mkGic (GICD_BASE s) (GICC_BASE s) (reads s) (counter_reads s) (writes s)
    (cntp_ctl_el0 s) (cntp_tval_el0 s) x.

Definition GICD_CTLR : Z := 0x000.
Definition GICD_ISENABLER0 : Z := 0x100.
Definition GICD_IPRIORITYR0 : Z := 0x400.
Definition GICC_CTLR : Z := 0x000.
Definition GICC_PMR : Z := 0x004.
Definition GICC_IAR : Z := 0x00C.
Definition GICC_EOIR : Z := 0x010.

(** [x << k] and [!x] on [u32]. *)
Definition shl32 (x k : Z) : Z := Z.shiftl x k mod 2 ^ 32.
Definition not32 (x : Z) : Z := Z.land (Z.lnot x) (Z.ones 32).

(** The registers and the console. *)
Definition drv : Type := gic_st * uart_st.
Definition on_regs {A} (m : M gic_st A) : M drv A := λ '(g, u), '(a, g) ← m g; Ok (a, (g, u)).
#[export] Instance drv_write : FmtWrite (M drv) := λ bs '(g, u), '(_, u) ← puts bs u; Ok (tt, (g, u)).

Section ops.
Context `{Profile} `{Board}.

Definition mmio_write (base offset val : Z) : M gic_st unit :=
  addr ← lift (uadd base offset);
  modify (log_write (virt_dev_mut {| pa := addr |}) val).

Definition mmio_read (base offset : Z) : M gic_st Z :=
  addr ← lift (uadd base offset);
  n ← gets reads;
  modify count_read;;
  mret (bus n (virt_dev {| pa := addr |})).

Definition init_gic (gicd_base gicc_base timer_ppi_interrupt : Z) : M drv unit :=
  on_regs (modify (set_bases gicd_base gicc_base));;
  println [text "  drv: Initializing ARM GIC"];;
  on_regs (
    mmio_write gicd_base GICD_CTLR 0;;
    (let reg_idx := timer_ppi_interrupt / 32 in
     let interrupt_enable_reg := GICD_ISENABLER0 + reg_idx * 4 in
     let interrupt_enable_shift := timer_ppi_interrupt mod 32 in
     enable_bits ← mmio_read gicd_base interrupt_enable_reg;
     mmio_write gicd_base interrupt_enable_reg (Z.lor enable_bits (shl32 1 interrupt_enable_shift)));;
    (let reg_idx := timer_ppi_interrupt / 4 in
     let interrupt_priority_reg := GICD_IPRIORITYR0 + reg_idx * 4 in
     let interrupt_priority_shift := timer_ppi_interrupt mod 4 * 8 in
     priority ← mmio_read gicd_base interrupt_priority_reg;
     let priority := Z.land priority (not32 (shl32 0xFF interrupt_priority_shift)) in
     let priority := Z.lor priority (shl32 0xA0 interrupt_priority_shift) in
     mmio_write gicd_base interrupt_priority_reg priority);;
    mmio_write gicd_base GICD_CTLR 1;;
    modify (set_kctl 1);;
    mmio_write gicc_base GICC_PMR 0xF0;;
    mmio_write gicc_base GICC_CTLR 1).

(** The value kept for [cntp_tval_el0] is the one written; the timer itself looks at its low 32
    bits only. *)
Definition timer_set_timeout (ms : Z) : M gic_st unit :=
  gicc_base ← gets GICC_BASE;
  lift (assert (negb (gicc_base =? 0)) "GIC must be initialized before sleeping");;
  let freq := cntfrq_el0 in
  tval ← lift (umul (freq / 1000) ms);
  modify (set_tval tval);;
  modify (set_ctl 1).

Definition timer_clear : M gic_st unit := modify (set_ctl 3).

(** Division by zero panics in every profile. *)
Definition timer_get_absolute_time_ms : M gic_st Z :=
  let freq := cntfrq_el0 in
  n ← gets counter_reads;
  modify count_counter;;
  let ticks := cntpct_el0 n in
  t ← lift (umul ticks 1000);
  lift (assert (negb (freq =? 0)) "attempt to divide by zero");;
  mret (t / freq).

Definition handle_irq : M drv unit :=
  gicc_base ← on_regs (gets GICC_BASE);
  iar ← on_regs (mmio_read gicc_base GICC_IAR);
  let interrupt_id := Z.land iar 0x3FF in
  let eoi := on_regs (mmio_write gicc_base GICC_EOIR iar) in
  if interrupt_id =? 30 then
    println [text "  irq: Timer Ticked!"];;
    on_regs timer_clear;;
    eoi
  else if interrupt_id =? 1023 then mret tt
  else
    println [text "Unhandled interrupt ID: "; fmt_dec interrupt_id];;
    eoi.
End ops.

(** ** Lemmas *)

Lemma testbit_shl32 x k j :
  0 ≤ k → 0 ≤ j → Z.testbit (shl32 x k) j = (j <? 32) && Z.testbit x (j - k).
Proof.
  intros Hk Hj. unfold shl32. rewrite <- Z.land_ones by lia. rewrite Z.land_spec, Z.shiftl_spec by done.
  destruct (Z.ltb_spec j 32).
  - rewrite Z.ones_spec_low by lia. by rewrite andb_true_r.
  - rewrite Z.ones_spec_high by lia. apply andb_false_r.
Qed.

Lemma testbit_not32 x j : 0 ≤ j → Z.testbit (not32 x) j = (j <? 32) && negb (Z.testbit x j).
Proof.
  intros Hj. unfold not32. rewrite Z.land_spec, Z.lnot_spec by done. destruct (Z.ltb_spec j 32).
  - rewrite Z.ones_spec_low by lia. by rewrite andb_true_r.
  - rewrite Z.ones_spec_high by lia. apply andb_false_r.
Qed.

(** The two read-modify-write computations of [init_gic]. *)
Definition enabled (old irq : Z) : Z := Z.lor old (shl32 1 (irq mod 32)).
Definition prioritised (old irq : Z) : Z :=
  Z.lor (Z.land old (not32 (shl32 0xFF (irq mod 4 * 8)))) (shl32 0xA0 (irq mod 4 * 8)).

Lemma enabled_bits old irq j :
  0 ≤ j → Z.testbit (enabled old irq) j = (j =? irq mod 32) || Z.testbit old j.
Proof.
  intros Hj. assert (0 ≤ irq mod 32 < 32) by (apply Z.mod_pos_bound; lia).
  unfold enabled. rewrite Z.lor_spec, testbit_shl32, orb_comm by lia. f_equal.
  destruct (Z.eqb_spec j (irq mod 32)) as [->|].
  - rewrite Z.sub_diag. by rewrite (proj2 (Z.ltb_lt _ _)) by lia.
  - destruct (Z.ltb_spec j 32); [|done]. simpl.
    destruct (Z.lt_ge_cases (j - irq mod 32) 0); [by apply Z.testbit_neg_r|].
    apply (testbit_small 1 1); lia.
Qed.

Lemma prioritised_bits old irq j :
  0 ≤ j < 32 →
  Z.testbit (prioritised old irq) j =
    if j / 8 =? irq mod 4 then Z.testbit 0xA0 (j mod 8) else Z.testbit old j.
Proof.
  intros Hj. assert (0 ≤ irq mod 4 < 4) as Hk by (apply Z.mod_pos_bound; lia).
  unfold prioritised. set (k := irq mod 4) in *. clearbody k.
  rewrite Z.lor_spec, Z.land_spec, testbit_not32, !testbit_shl32 by lia.
  rewrite (proj2 (Z.ltb_lt _ _)) by lia. simpl.
  destruct (Z.eqb_spec (j / 8) k) as [E|E].
  - replace (j - k * 8) with (j mod 8) by zdiv.
    change 0xFF with (Z.ones 8). rewrite Z.ones_spec_low by (apply Z.mod_pos_bound; lia). simpl.
    by rewrite andb_false_r.
  - assert (j - k * 8 < 0 ∨ 8 ≤ j - k * 8) as [Hlt|Hge] by zdiv.
    + rewrite !(Z.testbit_neg_r _ (j - k * 8)) by done. by rewrite andb_true_r, orb_false_r.
    + rewrite (testbit_small 0xFF 8), (testbit_small 0xA0 8) by lia.
      by rewrite andb_true_r, orb_false_r.
Qed.

Lemma on_regs_ok {A} (m : M gic_st A) g u a g' :
  m g = Ok (a, g') → on_regs m (g, u) = Ok (a, (g', u)).
Proof. intros E. unfold on_regs. by rewrite E. Qed.

Lemma drv_println_run args g u :
  println args (g, u) = Ok (tt, (g, sent (mjoin args ++ [NEWLINE]) u)).
Proof.
  apply (println_out (λ bs '((g, u) : drv), (g, sent bs u))).
  - intros [? v]. by rewrite sent_nil.
  - intros a b [? v]. by rewrite sent_sent.
  - intros bs [? v]. unfold write_str, drv_write. by rewrite puts_run.
Qed.

Section lemmas.
Context `{Profile} `{Board}.

Lemma mmio_write_ok base off v s :
  0 ≤ base → 0 ≤ off → base + off < 2 ^ 39 →
  mmio_write base off v s = Ok (tt, log_write (VIRT_DEV_BASE + (base + off)) v s).
Proof.
  intros. unfold mmio_write. rewrite (lift_bind_ok _ _ _ (base + off))
    by (apply uadd_ok; unfold is_u64; lia).
  unfold modify. change virt_dev_mut with virt_dev. by rewrite virt_dev_add by lia.
Qed.

Lemma mmio_read_ok base off s :
  0 ≤ base → 0 ≤ off → base + off < 2 ^ 39 →
  mmio_read base off s = Ok (bus (reads s) (VIRT_DEV_BASE + (base + off)), count_read s).
Proof.
  intros. unfold mmio_read. rewrite (lift_bind_ok _ _ _ (base + off))
    by (apply uadd_ok; unfold is_u64; lia).
  unfold gets, modify, mbind, M_bind, mret, M_ret. by rewrite virt_dev_add by lia.
Qed.

(** A read-modify-write of one register. *)
Lemma mmio_update_ok base off f s :
  0 ≤ base → 0 ≤ off → base + off < 2 ^ 39 →
  (x ← mmio_read base off; mmio_write base off (f x)) s
    = Ok (tt, log_write (VIRT_DEV_BASE + (base + off))
                (f (bus (reads s) (VIRT_DEV_BASE + (base + off)))) (count_read s)).
Proof.
  intros. erewrite M_bind_ok by (by apply mmio_read_ok). by rewrite mmio_write_ok.
Qed.
End lemmas.

Lemma gic_ext s s' :
  GICD_BASE s = GICD_BASE s' → GICC_BASE s = GICC_BASE s' → reads s = reads s' →
  counter_reads s = counter_reads s' → writes s = writes s' → cntp_ctl_el0 s = cntp_ctl_el0 s' →
  cntp_tval_el0 s = cntp_tval_el0 s' → cntkctl_el1 s = cntkctl_el1 s' → s = s'.
Proof. destruct s, s'. simpl. congruence. Qed.

(** The driver's state after [init_gic]. *)
Definition programmed `{Board} (gicd gicc irq : Z) (s : gic_st) : gic_st :=
  let d off := VIRT_DEV_BASE + (gicd + off) in
  let c off := VIRT_DEV_BASE + (gicc + off) in
  let en := GICD_ISENABLER0 + irq / 32 * 4 in
  let pr := GICD_IPRIORITYR0 + irq / 4 * 4 in
  mkGic gicd gicc (S (S (reads s))) (counter_reads s)
    (writes s ++ [(d GICD_CTLR, 0); (d en, enabled (bus (reads s) (d en)) irq);
                  (d pr, prioritised (bus (S (reads s)) (d pr)) irq);
                  (d GICD_CTLR, 1); (c GICC_PMR, 0xF0); (c GICC_CTLR, 1)])
    (cntp_ctl_el0 s) (cntp_tval_el0 s) 1.

(** What it prints. *)
Definition GIC_MSG : list Z := text "  drv: Initializing ARM GIC" ++ [NEWLINE].

Lemma init_gic_run `{Profile} `{Board} gicd gicc irq s u :
  0 ≤ gicd < 2 ^ 38 → 0 ≤ gicc < 2 ^ 38 → 0 ≤ irq < 2 ^ 32 →
  init_gic gicd gicc irq (s, u) = Ok (tt, (programmed gicd gicc irq s, sent GIC_MSG u)).
Proof.
  intros Hd Hc Hi. set (en := GICD_ISENABLER0 + irq / 32 * 4). set (pr := GICD_IPRIORITYR0 + irq / 4 * 4).
  assert (0 ≤ en ∧ en < 2 ^ 38) as [Hen1 Hen2] by (unfold en, GICD_ISENABLER0; zdiv).
  assert (0 ≤ pr ∧ pr < 2 ^ 38) as [Hpr1 Hpr2] by (unfold pr, GICD_IPRIORITYR0; zdiv).
  unfold init_gic. rewrite (M_bind_ok _ _ _ tt (set_bases gicd gicc s, u)) by done.
  erewrite M_bind_ok by apply drv_println_run. apply on_regs_ok.
  erewrite M_bind_ok by (apply mmio_write_ok; unfold GICD_CTLR; lia).
  erewrite M_bind_ok by (apply (mmio_update_ok gicd en (λ x, enabled x irq)); lia).
  erewrite M_bind_ok by (apply (mmio_update_ok gicd pr (λ x, prioritised x irq)); lia).
  erewrite M_bind_ok by (apply mmio_write_ok; unfold GICD_CTLR; lia).
  erewrite M_bind_ok by done.
  erewrite M_bind_ok by (apply mmio_write_ok; unfold GICC_PMR; lia).
  rewrite mmio_write_ok by (unfold GICC_CTLR; lia). do 2 f_equal. apply gic_ext; try reflexivity.
  cbn [writes log_write set_kctl count_read set_bases]. rewrite <- !app_assoc. reflexivity.
Qed.

(** ** Properties *)

(** A board whose registers read as all ones, with a 1 MHz counter that advances by one
    millisecond per read. *)
Definition sample_board : Board :=
  {| bus := λ _ _, 0xffffffff; cntfrq_el0 := 1000000; cntpct_el0 := λ n, 1000 * Z.of_nat n |}.

Definition gic_reset : gic_st := mkGic 0 0 0 0 [] 0 0 0.
Definition sample_uart : uart_st := {| UART0_ADDR := UART0_INIT; stores := [] |}.

(** C39. [init_gic] succeeds for any interrupt number and register blocks inside the device
    window, prints one line, and performs exactly these writes: the distributor is off while it is configured;
    the enable register of the interrupt gets that interrupt's bit and keeps the others; the
    priority register gets [0xA0] in that interrupt's byte and keeps the others; then the
    distributor, the priority mask and the CPU interface are switched on. *)
Theorem init_gic_programs `{Profile} `{Board} (gicd gicc irq : Z) (s : gic_st) (u : uart_st) :
  0 ≤ gicd < 2 ^ 38 → 0 ≤ gicc < 2 ^ 38 → 0 ≤ irq < 2 ^ 32 →
  let d off := VIRT_DEV_BASE + (gicd + off) in
  let c off := VIRT_DEV_BASE + (gicc + off) in
  let en := GICD_ISENABLER0 + irq / 32 * 4 in
  let pr := GICD_IPRIORITYR0 + irq / 4 * 4 in
  let old_en := bus (reads s) (d en) in
  let old_pr := bus (S (reads s)) (d pr) in
  ∃ s', init_gic gicd gicc irq (s, u)
      = Ok (tt, (s', sent (text "  drv: Initializing ARM GIC" ++ [NEWLINE]) u))
    ∧ GICD_BASE s' = gicd ∧ GICC_BASE s' = gicc ∧ cntkctl_el1 s' = 1
    ∧ writes s' = writes s ++
        [(d GICD_CTLR, 0); (d en, enabled old_en irq); (d pr, prioritised old_pr irq);
         (d GICD_CTLR, 1); (c GICC_PMR, 0xF0); (c GICC_CTLR, 1)]
    ∧ (∀ j, 0 ≤ j < 32 → Z.testbit (enabled old_en irq) j = (j =? irq mod 32) || Z.testbit old_en j)
    ∧ (∀ j, 0 ≤ j < 32 → Z.testbit (prioritised old_pr irq) j =
         if j / 8 =? irq mod 4 then Z.testbit 0xA0 (j mod 8) else Z.testbit old_pr j).
Proof.
  intros Hd Hc Hi d c en pr old_en old_pr. exists (programmed gicd gicc irq s).
  split; [by apply init_gic_run|]. split_and!; [done..| |].
  - intros j Hj. apply enabled_bits. lia.
  - intros j Hj. by apply prioritised_bits.
Qed.

Lemma init_gic_programs_witness :
  ∃ s', init_gic (H := dev) (H0 := sample_board) 0x8000000 0x8010000 30 (gic_reset, sample_uart)
      = Ok (tt, (s', sent (text "  drv: Initializing ARM GIC" ++ [NEWLINE]) sample_uart))
    ∧ length (writes s') = 6%nat ∧ GICC_BASE s' = 0x8010000.
Proof.
  destruct (init_gic_programs (H := dev) (H0 := sample_board) 0x8000000 0x8010000 30 gic_reset sample_uart
    ltac:(lia) ltac:(lia) ltac:(lia)) as (s' & Hs & _ & Hc & _ & Hw & _).
  exists s'. split; [exact Hs|]. split; [rewrite Hw; reflexivity|exact Hc].
Defined.

(** C33. [handle_irq] reads the acknowledge register once.  A spurious interrupt (1023) changes
    nothing else; any other one is ended by writing back the acknowledged value, CPU bits
    included, exactly once, and the timer is masked if and only if the interrupt is 30.  The
    timer and unknown interrupts are reported on the console. *)
Theorem handle_irq_ends `{Profile} `{Board} (s : gic_st) (u : uart_st) :
  0 ≤ GICC_BASE s < 2 ^ 38 →
  let iar := bus (reads s) (VIRT_DEV_BASE + (GICC_BASE s + GICC_IAR)) in
  let id := iar mod 1024 in
  let eoi := (VIRT_DEV_BASE + (GICC_BASE s + GICC_EOIR), iar) in
  let msg := if id =? 30 then text "  irq: Timer Ticked!" ++ [NEWLINE]
             else if id =? 1023 then []
             else text "Unhandled interrupt ID: " ++ fmt_dec id ++ [NEWLINE] in
  ∃ s', handle_irq (s, u) = Ok (tt, (s', sent msg u)) ∧ reads s' = S (reads s)
    ∧ writes s' = (if id =? 1023 then writes s else writes s ++ [eoi])
    ∧ cntp_ctl_el0 s' = (if id =? 30 then 3 else cntp_ctl_el0 s)
    ∧ GICD_BASE s' = GICD_BASE s ∧ GICC_BASE s' = GICC_BASE s ∧ cntp_tval_el0 s' = cntp_tval_el0 s.
Proof.
  intros Hb iar id eoi msg. unfold handle_irq. rewrite (M_bind_ok _ _ _ (GICC_BASE s) (s, u)) by done.
  rewrite (M_bind_ok _ _ _ iar (count_read s, u)) by (apply on_regs_ok; rewrite mmio_read_ok by (unfold GICC_IAR; lia); done).
  replace (Z.land iar 0x3FF) with id by (change 0x3FF with (Z.ones 10); by rewrite Z.land_ones by lia).
  unfold msg. clear msg. destruct (Z.eqb_spec id 30) as [E|E].
  - rewrite E. exists (log_write eoi.1 eoi.2 (set_ctl 3 (count_read s))). split; [|by split_and!].
    erewrite M_bind_ok by apply drv_println_run. erewrite M_bind_ok by done.
    apply on_regs_ok. by rewrite mmio_write_ok by (unfold GICC_EOIR; lia).
  - destruct (Z.eqb_spec id 1023) as [E'|E'].
    + exists (count_read s). rewrite sent_nil. by split_and!.
    + exists (log_write eoi.1 eoi.2 (count_read s)). split; [|by split_and!].
      erewrite M_bind_ok by apply drv_println_run.
      cbn [mjoin list_join]. rewrite app_nil_r, <- app_assoc.
      apply on_regs_ok. by rewrite mmio_write_ok by (unfold GICC_EOIR; lia).
Qed.

Lemma handle_irq_ends_witness :
  ∃ s', handle_irq (H := dev) (H0 := sample_board) (gic_reset, sample_uart)
    = Ok (tt, (s', sent [] sample_uart)) ∧ writes s' = [].
Proof.
  destruct (handle_irq_ends (H := dev) (H0 := sample_board) gic_reset sample_uart ltac:(simpl; lia))
    as (s' & Hs & _ & Hw & _).
  exists s'. split; [exact Hs|]. rewrite Hw. reflexivity.
Defined.

(** The timer: on a board with a non-zero frequency and a counter below [2^64 / 1000] the
    clock reads the whole milliseconds of the counter; a timeout writes [freq / 1000] ticks
    per millisecond and enables the timer.  Setting a timeout before the controller is known
    panics, and so does reading the clock of a board without a frequency. *)
Lemma timer_arithmetic `{Profile} `{Board} (s : gic_st) (ms : Z) :
  0 ≤ cntfrq_el0 → 0 ≤ cntpct_el0 (counter_reads s) → cntpct_el0 (counter_reads s) * 1000 < 2 ^ 64 →
  0 ≤ ms → cntfrq_el0 / 1000 * ms < 2 ^ 64 →
  (timer_get_absolute_time_ms s =
     if cntfrq_el0 =? 0 then Fault (PanicMsg "attempt to divide by zero")
     else Ok (cntpct_el0 (counter_reads s) * 1000 / cntfrq_el0, count_counter s))
  ∧ (timer_set_timeout ms s =
       if GICC_BASE s =? 0 then Fault (PanicMsg "GIC must be initialized before sleeping")
       else Ok (tt, set_ctl 1 (set_tval (cntfrq_el0 / 1000 * ms) s))).
Proof.
  intros Hf Hc Hc' Hm Hm'. assert (0 ≤ cntfrq_el0 / 1000) as Hq by (apply Z.div_pos; lia). split.
  - unfold timer_get_absolute_time_ms. rewrite (M_bind_ok _ _ s (counter_reads s) s) by done.
    erewrite M_bind_ok by done. rewrite (lift_bind_ok _ _ _ (cntpct_el0 (counter_reads s) * 1000)) by (apply umul_ok; unfold is_u64; lia).
    by destruct (cntfrq_el0 =? 0).
  - unfold timer_set_timeout. rewrite (M_bind_ok _ _ s (GICC_BASE s) s) by done.
    destruct (GICC_BASE s =? 0); [done|]. rewrite (lift_bind_ok _ _ _ tt) by done.
    rewrite (lift_bind_ok _ _ _ (cntfrq_el0 / 1000 * ms)) by (apply umul_ok; unfold is_u64; nia). done.
Qed.

Lemma timer_arithmetic_witness :
  timer_get_absolute_time_ms (H := dev) (H0 := sample_board) (set_bases 1 2 gic_reset)
    = Ok (0, count_counter (set_bases 1 2 gic_reset))
  ∧ timer_set_timeout (H := dev) (H0 := sample_board) 5 (set_bases 1 2 gic_reset)
    = Ok (tt, set_ctl 1 (set_tval 5000 (set_bases 1 2 gic_reset))).
Proof.
  destruct (timer_arithmetic (H := dev) (H0 := sample_board) (set_bases 1 2 gic_reset) 5) as [H1 H2].
  - vm_compute. discriminate.
  - vm_compute. discriminate.
  - vm_compute. reflexivity.
  - lia.
  - vm_compute. reflexivity.
  - split; [rewrite H1; reflexivity|rewrite H2; reflexivity].
Defined.
