(* ===== verification/Machine.v ===== *)
(** * The whole machine (kernel/src/aarch64, kernel/src/drv)

    The state of the kernel as one record: memory and allocator, the interrupt controller's
    driver, the UART, the system registers and the first thread; and how the operations of
    each component run on it. *)

From S2P Require Import Prelude Interrupts Memory.
From S2P Require Import Kernel.
From S2P Require Gic Console.
Import Gic (gic_st).
Import Console (uart_st, FmtWrite).

Local Open Scope Z_scope.

(** ** System registers *)

(** The fields of the registers the kernel writes, by the names it uses; a [write] leaves the
    fields it does not name zero. *)
Inductive mem_attr : Type :=
| WriteBack_NonTransient_ReadWriteAlloc
| nonGathering_nonReordering_noEarlyWriteAck.

Record mair : Type := mkMair {
  Attr0_Normal_Outer : mem_attr;
  Attr0_Normal_Inner : mem_attr;
  Attr1_Device : mem_attr;
}.

Inductive granule : Type := KiB_4.
Inductive shareability : Type := Inner.
Inductive cacheability : Type := WriteBack_ReadAlloc_WriteAlloc_Cacheable.

Record tcr : Type := mkTcr {
  TG0 : granule; TG1 : granule;
  T0SZ : Z; T1SZ : Z;
  SH0 : shareability; SH1 : shareability;
  ORGN0 : cacheability; ORGN1 : cacheability;
}.

(** A translation table base register: bits 47 to 1, and bit 0. *)
Record ttbr : Type := mkTtbr { BADDR : Z; CnP : bool }.

(** The table a base register points to, for a table aligned to a page. *)
Definition table_base (t : ttbr) : Z := Z.shiftl (BADDR t) 1.

(** [set_baddr(addr)] and [set(0)]. *)
Definition set_baddr (addr : Z) : ttbr := {| BADDR := Z.shiftr addr 1; CnP := false |}.
Definition ttbr_zero : ttbr := {| BADDR := 0; CnP := false |}.

(** Bits of [SCTLR_EL1]: MMU, data cache, instruction cache. *)
Definition SCTLR_M : Z := 1.
Definition SCTLR_C : Z := Z.shiftl 1 2.
Definition SCTLR_I : Z := Z.shiftl 1 12.

Record cpu_st : Type := mkCpu {
  CurrentEL : Z;
  MAIR_EL1 : option mair;
  TCR_EL1 : option tcr;
  TTBR0_EL1 : ttbr;
  TTBR1_EL1 : ttbr;
  SCTLR_EL1 : Z;
  VBAR_EL1 : Z;
  sp_el1 : Z;
  ELR_EL1 : Z;
  SP_EL0 : Z;
  SPSR_EL1 : Z;
}.

Definition set_translation (a : mair) (t : tcr) (r0 r1 : ttbr) (c : cpu_st) : cpu_st :=
  mkCpu (CurrentEL c) (Some a) (Some t) r0 r1 (SCTLR_EL1 c) (VBAR_EL1 c) (sp_el1 c)
    (ELR_EL1 c) (SP_EL0 c) (SPSR_EL1 c).
Definition set_sctlr (x : Z) (c : cpu_st) : cpu_st :=
  mkCpu (CurrentEL c) (MAIR_EL1 c) (TCR_EL1 c) (TTBR0_EL1 c) (TTBR1_EL1 c) x (VBAR_EL1 c)
    (sp_el1 c) (ELR_EL1 c) (SP_EL0 c) (SPSR_EL1 c).
Definition set_vbar_sp (v s : Z) (c : cpu_st) : cpu_st :=
  mkCpu (CurrentEL c) (MAIR_EL1 c) (TCR_EL1 c) (TTBR0_EL1 c) (TTBR1_EL1 c) (SCTLR_EL1 c) v s
    (ELR_EL1 c) (SP_EL0 c) (SPSR_EL1 c).
Definition set_ttbr0 (t : ttbr) (c : cpu_st) : cpu_st :=
  mkCpu (CurrentEL c) (MAIR_EL1 c) (TCR_EL1 c) t (TTBR1_EL1 c) (SCTLR_EL1 c) (VBAR_EL1 c)
    (sp_el1 c) (ELR_EL1 c) (SP_EL0 c) (SPSR_EL1 c).
Definition set_return (elr sp0 spsr : Z) (c : cpu_st) : cpu_st :=
  mkCpu (CurrentEL c) (MAIR_EL1 c) (TCR_EL1 c) (TTBR0_EL1 c) (TTBR1_EL1 c) (SCTLR_EL1 c)
    (VBAR_EL1 c) (sp_el1 c) elr sp0 spsr.

(** ** The state *)

(** [INIT_THREAD] is the kernel address of the boxed thread once it is initialised. *)
Record sys : Type := mkSys {
  kern : kst;
  gic : gic_st;
  uart : uart_st;
  cpu : cpu_st;
  INIT_THREAD : option Z;
}.

Definition set_kern (k : kst) (s : sys) : sys := mkSys k (gic s) (uart s) (cpu s) (INIT_THREAD s).
Definition set_gic (g : gic_st) (s : sys) : sys := mkSys (kern s) g (uart s) (cpu s) (INIT_THREAD s).
Definition set_uart (u : uart_st) (s : sys) : sys := mkSys (kern s) (gic s) u (cpu s) (INIT_THREAD s).
Definition set_cpu (c : cpu_st) (s : sys) : sys := mkSys (kern s) (gic s) (uart s) c (INIT_THREAD s).
Definition set_thread (t : Z) (s : sys) : sys := mkSys (kern s) (gic s) (uart s) (cpu s) (Some t).

(** ** Operations of the components *)

Definition on_kern {A} (m : M kst A) : M sys A := λ s, '(a, k) ← m (kern s); Ok (a, set_kern k s).
Definition on_gic {A} (m : M gic_st A) : M sys A := λ s, '(a, g) ← m (gic s); Ok (a, set_gic g s).
(** A driver call that also prints. *)
Definition on_drv {A} (m : M Gic.drv A) : M sys A := λ s,
  '(a, d) ← m (gic s, uart s); Ok (a, set_uart d.2 (set_gic d.1 s)).
Definition on_uart {A} (m : M uart_st A) : M sys A := λ s, '(a, u) ← m (uart s); Ok (a, set_uart u s).
Definition on_cpu (f : cpu_st → cpu_st) : M sys unit := modify (λ s, set_cpu (f (cpu s)) s).

(** The kernel's [print!] and [println!]. *)
#[export] Instance sys_write : FmtWrite (M sys) := λ bs, on_uart (Console.puts bs).

(** The machine after the kernel has printed [bs]. *)
Definition printed (bs : list Z) (s : sys) : sys := set_uart (Console.sent bs (uart s)) s.

(** ** Running them *)

Lemma on_kern_run {A} (m : M kst A) s :
  on_kern m s = match m (kern s) with Ok (a, k) => Ok (a, set_kern k s) | Fault f => Fault f end.
Proof. unfold on_kern. by destruct (m (kern s)) as [[a k]|f]. Qed.

Lemma on_gic_run {A} (m : M gic_st A) s :
  on_gic m s = match m (gic s) with Ok (a, g) => Ok (a, set_gic g s) | Fault f => Fault f end.
Proof. unfold on_gic. by destruct (m (gic s)) as [[a k]|f]. Qed.

Lemma on_kern_ok {A} (m : M kst A) s a k :
  m (kern s) = Ok (a, k) → on_kern m s = Ok (a, set_kern k s).
Proof. intros E. by rewrite on_kern_run, E. Qed.

Lemma on_gic_ok {A} (m : M gic_st A) s a g :
  m (gic s) = Ok (a, g) → on_gic m s = Ok (a, set_gic g s).
Proof. intros E. by rewrite on_gic_run, E. Qed.

Lemma on_drv_run {A} (m : M Gic.drv A) s :
  on_drv m s = match m (gic s, uart s) with
               | Ok (a, d) => Ok (a, set_uart d.2 (set_gic d.1 s))
               | Fault f => Fault f
               end.
Proof. unfold on_drv. by destruct (m _) as [[a d]|f]. Qed.

Lemma on_drv_ok {A} (m : M Gic.drv A) s a g u :
  m (gic s, uart s) = Ok (a, (g, u)) → on_drv m s = Ok (a, set_uart u (set_gic g s)).
Proof. intros E. by rewrite on_drv_run, E. Qed.

Lemma printed_nil s : printed [] s = s.
Proof. destruct s. unfold printed. by rewrite Console.sent_nil. Qed.

Lemma printed_printed a b s : printed b (printed a s) = printed (a ++ b) s.
Proof. unfold printed. simpl. by rewrite Console.sent_sent. Qed.

Lemma sys_puts_run bs s : on_uart (Console.puts bs) s = Ok (tt, printed bs s).
Proof. unfold on_uart. rewrite Console.puts_run. done. Qed.

Lemma sys_print_run args s : Console.print args s = Ok (tt, printed (mjoin args) s).
Proof. apply (Console.print_out printed printed_nil printed_printed sys_puts_run). Qed.

Lemma sys_println_run args s : Console.println args s = Ok (tt, printed (mjoin args ++ [Console.NEWLINE]) s).
Proof. apply (Console.println_out printed printed_nil printed_printed sys_puts_run). Qed.
