(* ===== verification/Usermode.v ===== *)
(** * Threads and system calls (kernel/src/aarch64/usermode.rs, exceptions.rs)

    The handler of every system call, whole, over the kernel's state, the interrupt
    controller and the console; the construction of the first thread; user memory as the
    unprivileged load instructions see it. *)

From S2P Require Import Prelude Interrupts Memory.
From S2P Require PageAlloc.
From S2P Require Import Kernel PageTable KernelTables PageTree Translation KernelApi.
From S2P Require Gic.
From S2P Require Import Console Machine.
Import Gic (gic_st, Board).
Import PageAlloc (PageSlice, buf, len).

Local Open Scope Z_scope.

(** ** Saved registers *)

(** The registers saved on an exception. *)
Record ExceptionContext : Type := mkContext {
  gpr : list Z;
  lr : Z;
  pc : Z;
  spsr : Z;
  sp : Z;
}.

(** ** Threads *)

(** Where the compiler puts the fields of [Thread], which has no [repr]. *)
Class ThreadLayout : Type := {
  off_page_table : Z;
  off_stack : Z;
  off_pc : Z;
  off_sp : Z;
  off_spsr : Z;
  size_of_Thread : Z;
}.

Definition DEFAULT_PC : Z := 0x10000000.
Definition DEFAULT_SP : Z := 0x8000000.
Definition DEFAULT_STACK_SIZE : Z := 0x4000.
Definition STACK_BYTES : Z := 8 * 1024.

(** [INIT_THREAD] before [init]. *)
Definition global_thread_uninit : option Z := None.

(** [INIT_THREAD.as_ref()] and [as_mut()]: the thread, which must have been initialised. *)
Definition as_ref : M sys Z := λ s,
  match INIT_THREAD s with Some t => Ok (t, s) | None => Fault UndefinedBehaviour end.
Definition as_mut : M sys Z := λ s,
  match INIT_THREAD s with Some t => Ok (t, s) | None => Fault UndefinedBehaviour end.

(** ** User memory *)

(** The byte at a physical address. *)
Definition read_byte (m : pmem) (p : Z) : res Z :=
  w ← read_word m (p - p mod 8);
  Ok (Z.shiftr w (8 * (p mod 8)) mod 256).

(** [ldtrb]: a load with the permissions of EL0, through the tables at [ttbr] for addresses
    of the lower half; the upper half has no mapping EL0 may use. *)
Definition ldtrb (m : pmem) (ttbr va : Z) : res Z :=
  if va <? 2 ^ 48 then
    match walk m ttbr va with
    | Some (p, e) => if Z.testbit e 6 then read_byte m p else Fault DataAbort
    | None => Fault DataAbort
    end
  else Fault DataAbort.

(** Storing one byte. *)
Definition write_byte (m : pmem) (p b : Z) : res pmem :=
  let sh := 8 * (p mod 8) in
  w ← read_word m (p - p mod 8);
  write_word m (p - p mod 8) (Z.lor (Z.ldiff w (Z.shiftl 0xff sh)) (Z.shiftl b sh)).

Section ops.
Context `{Profile} `{Linked} `{ThreadLayout} `{Board} `{TableAlloc}.
Context `{!TryFromPrimitive syscall_num} `{!BitFlags PhyMapFlags} `{!BitFlags MemMapFlags}.

(** [&mut thread.page_table]. *)
Definition page_table (thread : Z) : Z := thread + off_page_table.

(** The bytes [copy_from_user] puts into [target], whose length is [target_len]. *)
Fixpoint copy_bytes (m : pmem) (ttbr user_pointer : Z) (idxs : list Z) : res (list Z) :=
  match idxs with
  | [] => Ok []
  | i :: idxs =>
      va ← uadd user_pointer i;
      b ← ldtrb m ttbr va;
      bs ← copy_bytes m ttbr user_pointer idxs;
      Ok (b :: bs)
  end.

Definition copy_from_user (user_pointer user_len target_len : Z) : M sys (list Z) :=
  lift (assert (user_len =? target_len) "assertion failed: user_len == target.len()");;
  s ← gets id;
  lift (copy_bytes (phys (kern s)) (table_base (TTBR0_EL1 (cpu s))) user_pointer (seqZ 0 user_len)).

(** ** The handler *)

Definition reg (e : ExceptionContext) (i : nat) : Z := nth i (gpr e) 0.
Definition set_x0 (x : Z) (e : ExceptionContext) : ExceptionContext :=
  {| gpr := <[0%nat := x]> (gpr e); lr := lr e; pc := pc e; spsr := spsr e; sp := sp e |}.

Definition sys_log (e : ExceptionContext) : M sys ExceptionContext :=
  let ptr := reg e 0 in
  let len := Z.min (reg e 1) 256 in
  buf ← copy_from_user ptr len len;
  on_uart (puts buf);;
  mret e.

Definition sys_phy_map (e : ExceptionContext) : M sys ExceptionContext :=
  let phy_addr := reg e 0 in
  let len := reg e 1 in
  let flags := from_bits_truncate (all := PhyMapFlags) (reg e 2) in
  thread ← as_mut;
  let page_flags := PT_ISH in
  let page_flags := if contains (all := PhyMapFlags) flags PhyMap_ReadWrite
                    then Z.lor page_flags PT_RW_EL0 else Z.lor page_flags PT_RO_EL0 in
  let page_flags := if contains (all := PhyMapFlags) flags PhyMap_DeviceMem
                    then Z.lor page_flags PT_DEV else Z.lor page_flags PT_MEM in
  v ← on_kern (vmap (page_table thread) {| pa := phy_addr |} len page_flags);
  mret (set_x0 v e).

Definition sys_mem_map (e : ExceptionContext) : M sys ExceptionContext :=
  let len := reg e 0 in
  let flags := from_bits_truncate (all := MemMapFlags) (reg e 1) in
  thread ← as_mut;
  let page_flags := Z.lor PT_ISH PT_MEM in
  let page_flags := if contains (all := MemMapFlags) flags MemMap_ReadWrite
                    then Z.lor page_flags PT_RW_EL0 else Z.lor page_flags PT_RO_EL0 in
  page_slice ← on_kern (alloc (div_ceil len PAGE_SIZE));
  let phy_addr := from_virt (buf page_slice) in
  v ← on_kern (vmap (page_table thread) phy_addr len page_flags);
  mret (set_x0 v e).

Definition sys_mem_unmap (e : ExceptionContext) : M sys ExceptionContext :=
  let virt_addr := reg e 0 in
  let len := reg e 1 in
  thread ← as_mut;
  on_kern (vunmap (page_table thread) virt_addr len);;
  mret (set_x0 0 e).

Definition sys_download_more_ram (e : ExceptionContext) : M sys ExceptionContext :=
  let phy_addr := reg e 0 in
  let len := reg e 1 in
  on_kern (add_memory_node {| pa := phy_addr |} len);;
  mret e.

(** [Debug for PhyAddr], for [PhySlice], whose end may overflow, and for [PageTable]. *)
Definition fmt_phy_addr (self : PhyAddr) : list Z := text "0p" ++ fmt_hex (pa self).
Definition fmt_phy_slice (self : PhySlice) : res (list Z) :=
  last ← uadd (pa (base self)) (slice_len self);
  Ok (mjoin [text "0p"; fmt_hex (pa (base self)); text "..0p"; fmt_hex last]).
Definition fmt_page_table (self : Z) : list Z := text "PageTable@" ++ text "0x" ++ fmt_hex self.

(** [#[derive(Debug)]] of the device record, for [{:?}]. *)
Definition fmt_debug (g : GicAndTimer) : list Z :=
  mjoin [text "GicAndTimer { gicd_base: "; fmt_dec (gicd_base g);
         text ", gicc_base: "; fmt_dec (gicc_base g);
         text ", timer_ppi_interrupt: "; fmt_dec (timer_ppi_interrupt g);
         text ", _padding: "; fmt_dec (_padding g); text " }"].

Definition sys_load_kernel_device (e : ExceptionContext) : M sys ExceptionContext :=
  let ptr := reg e 0 in
  let len := reg e 1 in
  let dev_id := reg e 2 in
  if dev_id =? GicAndTimer_ID then
    lift (assert (len =? size_of_GicAndTimer) "Invalid length for GicAndTimer");;
    bytes ← copy_from_user ptr len size_of_GicAndTimer;
    let gic_and_timer := gic_of_bytes bytes in
    println [text " user: LoadKernelDevice: "; fmt_debug gic_and_timer];;
    on_gic Gic.timer_clear;;
    on_drv (Gic.init_gic (gicd_base gic_and_timer) (gicc_base gic_and_timer)
              (timer_ppi_interrupt gic_and_timer));;
    mret (set_x0 0 e)
  else mret (set_x0 (kerror_into_u64 InvalidArgument) e).

(** One round of the loop of [SleepSec]: the flag tells that it has broken out. *)
Definition sleep_round (deadline : Z) '((g, _) : gic_st * bool) : res (gic_st * bool) :=
  '(now, g) ← Gic.timer_get_absolute_time_ms g;
  let sleep_left := Z.max 0 (deadline - now) in
  if sleep_left =? 0 then Ok (g, true)
  else '(_, g) ← Gic.timer_set_timeout sleep_left g; Ok (g, false).

Definition sleep_until (deadline : Z) : M gic_st unit := λ g,
  '(g, _) ← while (λ '(_, fin), negb (fin : bool)) (sleep_round deadline) (g, false);
  Ok (tt, g).

Definition sys_sleep_sec (e : ExceptionContext) : M sys ExceptionContext :=
  let sec := reg e 0 in
  now ← on_gic Gic.timer_get_absolute_time_ms;
  ms ← lift (umul sec 1000);
  deadline ← lift (uadd now ms);
  println [text " user: Sleeping for "; fmt_dec sec; text " seconds"];;
  on_gic (sleep_until deadline);;
  mret (set_x0 0 e).

Definition handle_syscall (e : ExceptionContext) : M sys ExceptionContext :=
  match try_from (discriminant := syscall_num) (reg e 8 mod 2 ^ 32) with
  | None =>
      println [text "Unknown syscall: "; fmt_dec (reg e 8)];;
      mret (set_x0 (2 ^ 64 - 1) e)
  | Some Exit => lift (Fault (PanicMsg "not yet implemented: Syscall::Exit not implemented"))
  | Some Log => sys_log e
  | Some PhyMap => sys_phy_map e
  | Some MemMap => sys_mem_map e
  | Some MemUnmap => sys_mem_unmap e
  | Some DownloadMoreRam => sys_download_more_ram e
  | Some LoadKernelDevice => sys_load_kernel_device e
  | Some SleepSec => sys_sleep_sec e
  end.

(** ** The first thread *)

(** [Thread::init] on the thread at kernel address [self]. *)
Definition thread_init (self : Z) : M kst unit :=
  on_mem (λ m, write_bytes m self 0 (size_of_Thread / 8));;
  on_mem (λ m, write_word m (pa (from_virt (self + off_pc))) DEFAULT_PC);;
  on_mem (λ m, write_word m (pa (from_virt (self + off_sp))) DEFAULT_SP);;
  on_mem (λ m, write_word m (pa (from_virt (self + off_spsr))) 0x140).

(** [GlobalThread::init]. *)
Definition global_thread_init : M sys unit :=
  thread ← on_kern (box_new_zeroed size_of_Thread);
  let self := buf (slice thread) in
  on_kern (thread_init self);;
  modify (set_thread self).

Definition PAGE_FLAGS : Z := Z.lor (Z.lor PT_RW_EL0 PT_ISH) PT_MEM.

(** [dst.copy_from_slice(src)] for the bytes at a kernel address. *)
Definition copy_bytes_to (dst : Z) (src : list Z) : M kst unit :=
  on_mem (λ m, fold_each (zip (seqZ 0 (Z.of_nat (length src))) src)
                 (λ '(i, b) m, write_byte m (pa (from_virt (dst + i))) b) m).

(** [Thread::enter], up to its [eret]. *)
Definition enter (self : Z) : M sys unit :=
  let field off := pa (from_virt (self + off)) in
  on_cpu (set_ttbr0 (set_baddr (pa (from_virt (page_table self)))));;
  k ← gets kern;
  spsr ← lift (read_word (phys k) (field off_spsr));
  sp ← lift (read_word (phys k) (field off_sp));
  pc ← lift (read_word (phys k) (field off_pc));
  on_cpu (set_return pc sp spsr);;
  on_kern tlb_flush.

(** The two mapping loops of [start]. *)
Definition map_code (thread code_base pages : Z) : M kst unit :=
  each_offset (offsets (PAGE_SIZE * pages)) (λ off,
    va ← lift (uadd DEFAULT_PC off);
    vmap_at (page_table thread) va (from_virt (code_base + off)) PAGE_FLAGS).

Definition map_stack (thread : Z) : M kst unit :=
  each_offset (offsets DEFAULT_STACK_SIZE) (λ stack_page,
    let phy_addr := from_virt (thread + off_stack + stack_page) in
    vmap_at (page_table thread) (DEFAULT_SP - DEFAULT_STACK_SIZE + stack_page) phy_addr PAGE_FLAGS).

(** [start]; [INIT_BIN] is the embedded program. *)
Definition start (INIT_BIN : list Z) : M sys unit :=
  println [text " user: Starting usermode"];;
  let pages := div_ceil (Z.of_nat (length INIT_BIN)) PAGE_SIZE in
  code_slice ← on_kern (critical (
    slice ← on_alloc_mem (λ m al, PageAlloc.alloc_zeroed m al pages);
    lift (expect slice "OOM")));
  on_kern (copy_bytes_to (buf code_slice) INIT_BIN);;
  global_thread_init;;
  thread ← as_mut;
  on_kern (map_code thread (buf code_slice) pages);;
  on_kern (map_stack thread);;
  enter thread.
End ops.
