(* ===== verification/UserMemory.v ===== *)
(** * Bytes of memory (kernel/src/aarch64/usermode.rs)

    Reading and writing single bytes, and copying the init program to its pages. *)

From S2P Require Import Prelude Interrupts Memory.
From S2P Require PageAlloc.
From S2P Require Import Kernel.
From S2P Require KernelSpec.
From S2P Require Import Usermode.

Local Open Scope Z_scope.

(** Replacing byte [i] of a word leaves the other bytes alone. *)
Lemma byte_update w b i j :
  0 ≤ i < 8 → 0 ≤ j < 8 → 0 ≤ b < 256 →
  Z.shiftr (Z.lor (Z.ldiff w (Z.shiftl 0xff (8 * i))) (Z.shiftl b (8 * i))) (8 * j) mod 256
    = if j =? i then b else Z.shiftr w (8 * j) mod 256.
Proof.
  intros Hi Hj Hb. change 256 with (2 ^ 8) in *. apply Z.bits_inj'. intros k Hk.
  destruct (Z.lt_ge_cases k 8) as [Hlt|Hge]; last first.
  { rewrite Z.mod_pow2_bits_high by lia. destruct (j =? i).
    - symmetry. by apply (testbit_small b 8).
    - by rewrite Z.mod_pow2_bits_high by lia. }
  rewrite Z.mod_pow2_bits_low, Z.shiftr_spec by lia.
  rewrite Z.lor_spec, Z.ldiff_spec, !Z.shiftl_spec by lia.
  destruct (Z.eqb_spec j i) as [->|Hne].
  - replace (k + 8 * i - 8 * i) with k by lia. change 0xff with (Z.ones 8).
    rewrite Z.ones_spec_low by lia. by rewrite andb_false_r.
  - rewrite Z.mod_pow2_bits_low, Z.shiftr_spec by lia.
    assert (k + 8 * j - 8 * i < 0 ∨ 8 ≤ k + 8 * j - 8 * i) as [Hn|Hn] by lia.
    + rewrite !(Z.testbit_neg_r _ (k + 8 * j - 8 * i)) by lia. by rewrite andb_true_r, orb_false_r.
    + rewrite (testbit_small 0xff 8), (testbit_small b 8) by lia. by rewrite andb_true_r, orb_false_r.
Qed.

(** A byte is read from its frame. *)
Lemma read_byte_frame m m' q :
  m !! (q / PAGE_SIZE) = m' !! (q / PAGE_SIZE) → read_byte m q = read_byte m' q.
Proof.
  intros E. unfold read_byte, read_word.
  replace ((q - q mod 8) / PAGE_SIZE) with (q / PAGE_SIZE) by (unfold PAGE_SIZE; zdiv). by rewrite E.
Qed.

Lemma read_byte_word m q w :
  read_word m (8 * (q / 8)) = Ok w → read_byte m q = Ok (Z.shiftr w (8 * (q mod 8)) mod 256).
Proof.
  intros E. unfold read_byte. replace (q - q mod 8) with (8 * (q / 8)) by zdiv. by rewrite E.
Qed.

(** Storing a byte. *)
Record stored (m m' : pmem) (p : Z) (b : Z) : Prop := {
  st_byte : ∀ q, 0 ≤ q → frame_ok m (q / PAGE_SIZE) →
    read_byte m' q = if q =? p then Ok b else read_byte m q;
  st_frames : ∀ g, g ≠ p / PAGE_SIZE → m' !! g = m !! g;
  st_ok : ∀ g, frame_ok m g → frame_ok m' g;
}.

Lemma write_byte_ok m p b :
  0 ≤ p → frame_ok m (p / PAGE_SIZE) → 0 ≤ b < 256 → returns (write_byte m p b) (λ m', stored m m' p b).
Proof.
  intros Hp Hf Hb. unfold write_byte. replace (p - p mod 8) with (8 * (p / 8)) by zdiv.
  assert (∀ q, 0 ≤ q → q / 8 / 512 = q / PAGE_SIZE) as Hd by (intros; unfold PAGE_SIZE; zdiv).
  destruct (KernelSpec.read_word_word m (p / 8)) as (w & Hw & Hr); [zdiv|by rewrite Hd|]. rewrite Hr. run.
  destruct (KernelSpec.write_word_word m (p / 8)
    (Z.lor (Z.ldiff w (Z.shiftl 0xff (8 * (p mod 8)))) (Z.shiftl b (8 * (p mod 8)))))
    as (m' & Hm' & Hword & Hfr); [zdiv|by rewrite Hd|].
  rewrite Hm'. apply returns_ok. split.
  - intros q Hq Hfq. assert (frame_ok m' (q / 8 / 512)) as Hfq'
      by (eapply write_word_frame_ok; [exact Hm'|by rewrite Hd]).
    destruct (KernelSpec.read_word_word m' (q / 8)) as (w' & Hw' & Hr'); [zdiv|done|].
    rewrite (read_byte_word m' q w') by done. rewrite Hword in Hw' by zdiv.
    destruct (Z.eqb_spec (q / 8) (p / 8)) as [E|E].
    + injection Hw' as <-. rewrite byte_update by (done || apply Z.mod_pos_bound; lia).
      rewrite <- E in Hr. rewrite (read_byte_word m q w) by done.
      destruct (Z.eqb_spec (q mod 8) (p mod 8)), (Z.eqb_spec q p); try done; exfalso; [zdiv|congruence].
    + rewrite (proj2 (Z.eqb_neq q p)) by congruence.
      destruct (KernelSpec.read_word_word m (q / 8)) as (w2 & Hw2 & Hr2); [zdiv|by rewrite Hd|].
      rewrite (read_byte_word m q w2) by done. congruence.
  - intros g Hg. apply Hfr. by rewrite Hd.
  - intros g. by eapply write_word_frame_ok.
Qed.

(** Copying [src] to the kernel address of physical byte [p]. *)
Record copied (m m' : pmem) (p : Z) (src : list Z) : Prop := {
  cp_bytes : ∀ i b, src !! i = Some b → read_byte m' (p + Z.of_nat i) = Ok b;
  cp_frames : ∀ g, (g < p / PAGE_SIZE ∨ (p + Z.of_nat (length src) - 1) / PAGE_SIZE < g) → m' !! g = m !! g;
  cp_ok : ∀ g, frame_ok m g → frame_ok m' g;
}.

Lemma copy_loop p src : ∀ m k,
  0 ≤ p → 0 ≤ k → p + k + Z.of_nat (length src) ≤ 2 ^ 39 → Forall (λ b, 0 ≤ b < 256) src →
  (∀ q, p + k ≤ q < p + k + Z.of_nat (length src) → frame_ok m (q / PAGE_SIZE)) →
  returns (fold_each (zip (seqZ k (Z.of_nat (length src))) src)
    (λ '(i, b) m, write_byte m (pa (from_virt (VIRT_BASE + p + i))) b) m) (λ m',
    (∀ i b, src !! i = Some b → read_byte m' (p + k + Z.of_nat i) = Ok b)
    ∧ (∀ q, 0 ≤ q < p + k → frame_ok m (q / PAGE_SIZE) → read_byte m' q = read_byte m q)
    ∧ (∀ g, (g < (p + k) / PAGE_SIZE ∨ (p + k + Z.of_nat (length src) - 1) / PAGE_SIZE < g) → m' !! g = m !! g)
    ∧ (∀ g, frame_ok m g → frame_ok m' g)).
Proof.
  induction src as [|b src IH]; intros m k Hp Hk Hend Hb Hok.
  { apply returns_ok. done. }
  cbn [length] in *. apply Forall_cons in Hb as [Hb Hbs]. rewrite seqZ_cons by lia. cbn [zip zip_with fold_each].
  replace (VIRT_BASE + p + k) with (VIRT_BASE + (p + k)) by lia. rewrite from_virt_add by lia.
  eapply returns_bind; [apply (write_byte_ok m (p + k) b); [lia|apply Hok; lia|done]|].
  intros m1 [Hb1 Hf1 Hk1]. replace (Z.pred (Z.of_nat (S (length src)))) with (Z.of_nat (length src)) by lia.
  eapply returns_mono; [apply (IH m1 (Z.succ k)); [done|lia|lia|done|]|].
  { intros q Hq. apply Hk1, Hok. lia. }
  intros m2 (Hby & Hlow & Hfr & Hk2). split_and!.
  - intros [|i] b' Hi.
    + injection Hi as <-. rewrite Z.add_0_r.
      rewrite Hlow by (lia || (apply Hk1, Hok; lia)). rewrite Hb1, Z.eqb_refl by (lia || (apply Hok; lia)). done.
    + replace (p + k + Z.of_nat (S i)) with (p + Z.succ k + Z.of_nat i) by lia. by apply Hby.
  - intros q Hq Hfq. rewrite Hlow by (lia || by apply Hk1). rewrite Hb1 by (lia || done).
    by rewrite (proj2 (Z.eqb_neq q (p + k))) by lia.
  - intros g Hg. rewrite Hfr, Hf1; [done|..]; unfold PAGE_SIZE in *; zdiv.
  - auto.
Qed.

Lemma copy_bytes_to_ok (s : kst) p src :
  0 ≤ p → p + Z.of_nat (length src) ≤ 2 ^ 39 → Forall (λ b, 0 ≤ b < 256) src →
  (∀ q, p ≤ q < p + Z.of_nat (length src) → frame_ok (phys s) (q / PAGE_SIZE)) →
  ∃ m, copy_bytes_to (VIRT_BASE + p) src s = Ok (tt, set_phys m s) ∧ copied (phys s) m p src.
Proof.
  intros Hp Hend Hb Hok.
  destruct (copy_loop p src (phys s) 0 Hp ltac:(lia) ltac:(lia) Hb) as (m & Hm & Hby & _ & Hfr & Hk).
  { intros q Hq. apply Hok. lia. }
  exists m. rewrite !Z.add_0_r in *. split; [|by split]. unfold copy_bytes_to, on_mem. rewrite Hm. done.
Qed.
