(* ===== verification/Exceptions.v ===== *)
(** * Exception entry and panics (kernel/src/aarch64/exceptions.rs, kernel/src/main.rs)

    What the vectors call with the saved registers.  A handler that does not return, but
    waits for interrupts for ever, gives [None]. *)

From S2P Require Import Prelude Interrupts Memory Kernel PageTable KernelApi.
From S2P Require Gic.
From S2P Require Import Console Machine Usermode.
Import Gic (Board).

Local Open Scope Z_scope.

(** [ESR_EL1] of an [svc #0] from AArch64. *)
Definition ESR_SVC : Z := 0x56000000.

Definition RULE : list Z := text "-------------------------------------------".

Section ops.
Context `{Profile} `{Linked} `{ThreadLayout} `{Board} `{TableAlloc}.
Context `{!TryFromPrimitive syscall_num} `{!BitFlags PhyMapFlags} `{!BitFlags MemMapFlags}.

(** [exception_handler2] with the values of [ESR_EL1] and [FAR_EL1]. *)
Definition exception_handler2 (ESR_EL1 FAR_EL1 : Z) (e : ExceptionContext)
    : M sys (option ExceptionContext) :=
  if ESR_EL1 =? ESR_SVC then
    e ← handle_syscall e;
    mret (Some e)
  else
    println [RULE];;
    println [text "Registers:"];;
    for_M (gpr e) (λ reg, print [fmt_hex_pad 16 reg; text " "]);;
    println [];;
    println [text "Exception reason: 0x"; fmt_hex ESR_EL1];;
    println [text "FAR (Address accessed): 0x"; fmt_hex FAR_EL1];;
    println [text "PC: 0x"; fmt_hex (pc e)];;
    println [text "LR: 0x"; fmt_hex (lr e)];;
    println [text "SP: 0x"; fmt_hex_pad 16 (sp e)];;
    println [text "SPSR: 0x"; fmt_hex (spsr e)];;
    println [RULE];;
    mret None.

Definition irq_handler (e : ExceptionContext) : M sys ExceptionContext :=
  on_drv Gic.handle_irq;;
  mret e.

(** The panic handler, given the message and the location as text. *)
Definition rust_panic (message : list Z) (location : option (list Z))
    : M sys (option ExceptionContext) :=
  println [text "[PANIC]: "; message];;
  match location with
  | Some location => println [text "location: "; location]
  | None => mret tt
  end;;
  mret None.

(** [exception_handler], for the vectors that have no other: it panics ([LOCATION] is where). *)
Definition exception_handler (LOCATION : list Z) (SPSel etype esr elr spsr far : Z)
    : M sys (option ExceptionContext) :=
  println [text "Exception SPSel: "; fmt_dec SPSel];;
  rust_panic (mjoin [text "Exception:"; [NEWLINE]; text "etype=0x"; fmt_hex etype;
                     text " esr=0x"; fmt_hex esr; text " elr=0x"; fmt_hex elr;
                     text " spsr=0x"; fmt_hex spsr; text " far=0x"; fmt_hex far])
    (Some LOCATION).
End ops.
