(* ===== verification/Boot.v ===== *)
(** * Boot (kernel/src/main.rs, kernel/src/aarch64/mmu.rs [init] and [eject_lowmem])

    From the first Rust function, which runs at physical addresses with the MMU off, to the
    return to user mode that starts the first process. *)

From S2P Require Import Prelude Interrupts Memory.
From S2P Require Import Kernel PageTable Translation KernelApi.
From S2P Require Gic.
From S2P Require Import Console Machine Usermode.
Import Gic (Board).

Local Open Scope Z_scope.

(** Where the linker put the three boot tables (as physical addresses), the exception vectors
    and [kmain]. *)
Class BootImage : Type := {
  TABLE_L0 : Z;
  TABLE_L1_MEM : Z;
  TABLE_L1_DEV : Z;
  _vectors : Z;
  kmain_low : Z;
}.

(** A static table, changed in place. *)
Definition update_table (addr : Z) (f : list Z → res (list Z)) : M kst unit := on_mem (λ m,
  match m !! (addr / PAGE_SIZE) with
  | Some t => t ← f t; Ok (<[addr / PAGE_SIZE := t]> m)
  | None => Fault UndefinedBehaviour
  end).

(** EPAN and SPAN. *)
Definition PAN_BITS : Z := Z.lor (Z.shiftl 1 57) (Z.shiftl 1 23).

Section ops.
Context `{Profile} `{Linked} `{ThreadLayout} `{Board} `{TableAlloc} `{BootImage}.

(** [mmu::init]. *)
Definition mmu_init : M sys unit :=
  on_kern (update_table TABLE_L0 (λ t, make_page_table_l0 t TABLE_L1_MEM TABLE_L1_DEV));;
  on_kern (update_table TABLE_L1_MEM (λ t, make_page_table_l1 t PT_MEM));;
  on_kern (update_table TABLE_L1_DEV (λ t, make_page_table_l1 t PT_DEV));;
  let table_l0_ptr := TABLE_L0 in
  on_cpu (set_translation
    {| Attr0_Normal_Outer := WriteBack_NonTransient_ReadWriteAlloc;
       Attr0_Normal_Inner := WriteBack_NonTransient_ReadWriteAlloc;
       Attr1_Device := nonGathering_nonReordering_noEarlyWriteAck |}
    {| TG0 := KiB_4; TG1 := KiB_4; T0SZ := 16; T1SZ := 16; SH0 := Inner; SH1 := Inner;
       ORGN0 := WriteBack_ReadAlloc_WriteAlloc_Cacheable;
       ORGN1 := WriteBack_ReadAlloc_WriteAlloc_Cacheable |}
    {| BADDR := Z.shiftr table_l0_ptr 1; CnP := true |}
    {| BADDR := Z.shiftr table_l0_ptr 1; CnP := true |});;
  on_kern tlb_flush;;
  on_cpu (λ c, set_sctlr (Z.lor (SCTLR_EL1 c) (Z.lor (Z.lor SCTLR_M SCTLR_C) SCTLR_I)) c);;
  on_cpu (λ c, set_sctlr (Z.land (SCTLR_EL1 c) (unot PAN_BITS)) c).

(** [mmu::eject_lowmem]. *)
Definition mmu_eject_lowmem : M sys unit :=
  on_cpu (λ c, set_vbar_sp _vectors (Z.lor (sp_el1 c) 0xffffff0000000000) c);;
  on_uart Console.eject_lowmem;;
  on_cpu (set_ttbr0 ttbr_zero);;
  on_kern tlb_flush.

(** [kmain_nommu], up to its jump: the result is the address it calls. *)
Definition kmain_nommu : M sys Z :=
  c ← gets cpu;
  lift (assert (CurrentEL c =? 1) "Unexpectedly booted in EL");;
  mmu_init;;
  let himem_func (f : Z) := virt {| pa := f |} in
  mret (himem_func kmain_low).

(** [kmain], up to the [eret] in [start], which does not return. *)
Definition kmain (INIT_BIN : list Z) : M sys unit :=
  mmu_eject_lowmem;;
  println [text "--- BoldOS ---"];;
  println [text "alloc: Initializing early allocator"];;
  on_kern init_early_heap;;
  on_kern enable;;
  start INIT_BIN.
End ops.
