(* ===== verification/SyscallInv.v ===== *)
(** * What every system call keeps (kernel/src/aarch64/usermode.rs)

    The invariant of the running kernel, and the effect of each arm of [handle_syscall] on it,
    for arbitrary register contents. *)

From S2P Require Import Prelude Interrupts.
From S2P Require Bitmap.
From S2P Require Import Memory.
From S2P Require PageAlloc.
From S2P Require Import Kernel PageTable KernelTables.
From S2P Require KernelSpec.
From S2P Require Import PageTree Mapping Translation FindHole KernelApi.
From S2P Require Gic.
From S2P Require Import Console Machine Usermode.
Import Gic (gic_st, Board).
Import PageAlloc (PageSlice, buf, len).

Local Open Scope Z_scope.

(** ** Allocation seen from the address space *)

Section alloc.
Context `{Profile}.
Variable root : Z.

(** A page slice taken from the allocator: its frames were free and no longer are, and they
    are not tables. *)
Lemma alloc_evolves s n :
  mm_ok root s → 0 ≤ n →
  match alloc n s with
  | Ok (sl, s') => ∃ i, 0 < n ∧ PageAlloc.hole (PAGE_ALLOC s) i n
      ∧ sl = {| buf := PageAlloc.page_addr (PAGE_ALLOC s) i; len := PAGE_SIZE * n |}
      ∧ evolves root s s' ∧ phys s' = phys s ∧ tlb s' = tlb s
      ∧ ∀ h, free_page_frame (PAGE_ALLOC s') h ↔ free_page_frame (PAGE_ALLOC s) h
          ∧ ¬ (PageAlloc.frame_of (PAGE_ALLOC s) i ≤ h < PageAlloc.frame_of (PAGE_ALLOC s) i + n)
  | Fault x => x = PanicMsg "OOM" ∧ (0 < n → ∀ i, ¬ PageAlloc.hole (PAGE_ALLOC s) i n)
  end.
Proof.
  intros [Hsrc Htree Hown] Hn. pose proof Hsrc as [Hwf Hwin Hback]. rewrite KernelSpec.alloc_run.
  destruct (PageAlloc.alloc_ok (PAGE_ALLOC s) n Hwf Hn)
    as [(i & al' & -> & Hpos & Hhole & _ & Hsp)|[-> Hnone]]; [|done].
  destruct (taken_pool _ _ _ _ Hwin Hhole Hsp) as (_ & _ & Hpool).
  exists i. split_and!; [done..| |done|done|done].
  split; cbn [set_alloc phys PAGE_ALLOC]; [|by left| |done|by apply (taken_shape s _ i n)].
  - split; [|done|].
    + exact (taken_ok s al' (phys s) i n Hsrc Hhole Hsp (λ _ Hg, Hg)).
    + intros h Hh [Hf _]%Hpool. by apply (Hown h).
  - intros h Hh. by apply Hpool in Hh as [??].
Qed.

(** The frames of a hole. *)
Lemma hole_frames s i n :
  alloc_ok s → PageAlloc.hole (PAGE_ALLOC s) i n → ∀ k, 0 ≤ k < n →
  free_page_frame (PAGE_ALLOC s) (PageAlloc.frame_of (PAGE_ALLOC s) i + k)
  ∧ 0 ≤ PageAlloc.frame_of (PAGE_ALLOC s) i + k < 2 ^ 27
  ∧ frame_ok (phys s) (PageAlloc.frame_of (PAGE_ALLOC s) i + k).
Proof.
  intros [Hwf Hwin Hback] (Hi & Hn & Hfree) k Hk.
  fold (PageAlloc.capacity (PAGE_ALLOC s)) in Hn.
  replace (PageAlloc.frame_of (PAGE_ALLOC s) i + k) with (PageAlloc.frame_of (PAGE_ALLOC s) (i + k))
    by (unfold PageAlloc.frame_of; lia).
  assert (PageAlloc.used (PAGE_ALLOC s) (i + k) = false) by (apply Hfree; lia).
  split; [exists (i + k); split; [lia|done]|]. split; [apply frame_bounds; [done|lia]|].
  apply Hback; [lia|done].
Qed.
End alloc.

(** ** The invariant of the running kernel *)

Record sys_ok `{Profile} `{ThreadLayout} (root : Z) (s : sys) : Prop := {
  so_thread : ∃ t, INIT_THREAD s = Some t ∧ page_table t = va_of root;
  so_ttbr : table_base (TTBR0_EL1 (cpu s)) = PAGE_SIZE * root;
  so_mm : mm_ok root (kern s);
}.

(** [s'] comes from [s] by changes to the address space, the drivers and the console only. *)
Record moves `{Profile} (root : Z) (s s' : sys) : Prop := {
  mv_kern : evolves root (kern s) (kern s');
  mv_thread : INIT_THREAD s' = INIT_THREAD s;
  mv_cpu : cpu s' = cpu s;
}.

Lemma moves_ok `{Profile} `{ThreadLayout} root s s' : sys_ok root s → moves root s s' → sys_ok root s'.
Proof. intros [Ht Hr Hm] [He Et Ec]. split; [by rewrite Et|by rewrite Ec|apply He]. Qed.

(** The result of a handler: at most [x0] has changed, and the machine has moved. *)
Definition handled `{Profile} (root : Z) (e : ExceptionContext) (s : sys) (P : fault → Prop)
    (r : res (ExceptionContext * sys)) : Prop :=
  match r with
  | Ok (e', s') => (e' = e ∨ ∃ x, is_u64 x ∧ e' = set_x0 x e) ∧ moves root s s'
  | Fault x => P x
  end.

Section arms.
Context `{Profile} `{Linked} `{ThreadLayout} `{Board}.
Context `{!TryFromPrimitive syscall_num} `{!BitFlags PhyMapFlags} `{!BitFlags MemMapFlags}.
Variable root : Z.

Lemma moves_refl s : mm_ok root (kern s) → moves root s s.
Proof. intros. split; [by apply evolves_refl|done..]. Qed.

Lemma moves_kern s k : evolves root (kern s) k → moves root s (set_kern k s).
Proof. by split. Qed.

Lemma moves_printed s bs : mm_ok root (kern s) → moves root s (printed bs s).
Proof. intros. split; [by apply evolves_refl|done..]. Qed.

Lemma moves_trans s1 s2 s3 : moves root s1 s2 → moves root s2 s3 → moves root s1 s3.
Proof. intros [] []. split; [by eapply evolves_trans|congruence..]. Qed.

Lemma as_mut_ok s t : INIT_THREAD s = Some t → as_mut s = Ok (t, s).
Proof. unfold as_mut. by intros ->. Qed.

Ltac thread Hok :=
  let t := fresh "t" in let Ht := fresh "Ht" in let Hp := fresh "Hp" in
  destruct (so_thread _ _ Hok) as (t & Ht & Hp);
  rewrite (M_bind_ok _ _ _ t _) by (by apply as_mut_ok); rewrite Hp.

(** A computation on the kernel's state followed by the final register update. *)
Lemma handled_kern {A} (m : M kst A) (x : A → Z) e s P :
  sys_ok root s → match m (kern s) with Ok (a, k) => is_u64 (x a) ∧ evolves root (kern s) k | Fault f => P f end →
  handled root e s P ((v ← on_kern m; mret (set_x0 (x v) e)) s).
Proof.
  intros Hok Hm. unfold mbind, M_bind. rewrite on_kern_run. destruct (m (kern s)) as [[a k]|f]; [|done].
  destruct Hm. split; [right; eauto|]. by apply moves_kern.
Qed.

Lemma sys_phy_map_handled e s : sys_ok root s → handled root e s checked (sys_phy_map e s).
Proof.
  intros Hok. unfold sys_phy_map. thread Hok. apply (handled_kern _ (λ v, v)); [done|].
  apply vmap_evolves, Hok.
Qed.

Lemma sys_mem_unmap_handled e s : sys_ok root s → handled root e s checked (sys_mem_unmap e s).
Proof.
  intros Hok. unfold sys_mem_unmap. thread Hok. apply (handled_kern _ (λ _, 0)); [done|].
  match goal with |- context [vunmap ?r ?v ?l] => pose proof (vunmap_evolves root (kern s) v l (so_mm _ _ Hok)) as Hu end.
  by destruct (vunmap _ _ _ (kern s)) as [[[] k]|x].
Qed.

Lemma sys_mem_map_handled e s :
  sys_ok root s → 0 ≤ reg e 0 → handled root e s checked (sys_mem_map e s).
Proof.
  intros Hok Hl. unfold sys_mem_map. thread Hok.
  assert (0 ≤ div_ceil (reg e 0) PAGE_SIZE) as Hn by (rewrite div_ceil_spec by done; unfold PAGE_SIZE; zdiv).
  pose proof (alloc_evolves root (kern s) _ (so_mm _ _ Hok) Hn) as Ha.
  unfold mbind at 1, M_bind at 1. rewrite on_kern_run.
  destruct (alloc _ (kern s)) as [[sl k]|x]; [|by destruct Ha as [-> _]].
  destruct Ha as (i & _ & _ & _ & Hev & _). pose proof (ev_ok _ _ _ Hev) as Hk.
  unfold mbind, M_bind. rewrite on_kern_run. cbn [kern set_kern].
  pose proof (vmap_evolves root k (from_virt (buf sl)) (reg e 0)) as Hv.
  match goal with |- context [vmap _ _ _ ?a _] => specialize (Hv a Hk) end.
  destruct (vmap _ _ _ _ k) as [[v k']|x]; [|done].
  destruct Hv as [Hx Hv]. split; [right; eauto|]. split; [by eapply evolves_trans|done..].
Qed.

(** ** The arms that read user memory *)

Lemma copy_from_user_run ptr n s :
  copy_from_user ptr n n s =
    match copy_bytes (phys (kern s)) (table_base (TTBR0_EL1 (cpu s))) ptr (seqZ 0 n) with
    | Ok bs => Ok (bs, s) | Fault f => Fault f
    end.
Proof.
  unfold copy_from_user. rewrite (lift_bind_ok _ _ _ tt) by (unfold assert; by rewrite Z.eqb_refl).
  rewrite (M_bind_ok _ _ s s s) by done. unfold lift. by destruct (copy_bytes _ _ _ _).
Qed.

Lemma read_word_fuel m p : read_word m p ≠ Fault OutOfFuel.
Proof. unfold read_word, aget. by repeat case_match. Qed.

Lemma ldtrb_fuel m ttbr va : ldtrb m ttbr va ≠ Fault OutOfFuel.
Proof.
  unfold ldtrb, read_byte. destruct (va <? 2 ^ 48); [|done]. destruct (walk m ttbr va) as [[p d]|]; [|done].
  destruct (Z.testbit d 6); [|done]. pose proof (read_word_fuel m (p - p mod 8)).
  destruct (read_word m _); simpl; congruence.
Qed.

Lemma copy_bytes_fuel m ttbr ptr l : copy_bytes m ttbr ptr l ≠ Fault OutOfFuel.
Proof.
  induction l as [|i l IH]; [done|]. cbn [copy_bytes]. intros E.
  destruct (uadd_cases ptr i) as [(c & Hc & _)|Hc]; rewrite Hc in E; [|done]. rewrite res_bind_ok in E.
  pose proof (ldtrb_fuel m ttbr c). destruct (ldtrb m ttbr c); simpl in E; [|congruence].
  destruct (copy_bytes m ttbr ptr l); simpl in E; congruence.
Qed.

(** An unprivileged load at [va] fails: the process has no access there, or it has mapped the
    page to a physical address where there is no memory. *)
Definition load_fails (s : sys) (va : Z) (x : fault) : Prop :=
  match (if va <? 2 ^ 48 then walk (phys (kern s)) (table_base (TTBR0_EL1 (cpu s))) va else None) with
  | Some (p, d) => if Z.testbit d 6
                   then (x = UndefinedBehaviour ∨ x = IndexOutOfBounds) ∧ ¬ frame_ok (phys (kern s)) (p / PAGE_SIZE)
                   else x = DataAbort
  | None => x = DataAbort
  end.

(** Reading [n] bytes of the process from [ptr] on fails: one of them cannot be read, or its
    address overflows. *)
Definition read_fails (s : sys) (ptr n : Z) (x : fault) : Prop :=
  x = ArithOverflow ∨ ∃ i va, 0 ≤ i < n ∧ uadd ptr i = Ok va ∧ load_fails s va x.

Lemma read_byte_fails m p x :
  read_byte m p = Fault x → (x = UndefinedBehaviour ∨ x = IndexOutOfBounds) ∧ ¬ frame_ok m (p / PAGE_SIZE).
Proof.
  unfold read_byte, read_word, aget. assert ((p - p mod 8) / PAGE_SIZE = p / PAGE_SIZE) as -> by (unfold PAGE_SIZE; zdiv).
  replace ((p - p mod 8) mod 8) with 0 by zdiv. unfold frame_ok.
  destruct (m !! (p / PAGE_SIZE)) as [fr|]; [|intros [= <-]; split; [by left|by intros (? & [=] & _)]]. cbn.
  destruct (fr !! _) as [w|] eqn:E; [done|]. intros [= <-]. split; [by right|].
  intros (fr' & [= <-] & Hl). apply lookup_ge_None in E. unfold PAGE_SIZE in E.
  pose proof (Z.mod_pos_bound (p - p mod 8) 4096). zdiv.
Qed.

Lemma ldtrb_fails s va x :
  ldtrb (phys (kern s)) (table_base (TTBR0_EL1 (cpu s))) va = Fault x → load_fails s va x.
Proof.
  unfold ldtrb, load_fails. destruct (va <? 2 ^ 48); [|by intros [= <-]].
  destruct (walk _ _ va) as [[p d]|]; [|by intros [= <-]]. destruct (Z.testbit d 6); [apply read_byte_fails|by intros [= <-]].
Qed.

Lemma copy_bytes_fails s ptr n : ∀ k x, 0 ≤ k →
  copy_bytes (phys (kern s)) (table_base (TTBR0_EL1 (cpu s))) ptr (seqZ k (n - k)) = Fault x → read_fails s ptr n x.
Proof.
  intros k x Hk. destruct (Z.le_gt_cases n k) as [Hle|Hlt]; [by rewrite seqZ_nil by lia|].
  remember (Z.to_nat (n - k)) as c eqn:Hc. revert k Hk Hlt Hc.
  induction c as [|c IH]; intros k Hk Hlt Hc; [lia|]. rewrite seqZ_cons by lia. cbn [copy_bytes].
  destruct (uadd_cases ptr k) as [(va & Hva & _)|Hva]; rewrite Hva; [|intros [= <-]; by left].
  rewrite res_bind_ok. destruct (ldtrb _ _ va) as [b|y] eqn:E; last first.
  { intros [= <-]. right. exists k, va. split; [lia|]. split; [done|]. by apply ldtrb_fails. }
  rewrite res_bind_ok. replace (Z.pred (n - k)) with (n - Z.succ k) by lia.
  destruct (copy_bytes _ _ _ (seqZ (Z.succ k) _)) as [bs|y] eqn:E'; [done|]. intros [= <-].
  destruct (Z.le_gt_cases n (Z.succ k)) as [Hle|Hlt']; [by rewrite seqZ_nil in E' by lia|].
  apply (IH (Z.succ k)); [lia|lia|lia|done].
Qed.

Lemma copy_all_fails s ptr n x :
  copy_bytes (phys (kern s)) (table_base (TTBR0_EL1 (cpu s))) ptr (seqZ 0 n) = Fault x → read_fails s ptr n x.
Proof. intros E. apply (copy_bytes_fails s ptr n 0 x); [done|]. by rewrite Z.sub_0_r. Qed.

Lemma read_fails_fuel s ptr n x : read_fails s ptr n x → x ≠ OutOfFuel.
Proof.
  intros [->|(i & va & _ & _ & Hl)]; [done|]. unfold load_fails in Hl.
  repeat case_match; [by destruct Hl as [[->| ->] _]|by subst..].
Qed.

Lemma handled_mono e s (P Q : fault → Prop) r : (∀ x, P x → Q x) → handled root e s P r → handled root e s Q r.
Proof. intros HPQ. destruct r as [[e' s']|x]; [done|]. apply HPQ. Qed.

Lemma sys_log_handled e s :
  sys_ok root s → handled root e s (read_fails s (reg e 0) (Z.min (reg e 1) 256)) (sys_log e s).
Proof.
  intros Hok. unfold sys_log, mbind, M_bind. rewrite copy_from_user_run.
  destruct (copy_bytes _ _ _ _) as [bs|x] eqn:E; [|by apply copy_all_fails].
  rewrite sys_puts_run. split; [by left|]. apply moves_printed, Hok.
Qed.

(** ** The drivers *)

(** A computation on a driver's state, whose faults are all checks. *)
Definition gic_checked {S A} (m : M S A) : Prop :=
  ∀ g, match m g with Ok _ => True | Fault x => checked x end.

Lemma gic_checked_bind {S A B} (m : M S A) (k : A → M S B) :
  gic_checked m → (∀ a, gic_checked (k a)) → gic_checked (m ≫= k).
Proof.
  intros Hm Hk g. unfold mbind, M_bind. specialize (Hm g). destruct (m g) as [[a g']|x]; [|done].
  apply Hk.
Qed.

Lemma gic_checked_regs {A} (m : M gic_st A) : gic_checked m → gic_checked (Gic.on_regs m).
Proof. intros Hm [g u]. unfold Gic.on_regs. specialize (Hm g). by destruct (m g) as [[a g']|x]. Qed.

Lemma gic_checked_println args : gic_checked (println (H1 := Gic.drv_write) args).
Proof. intros [g u]. by rewrite Gic.drv_println_run. Qed.

Lemma gic_checked_lift {S A} (r : res A) :
  match r with Ok _ => True | Fault x => checked x end → gic_checked (S := S) (lift r).
Proof. intros Hr g. unfold lift. by destruct r. Qed.

Lemma gic_checked_uadd a b : gic_checked (S := gic_st) (lift (uadd a b)).
Proof. apply gic_checked_lift. by destruct (uadd_cases a b) as [(? & -> & _)| ->]. Qed.

Lemma gic_checked_umul a b : gic_checked (S := gic_st) (lift (umul a b)).
Proof. apply gic_checked_lift. unfold umul, arith64. by repeat case_match; simplify_eq. Qed.

Lemma gic_checked_modify (f : gic_st → gic_st) : gic_checked (modify f).
Proof. intros g. exact I. Qed.

Lemma mmio_write_checked b o v : gic_checked (Gic.mmio_write b o v).
Proof. apply gic_checked_bind; [apply gic_checked_uadd|done]. Qed.

Lemma mmio_read_checked b o : gic_checked (Gic.mmio_read b o).
Proof. apply gic_checked_bind; [apply gic_checked_uadd|done]. Qed.

Ltac gic_steps := repeat (apply gic_checked_modify || apply gic_checked_println || apply gic_checked_regs || apply mmio_write_checked
  || apply mmio_read_checked || (apply gic_checked_bind; [|intros ?])).

Lemma init_gic_checked d c i : gic_checked (Gic.init_gic d c i).
Proof.
  unfold Gic.init_gic. gic_steps.
Qed.

Lemma handle_irq_checked : gic_checked Gic.handle_irq.
Proof.
  unfold Gic.handle_irq. apply gic_checked_bind; [by apply gic_checked_regs|intros base].
  apply gic_checked_bind; [apply gic_checked_regs, mmio_read_checked|intros iar].
  repeat case_match; gic_steps; done.
Qed.

Lemma get_time_checked : gic_checked Gic.timer_get_absolute_time_ms.
Proof.
  unfold Gic.timer_get_absolute_time_ms. apply gic_checked_bind; [done|intros n].
  apply gic_checked_bind; [done|intros _]. apply gic_checked_bind; [apply gic_checked_umul|intros t].
  apply gic_checked_bind; [|done]. apply gic_checked_lift. by destruct (negb _).
Qed.

Lemma set_timeout_checked ms : gic_checked (Gic.timer_set_timeout ms).
Proof.
  unfold Gic.timer_set_timeout. apply gic_checked_bind; [done|intros b].
  apply gic_checked_bind; [apply gic_checked_lift; by destruct (negb _)|intros _].
  apply gic_checked_bind; [apply gic_checked_umul|done].
Qed.

Lemma moves_gic s g : mm_ok root (kern s) → moves root s (set_gic g s).
Proof. intros. split; [by apply evolves_refl|done..]. Qed.

(** Running a driver call inside a handler. *)
Lemma handled_gic {A} (m : M gic_st A) (k : A → M sys ExceptionContext) e s (P : fault → Prop) :
  match m (gic s) with Ok _ => True | Fault x => P x end → mm_ok root (kern s) →
  (∀ a g, handled root e (set_gic g s) P (k a (set_gic g s))) →
  handled root e s P ((a ← on_gic m; k a) s).
Proof.
  intros Hm Hok Hk. unfold mbind, M_bind. rewrite on_gic_run.
  destruct (m (gic s)) as [[a g]|x]; [|done]. specialize (Hk a g).
  destruct (k a (set_gic g s)) as [[e' s']|x]; [|done]. destruct Hk as [He Hmv].
  split; [done|]. eapply moves_trans; [by apply moves_gic|done].
Qed.

Lemma handled_drv {A} (m : M Gic.drv A) (k : A → M sys ExceptionContext) e s (P : fault → Prop) :
  match m (gic s, uart s) with Ok _ => True | Fault x => P x end → sys_ok root s →
  (∀ a s', moves root s s' → handled root e s' P (k a s')) →
  handled root e s P ((a ← on_drv m; k a) s).
Proof.
  intros Hm Hok Hk. unfold mbind, M_bind. rewrite on_drv_run.
  destruct (m _) as [[a d]|x]; [|done].
  assert (moves root s (set_uart d.2 (set_gic d.1 s))) as Hmv by (split; [apply evolves_refl, Hok|done..]).
  specialize (Hk a _ Hmv). destruct (k a _) as [[e' s']|x]; [|done]. destruct Hk as [He Hm'].
  split; [done|]. by eapply moves_trans.
Qed.

Lemma handled_println args (k : M sys ExceptionContext) e s P :
  sys_ok root s → (∀ s', moves root s s' → handled root e s' P (k s')) →
  handled root e s P ((println args;; k) s).
Proof.
  intros Hok Hk. rewrite (M_bind_ok _ _ _ tt (printed (mjoin args ++ [NEWLINE]) s)) by apply sys_println_run.
  pose proof (moves_printed s (mjoin args ++ [NEWLINE]) (so_mm _ _ Hok)) as Hmv.
  specialize (Hk _ Hmv). destruct (k _) as [[e' s']|x]; [|done]. destruct Hk as [He Hm].
  split; [done|]. by eapply moves_trans.
Qed.

Lemma handled_done x e s P : is_u64 x → sys_ok root s → handled root e s P (mret (M := M sys) (set_x0 x e) s).
Proof. intros Hx Hok. split; [right; eauto|]. apply moves_refl, Hok. Qed.

Lemma sys_load_kernel_device_handled e s :
  sys_ok root s →
  handled root e s (λ x, checked x ∨ read_fails s (reg e 0) size_of_GicAndTimer x) (sys_load_kernel_device e s).
Proof.
  intros Hok. unfold sys_load_kernel_device. destruct (reg e 2 =? GicAndTimer_ID); [|by apply handled_done].
  destruct (Z.eqb_spec (reg e 1) size_of_GicAndTimer) as [->|]; [|by left].
  rewrite (lift_bind_ok _ _ _ tt) by done. unfold mbind at 1, M_bind at 1. rewrite copy_from_user_run.
  destruct (copy_bytes _ _ _ _) as [bs|x] eqn:E; [|right; by apply copy_all_fails].
  apply handled_println; [done|]. intros s1 Hs1. pose proof (moves_ok _ _ _ Hok Hs1) as Hok1.
  apply handled_gic; [done|apply Hok1|]. intros _ g1.
  assert (sys_ok root (set_gic g1 s1)) as Hok2 by (destruct Hok1; by split).
  apply handled_drv; [|done|].
  - pose proof (init_gic_checked (gicd_base (gic_of_bytes bs)) (gicc_base (gic_of_bytes bs))
      (timer_ppi_interrupt (gic_of_bytes bs)) (g1, uart s1)) as Hc.
    cbn [set_gic gic uart]. destruct (Gic.init_gic _ _ _ _) as [|x]; [done|by left].
  - intros _ s2 Hs2. apply handled_done; [done|]. exact (moves_ok _ _ _ Hok2 Hs2).
Qed.

Lemma sleep_until_faults deadline g :
  match sleep_until deadline g with Ok _ => True | Fault x => checked x ∨ x = OutOfFuel end.
Proof.
  unfold sleep_until. pose proof (while_faults (λ '((_, fin) : gic_st * bool), negb fin)
    (sleep_round deadline) checked (g, false)) as Hw.
  destruct (while _ _ _) as [[g' b]|x]; [exact I|]. apply Hw. clear Hw x. intros [g0 b].
  unfold sleep_round. pose proof (get_time_checked g0) as Hg.
  destruct (Gic.timer_get_absolute_time_ms g0) as [[now g1]|x]; [|done]. run.
  destruct (_ =? 0); [done|]. pose proof (set_timeout_checked (Z.max 0 (deadline - now)) g1) as Hs.
  by destruct (Gic.timer_set_timeout _ g1) as [[]|x].
Qed.

Lemma sys_sleep_sec_handled e s :
  sys_ok root s → handled root e s (λ x, checked x ∨ x = OutOfFuel) (sys_sleep_sec e s).
Proof.
  intros Hok. unfold sys_sleep_sec. apply handled_gic; [|apply Hok|].
  { pose proof (get_time_checked (gic s)) as Hc. destruct (Gic.timer_get_absolute_time_ms _); [done|by left]. }
  intros now g. assert (sys_ok root (set_gic g s)) as Hok1 by (destruct Hok; by split).
  pose proof (gic_checked_umul (reg e 0) 1000 g) as Hm.
  destruct (umul (reg e 0) 1000) as [ms|x]; [|by left].
  rewrite (lift_bind_ok _ _ _ ms) by done. pose proof (gic_checked_uadd now ms g) as Ha.
  destruct (uadd now ms) as [deadline|x]; [|by left].
  rewrite (lift_bind_ok _ _ _ deadline) by done. apply handled_println; [done|].
  intros s2 Hs2. pose proof (moves_ok _ _ _ Hok1 Hs2) as Hok2.
  apply handled_gic; [apply sleep_until_faults|apply Hok2|]. intros _ g3. apply handled_done; [done|].
  destruct Hok2. by split.
Qed.
End arms.
