(* ===== verification/SyscallSpec.v ===== *)
(** * Properties of the system calls (kernel/src/aarch64/usermode.rs, exceptions.rs)

    The invariant of the running machine under any sequence of system calls, interrupts and
    stores, and the contracts of the calls that map memory, print and sleep. *)

From S2P Require Import Prelude Interrupts.
From S2P Require Bitmap.
From S2P Require Import Memory.
From S2P Require PageAlloc HeapSpec.
From S2P Require Import Kernel PageTable KernelTables.
From S2P Require KernelSpec MapSpec.
From S2P Require Import PageTree Mapping Translation FindHole KernelApi.
From S2P Require Gic.
From S2P Require Import Console Machine Usermode Exceptions SyscallInv.
Import Gic (gic_st, Board, cntfrq_el0, cntpct_el0, counter_reads, GICC_BASE).
Import PageAlloc (PageSlice, buf, len).

Local Open Scope Z_scope.

(** Saved registers are machine words. *)
Record regs_ok (e : ExceptionContext) : Prop := {
  ro_count : length (gpr e) = 30%nat;
  ro_words : Forall is_u64 (gpr e);
}.

Lemma reg_u64 e i : regs_ok e → is_u64 (reg e i).
Proof.
  intros [_ Hw]. unfold reg. destruct (Nat.lt_ge_cases i (length (gpr e))) as [Hi|Hi].
  - eapply Forall_nth; [done|lia].
  - rewrite nth_overflow by lia. unfold is_u64. lia.
Qed.

(** ** A small machine *)

(** The usual layout of [Thread]: the table first, then the stack, then the registers. *)
Definition sample_layout : ThreadLayout := {|
  off_page_table := 0; off_stack := 4096; off_pc := 12544; off_sp := 12552; off_spsr := 12560;
  size_of_Thread := 16384;
|}.

Definition idle_cpu (ttbr0 : ttbr) : cpu_st :=
  mkCpu 1 None None ttbr0 ttbr_zero 0 0 0 0 0 0.

(** A thread in frame 1 whose tables map nothing, 64 free pages, and the controller set up. *)
Definition small_sys : sys := {|
  kern := MapSpec.map_kernel;
  gic := Gic.set_bases 0x8000000 0x8010000 Gic.gic_reset;
  uart := {| UART0_ADDR := 0xffffff0009000000; stores := [] |};
  cpu := idle_cpu (set_baddr (PAGE_SIZE * MapSpec.ROOT));
  INIT_THREAD := Some (va_of MapSpec.ROOT);
|}.

(** Registers of a call. *)
Definition call_regs (x0 x1 x2 x8 : Z) : ExceptionContext :=
  {| gpr := [x0; x1; x2; 0; 0; 0; 0; 0; x8] ++ replicate 21 0; lr := 0; pc := 0x10000000;
     spsr := 0x140; sp := 0x8000000 |}.

Lemma call_regs_ok x0 x1 x2 x8 :
  is_u64 x0 → is_u64 x1 → is_u64 x2 → is_u64 x8 → regs_ok (call_regs x0 x1 x2 x8).
Proof.
  intros. split; [reflexivity|]. assert (is_u64 0) by (unfold is_u64; lia).
  cbn [gpr call_regs app]. by repeat (constructor; [done|]).
Qed.

#[local] Existing Instances dev KernelSpec.sample_link sample_layout Gic.sample_board.

Lemma small_sys_ok : sys_ok MapSpec.ROOT small_sys.
Proof.
  split; [by eexists|reflexivity|]. exact MapSpec.map_kernel_ok.
Qed.

(** ** Dispatch *)

Lemma handle_syscall_arm `{Profile} `{Linked} `{ThreadLayout} `{Board} `{TableAlloc}
    `{!TryFromPrimitive syscall_num} `{!BitFlags PhyMapFlags} `{!BitFlags MemMapFlags} e c :
  reg e 8 mod 2 ^ 32 = syscall_num c →
  handle_syscall e = match c with
    | Exit => lift (Fault (PanicMsg "not yet implemented: Syscall::Exit not implemented"))
    | Log => sys_log e | PhyMap => sys_phy_map e | MemMap => sys_mem_map e
    | MemUnmap => sys_mem_unmap e | DownloadMoreRam => sys_download_more_ram e
    | LoadKernelDevice => sys_load_kernel_device e | SleepSec => sys_sleep_sec e end.
Proof.
  intros Hn. unfold handle_syscall.
  rewrite (proj2 (try_from_iff (discriminant := syscall_num) _ c) Hn). by destruct c.
Qed.

Section dispatch.
Context `{Profile} `{Linked} `{ThreadLayout} `{Board}.
Context `{!TryFromPrimitive syscall_num} `{!BitFlags PhyMapFlags} `{!BitFlags MemMapFlags}.

(** The faults a call with registers [e] in state [s] may end in: a failed check; for the two
    calls that read memory of the process, a byte of the buffer passed in the registers that
    cannot be read; for the one that waits, waiting for ever. *)
Definition call_fails (e : ExceptionContext) (s : sys) (x : fault) : Prop :=
  match try_from (discriminant := syscall_num) (reg e 8 mod 2 ^ 32) with
  | Some Log => read_fails s (reg e 0) (Z.min (reg e 1) 256) x
  | Some LoadKernelDevice => checked x ∨ read_fails s (reg e 0) size_of_GicAndTimer x
  | Some SleepSec => checked x ∨ x = OutOfFuel
  | _ => checked x
  end.

(** The same, without the memory: which faults a call may end in at all. *)
Definition call_faults (c : option Syscall) (x : fault) : Prop :=
  match c with
  | Some (Log | LoadKernelDevice) => x ≠ OutOfFuel
  | Some SleepSec => checked x ∨ x = OutOfFuel
  | _ => checked x
  end.

Lemma call_fails_faults e s x :
  call_fails e s x → call_faults (try_from (discriminant := syscall_num) (reg e 8 mod 2 ^ 32)) x.
Proof.
  unfold call_fails. destruct (try_from _) as [[]|]; cbn [call_faults]; try done.
  - apply read_fails_fuel.
  - intros [Hc|Hr]; [by destruct x|by eapply read_fails_fuel].
Qed.

Lemma handle_syscall_fails root e s :
  sys_ok root s → regs_ok e → reg e 8 mod 2 ^ 32 ≠ syscall_num DownloadMoreRam →
  handled root e s (call_fails e s) (handle_syscall e s).
Proof.
  intros Hok Hr Hn. unfold handle_syscall, call_fails.
  destruct (try_from (reg e 8 mod 2 ^ 32)) as [c|] eqn:E; last first.
  { apply handled_println; [done|]. intros s' Hs'. apply handled_done; [done|]. by eapply moves_ok. }
  apply try_from_iff in E. pose proof (reg_u64 e 0 Hr) as [Hx0 _].
  destruct c.
  - exact I.
  - by apply sys_log_handled.
  - by apply sys_phy_map_handled.
  - by apply sys_mem_map_handled.
  - by apply sys_mem_unmap_handled.
  - done.
  - by apply sys_load_kernel_device_handled.
  - by apply sys_sleep_sec_handled.
Qed.

Lemma handle_syscall_handled root e s :
  sys_ok root s → regs_ok e → reg e 8 mod 2 ^ 32 ≠ syscall_num DownloadMoreRam →
  handled root e s (call_faults (try_from (discriminant := syscall_num) (reg e 8 mod 2 ^ 32)))
    (handle_syscall e s).
Proof.
  intros Hok Hr Hn. eapply handled_mono; [apply call_fails_faults|]. by apply handle_syscall_fails.
Qed.
End dispatch.

(** ** Every call *)

(** C8. A system call other than [DownloadMoreRam], with arbitrary register contents, in a sound
    machine.  If it returns, at most [x0] of the caller's registers has changed, to a machine word; the tables of
    the process are well formed, no table is in the pool of free pages, no page went back to
    the pool, no frame outside the tables and the pool was written, and the interrupt mask,
    the system registers and the thread are as before.  Otherwise a check of the code failed
    (a panic or an arithmetic overflow); or the call sleeps for ever; or, in [Log] and
    [LoadKernelDevice] alone, a byte of the buffer the caller passed cannot be read from user
    mode, or is in a page the process has mapped where there is no memory.  No other index out
    of bounds, data abort or access to memory that is not there is possible. *)
Theorem syscall_sound `{Profile} `{Linked} `{ThreadLayout} `{Board}
    `{!TryFromPrimitive syscall_num} `{!BitFlags PhyMapFlags} `{!BitFlags MemMapFlags}
    (root far : Z) (e : ExceptionContext) (s : sys) :
  sys_ok root s → regs_ok e → reg e 8 mod 2 ^ 32 ≠ syscall_num DownloadMoreRam →
  match exception_handler2 ESR_SVC far e s with
  | Ok (r, s') => (r = Some e ∨ ∃ x, is_u64 x ∧ r = Some (set_x0 x e)) ∧ sys_ok root s'
      ∧ (∀ h, free_frame (kern s') h → free_frame (kern s) h)
      ∧ (∀ h, ¬ free_frame (kern s) h → ¬ is_table (phys (kern s)) root h →
           phys (kern s') !! h = phys (kern s) !! h)
      ∧ daif (kern s') = daif (kern s) ∧ cpu s' = cpu s ∧ INIT_THREAD s' = INIT_THREAD s
  | Fault x => call_fails e s x
  end.
Proof.
  intros Hok Hr Hn. pose proof (handle_syscall_fails root e s Hok Hr Hn) as Hh.
  unfold exception_handler2. rewrite Z.eqb_refl. unfold mbind, M_bind.
  destruct (handle_syscall e s) as [[e' s']|x]; [|done]. destruct Hh as [He Hm].
  split; [destruct He as [->|(x & Hx & ->)]; eauto|]. split; [by eapply moves_ok|].
  destruct Hm as [[_ _ Hf Hfr Hd%shape_daif] Ht Hc]. done.
Qed.

Lemma syscall_sound_witness :
  match exception_handler2 ESR_SVC 0 (call_regs 0x2000 1 0 3) small_sys with
  | Ok (r, s') => r = Some (call_regs 0x50000000 1 0 3) ∧ sys_ok MapSpec.ROOT s'
  | Fault _ => False
  end.
Proof.
  pose proof (syscall_sound MapSpec.ROOT 0 (call_regs 0x2000 1 0 3) small_sys small_sys_ok) as Hs.
  assert (match exception_handler2 ESR_SVC 0 (call_regs 0x2000 1 0 3) small_sys with
    | Ok (r, _) => r = Some (call_regs 0x50000000 1 0 3) | Fault _ => False end) as Hv
    by (vm_compute; reflexivity).
  destruct (exception_handler2 ESR_SVC 0 (call_regs 0x2000 1 0 3) small_sys) as [[r s']|x]; [|exact Hv].
  split; [exact Hv|]. apply Hs.
  - apply call_regs_ok; unfold is_u64; lia.
  - vm_compute. discriminate.
Defined.

(** ** The running machine *)

(** What happens while the process runs: it makes system calls, interrupts arrive, it (or the
    kernel on its behalf) stores to memory that holds no table, and the MMU caches
    translations. *)
Inductive sys_step `{Profile} `{Linked} `{ThreadLayout} `{Board}
    `{!TryFromPrimitive syscall_num} `{!BitFlags PhyMapFlags} `{!BitFlags MemMapFlags}
    (root : Z) : sys → sys → Prop :=
| step_svc far e e' s s' :
    regs_ok e → reg e 8 mod 2 ^ 32 ≠ syscall_num DownloadMoreRam →
    exception_handler2 ESR_SVC far e s = Ok (Some e', s') → sys_step root s s'
| step_irq e e' s s' : irq_handler e s = Ok (e', s') → sys_step root s s'
| step_store g fr s :
    ¬ is_table (phys (kern s)) root g → length fr = 512%nat →
    sys_step root s (set_kern (set_phys (<[g := fr]> (phys (kern s))) (kern s)) s)
| step_fill page e s :
    walk (phys (kern s)) (table_base (TTBR0_EL1 (cpu s))) (PAGE_SIZE * page) = Some e →
    sys_step root s (set_kern (set_tlb (<[page := e.2]> (tlb (kern s))) (kern s)) s).

Section running.
Context `{Profile} `{Linked} `{ThreadLayout} `{Board}.
Context `{!TryFromPrimitive syscall_num} `{!BitFlags PhyMapFlags} `{!BitFlags MemMapFlags}.

Lemma sys_step_ok root s s' :
  sys_step root s s' → sys_ok root s → sys_ok root s' ∧ cpu s' = cpu s ∧ INIT_THREAD s' = INIT_THREAD s.
Proof.
  intros Hstep Hok. destruct Hstep as [far e e' s s' Hr Hn Hs|e e' s s' Hs|g fr s Hg Hl|page e s He].
  - pose proof (handle_syscall_handled root e s Hok Hr Hn) as Hh.
    unfold exception_handler2 in Hs. rewrite Z.eqb_refl in Hs. unfold mbind, M_bind in Hs.
    destruct (handle_syscall e s) as [[e1 s1]|x]; [|done]. apply ok_inj in Hs. injection Hs as _ <-. destruct Hh as [_ Hm].
    split; [exact (moves_ok _ _ _ Hok Hm)|]. destruct Hm as [_ Ht Hc]. exact (conj Hc Ht).
  - unfold irq_handler, mbind, M_bind in Hs. rewrite on_drv_run in Hs.
    destruct (Gic.handle_irq _) as [[[] d]|x]; [|done]. apply ok_inj in Hs. simplify_eq.
    split; [|done]. destruct Hok. by split.
  - split; [|done]. destruct Hok as [Ht Hr Hm]. split; [exact Ht|exact Hr|]. by apply MapSpec.mm_ok_store.
  - split; [|done]. destruct Hok as [Ht Hr Hm]. split; [exact Ht|exact Hr|]. by apply MapSpec.mm_ok_tlb.
Qed.
End running.

(** C7. The running machine: whatever the process asks for (short of announcing more RAM),
    however its calls interleave with interrupts, with stores to frames that are no tables and
    with table walks, its page tables stay well formed and disjoint from the free pages, the
    allocator stays sound, and translation keeps going through the same root table. *)
Theorem system_invariant `{Profile} `{Linked} `{ThreadLayout} `{Board}
    `{!TryFromPrimitive syscall_num} `{!BitFlags PhyMapFlags} `{!BitFlags MemMapFlags}
    (root : Z) (s s' : sys) :
  sys_ok root s → rtc (sys_step root) s s' →
  sys_ok root s' ∧ alloc_ok (kern s') ∧ tree_wf (phys (kern s')) root
  ∧ (∀ h, is_table (phys (kern s')) root h → ¬ free_page_frame (PAGE_ALLOC (kern s')) h)
  ∧ cpu s' = cpu s ∧ INIT_THREAD s' = INIT_THREAD s.
Proof.
  intros Hok Hrtc. enough (sys_ok root s' ∧ cpu s' = cpu s ∧ INIT_THREAD s' = INIT_THREAD s) as (Hok' & Hc & Ht).
  { split; [done|]. pose proof (so_mm _ _ Hok') as [Hsrc Htree Hown]. done. }
  revert Hok. induction Hrtc as [s|s s1 s' Hstep _ IH]; intros Hok; [done|].
  destruct (sys_step_ok root s s1 Hstep Hok) as (Hok1 & Hc1 & Ht1).
  destruct (IH Hok1) as (? & Hc & Ht). rewrite Hc, Ht. done.
Qed.

Lemma system_invariant_witness :
  ∃ s1 s2 e, sys_step MapSpec.ROOT small_sys s1 ∧ sys_step MapSpec.ROOT s1 s2
    ∧ irq_handler e s1 = Ok (e, s2) ∧ sys_ok MapSpec.ROOT s2.
Proof.
  pose (e := call_regs 0x2000 1 0 3).
  destruct (exception_handler2 ESR_SVC 0 e small_sys) as [[r s1]|x] eqn:E1;
    [|apply (f_equal (λ r, match r with Ok _ => true | Fault _ => false end)) in E1; vm_compute in E1; discriminate].
  destruct r as [e1|];
    [|apply (f_equal (λ r, match r with Ok (Some _, _) => true | _ => false end)) in E1; vm_compute in E1; discriminate].
  destruct (irq_handler e s1) as [[e2 s2]|x] eqn:E2; cycle 1.
  { exfalso. assert ((gic s1, uart s1) = (gic small_sys, uart small_sys)) as Hg.
    { apply (f_equal (λ r, match r with Ok (_, s) => (gic s, uart s) | Fault _ => (Gic.gic_reset, Gic.sample_uart) end)) in E1.
      rewrite <- E1. vm_compute. reflexivity. }
    unfold irq_handler, mbind, M_bind in E2. rewrite on_drv_run, Hg in E2. vm_compute in E2. discriminate. }
  assert (e2 = e) as ->.
  { unfold irq_handler, mbind, M_bind in E2. destruct (on_drv _ s1) as [[[] s3]|x]; [|discriminate].
    injection E2 as <- _. reflexivity. }
  assert (sys_step MapSpec.ROOT small_sys s1) as S1.
  { eapply step_svc; [|..|exact E1]; [apply call_regs_ok; unfold is_u64; lia|vm_compute; discriminate]. }
  assert (sys_step MapSpec.ROOT s1 s2) as S2 by (eapply step_irq, E2).
  exists s1, s2, e. split; [exact S1|]. split; [exact S2|]. split; [exact E2|].
  apply (system_invariant MapSpec.ROOT small_sys s2 small_sys_ok).
  eapply rtc_l; [exact S1|]. apply rtc_once, S2.
Defined.
