(* ===== verification/CallSpec.v ===== *)
(** * Contracts of single system calls (kernel/src/aarch64/usermode.rs)

    What mapping memory, printing and sleeping do, seen from the process. *)

From S2P Require Import Prelude Interrupts.
From S2P Require Bitmap.
From S2P Require Import Memory.
From S2P Require PageAlloc HeapSpec.
From S2P Require Import Kernel PageTable KernelTables.
From S2P Require KernelSpec MapSpec.
From S2P Require Import PageTree Mapping Translation FindHole KernelApi.
From S2P Require Gic.
From S2P Require Import Console Machine Usermode Exceptions SyscallInv SyscallSpec.
Import Gic (gic_st, Board, cntfrq_el0, cntpct_el0, counter_reads, GICC_BASE).
Import PageAlloc (PageSlice, buf, len).

Local Open Scope Z_scope.

(** ** Flags *)

(** The attributes [MemMap] gives to the pages. *)
Definition mem_map_attrs (flags : Z) : Z :=
  Z.lor (Z.lor PT_ISH PT_MEM) (if Z.testbit flags 0 then PT_RW_EL0 else PT_RO_EL0).

Lemma land_one x : Z.land x 1 = Z.b2z (Z.testbit x 0).
Proof. change 1 with (Z.ones 1). rewrite Z.land_ones by lia. by rewrite Z.bit0_mod. Qed.

Lemma contains_rw `{!BitFlags MemMapFlags} x :
  contains (all := MemMapFlags) (from_bits_truncate (all := MemMapFlags) x) MemMap_ReadWrite
    = Z.testbit x 0.
Proof.
  rewrite contains_spec, from_bits_truncate_spec. change MemMapFlags with 1.
  change MemMap_ReadWrite with 1. rewrite !land_one, Z.b2z_bit0. by destruct (Z.testbit x 0).
Qed.

Section mem_map.
Context `{Profile} `{ThreadLayout}.
Variable root : Z.

(** A request that runs out of the 2 MiB slot found for it is for more than a page. *)
Lemma hole_too_small m len v :
  tree_wf m root → find_hole m (va_of root) 0x50000000 len = Ok (Some v) →
  2 ^ 21 < v mod 2 ^ 21 + len → PAGE_SIZE < len.
Proof.
  intros Hwf Hv Hbig. destruct (vm_hole_spec m root Hwf 0x50000000 len ltac:(lia)) as (r & Hr & Hsp).
  rewrite Hv in Hr. apply ok_inj in Hr. destruct (Hsp v (eq_sym Hr)) as (_ & Hal & _).
  unfold PAGE_SIZE in *. clear - Hbig Hal. zdiv.
Qed.

(** The translation after a range of pages has been mapped to consecutive frames. *)
Lemma range_walk k k' lo n f attrs va :
  range_mapped root k k' lo n (λ i, Z.lor (Z.lor (PAGE_SIZE * f + PAGE_SIZE * (i - lo)) COMMON_FLAGS) attrs) →
  mm_ok root k → 0 ≤ f → f + n ≤ 2 ^ 36 → 0 ≤ attrs < PAGE_SIZE → 0 ≤ va < 2 ^ 39 →
  walk (phys k') (PAGE_SIZE * root) va =
    if (lo <=? va / PAGE_SIZE) && (va / PAGE_SIZE <? lo + n)
    then let g := f + (va / PAGE_SIZE - lo) in
         Some (PAGE_SIZE * g + va mod PAGE_SIZE, Z.lor (Z.lor (PAGE_SIZE * g) COMMON_FLAGS) attrs)
    else walk (phys k) (PAGE_SIZE * root) va.
Proof.
  intros Hr Hok Hf Hn Ha Hva. rewrite !walk_pte by (apply Hok || apply Hr || done).
  rewrite (rg_pte _ _ _ _ _ _ Hr) by done.
  destruct ((lo <=? va / PAGE_SIZE) && (va / PAGE_SIZE <? lo + n)) eqn:E; [|done].
  cbv zeta. replace (PAGE_SIZE * f + PAGE_SIZE * (va / PAGE_SIZE - lo))
    with (PAGE_SIZE * (f + (va / PAGE_SIZE - lo))) by lia.
  rewrite leaf_walk_desc by lia. done.
Qed.
End mem_map.

(** Why [n] pages find no place in the address space of the process, when [taken] frames have
    already been taken for them: [find_hole] finds no address; too few free frames are left for
    the tables; or, for more than a page, the region found runs into a page that is mapped or
    past 512 GiB. *)
Definition no_room `{Profile} (root : Z) (k : kst) (taken n : Z) (x : fault) : Prop :=
  match find_hole (phys k) (va_of root) 0x50000000 (PAGE_SIZE * n) with
  | Ok None => x = PanicMsg "Out of virtual memory space"
  | Ok (Some v) => (x = PanicMsg "OOM" ∧ pool_below k (taken + tables_for n))
      ∨ (1 < n
         ∧ ((x = PanicMsg "Tried to map memory that is already occupied"
             ∧ ∃ va, v ≤ va < v + PAGE_SIZE * n ∧ va < 2 ^ 39 ∧ pte (phys k) root va ≠ 0)
            ∨ (x = PanicMsg "assertion failed: vaddr < 0x8000000000" ∧ 2 ^ 39 < v + PAGE_SIZE * n)))
  | Fault _ => False
  end.

Lemma vmap_no_room `{Profile} root k k' taken n x :
  mm_ok root k → phys k' = phys k → pool_loses k k' taken → vmap_panics root k' n x → no_room root k taken n x.
Proof.
  intros Hok Hp Hpl. unfold vmap_panics, no_room. rewrite Hp.
  destruct (find_hole _ _ _ _) as [[v|]|] eqn:Hv; [|done|done].
  intros [[-> Hb]|[Hbig Hx]]; [left; split; [done|by eapply pool_loses_below]|right].
  pose proof (hole_too_small root _ _ v (mm_tree _ _ Hok) Hv Hbig) as Hn.
  split; [unfold PAGE_SIZE in Hn; lia|done].
Qed.

Lemma no_room_panics `{Profile} root k taken n x : no_room root k taken n x → ∃ msg, x = PanicMsg msg.
Proof.
  unfold no_room. destruct (find_hole _ _ _ _) as [[v|]|]; [|intros ->; by eexists|done].
  intros [[-> _]|[_ [[-> _]|[-> _]]]]; by eexists.
Qed.

Lemma mem_map_attrs_small x : 0 ≤ mem_map_attrs x < PAGE_SIZE.
Proof. unfold mem_map_attrs, PAGE_SIZE. destruct (Z.testbit x 0); vm_compute; split; discriminate || reflexivity. Qed.

(** The outcome of [MemMap]. *)
Lemma mem_map_spec `{Profile} `{Linked} `{ThreadLayout} `{Board}
    `{!TryFromPrimitive syscall_num} `{!BitFlags PhyMapFlags} `{!BitFlags MemMapFlags}
    (root : Z) (e : ExceptionContext) (s : sys) :
  sys_ok root s → regs_ok e → reg e 8 mod 2 ^ 32 = syscall_num MemMap →
  let len := reg e 0 in
  let n := div_ceil len PAGE_SIZE in
  let attrs := mem_map_attrs (reg e 1) in
  let ttbr := table_base (TTBR0_EL1 (cpu s)) in
  match handle_syscall e s with
  | Ok (e', s') => len = PAGE_SIZE * n ∧ 0 < n ∧ ∃ lo f,
      e' = set_x0 (PAGE_SIZE * lo) e ∧ 0x50000000 ≤ PAGE_SIZE * lo ∧ PAGE_SIZE * (lo + n) ≤ 2 ^ 39
      ∧ (∀ va, 0 ≤ va < 2 ^ 39 → walk (phys (kern s')) ttbr va =
           if (lo <=? va / PAGE_SIZE) && (va / PAGE_SIZE <? lo + n)
           then let g := f + (va / PAGE_SIZE - lo) in
                Some (PAGE_SIZE * g + va mod PAGE_SIZE,
                      Z.lor (Z.lor (PAGE_SIZE * g) COMMON_FLAGS) attrs)
           else walk (phys (kern s)) ttbr va)
      ∧ (∀ i, lo ≤ i < lo + n → walk (phys (kern s)) ttbr (PAGE_SIZE * i) = None)
      ∧ (∀ g, f ≤ g < f + n → free_page_frame (PAGE_ALLOC (kern s)) g
           ∧ ¬ free_page_frame (PAGE_ALLOC (kern s')) g ∧ ¬ is_table (phys (kern s')) root g
           ∧ phys (kern s') !! g = phys (kern s) !! g)
      ∧ sys_ok root s'
  | Fault x =>
      (x = PanicMsg "OOM" ∧ (len = 0 ∨ (∀ i, ¬ PageAlloc.hole (PAGE_ALLOC (kern s)) i n)))
      ∨ (x = PanicMsg "assertion failed: size_bytes % PAGE_SIZE == 0" ∧ len mod PAGE_SIZE ≠ 0)
      ∨ (len = PAGE_SIZE * n ∧ no_room root (kern s) n n x)
  end.
Proof.
  intros Hok Hr Hc len n attrs ttbr. rewrite (handle_syscall_arm e MemMap Hc).
  pose proof (reg_u64 e 0 Hr) as Hlen. fold len in Hlen.
  assert (0 ≤ n) as Hn by (unfold n; rewrite div_ceil_spec by done; unfold PAGE_SIZE, is_u64 in *; zdiv).
  unfold sys_mem_map. destruct (so_thread _ _ Hok) as (t & Ht & Hp).
  rewrite (M_bind_ok _ _ _ t s) by (by apply as_mut_ok). rewrite Hp, contains_rw.
  replace (if Z.testbit (reg e 1) 0 then Z.lor (Z.lor PT_ISH PT_MEM) PT_RW_EL0
           else Z.lor (Z.lor PT_ISH PT_MEM) PT_RO_EL0) with attrs
    by (unfold attrs, mem_map_attrs; by destruct (Z.testbit (reg e 1) 0)).
  pose proof (so_mm _ _ Hok) as Hmm. pose proof (alloc_evolves root (kern s) n Hmm Hn) as Ha.
  unfold mbind at 1, M_bind at 1. rewrite on_kern_run. fold len. fold n.
  destruct (alloc n (kern s)) as [[sl k]|x]; last first.
  { left. destruct Ha as [-> Hno]. split; [done|]. destruct (Z.eq_dec len 0); [by left|right]. apply Hno.
    unfold n. rewrite div_ceil_spec by done. unfold PAGE_SIZE, is_u64 in *. zdiv. }
  destruct Ha as (i & Hpos & Hhole & -> & Hev & Hphys & Htlb & Hpool).
  pose proof (mm_src _ _ Hmm) as Hsrc. cbn [src_ok kernel_tables] in Hsrc.
  pose proof (hole_frames (kern s) i n Hsrc Hhole) as Hfr.
  set (f := PageAlloc.frame_of (PAGE_ALLOC (kern s)) i) in *.
  pose proof (Hfr 0 ltac:(lia)) as (_ & Hf0 & _). pose proof (Hfr (n - 1) ltac:(lia)) as (_ & Hf1 & _).
  cbn [buf]. unfold mbind, M_bind. rewrite on_kern_run. cbn [kern set_kern].
  replace (from_virt (PageAlloc.page_addr (PAGE_ALLOC (kern s)) i)) with {| pa := PAGE_SIZE * f |}; last first.
  { destruct Hsrc as [Hwf Hwin _]. pose proof (PageAlloc.page_frame (PAGE_ALLOC (kern s)) i Hwf Hwin) as E.
    destruct Hhole as (? & ? & _). fold (PageAlloc.capacity (PAGE_ALLOC (kern s))) in *.
    fold f in E. destruct (from_virt _). simpl in E. f_equal. symmetry. apply E. lia. }
  destruct (Z.eq_dec (len mod PAGE_SIZE) 0) as [Hmod|Hmod]; last first.
  { unfold vmap. rewrite (proj2 (Z.eqb_neq _ _)) by done. right; left. by split. }
  assert (len = PAGE_SIZE * n) as Hln
    by (unfold n, div_ceil; rewrite Hmod; cbn; unfold PAGE_SIZE in *; zdiv).
  pose proof (vmap_spec root k (PAGE_SIZE * f) n attrs (ev_ok _ _ _ Hev) Hn) as Hv. rewrite <- Hln in Hv.
  specialize (Hv ltac:(unfold PAGE_SIZE; lia) ltac:(rewrite Hln; unfold PAGE_SIZE; lia)).
  destruct (vmap _ _ _ _ k) as [[v k']|x].
  - destruct Hv as (lo & -> & Hlo & Hend & Hfree & Hrg). split; [done|]. split; [done|].
    exists lo, f. rewrite <- Hphys.
    assert (moves root s (set_kern k' (set_kern k s))) as Hmv.
    { split; [|done..]. eapply evolves_trans; [done|]. by eapply range_evolves. }
    split_and!; [done|done|lia| | | |by eapply moves_ok].
    + intros va Hva. unfold ttbr. rewrite (so_ttbr _ _ Hok).
      apply range_walk; [done|apply Hev|lia|lia|apply mem_map_attrs_small|done].
    + intros i' Hi'. unfold ttbr. rewrite (so_ttbr _ _ Hok), walk_pte by (apply Hev || (unfold PAGE_SIZE in *; lia)).
      by rewrite Hfree.
    + intros g Hg. pose proof (Hfr (g - f) ltac:(lia)) as (Hfree' & _ & _).
      replace (f + (g - f)) with g in Hfree' by lia.
      assert (¬ free_page_frame (PAGE_ALLOC k) g) as Hnf by (intros [_ ?]%Hpool; lia).
      assert (¬ is_table (phys k) root g) as Hnt.
      { rewrite Hphys. intros Hi. by apply (mm_owned _ _ Hmm g). }
      split; [done|]. split; [intros Hx; apply Hnf; by apply (rg_free _ _ _ _ _ _ Hrg)|].
      split; [|by apply (rg_frames _ _ _ _ _ _ Hrg)].
      intros Hx. by destruct (rg_new _ _ _ _ _ _ Hrg g Hx).
  - right; right. split; [done|]. eapply vmap_no_room; [done|exact Hphys| |exact Hv].
    exists ((λ j, f + j) <$> seqZ 0 n). rewrite length_fmap, length_seqZ. split; [lia|]. intros h Hh.
    destruct (decide (f ≤ h < f + n)) as [Hin|Hout]; [right|left; exact (proj2 (Hpool h) (conj Hh Hout))].
    apply list_elem_of_fmap. exists (h - f). rewrite elem_of_seqZ. split; lia.
Qed.

(** C12. [MemMap] of [len] bytes.  If it returns, [len] is a positive number of pages; the address
    in [x0] is page aligned and at least [0x50000000], and its pages did not translate before;
    they now translate to consecutive frames, readable, or writable too if the flag says so, by
    the process, and every other address translates as before.  The frames were free, are no
    longer, are not page tables, and have their previous contents.  Otherwise the kernel
    panics: [len] is zero or there is no run of so many free pages; [len] is not a number of
    pages; [find_hole] finds no address; the pool has fewer frames than the pages and their
    tables may need; or, for more than one page, the region found runs into a mapped page or
    past 512 GiB ([no_room]). *)
Theorem mem_map_contract `{Profile} `{Linked} `{ThreadLayout} `{Board}
    `{!TryFromPrimitive syscall_num} `{!BitFlags PhyMapFlags} `{!BitFlags MemMapFlags}
    (root : Z) (e : ExceptionContext) (s : sys) :
  sys_ok root s → regs_ok e → reg e 8 mod 2 ^ 32 = syscall_num MemMap →
  let len := reg e 0 in
  let n := div_ceil len PAGE_SIZE in
  let attrs := mem_map_attrs (reg e 1) in
  let ttbr := table_base (TTBR0_EL1 (cpu s)) in
  match handle_syscall e s with
  | Ok (e', s') => len = PAGE_SIZE * n ∧ 0 < n ∧ ∃ lo f,
      e' = set_x0 (PAGE_SIZE * lo) e ∧ 0x50000000 ≤ PAGE_SIZE * lo ∧ PAGE_SIZE * (lo + n) ≤ 2 ^ 39
      ∧ (∀ va, 0 ≤ va < 2 ^ 39 → walk (phys (kern s')) ttbr va =
           if (lo <=? va / PAGE_SIZE) && (va / PAGE_SIZE <? lo + n)
           then let g := f + (va / PAGE_SIZE - lo) in
                Some (PAGE_SIZE * g + va mod PAGE_SIZE,
                      Z.lor (Z.lor (PAGE_SIZE * g) COMMON_FLAGS) attrs)
           else walk (phys (kern s)) ttbr va)
      ∧ (∀ i, lo ≤ i < lo + n → walk (phys (kern s)) ttbr (PAGE_SIZE * i) = None)
      ∧ (∀ g, f ≤ g < f + n → free_page_frame (PAGE_ALLOC (kern s)) g
           ∧ ¬ free_page_frame (PAGE_ALLOC (kern s')) g ∧ ¬ is_table (phys (kern s')) root g
           ∧ phys (kern s') !! g = phys (kern s) !! g)
      ∧ sys_ok root s'
  | Fault x =>
      (x = PanicMsg "OOM" ∧ (len = 0 ∨ (∀ i, ¬ PageAlloc.hole (PAGE_ALLOC (kern s)) i n)))
      ∨ (x = PanicMsg "assertion failed: size_bytes % PAGE_SIZE == 0" ∧ len mod PAGE_SIZE ≠ 0)
      ∨ (len = PAGE_SIZE * n ∧ no_room root (kern s) n n x)
  end.
Proof. apply mem_map_spec. Qed.

Lemma mem_map_contract_witness :
  match handle_syscall (H := dev) (H0 := KernelSpec.sample_link) (H1 := sample_layout)
          (H2 := Gic.sample_board) (H3 := kernel_tables (H := dev)) (call_regs 0x2000 1 0 3) small_sys with
  | Ok (e', s') => e' = call_regs 0x50000000 1 0 3
      ∧ sys_ok (H := dev) (H0 := sample_layout) MapSpec.ROOT s'
  | Fault _ => False
  end.
Proof.
  pose proof (mem_map_contract (H := dev) (H0 := KernelSpec.sample_link) (H1 := sample_layout)
    (H2 := Gic.sample_board) MapSpec.ROOT (call_regs 0x2000 1 0 3) small_sys small_sys_ok) as Hs.
  assert (match handle_syscall (H := dev) (H0 := KernelSpec.sample_link) (H1 := sample_layout)
          (H2 := Gic.sample_board) (H3 := kernel_tables (H := dev)) (call_regs 0x2000 1 0 3) small_sys with
    | Ok (r, _) => r = call_regs 0x50000000 1 0 3 | Fault _ => False end) as Hv
    by (vm_compute; reflexivity).
  cbv zeta in Hs. destruct (handle_syscall _ _) as [[r s']|x]; [|exact Hv].
  split; [exact Hv|].
  destruct Hs as (_ & _ & lo & f & _ & _ & _ & _ & _ & _ & Hok'); [|reflexivity|exact Hok'].
  apply call_regs_ok; unfold is_u64; lia.
Defined.

(** ** Printing *)

(** The byte [b] that the process itself would read at [va]: the page is mapped and accessible
    from user mode. *)
Definition user_byte (s : sys) (va b : Z) : Prop :=
  va < 2 ^ 48 ∧ ∃ p d, walk (phys (kern s)) (table_base (TTBR0_EL1 (cpu s))) va = Some (p, d)
    ∧ Z.testbit d 6 = true ∧ read_byte (phys (kern s)) p = Ok b.

Lemma ldtrb_user_byte s va b :
  ldtrb (phys (kern s)) (table_base (TTBR0_EL1 (cpu s))) va = Ok b ↔ user_byte s va b.
Proof.
  unfold ldtrb, user_byte. destruct (Z.ltb_spec va (2 ^ 48)); [|split; [done|lia]].
  destruct (walk _ _ va) as [[p d]|].
  - destruct (Z.testbit d 6) eqn:E.
    + split; [intros; split; [done|]; by exists p, d|]. by intros (_ & ? & ? & [= <- <-] & _ & ?).
    + split; [done|]. by intros (_ & ? & ? & [= <- <-] & ? & _); congruence.
  - split; [done|]. by intros (_ & ? & ? & ? & _).
Qed.

Lemma read_byte_range m p b : read_byte m p = Ok b → 0 ≤ b < 256.
Proof.
  unfold read_byte. intros (w & _ & E)%res_bind_inv. apply ok_inj in E as <-. apply Z.mod_pos_bound. lia.
Qed.

Section copy.
Context `{Profile}.

(** The addresses [copy_from_user] reads, in order. *)
Lemma copy_bytes_ok (s : sys) ptr bs : ∀ k,
  0 ≤ ptr → 0 ≤ k → ptr + k + Z.of_nat (length bs) ≤ 2 ^ 64 →
  (∀ i b, bs !! i = Some b → user_byte s (ptr + k + Z.of_nat i) b) →
  copy_bytes (phys (kern s)) (table_base (TTBR0_EL1 (cpu s))) ptr (seqZ k (Z.of_nat (length bs))) = Ok bs.
Proof.
  induction bs as [|b bs IH]; intros k Hp Hk Hend Hb; [done|].
  cbn [length] in *. rewrite seqZ_cons by lia. cbn [copy_bytes].
  rewrite uadd_ok by (unfold is_u64; lia). run.
  rewrite (proj2 (ldtrb_user_byte s (ptr + k) b)) by (specialize (Hb 0%nat b eq_refl); by rewrite Z.add_0_r in Hb).
  run. replace (Z.pred (Z.of_nat (S (length bs)))) with (Z.of_nat (length bs)) by lia.
  rewrite IH; [done|done|lia|lia|]. intros i b' Hi. specialize (Hb (S i) b' Hi).
  by replace (ptr + Z.succ k + Z.of_nat i) with (ptr + k + Z.of_nat (S i)) by lia.
Qed.

Lemma copy_bytes_inv (s : sys) ptr n bs : ∀ k,
  0 ≤ n →
  copy_bytes (phys (kern s)) (table_base (TTBR0_EL1 (cpu s))) ptr (seqZ k n) = Ok bs →
  Z.of_nat (length bs) = n
  ∧ ∀ i b, bs !! i = Some b → ∃ va, uadd ptr (k + Z.of_nat i) = Ok va ∧ user_byte s va b.
Proof.
  intros k Hn. revert k bs. pattern n; apply natlike_ind; [| |done]; clear n Hn.
  - intros k bs E. apply ok_inj in E as <-. done.
  - intros n Hn IH k bs. rewrite seqZ_cons, Z.pred_succ by lia. cbn [copy_bytes].
    intros (va & Hva & (b & Hb & (bs' & Hbs & E)%res_bind_inv)%res_bind_inv)%res_bind_inv.
    apply ok_inj in E as <-. destruct (IH _ _ Hbs) as [Hl Hi]. split; [cbn [length]; lia|].
    intros [|i] b' Hb'.
    + simplify_eq/=. exists va. rewrite Z.add_0_r. split; [done|]. by apply ldtrb_user_byte.
    + destruct (Hi i b' Hb') as (va' & Hva' & Hu). exists va'.
      by replace (k + Z.of_nat (S i)) with (Z.succ k + Z.of_nat i) by lia.
Qed.
End copy.

(** [Log] is a copy and a print. *)
Lemma log_run `{Profile} `{Linked} `{ThreadLayout} `{Board} `{TableAlloc}
    `{!TryFromPrimitive syscall_num} `{!BitFlags PhyMapFlags} `{!BitFlags MemMapFlags}
    (e : ExceptionContext) (s : sys) :
  reg e 8 mod 2 ^ 32 = syscall_num Log →
  handle_syscall e s =
    match copy_bytes (phys (kern s)) (table_base (TTBR0_EL1 (cpu s))) (reg e 0)
            (seqZ 0 (Z.min (reg e 1) 256)) with
    | Ok bs => Ok (e, printed bs s) | Fault f => Fault f
    end.
Proof.
  intros Hc. rewrite (handle_syscall_arm e Log Hc). unfold sys_log, mbind, M_bind.
  rewrite copy_from_user_run. destruct (copy_bytes _ _ _ _); [|done]. by rewrite sys_puts_run.
Qed.

(** C18. [Log] prints at most the first 256 bytes of the buffer, and nothing but bytes the process
    could have read itself: if they are all readable they are sent to the UART in order and
    nothing else changes; if the call returns, then what was printed is exactly those bytes; a
    pointer into the kernel's half of the address space is refused by the MMU before anything
    is printed. *)
Theorem log_bounded `{Profile} `{Linked} `{ThreadLayout} `{Board} `{TableAlloc}
    `{!TryFromPrimitive syscall_num} `{!BitFlags PhyMapFlags} `{!BitFlags MemMapFlags}
    (e : ExceptionContext) (s : sys) :
  regs_ok e → reg e 8 mod 2 ^ 32 = syscall_num Log →
  let ptr := reg e 0 in
  let n := Z.min (reg e 1) 256 in
  (∀ bs, Z.of_nat (length bs) = n → ptr + n ≤ 2 ^ 64 →
     (∀ i b, bs !! i = Some b → user_byte s (ptr + Z.of_nat i) b) →
     handle_syscall e s = Ok (e, printed bs s))
  ∧ (∀ e' s', handle_syscall e s = Ok (e', s') → e' = e ∧ ∃ bs, s' = printed bs s
       ∧ Z.of_nat (length bs) = n ∧ n ≤ 256
       ∧ ∀ i b, bs !! i = Some b → 0 ≤ b < 256 ∧ ∃ va, uadd ptr (Z.of_nat i) = Ok va ∧ user_byte s va b)
  ∧ (2 ^ 48 ≤ ptr → 0 < n → handle_syscall e s = Fault DataAbort).
Proof.
  intros Hr Hc ptr n. pose proof (reg_u64 e 0 Hr) as Hp. pose proof (reg_u64 e 1 Hr) as Hl.
  fold ptr in Hp. assert (0 ≤ n) as Hn by (unfold n, is_u64 in *; lia).
  rewrite (log_run e s Hc). fold ptr n. split_and!.
  - intros bs Hb Hend Hu. rewrite <- Hb.
    rewrite copy_bytes_ok; [done|unfold is_u64 in *; lia|done|lia|]. intros i b Hi. rewrite Z.add_0_r. by apply Hu.
  - intros e' s' E. destruct (copy_bytes _ _ _ _) as [bs|] eqn:Eb; [|done]. apply ok_inj in E. simplify_eq.
    split; [done|]. exists bs. destruct (copy_bytes_inv s ptr n bs 0 Hn Eb) as [Hlen Hi].
    split_and!; [done|done|unfold n; lia|]. intros i b Hb. destruct (Hi i b Hb) as (va & Hva & Hu).
    split; [|by exists va]. destruct Hu as (_ & p & d & _ & _ & Hrb). by eapply read_byte_range.
  - intros Hk Hpos. rewrite seqZ_cons by lia. cbn [copy_bytes].
    rewrite uadd_ok by (by rewrite Z.add_0_r). run. unfold ldtrb.
    by rewrite (proj2 (Z.ltb_ge _ _)) by lia.
Qed.

(** The small machine after the process has mapped a page, which starts with the bytes of "Hi". *)
#[local] Existing Instances dev KernelSpec.sample_link sample_layout Gic.sample_board.

Definition mapped_sys : sys :=
  match handle_syscall (call_regs 0x1000 1 0 3) small_sys with
  | Ok (_, s) =>
      let p := match walk (phys (kern s)) (table_base (TTBR0_EL1 (cpu s))) 0x50000000 with
               | Some (p, _) => p | None => 0 end in
      match write_word (phys (kern s)) p 0x6948 with
      | Ok m => set_kern (set_phys m (kern s)) s
      | Fault _ => s
      end
  | Fault _ => small_sys
  end.

Lemma log_bounded_witness :
  handle_syscall (call_regs 0x50000000 2 0 1) mapped_sys
    = Ok (call_regs 0x50000000 2 0 1, printed (text "Hi") mapped_sys).
Proof.
  destruct (log_bounded (call_regs 0x50000000 2 0 1) mapped_sys) as (Hok & _).
  - apply call_regs_ok; unfold is_u64; lia.
  - reflexivity.
  - apply Hok; [reflexivity|vm_compute; discriminate|].
    intros i b Hi. assert (i = 0%nat ∧ b = 0x48 ∨ i = 1%nat ∧ b = 0x69) as [[-> ->]|[-> ->]].
    { destruct i as [|[|i]]; [left|right|]; cbn in Hi; by simplify_eq. }
    all: apply ldtrb_user_byte; vm_compute; reflexivity.
Defined.

(** ** Sleeping *)

(** The clock at the [k]-th reading of the counter, in milliseconds. *)
Definition ms_at `{Board} (k : nat) : Z := cntpct_el0 k * 1000 / cntfrq_el0.

(** A board whose first readings of the clock convert without overflow, as does a time. *)
Record clock_ok `{Board} (K : nat) (limit : Z) : Prop := {
  ck_freq : 0 < cntfrq_el0;
  ck_ticks : ∀ k, (k ≤ K)%nat → 0 ≤ cntpct_el0 k ∧ cntpct_el0 k * 1000 < 2 ^ 64;
  ck_limit : 0 ≤ limit ∧ limit < 2 ^ 64 ∧ cntfrq_el0 / 1000 * limit < 2 ^ 64;
}.

Section sleep.
Context `{Profile} `{Board}.
Variables (K : nat) (deadline : Z).
Hypothesis Hclock : clock_ok K deadline.

Lemma ms_at_nonneg k : (k ≤ K)%nat → 0 ≤ ms_at k.
Proof using Hclock.
  intros Hk. destruct Hclock as [Hf Ht _]. specialize (Ht k Hk). unfold ms_at. apply Z.div_pos; lia.
Qed.

Lemma get_time_ok g :
  (counter_reads g ≤ K)%nat →
  Gic.timer_get_absolute_time_ms g = Ok (ms_at (counter_reads g), Gic.count_counter g).
Proof using Hclock.
  intros Hk. destruct Hclock as [Hf Ht _]. specialize (Ht (counter_reads g) Hk).
  unfold Gic.timer_get_absolute_time_ms. rewrite (M_bind_ok _ _ g (counter_reads g) g) by done.
  erewrite M_bind_ok by done.
  rewrite (lift_bind_ok _ _ _ (cntpct_el0 (counter_reads g) * 1000)) by (apply umul_ok; unfold is_u64; lia).
  by rewrite (lift_bind_ok _ _ _ tt) by (unfold assert; by rewrite (proj2 (Z.eqb_neq _ _)) by lia).
Qed.

Lemma set_timeout_ok ms g :
  0 ≤ ms ≤ deadline → GICC_BASE g ≠ 0 →
  Gic.timer_set_timeout ms g = Ok (tt, Gic.set_ctl 1 (Gic.set_tval (cntfrq_el0 / 1000 * ms) g)).
Proof using Hclock.
  intros Hms Hb. destruct Hclock as [Hf _ Hlim]. unfold Gic.timer_set_timeout.
  rewrite (M_bind_ok _ _ g (GICC_BASE g) g) by done.
  rewrite (lift_bind_ok _ _ _ tt) by (unfold assert; by rewrite (proj2 (Z.eqb_neq _ _))).
  assert (0 ≤ cntfrq_el0 / 1000) by (apply Z.div_pos; lia).
  by rewrite (lift_bind_ok _ _ _ (cntfrq_el0 / 1000 * ms)) by (apply umul_ok; unfold is_u64; nia).
Qed.

(** One round before the deadline arms the timer and reads the clock again; one at or after
    it leaves the loop. *)
Lemma sleep_round_ok g b :
  GICC_BASE g ≠ 0 → (counter_reads g ≤ K)%nat →
  sleep_round deadline (g, b) =
    if deadline <=? ms_at (counter_reads g) then Ok (Gic.count_counter g, true)
    else Ok (Gic.set_ctl 1 (Gic.set_tval (cntfrq_el0 / 1000 * (deadline - ms_at (counter_reads g)))
               (Gic.count_counter g)), false).
Proof using Hclock.
  intros Hb Hk. unfold sleep_round. rewrite get_time_ok by done. run.
  pose proof (ms_at_nonneg (counter_reads g) Hk). destruct (Z.leb_spec deadline (ms_at (counter_reads g))).
  - by rewrite Z.max_l by lia.
  - rewrite Z.max_r by lia. rewrite (proj2 (Z.eqb_neq _ _)) by lia.
    by rewrite set_timeout_ok by (simpl; lia || done).
Qed.

(** The loop ends with the first reading at or past the deadline. *)
Lemma sleep_until_ok g :
  GICC_BASE g ≠ 0 → (counter_reads g ≤ K)%nat → Z.of_nat K < 2 ^ 63 → deadline ≤ ms_at K →
  (∀ k, (counter_reads g ≤ k < K)%nat → ms_at k < deadline) →
  ∃ g', sleep_until deadline g = Ok (tt, g') ∧ counter_reads g' = S K
    ∧ Gic.writes g' = Gic.writes g ∧ GICC_BASE g' = GICC_BASE g
    ∧ (if Nat.eqb (counter_reads g) K then Gic.cntp_ctl_el0 g' = Gic.cntp_ctl_el0 g
       else Gic.cntp_ctl_el0 g' = 1
         ∧ Gic.cntp_tval_el0 g' = cntfrq_el0 / 1000 * (deadline - ms_at (pred K))).
Proof using Hclock.
  intros Hb Hle HK Hdone Hbefore.
  set (I := λ '((g', fin) : gic_st * bool),
    (counter_reads g ≤ counter_reads g')%nat
    ∧ (if fin then counter_reads g' = S K else (counter_reads g' ≤ K)%nat)
    ∧ Gic.writes g' = Gic.writes g ∧ GICC_BASE g' = GICC_BASE g
    ∧ (let last := if fin then K else counter_reads g' in
       if Nat.eqb (counter_reads g) last then Gic.cntp_ctl_el0 g' = Gic.cntp_ctl_el0 g
       else Gic.cntp_ctl_el0 g' = 1
         ∧ Gic.cntp_tval_el0 g' = cntfrq_el0 / 1000 * (deadline - ms_at (pred last)))).
  assert (returns (while (λ '((_, fin) : gic_st * bool), negb fin) (sleep_round deadline) (g, false))
    (λ '(g', fin), fin = true ∧ I (g', fin))) as ([g' fin] & Hw & -> & Hlast & Hr & Hwr & Hgc & Hctl).
  { apply (while_returns _ _ I (λ '(g', fin), if fin then 0 else 1 + Z.of_nat K - Z.of_nat (counter_reads g'))).
    - unfold I. by rewrite Nat.eqb_refl.
    - lia.
    - intros [g1 fin] (H1 & H2 & H3 & H4 & H5) Hfin. destruct fin; [done|].
      rewrite sleep_round_ok by (congruence || lia). cbv zeta in H5.
      destruct (Z.leb_spec deadline (ms_at (counter_reads g1))) as [Hge|Hlt]; apply returns_ok.
      + assert (counter_reads g1 = K) as <-.
        { destruct (Nat.lt_ge_cases (counter_reads g1) K); [|lia].
          specialize (Hbefore (counter_reads g1)). lia. }
        unfold I. simpl. split; [|lia]. split_and!; [lia|done|done|done|done].
      + assert (counter_reads g1 ≠ K) by (intros E; rewrite E in Hlt; lia).
        unfold I. simpl. split; [|lia]. split_and!; [lia|lia|done|done|].
        rewrite (proj2 (Nat.eqb_neq _ _)) by lia. done.
    - intros [g1 fin] HI Hfin. by destruct fin. }
  exists g'. split; [|by split_and!]. unfold sleep_until. rewrite Hw. done.
Qed.
End sleep.

(** C19. [SleepSec]: on a board whose clock eventually reaches the deadline, with the controller
    loaded, the call returns zero.  It returns upon the first reading of the clock, after the
    one that fixed the deadline, that is not before it, and not earlier; until then the timer
    is armed for the time that is left.  Nothing but the console and the timer changes. *)
Theorem sleep_returns `{Profile} `{Linked} `{ThreadLayout} `{Board} `{TableAlloc}
    `{!TryFromPrimitive syscall_num} `{!BitFlags PhyMapFlags} `{!BitFlags MemMapFlags}
    (e : ExceptionContext) (s : sys) (K : nat) :
  let first := counter_reads (gic s) in
  let deadline := ms_at first + reg e 0 * 1000 in
  regs_ok e → reg e 8 mod 2 ^ 32 = syscall_num SleepSec → GICC_BASE (gic s) ≠ 0 →
  clock_ok K deadline → (first < K)%nat → Z.of_nat K < 2 ^ 63 →
  deadline ≤ ms_at K → (∀ k, (first < k < K)%nat → ms_at k < deadline) →
  ∃ s', handle_syscall e s = Ok (set_x0 0 e, s') ∧ counter_reads (gic s') = S K
    ∧ (if Nat.eqb (S first) K then Gic.cntp_ctl_el0 (gic s') = Gic.cntp_ctl_el0 (gic s)
       else Gic.cntp_ctl_el0 (gic s') = 1
         ∧ Gic.cntp_tval_el0 (gic s') = cntfrq_el0 / 1000 * (deadline - ms_at (pred K)))
    ∧ Gic.writes (gic s') = Gic.writes (gic s)
    ∧ kern s' = kern s ∧ cpu s' = cpu s ∧ INIT_THREAD s' = INIT_THREAD s.
Proof.
  intros first deadline Hr Hc Hb Hck HK HK63 Hend Hbefore.
  rewrite (handle_syscall_arm e SleepSec Hc). unfold sys_sleep_sec.
  erewrite M_bind_ok by (apply on_gic_ok, (get_time_ok K deadline Hck); lia). fold first.
  pose proof (reg_u64 e 0 Hr) as Hx. pose proof (ck_limit _ _ Hck) as Hlim.
  assert (0 ≤ ms_at first) by (apply (ms_at_nonneg K deadline Hck); lia).
  rewrite (lift_bind_ok _ _ _ (reg e 0 * 1000)) by (apply umul_ok; unfold is_u64, deadline in *; lia).
  rewrite (lift_bind_ok _ _ _ deadline) by (apply uadd_ok; unfold is_u64, deadline in *; lia).
  erewrite M_bind_ok by apply sys_println_run.
  destruct (sleep_until_ok K deadline Hck (Gic.count_counter (gic s))) as (g' & Hg & Hreads & Hw & _ & Hctl);
    [done|simpl; lia|done|done|intros k Hk; apply Hbefore; simpl in *; lia|].
  erewrite M_bind_ok by (apply on_gic_ok; exact Hg).
  eexists. split; [reflexivity|]. by split_and!.
Qed.

(** One second on the sample board, whose clock advances by a millisecond per reading: the call
    returns at reading 1000. *)
Lemma sleep_returns_witness :
  ∃ s', handle_syscall (call_regs 1 0 0 7) small_sys = Ok (set_x0 0 (call_regs 1 0 0 7), s')
    ∧ counter_reads (gic s') = 1001%nat.
Proof.
  destruct (sleep_returns (call_regs 1 0 0 7) (small_sys) 1000) as (s' & Hs & Hn & _).
  - apply call_regs_ok; unfold is_u64; lia.
  - reflexivity.
  - discriminate.
  - split; [reflexivity| |vm_compute; done].
    intros k Hk. cbn [cntpct_el0 Gic.sample_board]. lia.
  - vm_compute. lia.
  - vm_compute. reflexivity.
  - vm_compute. discriminate.
  - intros k Hk. assert (ms_at k = Z.of_nat k) as ->.
    { unfold ms_at. cbn [cntpct_el0 cntfrq_el0 Gic.sample_board].
      replace (1000 * Z.of_nat k * 1000) with (Z.of_nat k * 1000000) by lia. apply Z.div_mul. lia. }
    change (Z.of_nat k < 1000). lia.
  - exists s'. split; [exact Hs|exact Hn].
Defined.
