(* ===== verification/StartSpec.v ===== *)
(** * The first process (kernel/src/aarch64/usermode.rs, [start])

    What the process sees when it starts: its program at the entry point, its stack, nothing
    else; and where the pages of its stack really are. *)

From S2P Require Import Prelude Interrupts.
From S2P Require Bitmap.
From S2P Require Import Memory.
From S2P Require PageAlloc HeapSpec.
From S2P Require Import Kernel PageTable KernelTables.
From S2P Require KernelSpec MapSpec.
From S2P Require Import PageTree Mapping Translation FindHole KernelApi.
From S2P Require Gic.
From S2P Require Import Console Machine Usermode UserMemory Exceptions Boot SyscallInv SyscallSpec CallSpec.
Import Gic (Board).
Import PageAlloc (PageSlice, buf, len).

Local Open Scope Z_scope.

(** A word-sized field of [Thread] outside its page table. *)
Record field_ok `{ThreadLayout} (off : Z) : Prop := {
  fo_aligned : off mod 8 = 0;
  fo_inside : 0 ≤ off ∧ off + 8 ≤ size_of_Thread;
  fo_apart : off + 8 ≤ off_page_table ∨ off_page_table + PAGE_SIZE ≤ off;
}.

(** What the layout of [Thread] must satisfy.  The compiler promises all of it except that the
    stack starts on a page. *)
Class LayoutOk `{ThreadLayout} : Prop := {
  lay_size : 0 < size_of_Thread < 2 ^ 30 ∧ size_of_Thread mod PAGE_SIZE = 0;
  lay_table : off_page_table mod PAGE_SIZE = 0 ∧ 0 ≤ off_page_table
    ∧ off_page_table + PAGE_SIZE ≤ size_of_Thread;
  lay_pc : field_ok off_pc;
  lay_sp : field_ok off_sp;
  lay_spsr : field_ok off_spsr;
  lay_distinct : off_pc ≠ off_sp ∧ off_pc ≠ off_spsr ∧ off_sp ≠ off_spsr;
  lay_stack : off_stack mod PAGE_SIZE = 0 ∧ 0 ≤ off_stack ∧ off_stack + STACK_BYTES ≤ size_of_Thread;
}.

Section zeroed.
Context `{Profile}.

(** [PAGE_ALLOC.lock().alloc_zeroed(n).expect("OOM")]. *)
Lemma alloc_zeroed_run s n :
  alloc_ok s → 0 ≤ n →
  match critical (slice ← on_alloc_mem (λ m al, PageAlloc.alloc_zeroed m al n);
                  lift (expect slice "OOM")) s with
  | Ok (sl, s') => ∃ i, 0 < n ∧ PageAlloc.hole (PAGE_ALLOC s) i n
      ∧ (let f := PageAlloc.frame_of (PAGE_ALLOC s) i in
         sl = {| buf := VIRT_BASE + PAGE_SIZE * f; len := PAGE_SIZE * n |}
         ∧ 0 ≤ f ∧ f + n ≤ 2 ^ 27
         ∧ (∀ g, f ≤ g < f + n → free_page_frame (PAGE_ALLOC s) g)
         ∧ (∀ g, free_page_frame (PAGE_ALLOC s') g ↔
               free_page_frame (PAGE_ALLOC s) g ∧ ¬ (f ≤ g < f + n))
         ∧ phys s' = <[f := replicate 512 0]> (phys s))
      ∧ alloc_ok s' ∧ shape s' = shape s ∧ tlb s' = tlb s
  | Fault x => x = PanicMsg "OOM"
  end.
Proof.
  intros Hok Hn. pose proof Hok as [Hwf Hwin Hback]. rewrite critical_run.
  unfold mbind at 1, M_bind at 1. unfold on_alloc_mem, PageAlloc.alloc_zeroed.
  cbn [set_DAIF kst_daif phys PAGE_ALLOC].
  destruct (PageAlloc.alloc_ok (PAGE_ALLOC s) n Hwf Hn)
    as [(i & al' & -> & Hpos & Hhole & _ & Hsp)|[-> Hnone]]; run; [|done].
  pose proof (hole_frames s i n Hok Hhole) as Hfr. pose proof (Hfr 0 ltac:(lia)) as (_ & Hf0 & Hfo).
  pose proof (Hfr (n - 1) ltac:(lia)) as (_ & Hf1 & _). rewrite Z.add_0_r in Hf0, Hfo.
  destruct (taken_pool _ _ _ _ Hwin Hhole Hsp) as (_ & _ & Hpool).
  assert (0 ≤ i < PageAlloc.capacity (PAGE_ALLOC s)) as Hi
    by (destruct Hhole as (? & ? & _); unfold PageAlloc.capacity; lia).
  unfold PageAlloc.slice_zero, PageAlloc.as_ptr. cbn [buf]. rewrite PageAlloc.write_page_ok by done. run.
  exists i. split; [done|]. split; [done|]. split; [|split; [|split; [by apply (taken_shape s _ i n)|done]]].
  - cbv zeta. split; [by rewrite (page_va (PAGE_ALLOC s) i) by done|]. split_and!; [lia|lia| |done|done].
    intros g Hg. pose proof (Hfr (g - PageAlloc.frame_of (PAGE_ALLOC s) i) ltac:(lia)) as (Hfree & _).
    by replace (PageAlloc.frame_of (PAGE_ALLOC s) i + (g - PageAlloc.frame_of (PAGE_ALLOC s) i)) with g in Hfree by lia.
  - apply (taken_ok s al' (<[PageAlloc.frame_of (PAGE_ALLOC s) i := replicate 512 0]> (phys s)) i n Hok Hhole Hsp).
    intros g Hg. by apply frame_ok_insert.
Qed.
End zeroed.

(** Words of the thread whose first frame is [f]. *)
Definition field (m : pmem) (f off : Z) : res Z := read_word m (PAGE_SIZE * f + off).

Section thread.
Context `{Profile} `{LayoutOk}.

Definition thread_frames : Z := size_of_Thread / PAGE_SIZE.
Definition root_of (f : Z) : Z := f + off_page_table / PAGE_SIZE.

Lemma field_frame f off :
  0 ≤ f → field_ok off →
  f ≤ (PAGE_SIZE * f + off) / PAGE_SIZE < f + thread_frames
  ∧ (PAGE_SIZE * f + off) / PAGE_SIZE ≠ root_of f
  ∧ (PAGE_SIZE * f + off) / 8 / 512 = (PAGE_SIZE * f + off) / PAGE_SIZE
  ∧ 8 * ((PAGE_SIZE * f + off) / 8) = PAGE_SIZE * f + off.
Proof.
  intros Hf [Ha Hi Hap]. pose proof lay_size as [? Hs]. pose proof lay_table as (Ht & ? & ?).
  unfold root_of, thread_frames, PAGE_SIZE in *. split_and!; zdiv.
Qed.

Lemma field_addr_nonneg f off : 0 ≤ f → field_ok off → 0 ≤ (PAGE_SIZE * f + off) / 8.
Proof. intros Hf [_ Hi _]. unfold PAGE_SIZE. zdiv. Qed.

Lemma field_read m f off :
  0 ≤ f → field_ok off → frame_ok m ((PAGE_SIZE * f + off) / PAGE_SIZE) →
  ∃ w, KernelSpec.word m ((PAGE_SIZE * f + off) / 8) = Some w ∧ field m f off = Ok w.
Proof.
  intros Hf Ho Hok. destruct (field_frame f off Hf Ho) as (_ & _ & Hd & H8).
  destruct (KernelSpec.read_word_word m ((PAGE_SIZE * f + off) / 8)) as (w & Hw & Hr).
  - by apply field_addr_nonneg.
  - by rewrite Hd.
  - rewrite H8 in Hr. by exists w.
Qed.

(** Writing one field. *)
Lemma field_write m f off v :
  0 ≤ f → field_ok off → (∀ g, f ≤ g < f + thread_frames → frame_ok m g) →
  ∃ m', write_word m (PAGE_SIZE * f + off) v = Ok m' ∧ field m' f off = Ok v
    ∧ (∀ off', field_ok off' → off' ≠ off → field m' f off' = field m f off')
    ∧ m' !! root_of f = m !! root_of f
    ∧ (∀ g, ¬ (f ≤ g < f + thread_frames) → m' !! g = m !! g)
    ∧ (∀ g, frame_ok m g → frame_ok m' g).
Proof.
  intros Hf Ho Hfo. destruct (field_frame f off Hf Ho) as (Hin & Hne & Hd & H8).
  destruct (KernelSpec.write_word_word m ((PAGE_SIZE * f + off) / 8) v) as (m' & Hw & Hword & Hfr).
  { by apply field_addr_nonneg. }
  { rewrite Hd. by apply Hfo. }
  rewrite H8 in Hw. exists m'.
  assert (∀ g, frame_ok m g → frame_ok m' g) as Hk by (intros g; by eapply write_word_frame_ok).
  split_and!; [done| | |by apply Hfr; congruence|intros g Hg; apply Hfr; lia|done].
  - destruct (field_read m' f off) as (w & Hw' & ->); [done|done|by apply Hk, Hfo|].
    rewrite Hword, Z.eqb_refl in Hw' by (by apply field_addr_nonneg). congruence.
  - intros off' Ho' Hne'. destruct (field_frame f off' Hf Ho') as (Hin' & _ & _ & H8').
    destruct (field_read m' f off') as (w & Hw' & ->); [done|done|by apply Hk, Hfo|].
    destruct (field_read m f off') as (w2 & Hw2 & ->); [done|done|by apply Hfo|].
    rewrite Hword in Hw' by (by apply field_addr_nonneg).
    rewrite (proj2 (Z.eqb_neq _ _)) in Hw' by lia. congruence.
Qed.

(** [Thread::init] on a thread in [thread_frames] frames from [f] on. *)
Lemma thread_init_ok s f :
  0 ≤ f → f + thread_frames ≤ 2 ^ 27 →
  (∀ g, f ≤ g < f + thread_frames → frame_ok (phys s) g) →
  ∃ m, thread_init (VIRT_BASE + PAGE_SIZE * f) s = Ok (tt, set_phys m s)
    ∧ m !! root_of f = Some (replicate 512 0)
    ∧ field m f off_pc = Ok DEFAULT_PC ∧ field m f off_sp = Ok DEFAULT_SP ∧ field m f off_spsr = Ok 0x140
    ∧ (∀ g, ¬ (f ≤ g < f + thread_frames) → m !! g = phys s !! g)
    ∧ (∀ g, frame_ok (phys s) g → frame_ok m g).
Proof.
  intros Hf Hend Hok. pose proof lay_size as [Hsz Hsm]. pose proof lay_table as (Htm & Ht0 & Ht1).
  assert (root_of f = f + off_page_table / PAGE_SIZE) as Hroot by done.
  assert (f ≤ root_of f < f + thread_frames) as Hrin by (unfold root_of, thread_frames, PAGE_SIZE in *; zdiv).
  assert (∀ off, field_ok off → pa (from_virt (VIRT_BASE + PAGE_SIZE * f + off)) = PAGE_SIZE * f + off) as Hpa.
  { intros off [_ Hi _]. replace (VIRT_BASE + PAGE_SIZE * f + off) with (VIRT_BASE + (PAGE_SIZE * f + off)) by lia.
    apply from_virt_add. unfold thread_frames, PAGE_SIZE in *. lia. }
  destruct (write_bytes_ok (phys s) (VIRT_BASE + PAGE_SIZE * f) 0 f thread_frames) as (m0 & Hm0 & Hfill).
  { unfold thread_frames, PAGE_SIZE. zdiv. }
  { apply from_virt_add. unfold PAGE_SIZE in *. lia. }
  { done. }
  replace (512 * thread_frames) with (size_of_Thread / 8) in Hm0 by (unfold thread_frames, PAGE_SIZE in *; zdiv).
  assert (∀ g, f ≤ g < f + thread_frames → frame_ok m0 g) as Hok0
    by (intros; eapply filled_frame_ok; [done|auto]).
  pose proof lay_pc as Opc. pose proof lay_sp as Osp. pose proof lay_spsr as Ospsr.
  pose proof lay_distinct as (D1 & D2 & D3).
  destruct (field_write m0 f off_pc DEFAULT_PC Hf Opc Hok0) as (m1 & W1 & V1 & F1 & R1 & G1 & K1).
  destruct (field_write m1 f off_sp DEFAULT_SP Hf Osp ltac:(auto)) as (m2 & W2 & V2 & F2 & R2 & G2 & K2).
  destruct (field_write m2 f off_spsr 0x140 Hf Ospsr ltac:(auto)) as (m3 & W3 & V3 & F3 & R3 & G3 & K3).
  exists m3. split_and!.
  - unfold thread_init, on_mem. rewrite (M_bind_ok _ _ s tt (set_phys m0 s)) by (by rewrite Hm0).
    rewrite (M_bind_ok _ _ _ tt (set_phys m1 s)) by (cbn [phys set_phys]; by rewrite Hpa, W1).
    rewrite (M_bind_ok _ _ _ tt (set_phys m2 s)) by (cbn [phys set_phys]; by rewrite Hpa, W2).
    cbn [phys set_phys]. by rewrite Hpa, W3.
  - rewrite R3, R2, R1. by apply (fl_in _ _ _ _ _ Hfill).
  - rewrite F3, F2, V1; done.
  - rewrite F3, V2; done.
  - done.
  - intros g Hg. rewrite G3, G2, G1 by done. by apply (fl_out _ _ _ _ _ Hfill).
  - intros g Hg. apply K3, K2, K1. by eapply filled_frame_ok.
Qed.
(** A fresh thread in the frames from [f] on, its table empty, taken from the pool of [k]. *)
Record fresh_thread (k k' : kst) (f : Z) : Prop := {
  ft_low : 0 ≤ f;
  ft_high : f + thread_frames ≤ 2 ^ 27;
  ft_mm : mm_ok (root_of f) k';
  ft_root : phys k' !! root_of f = Some (replicate 512 0);
  ft_pc : field (phys k') f off_pc = Ok DEFAULT_PC;
  ft_sp : field (phys k') f off_sp = Ok DEFAULT_SP;
  ft_spsr : field (phys k') f off_spsr = Ok 0x140;
  ft_taken : ∀ g, f ≤ g < f + thread_frames → free_page_frame (PAGE_ALLOC k) g;
  ft_pool : ∀ g, free_page_frame (PAGE_ALLOC k') g ↔
    free_page_frame (PAGE_ALLOC k) g ∧ ¬ (f ≤ g < f + thread_frames);
  ft_frames : ∀ g, ¬ (f ≤ g < f + thread_frames) → phys k' !! g = phys k !! g;
  ft_shape : shape k' = shape k;
}.

Lemma root_inside f : f ≤ root_of f < f + thread_frames.
Proof.
  pose proof lay_size as [Hsz Hsm]. pose proof lay_table as (Htm & Ht0 & Ht1).
  unfold root_of, thread_frames, PAGE_SIZE in *. zdiv.
Qed.

(** [INIT_THREAD.init()]. *)
Lemma global_thread_init_ok s :
  alloc_ok (kern s) →
  match global_thread_init s with
  | Ok (_, s') => ∃ f k, s' = set_thread (VIRT_BASE + PAGE_SIZE * f) (set_kern k s) ∧ fresh_thread (kern s) k f
  | Fault x => x = PanicMsg "OOM"
  end.
Proof.
  intros Hok. pose proof lay_size as [Hsz Hsm]. pose proof lay_table as (Htm & Ht0 & Ht1).
  assert (div_ceil size_of_Thread PAGE_SIZE = thread_frames) as Hdc
    by (unfold div_ceil, thread_frames; by rewrite Hsm).
  assert (0 < thread_frames) as Hpos by (unfold thread_frames, PAGE_SIZE in *; zdiv).
  pose proof (alloc_zeroed_run (kern s) thread_frames Hok ltac:(lia)) as Ha.
  unfold global_thread_init, box_new_zeroed. rewrite Hdc. unfold mbind at 1, M_bind at 1. rewrite on_kern_run.
  unfold mbind at 1, M_bind at 1. destruct (critical _ (kern s)) as [[sl k1]|x]; [|done].
  destruct Ha as (i & _ & _ & (-> & Hf & Hend & Hfree & Hpool & Hphys) & Hok1 & Hd1 & _).
  set (f := PageAlloc.frame_of (PAGE_ALLOC (kern s)) i) in *. cbn [mret M_ret slice buf].
  assert (∀ g, free_page_frame (PAGE_ALLOC (kern s)) g → frame_ok (phys k1) g) as Hback.
  { intros g (j & Hj & Hu & ->). rewrite Hphys. apply frame_ok_insert; [done|]. by apply (ao_backed _ Hok). }
  destruct (thread_init_ok k1 f Hf Hend) as (m & Hm & Hr & Hpc & Hsp & Hspsr & Hout & Hfk); [auto|].
  erewrite M_bind_ok by (apply on_kern_ok; exact Hm). exists f, (set_phys m k1).
  pose proof (root_inside f) as Hrin.
  split; [done|]. split; [done|done| |done..|exact Hpool| |done].
  - split.
    + by apply src_ok_phys.
    + apply MapSpec.empty_root_wf; [lia|done].
    + intros h Hh%(MapSpec.empty_root_tables _ _ _ Hr) [_ Hn]%Hpool. subst h. by apply Hn.
  - intros g Hg. cbn [phys set_phys]. rewrite Hout by done. rewrite Hphys, lookup_insert_ne by lia. done.
Qed.
End thread.

(** Nothing is mapped by an empty table. *)
Lemma empty_root_pte m root va : m !! root = Some (replicate 512 0) → pte m root va = 0.
Proof.
  intros Hm. unfold pte, path. cbn [descend]. unfold child, entry. rewrite Hm. cbn [mbind option_bind].
  destruct (replicate 512 0 !! _) as [x|] eqn:E; [|done]. apply lookup_replicate in E as [-> _]. done.
Qed.

Lemma table_base_set_baddr f : table_base (set_baddr (PAGE_SIZE * f)) = PAGE_SIZE * f.
Proof.
  unfold table_base, set_baddr. cbn [BADDR]. rewrite Z.shiftl_mul_pow2, Z.shiftr_div_pow2 by lia.
  unfold PAGE_SIZE. change (2 ^ 1) with 2. zdiv.
Qed.

Section start.
Context `{Profile} `{Linked} `{LayoutOk} `{Board}.

(** The two mapping loops on the empty table of a fresh thread. *)
Lemma map_code_ok k root thread fc n :
  mm_ok root k → page_table thread = va_of root → 0 ≤ fc → 0 ≤ n → fc + n ≤ 2 ^ 27 →
  map_outcome root k (DEFAULT_PC / PAGE_SIZE) n (λ i, {| pa := PAGE_SIZE * fc + PAGE_SIZE * i |}) PAGE_FLAGS
    (map_code thread (VIRT_BASE + PAGE_SIZE * fc) n k).
Proof.
  intros Hok Hp Hfc Hn Hend. unfold map_code. rewrite offsets_pages, Hp by done.
  apply map_loop; [done|vm_compute; split; discriminate || reflexivity|done|].
  intros i s Hi Hle. unfold DEFAULT_PC in *. change (0x10000000 / PAGE_SIZE) with 0x10000 in *.
  rewrite (lift_bind_ok _ _ _ (PAGE_SIZE * (0x10000 + i)))
    by (rewrite uadd_ok by (unfold is_u64, PAGE_SIZE; lia); f_equal; unfold PAGE_SIZE; lia).
  do 2 f_equal. replace (VIRT_BASE + PAGE_SIZE * fc + PAGE_SIZE * i) with (VIRT_BASE + (PAGE_SIZE * fc + PAGE_SIZE * i)) by lia.
  pose proof (from_virt_add (PAGE_SIZE * fc + PAGE_SIZE * i) ltac:(unfold PAGE_SIZE; lia)) as E.
  destruct (from_virt _) as [p]. cbn in E. by rewrite E.
Qed.

Lemma map_stack_ok k root thread ft :
  mm_ok root k → page_table thread = va_of root → thread = VIRT_BASE + PAGE_SIZE * ft →
  0 ≤ ft < 2 ^ 27 →
  map_outcome root k ((DEFAULT_SP - DEFAULT_STACK_SIZE) / PAGE_SIZE) 4
    (λ i, {| pa := PAGE_SIZE * (ft + off_stack / PAGE_SIZE) + PAGE_SIZE * i |}) PAGE_FLAGS (map_stack thread k).
Proof.
  intros Hok Hp -> Hft. pose proof lay_stack as (Hsm & Hs0 & Hs1). pose proof lay_size as [Hsz _].
  unfold map_stack. change DEFAULT_STACK_SIZE with (PAGE_SIZE * 4). rewrite offsets_pages, Hp by lia.
  apply map_loop; [done|vm_compute; split; discriminate || reflexivity|lia|].
  intros i s Hi _. change ((DEFAULT_SP - PAGE_SIZE * 4) / PAGE_SIZE) with 0x7ffc.
  replace (DEFAULT_SP - PAGE_SIZE * 4 + PAGE_SIZE * i) with (PAGE_SIZE * (0x7ffc + i))
    by (unfold DEFAULT_SP, PAGE_SIZE; lia).
  f_equal. replace (VIRT_BASE + PAGE_SIZE * ft + off_stack + PAGE_SIZE * i)
    with (VIRT_BASE + (PAGE_SIZE * (ft + off_stack / PAGE_SIZE) + PAGE_SIZE * i))
    by (unfold PAGE_SIZE in *; zdiv).
  pose proof (from_virt_add (PAGE_SIZE * (ft + off_stack / PAGE_SIZE) + PAGE_SIZE * i)
    ltac:(unfold STACK_BYTES, PAGE_SIZE in *; zdiv)) as E.
  destruct (from_virt _) as [p]. cbn in E. by rewrite E.
Qed.

(** [enter]. *)
Lemma enter_ok s f :
  0 ≤ f → f + thread_frames ≤ 2 ^ 27 →
  field (phys (kern s)) f off_pc = Ok DEFAULT_PC → field (phys (kern s)) f off_sp = Ok DEFAULT_SP →
  field (phys (kern s)) f off_spsr = Ok 0x140 →
  enter (VIRT_BASE + PAGE_SIZE * f) s =
    Ok (tt, set_kern (set_tlb ∅ (kern s))
      (set_cpu (set_return DEFAULT_PC DEFAULT_SP 0x140
        (set_ttbr0 (set_baddr (PAGE_SIZE * root_of f)) (cpu s))) s)).
Proof.
  intros Hf Hend Hpc Hsp Hspsr. pose proof lay_size as [Hsz Hsm]. pose proof lay_table as (Htm & Ht0 & Ht1).
  assert (∀ off, 0 ≤ off < size_of_Thread → pa (from_virt (VIRT_BASE + PAGE_SIZE * f + off)) = PAGE_SIZE * f + off) as Hpa.
  { intros off Hoff. replace (VIRT_BASE + PAGE_SIZE * f + off) with (VIRT_BASE + (PAGE_SIZE * f + off)) by lia.
    apply from_virt_add. unfold thread_frames, PAGE_SIZE in *. zdiv. }
  unfold enter, page_table.
  rewrite (Hpa off_page_table), (Hpa off_spsr), (Hpa off_sp), (Hpa off_pc)
    by (try (pose proof (fo_inside _ lay_pc); pose proof (fo_inside _ lay_sp);
             pose proof (fo_inside _ lay_spsr)); unfold PAGE_SIZE in *; lia).
  replace (PAGE_SIZE * f + off_page_table) with (PAGE_SIZE * root_of f)
    by (unfold root_of, PAGE_SIZE in *; zdiv).
  erewrite M_bind_ok by reflexivity. erewrite M_bind_ok by reflexivity. cbn [kern set_cpu].
  fold (field (phys (kern s)) f off_spsr) (field (phys (kern s)) f off_sp) (field (phys (kern s)) f off_pc).
  rewrite (lift_bind_ok _ _ _ 0x140), (lift_bind_ok _ _ _ DEFAULT_SP), (lift_bind_ok _ _ _ DEFAULT_PC) by done.
  erewrite M_bind_ok by reflexivity. done.
Qed.
End start.

(** The first stack address. *)
Definition STACK_BOTTOM : Z := DEFAULT_SP - DEFAULT_STACK_SIZE.

(** What the finished mapping loops leave: code pages, stack pages, nothing else. *)
Lemma start_walks `{Profile} `{LayoutOk} k1 k2 k3 root fc n fs va :
  mm_ok root k1 → phys k1 !! root = Some (replicate 512 0) →
  range_mapped root k1 k2 (DEFAULT_PC / PAGE_SIZE) n
    (λ i, Z.lor (Z.lor (PAGE_SIZE * fc + PAGE_SIZE * (i - DEFAULT_PC / PAGE_SIZE)) COMMON_FLAGS) PAGE_FLAGS) →
  range_mapped root k2 k3 (STACK_BOTTOM / PAGE_SIZE) 4
    (λ i, Z.lor (Z.lor (PAGE_SIZE * fs + PAGE_SIZE * (i - STACK_BOTTOM / PAGE_SIZE)) COMMON_FLAGS) PAGE_FLAGS) →
  0 ≤ n → 0 ≤ fc → fc + n ≤ 2 ^ 27 → 0 ≤ fs < 2 ^ 35 → 0 ≤ va < 2 ^ 39 →
  let desc g := Z.lor (Z.lor (PAGE_SIZE * g) COMMON_FLAGS) PAGE_FLAGS in
  walk (phys k3) (PAGE_SIZE * root) va =
    if (STACK_BOTTOM <=? va) && (va <? DEFAULT_SP)
    then Some (PAGE_SIZE * fs + (va - STACK_BOTTOM), desc (fs + (va - STACK_BOTTOM) / PAGE_SIZE))
    else if (DEFAULT_PC <=? va) && (va <? DEFAULT_PC + PAGE_SIZE * n)
    then Some (PAGE_SIZE * fc + (va - DEFAULT_PC), desc (fc + (va - DEFAULT_PC) / PAGE_SIZE))
    else None.
Proof.
  intros Hok Hroot Hcode Hstack Hn Hfc Hend Hfs Hva desc.
  assert (0 ≤ PAGE_FLAGS < PAGE_SIZE) as Hfl by (vm_compute; split; discriminate || reflexivity).
  rewrite (range_walk root k2 k3 (STACK_BOTTOM / PAGE_SIZE) 4 fs PAGE_FLAGS va) by (done || apply Hcode || lia).
  rewrite (range_walk root k1 k2 (DEFAULT_PC / PAGE_SIZE) n fc PAGE_FLAGS va) by (done || lia).
  rewrite walk_pte, empty_root_pte by (apply Hok || done).
  change (STACK_BOTTOM / PAGE_SIZE) with 0x7ffc. change (DEFAULT_PC / PAGE_SIZE) with 0x10000.
  unfold STACK_BOTTOM. change (DEFAULT_SP - DEFAULT_STACK_SIZE) with 0x7ffc000.
  unfold DEFAULT_SP, DEFAULT_PC, desc. cbv zeta.
  destruct ((0x7ffc000 <=? va) && (va <? 0x8000000)) eqn:E1.
  - replace ((0x7ffc <=? va / PAGE_SIZE) && (va / PAGE_SIZE <? 0x7ffc + 4)) with true
      by (unfold PAGE_SIZE; symmetry; zdiv).
    replace ((va - 0x7ffc000) / PAGE_SIZE) with (va / PAGE_SIZE - 0x7ffc) by (unfold PAGE_SIZE; zdiv).
    do 2 f_equal. unfold PAGE_SIZE. zdiv.
  - replace ((0x7ffc <=? va / PAGE_SIZE) && (va / PAGE_SIZE <? 0x7ffc + 4)) with false
      by (unfold PAGE_SIZE; symmetry; zdiv).
    destruct ((0x10000000 <=? va) && (va <? 0x10000000 + PAGE_SIZE * n)) eqn:E2.
    + replace ((0x10000 <=? va / PAGE_SIZE) && (va / PAGE_SIZE <? 0x10000 + n)) with true
        by (unfold PAGE_SIZE in *; symmetry; zdiv).
      replace ((va - 0x10000000) / PAGE_SIZE) with (va / PAGE_SIZE - 0x10000) by (unfold PAGE_SIZE; zdiv).
      do 2 f_equal. unfold PAGE_SIZE. zdiv.
    + replace ((0x10000 <=? va / PAGE_SIZE) && (va / PAGE_SIZE <? 0x10000 + n)) with false
        by (unfold PAGE_SIZE in *; symmetry; zdiv). done.
Qed.

Lemma map_outcome_ok `{TableAlloc} root k lo n p attrs r :
  map_outcome root k lo n p attrs r → PAGE_SIZE * (lo + n) ≤ 2 ^ 39 →
  (∀ i, lo ≤ i < lo + n → pte (phys k) root (PAGE_SIZE * i) = 0) →
  (∃ k', r = Ok (tt, k')
     ∧ range_mapped root k k' lo n (λ i, Z.lor (Z.lor (pa (p (i - lo))) COMMON_FLAGS) attrs))
  ∨ r = Fault (PanicMsg "OOM").
Proof.
  intros Hm Hend Hz. destruct r as [[[] k']|x].
  - left. exists k'. by destruct Hm as (_ & _ & Hr).
  - right. destruct Hm as [[-> _]|[(_ & i & Hi & _ & Hne)|[_ Hbig]]]; [done| |lia]. by destruct Hne; apply Hz.
Qed.

Section composed.
Context `{Profile} `{Linked} `{LayoutOk} `{Board}.

(** The program copied to the frames [fc .. fc + n - 1], which belong to nobody else. *)
Record loaded (k k' : kst) (INIT_BIN : list Z) (fc n : Z) : Prop := {
  ld_ok : alloc_ok k';
  ld_low : 0 ≤ fc;
  ld_high : fc + n ≤ 2 ^ 27;
  ld_taken : ∀ g, fc ≤ g < fc + n → ¬ free_page_frame (PAGE_ALLOC k') g;
  ld_bytes : ∀ i b, INIT_BIN !! i = Some b → read_byte (phys k') (PAGE_SIZE * fc + Z.of_nat i) = Ok b;
  ld_shape : shape k' = shape k;
  ld_pool : ∀ g, free_page_frame (PAGE_ALLOC k') g → free_page_frame (PAGE_ALLOC k) g;
  ld_frames : ∀ g, ¬ free_page_frame (PAGE_ALLOC k) g → phys k' !! g = phys k !! g;
}.

Lemma load_program k INIT_BIN n :
  alloc_ok k → Forall (λ b, 0 ≤ b < 256) INIT_BIN → Z.of_nat (length INIT_BIN) ≤ PAGE_SIZE * n → 0 ≤ n →
  match critical (slice ← on_alloc_mem (λ m al, PageAlloc.alloc_zeroed m al n);
                  lift (expect slice "OOM")) k with
  | Ok (sl, k1) => ∃ fc m, buf sl = VIRT_BASE + PAGE_SIZE * fc
      ∧ copy_bytes_to (buf sl) INIT_BIN k1 = Ok (tt, set_phys m k1) ∧ loaded k (set_phys m k1) INIT_BIN fc n
  | Fault x => x = PanicMsg "OOM"
  end.
Proof.
  intros Hok Hbytes Hcov Hn. pose proof (alloc_zeroed_run k n Hok Hn) as Ha.
  destruct (critical _ k) as [[sl k1]|x]; [|done].
  destruct Ha as (i & Hpos & _ & (-> & Hfc & Hend & Hfree & Hpool & Hphys) & Hok1 & Hd1 & _).
  set (fc := PageAlloc.frame_of (PAGE_ALLOC k) i) in *. cbn [buf].
  destruct (copy_bytes_to_ok k1 (PAGE_SIZE * fc) INIT_BIN) as (m & Hm & Hcp);
    [unfold PAGE_SIZE; lia|unfold PAGE_SIZE in *; lia|done| |].
  { intros q Hq. destruct (Hfree (q / PAGE_SIZE)) as (j & Hj & Hu & ->); [unfold PAGE_SIZE in *; zdiv|].
    rewrite Hphys. apply frame_ok_insert; [done|]. by apply (ao_backed _ Hok). }
  exists fc, m. split; [done|]. split; [done|]. split; [|done|done| |apply Hcp|done| |].
  - apply (src_ok_phys (TableAlloc := kernel_tables)); [apply Hcp|done].
  - intros g Hg [_ Hnot]%Hpool. by apply Hnot.
  - by intros g [Hg _]%Hpool.
  - intros g Hg. assert (¬ (fc ≤ g < fc + n)) as Hout by (intros Hin; apply Hg, Hfree, Hin).
    cbn [phys set_phys]. rewrite (cp_frames _ _ _ _ Hcp) by (unfold PAGE_SIZE in *; zdiv).
    by rewrite Hphys, lookup_insert_ne by lia.
Qed.

(** The thread and its mappings once both loops are done. *)
Record mapped (k k' : kst) (f fc n : Z) : Prop := {
  mp_evolves : evolves (root_of f) k k';
  mp_walk : ∀ va, 0 ≤ va < 2 ^ 39 →
    walk (phys k') (PAGE_SIZE * root_of f) va =
      if (STACK_BOTTOM <=? va) && (va <? DEFAULT_SP)
      then Some (PAGE_SIZE * f + off_stack + (va - STACK_BOTTOM),
                 Z.lor (Z.lor (PAGE_SIZE * (f + off_stack / PAGE_SIZE + (va - STACK_BOTTOM) / PAGE_SIZE)) COMMON_FLAGS) PAGE_FLAGS)
      else if (DEFAULT_PC <=? va) && (va <? DEFAULT_PC + PAGE_SIZE * n)
      then Some (PAGE_SIZE * fc + (va - DEFAULT_PC),
                 Z.lor (Z.lor (PAGE_SIZE * (fc + (va - DEFAULT_PC) / PAGE_SIZE)) COMMON_FLAGS) PAGE_FLAGS)
      else None;
}.

Lemma map_process k0 k f fc n :
  fresh_thread k0 k f → 0 ≤ fc → 0 ≤ n ≤ 2 ^ 26 → fc + n ≤ 2 ^ 27 →
  let thread := VIRT_BASE + PAGE_SIZE * f in
  match (map_code thread (VIRT_BASE + PAGE_SIZE * fc) n;; map_stack thread) k with
  | Ok (_, k') => mapped k k' f fc n
  | Fault x => x = PanicMsg "OOM"
  end.
Proof.
  intros Hft Hfc Hn Hend thread. pose proof (ft_low _ _ _ Hft) as Hf. pose proof (ft_high _ _ _ Hft) as Hfe.
  pose proof (root_inside f) as Hri.
  assert (page_table thread = va_of (root_of f)) as Hpt.
  { pose proof lay_table as (Htm & _). unfold thread, page_table, va_of, root_of, PAGE_SIZE in *. zdiv. }
  unfold mbind, M_bind.
  destruct (map_outcome_ok _ _ _ _ _ _ _ (map_code_ok k (root_of f) thread fc n (ft_mm _ _ _ Hft) Hpt Hfc ltac:(lia) Hend))
    as [(k1 & -> & Hcode)| ->]; [unfold DEFAULT_PC, PAGE_SIZE; zdiv|intros; apply empty_root_pte, Hft| |done].
  destruct (map_outcome_ok _ _ _ _ _ _ _ (map_stack_ok k1 (root_of f) thread f (rg_ok _ _ _ _ _ _ Hcode) Hpt eq_refl ltac:(lia)))
    as [(k2 & -> & Hstack)| ->]; [vm_compute; discriminate| | |done].
  { intros j Hj. change ((DEFAULT_SP - DEFAULT_STACK_SIZE) / PAGE_SIZE) with 0x7ffc in Hj.
    rewrite (rg_pte _ _ _ _ _ _ Hcode) by (unfold PAGE_SIZE; lia).
    change (DEFAULT_PC / PAGE_SIZE) with 0x10000.
    rewrite (proj2 (Z.leb_gt _ _)) by (unfold PAGE_SIZE; zdiv). apply empty_root_pte, Hft. }
  split; [eapply evolves_trans; by eapply range_evolves|]. intros va Hva.
  pose proof lay_stack as (Hsm & Hs0 & Hs1). pose proof lay_size as [Hsz _].
  rewrite (start_walks k k1 k2 (root_of f) fc n (f + off_stack / PAGE_SIZE) va);
    try (done || apply Hft || lia || (unfold STACK_BYTES, PAGE_SIZE in *; zdiv)).
  by replace (PAGE_SIZE * (f + off_stack / PAGE_SIZE)) with (PAGE_SIZE * f + off_stack)
    by (unfold PAGE_SIZE in *; zdiv).
Qed.

(** Mapping leaves the thread and the program alone. *)
Lemma mapped_frames k0 k k' f fc n :
  fresh_thread k0 k f → (∀ g, fc ≤ g < fc + n → ¬ free_page_frame (PAGE_ALLOC k0) g) →
  mapped k k' f fc n →
  (∀ off, field_ok off → field (phys k') f off = field (phys k) f off)
  ∧ (∀ g, fc ≤ g < fc + n → phys k' !! g = phys k0 !! g).
Proof.
  intros Hft Hcode [Hev _]. pose proof (root_inside f) as Hri.
  assert (∀ h, is_table (phys k) (root_of f) h → h = root_of f) as Htab
    by (intros h; apply MapSpec.empty_root_tables, Hft).
  split.
  - intros off Ho. destruct (field_frame f off (ft_low _ _ _ Hft) Ho) as (Hin & Hne & _ & _).
    unfold field, read_word. rewrite (ev_frames _ _ _ Hev); [done| |by intros ?%Htab].
    intros [_ Hn]%(ft_pool _ _ _ Hft). by apply Hn.
  - intros g Hg. pose proof (Hcode g Hg) as Hnf.
    assert (¬ (f ≤ g < f + thread_frames)) as Hnt by (intros Ht; apply Hnf; by apply (ft_taken _ _ _ Hft)).
    rewrite (ev_frames _ _ _ Hev), (ft_frames _ _ _ Hft); [done|done| |].
    + by intros [? _]%(ft_pool _ _ _ Hft).
    + intros ->%Htab. by apply Hnt.
Qed.
Lemma page_flags_el0 x : Z.testbit (Z.lor x PAGE_FLAGS) 6 = true.
Proof. rewrite Z.lor_spec. apply orb_true_r. Qed.

(** The machine that [enter] leaves. *)
Lemma started kx k0 k k' f fc n INIT_BIN s c :
  loaded kx k0 INIT_BIN fc n → fresh_thread k0 k f → mapped k k' f fc n →
  Z.of_nat (length INIT_BIN) ≤ PAGE_SIZE * n → n ≤ 2 ^ 26 →
  kern s = set_tlb ∅ k' → INIT_THREAD s = Some (VIRT_BASE + PAGE_SIZE * f) →
  cpu s = set_return DEFAULT_PC DEFAULT_SP 0x140 (set_ttbr0 (set_baddr (PAGE_SIZE * root_of f)) c) →
  INIT_THREAD s = Some (va_of f) ∧ sys_ok (root_of f) s
      ∧ ELR_EL1 (cpu s) = DEFAULT_PC ∧ SP_EL0 (cpu s) = DEFAULT_SP ∧ SPSR_EL1 (cpu s) = 0x140
      ∧ (∀ i b, INIT_BIN !! i = Some b → user_byte s (DEFAULT_PC + Z.of_nat i) b)
      ∧ (let t := walk (phys (kern s)) (table_base (TTBR0_EL1 (cpu s))) in
         (∀ va, STACK_BOTTOM ≤ va < DEFAULT_SP → ∃ d,
            t va = Some (PAGE_SIZE * f + off_stack + (va - STACK_BOTTOM), d) ∧ Z.testbit d 6 = true)
         ∧ (∀ va, 0 ≤ va < 2 ^ 39 → ¬ (STACK_BOTTOM ≤ va < DEFAULT_SP) →
              ¬ (DEFAULT_PC ≤ va < DEFAULT_PC + PAGE_SIZE * n) →
              t va = None))
      ∧ shape (kern s) = shape kx ∧ tlb (kern s) = ∅
      ∧ (∀ h, is_table (phys (kern s)) (root_of f) h → free_page_frame (PAGE_ALLOC kx) h)
      ∧ (∀ h, free_page_frame (PAGE_ALLOC (kern s)) h → free_page_frame (PAGE_ALLOC kx) h)
      ∧ (∀ h, ¬ free_page_frame (PAGE_ALLOC kx) h → phys (kern s) !! h = phys kx !! h).
Proof.
  intros Hld Hft Hmp Hcov Hn26 Hk Ht Hc.
  assert (table_base (TTBR0_EL1 (cpu s)) = PAGE_SIZE * root_of f) as Htb
    by (rewrite Hc; apply table_base_set_baddr).
  assert (page_table (VIRT_BASE + PAGE_SIZE * f) = va_of (root_of f)) as Hpt.
  { pose proof lay_table as (Htm & _). unfold page_table, va_of, root_of, PAGE_SIZE in *. zdiv. }
  destruct (mapped_frames _ _ _ _ _ _ Hft (ld_taken _ _ _ _ _ Hld) Hmp) as [_ Hcode].
  assert (∀ va, 0 ≤ va < 2 ^ 39 → walk (phys (kern s)) (PAGE_SIZE * root_of f) va
    = walk (phys k') (PAGE_SIZE * root_of f) va) as Hw by (intros; by rewrite Hk).
  split; [done|]. cbv zeta. rewrite Htb. split.
  { split; [by eexists|done|]. rewrite Hk. apply MapSpec.mm_ok_tlb, (ev_ok _ _ _ (mp_evolves _ _ _ _ _ Hmp)). }
  rewrite Hc. split_and!; [done..| | | | |by rewrite Hk| | |].
  - intros i b Hi. pose proof (lookup_lt_Some _ _ _ Hi) as Hlt.
    assert (0 ≤ DEFAULT_PC + Z.of_nat i < 2 ^ 39) as Hva by (unfold DEFAULT_PC, PAGE_SIZE in *; lia).
    split; [lia|]. rewrite Htb, Hw, (mp_walk _ _ _ _ _ Hmp) by done.
    rewrite (proj2 (Z.ltb_ge _ DEFAULT_SP)), andb_false_r by (unfold DEFAULT_PC, DEFAULT_SP; lia).
    rewrite (proj2 (Z.leb_le _ _)), (proj2 (Z.ltb_lt _ _)) by lia. cbn [andb].
    eexists _, _. split; [done|]. split; [apply page_flags_el0|].
    replace (DEFAULT_PC + Z.of_nat i - DEFAULT_PC) with (Z.of_nat i) by lia.
    rewrite <- (ld_bytes _ _ _ _ _ Hld i b Hi). rewrite Hk. apply read_byte_frame, Hcode.
    unfold PAGE_SIZE in *. zdiv.
  - intros va Hva. assert (0 ≤ va < 2 ^ 39) as Hva39
      by (unfold STACK_BOTTOM, DEFAULT_SP, DEFAULT_STACK_SIZE in Hva; lia).
    rewrite Hw, (mp_walk _ _ _ _ _ Hmp) by done.
    rewrite (proj2 (Z.leb_le _ _)), (proj2 (Z.ltb_lt _ _)) by lia. cbn [andb].
    eexists. split; [done|apply page_flags_el0].
  - intros va Hva Hs Hp. rewrite Hw, (mp_walk _ _ _ _ _ Hmp) by done.
    destruct (Z.leb_spec STACK_BOTTOM va), (Z.ltb_spec va DEFAULT_SP); cbn [andb]; try lia;
      destruct (Z.leb_spec DEFAULT_PC va), (Z.ltb_spec va (DEFAULT_PC + PAGE_SIZE * n)); cbn [andb]; done || lia.
  - rewrite Hk. change (shape (set_tlb ∅ k')) with (shape k'). rewrite (ev_shape _ _ _ (mp_evolves _ _ _ _ _ Hmp)), (ft_shape _ _ _ Hft). apply Hld.
  - intros h Hh. rewrite Hk in Hh. apply (ld_pool _ _ _ _ _ Hld).
    destruct (ev_new _ _ _ (mp_evolves _ _ _ _ _ Hmp) h Hh) as [Hr|Hf].
    + rewrite (MapSpec.empty_root_tables _ _ _ (ft_root _ _ _ Hft) Hr). apply (ft_taken _ _ _ Hft), root_inside.
    + by apply (ft_pool _ _ _ Hft) in Hf as [? _].
  - intros h Hh. rewrite Hk in Hh. apply (ev_free _ _ _ (mp_evolves _ _ _ _ _ Hmp)) in Hh.
    apply (ld_pool _ _ _ _ _ Hld). by apply (ft_pool _ _ _ Hft) in Hh as [? _].
  - intros h Hh. assert (¬ (f ≤ h < f + thread_frames)) as Hout
      by (intros Hin; apply Hh, (ld_pool _ _ _ _ _ Hld), (ft_taken _ _ _ Hft), Hin).
    rewrite Hk. cbn [phys set_tlb]. rewrite (ev_frames _ _ _ (mp_evolves _ _ _ _ _ Hmp)).
    + rewrite (ft_frames _ _ _ Hft) by done. by apply (ld_frames _ _ _ _ _ Hld).
    + intros [Hf _]%(ft_pool _ _ _ Hft). by apply Hh, (ld_pool _ _ _ _ _ Hld).
    + intros Ht'%(MapSpec.empty_root_tables _ _ _ (ft_root _ _ _ Hft)). subst h. apply Hout, root_inside.
Qed.


(** All there is to say about [start]; the tables of the process come from the pool. *)
Lemma start_spec (INIT_BIN : list Z) (s : sys) :
  alloc_ok (kern s) → Forall (λ b, 0 ≤ b < 256) INIT_BIN → Z.of_nat (length INIT_BIN) ≤ 2 ^ 38 →
  match start INIT_BIN s with
  | Ok (_, s') => ∃ f, INIT_THREAD s' = Some (va_of f) ∧ sys_ok (root_of f) s'
      ∧ ELR_EL1 (cpu s') = DEFAULT_PC ∧ SP_EL0 (cpu s') = DEFAULT_SP ∧ SPSR_EL1 (cpu s') = 0x140
      ∧ (∀ i b, INIT_BIN !! i = Some b → user_byte s' (DEFAULT_PC + Z.of_nat i) b)
      ∧ (let t := walk (phys (kern s')) (table_base (TTBR0_EL1 (cpu s'))) in
         (∀ va, STACK_BOTTOM ≤ va < DEFAULT_SP → ∃ d,
            t va = Some (PAGE_SIZE * f + off_stack + (va - STACK_BOTTOM), d) ∧ Z.testbit d 6 = true)
         ∧ (∀ va, 0 ≤ va < 2 ^ 39 → ¬ (STACK_BOTTOM ≤ va < DEFAULT_SP) →
              ¬ (DEFAULT_PC ≤ va < DEFAULT_PC + PAGE_SIZE * div_ceil (Z.of_nat (length INIT_BIN)) PAGE_SIZE) →
              t va = None))
      ∧ shape (kern s') = shape (kern s) ∧ tlb (kern s') = ∅
      ∧ (∀ h, is_table (phys (kern s')) (root_of f) h → free_page_frame (PAGE_ALLOC (kern s)) h)
      ∧ (∀ h, free_page_frame (PAGE_ALLOC (kern s')) h → free_page_frame (PAGE_ALLOC (kern s)) h)
      ∧ (∀ h, ¬ free_page_frame (PAGE_ALLOC (kern s)) h → phys (kern s') !! h = phys (kern s) !! h)
  | Fault x => x = PanicMsg "OOM"
  end.
Proof.
  intros Hok Hbytes Hlen. unfold start. erewrite M_bind_ok by apply sys_println_run.
  set (s0 := printed _ s). set (n := div_ceil (Z.of_nat (length INIT_BIN)) PAGE_SIZE).
  assert (0 ≤ n ∧ Z.of_nat (length INIT_BIN) ≤ PAGE_SIZE * n ∧ n ≤ 2 ^ 26) as (Hn & Hcov & Hn26)
    by (unfold n; rewrite div_ceil_spec by done; unfold PAGE_SIZE; zdiv).
  pose proof (load_program (kern s0) INIT_BIN n Hok Hbytes Hcov Hn) as Hl.
  unfold mbind at 1, M_bind at 1. rewrite on_kern_run.
  destruct (critical _ (kern s0)) as [[sl k1]|x]; [|done]. destruct Hl as (fc & m & Hbuf & Hm & Hld).
  erewrite M_bind_ok by (apply on_kern_ok; exact Hm). rewrite Hbuf.
  set (s2 := set_kern (set_phys m k1) (set_kern k1 s0)).
  pose proof (global_thread_init_ok s2 (ld_ok _ _ _ _ _ Hld)) as Hg.
  unfold mbind at 1, M_bind at 1. destruct (global_thread_init s2) as [[[] s3]|x]; [|done].
  destruct Hg as (f & k3 & -> & Hft). change (kern s2) with (set_phys m k1) in Hft.
  rewrite (M_bind_ok _ _ _ (VIRT_BASE + PAGE_SIZE * f)
    (set_thread (VIRT_BASE + PAGE_SIZE * f) (set_kern k3 s2))) by done.
  pose proof (map_process _ k3 f fc n Hft (ld_low _ _ _ _ _ Hld) (conj Hn Hn26) (ld_high _ _ _ _ _ Hld)) as Hmp.
  cbv zeta in Hmp. unfold mbind at 1, M_bind at 1 in Hmp. unfold mbind at 1, M_bind at 1.
  rewrite on_kern_run. cbn [kern set_thread set_kern].
  destruct (map_code _ _ n k3) as [[[] k4]|x]; [|done].
  unfold mbind at 1, M_bind at 1. rewrite on_kern_run. cbn [kern set_thread set_kern].
  destruct (map_stack _ k4) as [[[] k5]|x]; [|done].
  destruct (mapped_frames _ _ _ _ _ _ Hft (ld_taken _ _ _ _ _ Hld) Hmp) as [Hfields Hcode].
  rewrite enter_ok by (apply Hft || (cbn [kern set_kern]; rewrite Hfields by apply lay_pc || apply lay_sp || apply lay_spsr; apply Hft)).
  exists f. by eapply (started (kern s0) _ k3 k5 f fc n INIT_BIN).
Qed.
End composed.

(** C17. [start] on a sound allocator: the process enters user mode at [0x10000000] with the stack
    pointer at [0x8000000] and IRQs enabled; the bytes at the entry point are the embedded
    program, readable by the process; the 16 KiB below the stack pointer translate to the
    memory that starts with the stack of the thread, and nothing else is mapped.  The running
    machine satisfies the invariant, every page table was a free page, and no memory but free
    pages has been written.  The only panic is "OOM".  ([Thread::stack] has 8 KiB, so
    the upper half of the mapped stack is whatever follows it in memory.) *)
Theorem start_contract `{Profile} `{Linked} `{LayoutOk} `{Board} (INIT_BIN : list Z) (s : sys) :
  alloc_ok (kern s) → Forall (λ b, 0 ≤ b < 256) INIT_BIN → Z.of_nat (length INIT_BIN) ≤ 2 ^ 38 →
  match start INIT_BIN s with
  | Ok (_, s') => ∃ f, INIT_THREAD s' = Some (va_of f) ∧ sys_ok (root_of f) s'
      ∧ ELR_EL1 (cpu s') = DEFAULT_PC ∧ SP_EL0 (cpu s') = DEFAULT_SP ∧ SPSR_EL1 (cpu s') = 0x140
      ∧ (∀ i b, INIT_BIN !! i = Some b → user_byte s' (DEFAULT_PC + Z.of_nat i) b)
      ∧ (let t := walk (phys (kern s')) (table_base (TTBR0_EL1 (cpu s'))) in
         (∀ va, STACK_BOTTOM ≤ va < DEFAULT_SP → ∃ d,
            t va = Some (PAGE_SIZE * f + off_stack + (va - STACK_BOTTOM), d) ∧ Z.testbit d 6 = true)
         ∧ (∀ va, 0 ≤ va < 2 ^ 39 → ¬ (STACK_BOTTOM ≤ va < DEFAULT_SP) →
              ¬ (DEFAULT_PC ≤ va < DEFAULT_PC + PAGE_SIZE * div_ceil (Z.of_nat (length INIT_BIN)) PAGE_SIZE) →
              t va = None))
      ∧ shape (kern s') = shape (kern s) ∧ tlb (kern s') = ∅
      ∧ (∀ h, is_table (phys (kern s')) (root_of f) h → free_page_frame (PAGE_ALLOC (kern s)) h)
      ∧ (∀ h, free_page_frame (PAGE_ALLOC (kern s')) h → free_page_frame (PAGE_ALLOC (kern s)) h)
      ∧ (∀ h, ¬ free_page_frame (PAGE_ALLOC (kern s)) h → phys (kern s') !! h = phys (kern s) !! h)
  | Fault x => x = PanicMsg "OOM"
  end.
Proof. apply start_spec. Qed.

(** ** Booting *)

Lemma sample_layout_ok : @LayoutOk sample_layout.
Proof.
  assert (∀ off, off mod 8 = 0 → 4096 ≤ off → off + 8 ≤ 16384 → @field_ok sample_layout off) as Hf.
  { intros off H8 Hlo Hhi. split; [done| |right].
    - change (@size_of_Thread sample_layout) with 16384. lia.
    - change (@off_page_table sample_layout) with 0. unfold PAGE_SIZE. lia. }
  split; [vm_compute; done..| | | |vm_compute; done|vm_compute; done]; apply Hf; vm_compute; done.
Qed.

(** A machine about to run [kmain]: the pages of the early heap, and 100 bytes of program. *)
Definition boot_machine : sys := {|
  kern := {| PAGE_ALLOC := PAGE_ALLOC_INIT;
             phys := list_to_map ((λ i, (0x40120 + i, replicate 512 0)) <$> seqZ 0 256);
             daif := 0x3c0; tlb := ∅ |};
  gic := Gic.gic_reset;
  uart := {| UART0_ADDR := UART0_INIT; stores := [] |};
  cpu := idle_cpu ttbr_zero;
  INIT_THREAD := None;
|}.

Definition sample_image : BootImage := {|
  TABLE_L0 := 0x40220000; TABLE_L1_MEM := 0x40221000; TABLE_L1_DEV := 0x40222000;
  _vectors := _text_start + 0x800; kmain_low := 0x40101000;
|}.

Definition sample_bin : list Z := replicate 100 0xd4.

#[local] Existing Instances dev KernelSpec.sample_link sample_layout Gic.sample_board sample_image.
#[local] Existing Instance sample_layout_ok.

Lemma small_alloc_ok : alloc_ok (kern small_sys).
Proof. exact (mm_src _ _ MapSpec.map_kernel_ok). Qed.

Lemma start_contract_witness :
  match start sample_bin small_sys with
  | Ok (_, s') => ∃ f, INIT_THREAD s' = Some (va_of f) ∧ sys_ok (root_of f) s'
      ∧ user_byte s' (DEFAULT_PC + 5) 0xd4
  | Fault _ => False
  end.
Proof.
  pose proof (start_contract sample_bin small_sys small_alloc_ok
    ltac:(by apply Forall_replicate) ltac:(vm_compute; discriminate)) as Hs.
  assert (match start sample_bin small_sys with Ok _ => True | Fault _ => False end) as Hv
    by (vm_compute; exact I).
  destruct (start sample_bin small_sys) as [[[] s']|x]; [|exact Hv].
  destruct Hs as (f & Ht & Hok & _ & _ & _ & Hb & _). exists f. split; [exact Ht|]. split; [exact Hok|].
  apply (Hb 5%nat 0xd4). reflexivity.
Defined.

(** The descriptor of a block of 1 GiB at [0x40000000] that user mode may write. *)
Definition USER_BLOCK : Z := Z.lor 0x40000000 (Z.lor (Z.lor (Z.lor PT_BLOCK PT_AF) PT_RW_EL0) PT_ISH).

(** The stack of the first process overlaps its page tables.  After a whole boot with a
    100-byte program, the page at the top of the stack, where the stack pointer starts, is
    writable by the process and is its own level-1 table: storing one word 16 bytes below the
    initial stack pointer gives the process a writable view of the kernel's memory.  ([start]
    maps [DEFAULT_STACK_SIZE], 16 KiB, from [thread.stack], which has 8 KiB, and the first
    table is allocated right after the thread.) *)
Lemma stack_overlaps_tables :
  match kmain sample_bin boot_machine with
  | Ok (_, s') => ∃ g d,
      let ttbr := table_base (TTBR0_EL1 (cpu s')) in
      walk (phys (kern s')) ttbr (DEFAULT_SP - 16) = Some (PAGE_SIZE * g + 4080, d)
      ∧ Z.testbit d 6 = true ∧ Z.testbit d 7 = false
      ∧ is_table (phys (kern s')) (ttbr / PAGE_SIZE) g
      ∧ walk (phys (kern s')) ttbr (0x7f80000000 + 0x100000) = None
      ∧ match write_word (phys (kern s')) (PAGE_SIZE * g + 4080) USER_BLOCK with
        | Ok m => walk m ttbr (0x7f80000000 + 0x100000) = Some (pa (from_virt _text_start), USER_BLOCK)
        | Fault _ => False
        end
  | Fault _ => False
  end.
Proof.
  assert (match kmain sample_bin boot_machine with
    | Ok (_, s') => let ttbr := table_base (TTBR0_EL1 (cpu s')) in
        walk (phys (kern s')) ttbr (DEFAULT_SP - 16)
          = Some (PAGE_SIZE * 0x40125 + 4080, Z.lor (Z.lor (PAGE_SIZE * 0x40125) COMMON_FLAGS) PAGE_FLAGS)
        ∧ descend (phys (kern s')) (ttbr / PAGE_SIZE) [0] = Some 0x40125
        ∧ walk (phys (kern s')) ttbr (0x7f80000000 + 0x100000) = None
        ∧ match write_word (phys (kern s')) (PAGE_SIZE * 0x40125 + 4080) USER_BLOCK with
          | Ok m => walk m ttbr (0x7f80000000 + 0x100000) = Some (pa (from_virt _text_start), USER_BLOCK)
          | Fault _ => False
          end
    | Fault _ => False end) as Hrun by (vm_compute; repeat split).
  destruct (kmain sample_bin boot_machine) as [[[] s']|x]; [|exact Hrun].
  destruct Hrun as (Hw & Hd & Hnone & Hmap).
  exists 0x40125, (Z.lor (Z.lor (PAGE_SIZE * 0x40125) COMMON_FLAGS) PAGE_FLAGS). cbv zeta.
  split_and!; [exact Hw|reflexivity|reflexivity| |exact Hnone|exact Hmap].
  exists [0]. split; [|exact Hd]. split; [simpl; lia|]. repeat constructor; lia.
Qed.
