(* ===== verification/BootSpec.v ===== *)
(** * Properties of the boot code (kernel/src/main.rs, mmu.rs, qemu_console.rs)

    The address space the kernel runs in after [kmain_nommu] and after [eject_lowmem], and the
    hex dumps. *)

From S2P Require Import Prelude Interrupts Memory.
From S2P Require Import Kernel PageTable KernelTables PageTree Translation.
From S2P Require KernelSpec MapSpec.
From S2P Require Import Console Machine Usermode Boot.

Local Open Scope Z_scope.

(** The three tables are whole frames of memory, apart from each other. *)
Record tables_ok `{BootImage} (m : pmem) (f0 fm fd : Z) : Prop := {
  tk_l0 : TABLE_L0 = PAGE_SIZE * f0;
  tk_mem : TABLE_L1_MEM = PAGE_SIZE * fm;
  tk_dev : TABLE_L1_DEV = PAGE_SIZE * fd;
  tk_range : 0 ≤ f0 < 2 ^ 36 ∧ 0 ≤ fm < 2 ^ 36 ∧ 0 ≤ fd < 2 ^ 36;
  tk_distinct : f0 ≠ fm ∧ f0 ≠ fd ∧ fm ≠ fd;
  tk_backed : frame_ok m f0 ∧ frame_ok m fm ∧ frame_ok m fd;
}.

Lemma update_table_ok k f t t' g :
  phys k !! f = Some t → g t = Ok t' →
  update_table (PAGE_SIZE * f) g k = Ok (tt, set_phys (<[f := t']> (phys k)) k).
Proof.
  intros Ht Hg. unfold update_table, on_mem.
  replace (PAGE_SIZE * f / PAGE_SIZE) with f by (unfold PAGE_SIZE; zdiv). rewrite Ht, Hg. done.
Qed.

Lemma table_base_field f :
  table_base {| BADDR := Z.shiftr (PAGE_SIZE * f) 1; CnP := true |} = PAGE_SIZE * f.
Proof.
  unfold table_base. cbn [BADDR]. rewrite Z.shiftl_mul_pow2, Z.shiftr_div_pow2 by lia.
  unfold PAGE_SIZE. change (2 ^ 1) with 2. zdiv.
Qed.

(** The value [mmu::init] leaves in [SCTLR_EL1]. *)
Definition sctlr_on (x : Z) : Z :=
  Z.land (Z.lor x (Z.lor (Z.lor SCTLR_M SCTLR_C) SCTLR_I)) (unot PAN_BITS).

Lemma sctlr_on_bits x j :
  0 ≤ j < 64 →
  Z.testbit (sctlr_on x) j =
    ((j =? 0) || (j =? 2) || (j =? 12) || Z.testbit x j) && negb ((j =? 57) || (j =? 23)).
Proof.
  intros Hj. unfold sctlr_on, PAN_BITS, SCTLR_M, SCTLR_C, SCTLR_I.
  rewrite Z.land_spec, testbit_unot, !Z.lor_spec.
  rewrite (proj2 (Z.leb_le 0 j)), (proj2 (Z.ltb_lt j 64)) by lia. cbn [andb].
  change 1 with (Z.shiftl 1 0) at 1. rewrite !Z.shiftl_1_l, !Z.pow2_bits_eqb by lia.
  rewrite (Z.eqb_sym 0 j), (Z.eqb_sym 2 j), (Z.eqb_sym 12 j), (Z.eqb_sym 57 j), (Z.eqb_sym 23 j).
  f_equal. by rewrite orb_comm.
Qed.

Section boot.
Context `{Profile} `{Linked} `{ThreadLayout} `{TableAlloc} `{BootImage}.
Variables (f0 fm fd : Z).

(** The memory with the three tables filled in. *)
Definition with_tables (m : pmem) (t0 : list Z) : pmem :=
  <[fd := (λ i, block_desc i PT_DEV) <$> seqZ 0 512]>
    (<[fm := (λ i, block_desc i PT_MEM) <$> seqZ 0 512]> (<[f0 := t0]> m)).

Definition boot_cpu (c : cpu_st) : cpu_st :=
  set_sctlr (sctlr_on (SCTLR_EL1 c)) (set_translation
    {| Attr0_Normal_Outer := WriteBack_NonTransient_ReadWriteAlloc;
       Attr0_Normal_Inner := WriteBack_NonTransient_ReadWriteAlloc;
       Attr1_Device := nonGathering_nonReordering_noEarlyWriteAck |}
    {| TG0 := KiB_4; TG1 := KiB_4; T0SZ := 16; T1SZ := 16; SH0 := Inner; SH1 := Inner;
       ORGN0 := WriteBack_ReadAlloc_WriteAlloc_Cacheable;
       ORGN1 := WriteBack_ReadAlloc_WriteAlloc_Cacheable |}
    {| BADDR := Z.shiftr (PAGE_SIZE * f0) 1; CnP := true |}
    {| BADDR := Z.shiftr (PAGE_SIZE * f0) 1; CnP := true |} c).

Lemma mmu_init_run s :
  tables_ok (phys (kern s)) f0 fm fd →
  ∃ t, length t = 512%nat
    ∧ mmu_init s = Ok (tt, set_cpu (boot_cpu (cpu s))
        (set_kern (set_tlb ∅ (set_phys (with_tables (phys (kern s))
          (<[511%nat := PAGE_SIZE * fd + 3]> (<[510%nat := PAGE_SIZE * fm + 3]>
             (<[0%nat := PAGE_SIZE * fm + 3]> t)))) (kern s))) s)).
Proof.
  intros [E0 Em Ed Hr (D1 & D2 & D3) ((t0 & Ht0 & L0) & (tm & Hm & Lm) & (td & Hd & Ld))].
  exists t0. split; [done|]. unfold mmu_init. rewrite E0, Em, Ed.
  erewrite M_bind_ok by (eapply on_kern_ok, update_table_ok; [exact Ht0|by apply make_page_table_l0_run]).
  erewrite M_bind_ok by (eapply on_kern_ok, update_table_ok;
    [cbn [kern set_kern phys set_phys]; rewrite lookup_insert_ne by done; exact Hm|by apply make_page_table_l1_run]).
  erewrite M_bind_ok by (eapply on_kern_ok, update_table_ok;
    [cbn [kern set_kern phys set_phys]; rewrite !lookup_insert_ne by done; exact Hd|by apply make_page_table_l1_run]).
  destruct s as [k g u c th]. destruct c. reflexivity.
Qed.
End boot.

(** The tables of the boot map, wherever they lie. *)
Lemma boot_walks m f0 fm fd t p :
  0 ≤ fm < 2 ^ 36 → 0 ≤ fd < 2 ^ 36 → f0 ≠ fm → f0 ≠ fd → fm ≠ fd → length t = 512%nat → 0 ≤ p < 2 ^ 39 →
  let m' := with_tables f0 fm fd m (<[511%nat := PAGE_SIZE * fd + 3]>
    (<[510%nat := PAGE_SIZE * fm + 3]> (<[0%nat := PAGE_SIZE * fm + 3]> t))) in
  walk m' (PAGE_SIZE * f0) p = Some (p, block_desc (p / 2 ^ 30) PT_MEM)
  ∧ walk m' (PAGE_SIZE * f0) (VIRT_BASE + p) = Some (p, block_desc (p / 2 ^ 30) PT_MEM)
  ∧ walk m' (PAGE_SIZE * f0) (VIRT_DEV_BASE + p) = Some (p, block_desc (p / 2 ^ 30) PT_DEV).
Proof.
  intros Hfm Hfd D1 D2 D3 Hl Hp m'. set (t0 := <[511%nat := _]> _) in m'.
  assert (m' !! f0 = Some t0 ∧ m' !! fm = Some ((λ i, block_desc i PT_MEM) <$> seqZ 0 512)
    ∧ m' !! fd = Some ((λ i, block_desc i PT_DEV) <$> seqZ 0 512)) as (M0 & Mm & Md).
  { unfold m', with_tables. by split_and!; repeat (rewrite lookup_insert_eq || rewrite lookup_insert_ne by done). }
  assert (t0 !! 0%nat = Some (PAGE_SIZE * fm + 3) ∧ t0 !! 510%nat = Some (PAGE_SIZE * fm + 3)
    ∧ t0 !! 511%nat = Some (PAGE_SIZE * fd + 3)) as (T0 & T1 & T2).
  { unfold t0. split_and!.
    - rewrite !list_lookup_insert_ne by done. by rewrite list_lookup_insert_eq by lia.
    - rewrite list_lookup_insert_ne by done. by rewrite list_lookup_insert_eq by (rewrite length_insert; lia).
    - by rewrite list_lookup_insert_eq by (rewrite !length_insert; lia). }
  assert (∀ b i f attr, b = 2 ^ 39 * i → m' !! f = Some ((λ i, block_desc i attr) <$> seqZ 0 512) →
    0 ≤ f < 2 ^ 36 → attr = PT_MEM ∨ attr = PT_DEV → t0 !! Z.to_nat (i mod 512) = Some (PAGE_SIZE * f + 3) →
    walk m' (PAGE_SIZE * f0) (b + p) = Some (p, block_desc (p / 2 ^ 30) attr)) as Hw.
  { intros b i f attr -> Hf Hfr Ha Hi. rewrite (walk_l0 m' f0 t0 _ f); [|done|done|].
    - rewrite (walk_identity m' f attr) by done. rewrite Z.shiftr_div_pow2 by lia.
      do 2 f_equal; [zdiv|]. f_equal. zdiv.
    - rewrite Z.shiftr_div_pow2 by lia. replace ((2 ^ 39 * i + p) / 2 ^ 39) with i by zdiv. done. }
  split_and!.
  - apply (Hw 0 0 fm); auto.
  - apply (Hw VIRT_BASE 0x1fffffe fm); auto.
  - apply (Hw VIRT_DEV_BASE 0x1ffffff fd); auto.
Qed.

(** C20. Boot, up to the jump to [kmain] and through [eject_lowmem].  With the MMU on, every
    physical address below 512 GiB is reachable at itself, at its kernel address (both as
    normal memory) and at its device address, so that the running code, the jump target and
    the stack stay mapped; of the control register exactly the MMU and cache enables are set
    and EPAN and SPAN cleared; no stale translation is cached; no other memory is written.
    After [eject_lowmem] the UART is addressed through the window of normal memory, not
    through the device window that the drivers use. *)
Theorem boot_address_space `{Profile} `{Linked} `{ThreadLayout} `{TableAlloc} `{BootImage}
    (s : sys) (f0 fm fd : Z) :
  CurrentEL (cpu s) = 1 → UART0_ADDR (uart s) = UART0_INIT → tables_ok (phys (kern s)) f0 fm fd →
  ∃ s1 s2, kmain_nommu s = Ok (virt {| pa := kmain_low |}, s1)
    ∧ (∀ p, 0 ≤ p < 2 ^ 39 →
         walk (phys (kern s1)) (table_base (TTBR0_EL1 (cpu s1))) p = Some (p, block_desc (p / 2 ^ 30) PT_MEM)
         ∧ walk (phys (kern s1)) (table_base (TTBR1_EL1 (cpu s1))) (virt {| pa := p |})
           = Some (p, block_desc (p / 2 ^ 30) PT_MEM)
         ∧ walk (phys (kern s1)) (table_base (TTBR1_EL1 (cpu s1))) (virt_dev {| pa := p |})
           = Some (p, block_desc (p / 2 ^ 30) PT_DEV))
    ∧ (∀ j, 0 ≤ j < 64 → Z.testbit (SCTLR_EL1 (cpu s1)) j =
         ((j =? 0) || (j =? 2) || (j =? 12) || Z.testbit (SCTLR_EL1 (cpu s)) j)
         && negb ((j =? 57) || (j =? 23)))
    ∧ tlb (kern s1) = ∅
    ∧ (∀ g, g ≠ f0 → g ≠ fm → g ≠ fd → phys (kern s1) !! g = phys (kern s) !! g)
    ∧ mmu_eject_lowmem s1 = Ok (tt, s2)
    ∧ TTBR1_EL1 (cpu s2) = TTBR1_EL1 (cpu s1) ∧ phys (kern s2) = phys (kern s1)
    ∧ UART0_ADDR (uart s2) = virt {| pa := UART0_INIT |}
    ∧ walk (phys (kern s2)) (table_base (TTBR1_EL1 (cpu s2))) (UART0_ADDR (uart s2))
      = Some (UART0_INIT, block_desc 0 PT_MEM).
Proof.
  intros Hel Hu Htk. destruct (mmu_init_run f0 fm fd s Htk) as (t & Hl & Hrun).
  destruct Htk as [_ _ _ (_ & Hfm & Hfd) (D1 & D2 & D3) _].
  pose proof (boot_walks (phys (kern s)) f0 fm fd t) as Hw. cbv zeta in Hw.
  eexists _, _. split.
  { unfold kmain_nommu. erewrite M_bind_ok by reflexivity.
    rewrite (lift_bind_ok _ _ _ tt) by (unfold assert; by rewrite Hel). by erewrite M_bind_ok by exact Hrun. }
  cbn [kern cpu set_cpu set_kern phys set_tlb set_phys tlb boot_cpu set_sctlr set_translation
       TTBR0_EL1 TTBR1_EL1 SCTLR_EL1].
  rewrite table_base_field. split; [|split; [|split; [|split; [|split]]]].
  - intros p Hp. rewrite virt_add, virt_dev_add by lia. by apply Hw.
  - intros j Hj. by apply sctlr_on_bits.
  - done.
  - intros g G0 Gm Gd. unfold with_tables. by rewrite !lookup_insert_ne by done.
  - unfold mmu_eject_lowmem. do 3 (erewrite M_bind_ok by reflexivity). reflexivity.
  - cbn [kern uart cpu set_cpu set_kern set_uart phys set_tlb set_phys set_ttbr0 set_vbar_sp set_sctlr
         set_translation TTBR1_EL1 UART0_ADDR]. rewrite Hu.
    split; [done|]. split; [done|]. split; [reflexivity|].
    change (table_base (TTBR1_EL1 (boot_cpu f0 (cpu s))))
      with (table_base {| BADDR := Z.shiftr (PAGE_SIZE * f0) 1; CnP := true |}).
    rewrite table_base_field.
    change (Z.lor UART0_INIT 0xffffff0000000000) with (VIRT_BASE + UART0_INIT).
    destruct (Hw UART0_INIT) as (_ & Hv & _); done.
Qed.

(** ** A sample boot *)

Definition sample_tables : BootImage := {|
  TABLE_L0 := 0x40080000; TABLE_L1_MEM := 0x40081000; TABLE_L1_DEV := 0x40082000;
  _vectors := _text_start + 0x800; kmain_low := 0x40101000;
|}.

Definition reset_machine : sys := {|
  kern := set_phys (<[0x40080 := replicate 512 0]> (<[0x40081 := replicate 512 0]>
                     (<[0x40082 := replicate 512 0]> ∅))) KernelSpec.reset_state;
  gic := Gic.gic_reset;
  uart := {| UART0_ADDR := UART0_INIT; stores := [] |};
  cpu := mkCpu 1 None None ttbr_zero ttbr_zero 0x30d00800 0 0x40230000 0 0 0;
  INIT_THREAD := None;
|}.

Definition sample_threads : ThreadLayout := {|
  off_page_table := 0; off_stack := 4096; off_pc := 12544; off_sp := 12552; off_spsr := 12560;
  size_of_Thread := 16384;
|}.

#[local] Existing Instances dev KernelSpec.sample_link sample_tables sample_threads.

Lemma boot_address_space_witness :
  ∃ s1, kmain_nommu reset_machine = Ok (0xffffff0040101000, s1)
    ∧ walk (phys (kern s1)) (table_base (TTBR1_EL1 (cpu s1))) 0xffffff8009000000
      = Some (0x9000000, block_desc 0 PT_DEV)
    ∧ SCTLR_EL1 (cpu s1) = 0x30501805.
Proof.
  destruct (boot_address_space reset_machine 0x40080 0x40081 0x40082) as (s1 & s2 & Hk & Hw & _).
  - reflexivity.
  - reflexivity.
  - split; [reflexivity..|lia|lia|].
    assert (frames_of_three : ∀ g, g = 0x40080 ∨ g = 0x40081 ∨ g = 0x40082 → frame_ok (phys (kern reset_machine)) g).
    { intros g [->|[->| ->]]; exists (replicate 512 0); split; reflexivity. }
    split_and!; apply frames_of_three; auto.
  - exists s1. split; [exact Hk|]. split.
    + destruct (Hw 0x9000000 ltac:(lia)) as (_ & _ & Hd). exact Hd.
    + apply (f_equal (λ r, match r with Ok (_, s) => SCTLR_EL1 (cpu s) | Fault _ => 0 end)) in Hk.
      rewrite <- Hk. vm_compute. reflexivity.
Defined.

(** ** Hex dumps *)

(** A hex dump of a byte slice is two digits per byte, and can be read back: whatever the
    bytes, the text sent to the UART (spaces after every fourth and a line break after every
    32nd byte included) determines them.  [dump_hex] of a value and [dump_hex_slice] of its
    bytes print the same. *)
Lemma dump_hex_roundtrip (val : list Z) (u : uart_st) :
  Forall (λ b, 0 ≤ b < 256) val →
  ∃ t, dump_hex_slice (m := M uart_st) val u = Ok (tt, sent t u) ∧ undump t = val
    ∧ dump_hex (m := M uart_st) (λ i, nth (Z.to_nat i) val 0) (Z.of_nat (length val)) u = Ok (tt, sent t u).
Proof.
  intros Hv. exists (dump_text val ++ [NEWLINE]). split; [apply dump_hex_slice_run|].
  split; [by apply undump_dump_text|]. by apply dump_hex_run.
Qed.

Lemma dump_hex_roundtrip_witness :
  ∃ t, dump_hex_slice (m := M uart_st) [0xd0; 0x0d; 0xfe; 0xed; 7] (mkUart 0 []) = Ok (tt, sent t (mkUart 0 []))
    ∧ undump t = [0xd0; 0x0d; 0xfe; 0xed; 7].
Proof.
  destruct (dump_hex_roundtrip [0xd0; 0x0d; 0xfe; 0xed; 7] (mkUart 0 [])) as (t & Ht & Hu & _).
  - repeat constructor; lia.
  - exists t. split; [exact Ht|exact Hu].
Defined.
