(* ===== verification/MoreRam.v ===== *)
(** * Announcing RAM to the running kernel (kernel/src/aarch64/usermode.rs, page_alloc.rs)

    [DownloadMoreRam] while a process runs: the pages of the early heap, among them the page
    tables of the process, change their numbers when the allocator grows to the whole of RAM.
    A machine that has booted and has not announced its RAM yet may do so once. *)

From S2P Require Import Prelude Interrupts.
From S2P Require Bitmap.
From S2P Require Import Memory.
From S2P Require PageAlloc HeapSpec.
From S2P Require Import Kernel PageTable KernelTables.
From S2P Require KernelSpec MapSpec.
From S2P Require Import PageTree Mapping Translation FindHole KernelApi.
From S2P Require Gic.
From S2P Require Import Console Machine Usermode Exceptions Boot SyscallInv SyscallSpec StartSpec.
Import Gic (Board).
Import PageAlloc (ram_base).

Local Open Scope Z_scope.

(** ** Before RAM is known *)

Section early.
Context `{Profile} `{LinkedOk} `{ThreadLayout}.

(** The frames of the static [EARLY_HEAP]. *)
Definition heap_frame (h : Z) : Prop :=
  EARLY_HEAP ≤ VIRT_BASE + PAGE_SIZE * h < EARLY_HEAP + EARLY_HEAP_SIZE.

#[global] Instance heap_frame_dec h : Decision (heap_frame h).
Proof. unfold heap_frame. apply _. Defined.

(** A range of RAM: its frames exist, those of the early heap apart, which the allocator
    answers for. *)
Definition backed (phy_addr len_pages : Z) (m : pmem) : Prop :=
  ∀ g, phy_addr / PAGE_SIZE ≤ g < phy_addr / PAGE_SIZE + len_pages → ¬ heap_frame g → frame_ok m g.

(** The RAM of the machine, [len_pages] pages from [phy_addr] on. *)
Variables (phy_addr len_pages : Z).

(** A running machine whose allocator still manages the early heap only. *)
Record early_ok (root : Z) (s : sys) : Prop := {
  eo_sys : sys_ok root s;
  eo_alloc : early (PAGE_ALLOC (kern s));
  eo_tables : ∀ h, is_table (phys (kern s)) root h → heap_frame h;
  eo_ram : backed phy_addr len_pages (phys (kern s));
}.

Lemma early_frame al i :
  early al → VIRT_BASE + PAGE_SIZE * PageAlloc.frame_of al i = EARLY_HEAP + PAGE_SIZE * i.
Proof.
  intros [_ Hb _ _]. pose proof heap_aligned as Ha. pose proof heap_bounds as Hh.
  unfold PageAlloc.frame_of. rewrite Hb. unfold PAGE_SIZE, VIRT_BASE in *. zdiv.
Qed.

Lemma early_free_heap al h : early al → free_page_frame al h → heap_frame h.
Proof.
  intros He (i & Hi & Hu & ->). unfold heap_frame. rewrite early_frame by done.
  destruct He as [_ _ Hc Hrest]. rewrite Hc in Hi. change EARLY_HEAP_SIZE with (PAGE_SIZE * 256).
  destruct (Z.lt_ge_cases i 256); [unfold PAGE_SIZE; lia|].
  rewrite Hrest in Hu by (change (EARLY_HEAP_SIZE / PAGE_SIZE) with 256; lia). done.
Qed.

(** An allocator with the same region and no new free pages is still in that state. *)
Lemma early_shrinks k k' :
  early (PAGE_ALLOC k) → alloc_ok k' → shape k' = shape k →
  (∀ h, free_page_frame (PAGE_ALLOC k') h → free_page_frame (PAGE_ALLOC k) h) → early (PAGE_ALLOC k').
Proof.
  intros He [Hwf _ _] Hs Hf. pose proof He as [_ Hb Hc Hrest]. unfold shape in Hs. injection Hs as _ Hb' Hc'.
  split; [done|congruence|congruence|]. intros i Hi. apply not_false_iff_true. intros Hu.
  destruct (Hf (PageAlloc.frame_of (PAGE_ALLOC k') i)) as (j & Hj & Huj & Hij).
  { exists i. split; [|done]. rewrite Hc', Hc. change (EARLY_HEAP_SIZE / PAGE_SIZE) with 256 in Hi. lia. }
  unfold PageAlloc.frame_of in Hij. rewrite Hb' in Hij. replace j with i in Huj by lia. by rewrite Hrest in Huj.
Qed.

Lemma early_moves root s s' : early_ok root s → moves root s s' → early_ok root s'.
Proof.
  intros [Hok He Ht Hram] Hm. pose proof (moves_ok _ _ _ Hok Hm) as Hok'.
  destruct Hm as [[Hmm Hnew Hfree Hfr Hs] _ _]. split; [done| | |].
  - apply (early_shrinks (kern s)); [done|apply (mm_src _ _ Hmm)|done|done].
  - intros h Hh. destruct (Hnew h Hh) as [|Hf]; [auto|]. by eapply early_free_heap.
  - intros g Hg Hnh. destruct (Hram g Hg Hnh) as (fr & Hl & ?). exists fr. split; [|done].
    rewrite Hfr; [done| |]; intros Hx; apply Hnh; [by eapply early_free_heap|auto].
Qed.

(** ** The announcement *)

(** The pages of the new region, by frame: those of the early heap are free if they were. *)
Lemma noded_free al al' g :
  ram_node phy_addr len_pages → early al → noded phy_addr len_pages al al' → free_page_frame al' g →
  phy_addr / PAGE_SIZE ≤ g < phy_addr / PAGE_SIZE + len_pages ∧ (heap_frame g → free_page_frame al g).
Proof.
  intros Hn He Hnd (i & Hi & Hu & ->). pose proof Hn as [Ha Hlow Hpages Hend].
  destruct (node_layout _ _ Hn) as (d & t & h & a & _ & _ & Hh & _ & _ & _ & Hd & Ht & Hth & Ha' & Hsum & _).
  pose proof He as [_ Hb Hc Hrest]. rewrite (nd_capacity _ _ _ _ Hnd) in Hi.
  assert (PageAlloc.frame_of al' i = phy_addr / PAGE_SIZE + i) as Hfr.
  { unfold PageAlloc.frame_of. rewrite (nd_base _ _ _ _ Hnd). f_equal. unfold PAGE_SIZE. zdiv. }
  change PAGE_ALLOC_PAGES with 65536 in *.
  destruct (Z.lt_ge_cases i len_pages) as [Hlt|Hge]; last first.
  { rewrite (nd_rest _ _ _ _ Hnd) in Hu by lia. rewrite Hrest in Hu; [done|].
    change (EARLY_HEAP_SIZE / PAGE_SIZE) with 256. lia. }
  rewrite Hfr. split; [lia|]. intros Hheap. exists (i - h).
  assert (VIRT_BASE + phy_addr + PAGE_SIZE * h = EARLY_HEAP) as Hhp.
  { rewrite <- Hh. apply pg_addr; [unfold PAGE_SIZE, VIRT_BASE in *; zdiv|apply heap_aligned]. }
  assert (PAGE_SIZE * (phy_addr / PAGE_SIZE) = phy_addr) as Hpp by (unfold PAGE_SIZE in *; zdiv).
  unfold heap_frame in Hheap. change EARLY_HEAP_SIZE with (PAGE_SIZE * 256) in Hheap.
  assert (0 ≤ i - h < 256) as Hih by (unfold PAGE_SIZE in *; lia).
  split; [rewrite Hc; change PAGE_ALLOC_PAGES with 65536; lia|]. split.
  - rewrite <- (nd_heap _ _ _ _ Hnd) by (change (EARLY_HEAP_SIZE / PAGE_SIZE) with 256; lia).
    rewrite Hh. by replace (h + (i - h)) with i by lia.
  - pose proof (early_frame al (i - h) He) as Ef. unfold PAGE_SIZE in *. lia.
Qed.

(** The first announcement of the RAM the kernel lies in keeps the machine sound. *)
Lemma announce_ok root s :
  early_ok root s → ram_node phy_addr len_pages →
  ∃ al, add_memory_node {| pa := phy_addr |} (PAGE_SIZE * len_pages) (kern s) = Ok (tt, set_alloc al (kern s))
    ∧ noded phy_addr len_pages (PAGE_ALLOC (kern s)) al
    ∧ sys_ok root (set_kern (set_alloc al (kern s)) s).
Proof.
  intros [[Ht Hr [Hsrc Htree Hown]] He Htab Hback] Hn.
  destruct (add_memory_node_run phy_addr len_pages (kern s) Hn He) as (al & Hrun & Hnd).
  exists al. split; [done|]. split; [done|]. split; [exact Ht|exact Hr|]. split.
  - split; cbn [kern set_kern PAGE_ALLOC set_alloc phys].
    + apply Hnd.
    + destruct Hn as [Ha Hlow Hpages Hend]. split; [rewrite (nd_base _ _ _ _ Hnd); lia|].
      unfold PageAlloc.page_addr. rewrite (nd_base _ _ _ _ Hnd), (nd_capacity _ _ _ _ Hnd).
      change PAGE_ALLOC_PAGES with 65536. unfold PAGE_SIZE. lia.
    + intros i Hi Hu. destruct (noded_free _ al (PageAlloc.frame_of al i) Hn He Hnd) as [Hg Hheap]; [by exists i|].
      destruct (decide (heap_frame (PageAlloc.frame_of al i))) as [Hh|Hh]; [|by apply Hback].
      exact (free_frame_backed (TableAlloc := kernel_tables) (kern s) _ Hsrc (Hheap Hh)).
  - exact Htree.
  - intros h Hh Hf. cbn [kern set_kern] in *. destruct (noded_free _ al h Hn He Hnd Hf) as [_ Hheap].
    apply (Hown h Hh), Hheap, Htab, Hh.
Qed.

(** ** Calls, before and after *)

(** The running machine; [known]: its RAM has been announced. *)
Definition phase_ok (known : bool) (root : Z) (s : sys) : Prop :=
  if known then sys_ok root s ∧ ram_base (PAGE_ALLOC (kern s)) = VIRT_BASE + phy_addr
  else early_ok root s.

Lemma phase_sys known root s : phase_ok known root s → sys_ok root s.
Proof. destruct known; [by intros [? _]|]. by intros [? _ _ _]. Qed.

Lemma phase_moves known root s s' : phase_ok known root s → moves root s s' → phase_ok known root s'.
Proof.
  destruct known; [|apply early_moves]. intros [Hok Hb] Hm. split; [by eapply moves_ok|].
  pose proof (ev_shape _ _ _ (mv_kern _ _ _ Hm)) as Hs. unfold shape in Hs. congruence.
Qed.
End early.

Section calls.
Context `{Profile} `{LinkedOk} `{ThreadLayout} `{Board}.
Context `{!TryFromPrimitive syscall_num} `{!BitFlags PhyMapFlags} `{!BitFlags MemMapFlags}.
Variables (phy_addr len_pages root : Z).

(** The calls a process may make: anything, as long as RAM is announced as it is, and once. *)
Inductive allowed (e : ExceptionContext) : bool → bool → Prop :=
| call_other known :
    reg e 8 mod 2 ^ 32 ≠ syscall_num DownloadMoreRam → allowed e known known
| call_announce :
    reg e 8 mod 2 ^ 32 = syscall_num DownloadMoreRam →
    reg e 0 = phy_addr → reg e 1 = PAGE_SIZE * len_pages → ram_node phy_addr len_pages →
    allowed e false true.

Lemma phase_call e s known known' :
  phase_ok phy_addr len_pages known root s → regs_ok e → allowed e known known' →
  match handle_syscall e s with
  | Ok (e', s') => (e' = e ∨ ∃ x, is_u64 x ∧ e' = set_x0 x e) ∧ phase_ok phy_addr len_pages known' root s'
      ∧ cpu s' = cpu s ∧ INIT_THREAD s' = INIT_THREAD s
  | Fault x => call_faults (try_from (discriminant := syscall_num) (reg e 8 mod 2 ^ 32)) x
  end.
Proof.
  intros Hph Hr Hal. revert Hph. destruct Hal as [known0 Hn|Hn Hx0 Hx1 Hnode]; intros Hph.
  - pose proof (handle_syscall_handled root e s (phase_sys _ _ _ _ _ Hph) Hr Hn) as Hh.
    destruct (handle_syscall e s) as [[e' s']|x]; [|done]. destruct Hh as [He Hm].
    split; [done|]. split; [exact (phase_moves phy_addr len_pages known0 root s s' Hph Hm)|]. by destruct Hm.
  - rewrite (handle_syscall_arm _ DownloadMoreRam) by done. unfold sys_download_more_ram. rewrite Hx0, Hx1.
    destruct (announce_ok phy_addr len_pages root s Hph Hnode) as (al & Hrun & Hnd & Hok).
    erewrite M_bind_ok by (apply on_kern_ok; exact Hrun). split; [by left|]. split; [|done].
    split; [exact Hok|]. apply Hnd.
Qed.
End calls.

(** ** Everything else that happens *)

Section steps.
Context `{Profile} `{LinkedOk} `{ThreadLayout} `{Board}.
Context `{!TryFromPrimitive syscall_num} `{!BitFlags PhyMapFlags} `{!BitFlags MemMapFlags}.
Variables (phy_addr len_pages root : Z).

(** Steps that leave the allocator and the tables alone. *)
Lemma phase_same known s s' :
  phase_ok phy_addr len_pages known root s → sys_ok root s' → PAGE_ALLOC (kern s') = PAGE_ALLOC (kern s) →
  (∀ h, is_table (phys (kern s')) root h → is_table (phys (kern s)) root h) →
  (∀ g, frame_ok (phys (kern s)) g → frame_ok (phys (kern s')) g) →
  phase_ok phy_addr len_pages known root s'.
Proof.
  intros Hph Hok Ha Hs Hf. destruct known; cbn [phase_ok] in *; [rewrite Ha; by split; [|apply Hph]|].
  destruct Hph as [_ He Ht Hram]. split; [done|by rewrite Ha|auto|]. intros g Hg Hh. by apply Hf, Hram.
Qed.

Lemma phase_step known s s' :
  sys_step root s s' → phase_ok phy_addr len_pages known root s →
  phase_ok phy_addr len_pages known root s' ∧ cpu s' = cpu s ∧ INIT_THREAD s' = INIT_THREAD s.
Proof.
  intros Hstep Hph. pose proof (phase_sys _ _ _ _ _ Hph) as Hok0.
  pose proof (sys_step_ok root s s' Hstep Hok0) as (Hok & Hc & Ht). split; [|done].
  destruct Hstep as [far e e' s s' Hr Hn Hs|e e' s s' Hs|g fr s Hg Hl|page e s He].
  - pose proof (handle_syscall_handled root e s Hok0 Hr Hn) as Hh.
    unfold exception_handler2 in Hs. rewrite Z.eqb_refl in Hs. unfold mbind, M_bind in Hs.
    destruct (handle_syscall e s) as [[e1 s1]|x]; [|done]. apply ok_inj in Hs. injection Hs as _ <-.
    eapply phase_moves; [done|apply Hh].
  - unfold irq_handler, mbind, M_bind in Hs. rewrite on_drv_run in Hs.
    destruct (Gic.handle_irq _) as [[[] d]|x]; [|done]. apply ok_inj in Hs. simplify_eq.
    by apply (phase_same known s).
  - apply (phase_same known s); [done|done|done| |].
    + intros h (q & Hq & Hd). cbn [kern set_kern phys set_phys] in Hd. exists q. split; [done|].
      by rewrite outside_descend in Hd by (done || apply (mm_tree _ _ (so_mm _ _ Hok0))).
    + intros h Hh. by apply frame_ok_insert.
  - by apply (phase_same known s).
Qed.

(** The life of the machine: steps of [sys_step], and one announcement of its RAM. *)
Inductive life_step : bool * sys → bool * sys → Prop :=
| life_run known s s' : sys_step root s s' → life_step (known, s) (known, s')
| life_announce far e e' s s' :
    regs_ok e → allowed phy_addr len_pages e false true →
    exception_handler2 ESR_SVC far e s = Ok (Some e', s') → life_step (false, s) (true, s').

Lemma life_ok a b :
  rtc life_step a b → phase_ok phy_addr len_pages a.1 root a.2 →
  phase_ok phy_addr len_pages b.1 root b.2 ∧ cpu b.2 = cpu a.2 ∧ INIT_THREAD b.2 = INIT_THREAD a.2.
Proof.
  induction 1 as [a|a b c Hstep _ IH]; intros Ha; [done|].
  enough (phase_ok phy_addr len_pages b.1 root b.2 ∧ cpu b.2 = cpu a.2 ∧ INIT_THREAD b.2 = INIT_THREAD a.2)
    as (Hb & Hc & Ht) by (destruct (IH Hb) as (? & -> & ->); done).
  destruct Hstep as [known s s' Hs|far e e' s s' Hr Hal Hs]; cbn [fst snd] in *; [by apply phase_step|].
  pose proof (phase_call phy_addr len_pages root e s false true Ha Hr Hal) as Hcall.
  unfold exception_handler2 in Hs. rewrite Z.eqb_refl in Hs. unfold mbind, M_bind in Hs.
  destruct (handle_syscall e s) as [[e1 s1]|x]; [|done]. apply ok_inj in Hs. injection Hs as _ <-. apply Hcall.
Qed.

(** The bitmap keeps its size. *)
Lemma step_capacity s s' :
  sys_step root s s' → sys_ok root s →
  PageAlloc.capacity (PAGE_ALLOC (kern s')) = PageAlloc.capacity (PAGE_ALLOC (kern s)).
Proof.
  destruct 1 as [far e e' s s' Hr Hn Hs|e e' s s' Hs|g fr s Hg Hl|page e s He]; intros Hok; [| |done|done].
  - pose proof (handle_syscall_handled root e s Hok Hr Hn) as Hh.
    unfold exception_handler2 in Hs. rewrite Z.eqb_refl in Hs. unfold mbind, M_bind in Hs.
    destruct (handle_syscall e s) as [[e1 s1]|x]; [|done]. apply ok_inj in Hs. injection Hs as _ <-.
    destruct Hh as [_ [Hev _ _]]. pose proof (ev_shape _ _ _ Hev) as Hsh. unfold shape in Hsh. congruence.
  - unfold irq_handler, mbind, M_bind in Hs. rewrite on_drv_run in Hs.
    destruct (Gic.handle_irq _) as [[[] d]|x]; [|done]. apply ok_inj in Hs. by simplify_eq.
Qed.

Lemma announce_run e s :
  early_ok phy_addr len_pages root s → allowed phy_addr len_pages e false true →
  ∃ al, handle_syscall e s = Ok (e, set_kern (set_alloc al (kern s)) s)
    ∧ PageAlloc.capacity al = PAGE_ALLOC_PAGES.
Proof.
  intros He Hal. inversion Hal as [|Hn Hx0 Hx1 Hnode]. rewrite (handle_syscall_arm _ DownloadMoreRam) by done.
  unfold sys_download_more_ram. rewrite Hx0, Hx1.
  destruct (announce_ok phy_addr len_pages root s He Hnode) as (al & Hrun & Hnd & _).
  exists al. erewrite M_bind_ok by (apply on_kern_ok; exact Hrun). split; [done|]. apply Hnd.
Qed.

Lemma life_capacity a b :
  rtc life_step a b → phase_ok phy_addr len_pages a.1 root a.2 →
  PageAlloc.capacity (PAGE_ALLOC (kern a.2)) = PAGE_ALLOC_PAGES →
  PageAlloc.capacity (PAGE_ALLOC (kern b.2)) = PAGE_ALLOC_PAGES.
Proof.
  induction 1 as [a|a b c Hstep _ IH]; intros Ha Hc; [done|].
  destruct (life_ok a b (rtc_once _ _ Hstep) Ha) as (Hb & _ & _). apply IH; [done|]. clear IH Hb.
  destruct Hstep as [known s s' Hs|far e e' s s' Hr Hal Hs]; cbn [fst snd] in *.
  - rewrite (step_capacity s s' Hs); [done|]. by eapply phase_sys.
  - destruct (announce_run e s Ha Hal) as (al & Hrun & Hcap).
    unfold exception_handler2 in Hs. rewrite Z.eqb_refl in Hs. unfold mbind, M_bind in Hs.
    rewrite Hrun in Hs. apply ok_inj in Hs. injection Hs as _ <-. exact Hcap.
Qed.

(** A second announcement, without debug assertions. *)
Lemma announce_again e s :
  debug_assertions = false → sys_ok root s → ram_base (PAGE_ALLOC (kern s)) = VIRT_BASE + phy_addr →
  PageAlloc.capacity (PAGE_ALLOC (kern s)) = PAGE_ALLOC_PAGES → allowed phy_addr len_pages e false true →
  ∃ al, handle_syscall e s = Ok (e, set_kern (set_alloc al (kern s)) s)
    ∧ ∀ g, heap_frame g → free_page_frame al g.
Proof.
  intros Hrel Hok Hb Hc Hal. inversion Hal as [|Hn Hx0 Hx1 Hnode].
  rewrite (handle_syscall_arm _ DownloadMoreRam) by done. unfold sys_download_more_ram. rewrite Hx0, Hx1.
  pose proof (mm_src _ _ (so_mm _ _ Hok)) as [Hwf _ _].
  destruct (add_memory_node_again phy_addr len_pages (kern s) Hnode Hrel Hwf Hb Hc) as (al & Hrun & Hb' & Hc' & Hfree).
  exists al. erewrite M_bind_ok by (apply on_kern_ok; exact Hrun). split; [done|]. intros g Hg.
  destruct (node_layout _ _ Hnode) as (d & t & h & a & _ & _ & Hh & _ & _ & _ & Hd & Ht & Hth & Ha & Hsum & _ & _ & Eh).
  destruct Hnode as [Hal0 Hlow Hpages _]. unfold heap_frame in Hg.
  change EARLY_HEAP_SIZE with (PAGE_SIZE * 256) in Hg, Hfree. rewrite Hh in Hfree.
  set (i := g - phy_addr / PAGE_SIZE - h).
  assert (PAGE_SIZE * (phy_addr / PAGE_SIZE) = phy_addr) as Hpp by (unfold PAGE_SIZE in *; zdiv).
  assert (0 ≤ i < 256) as Hi by (unfold i, PAGE_SIZE in *; lia).
  exists (h + i). split; [rewrite Hc'; lia|]. split; [apply Hfree; unfold PAGE_SIZE; zdiv|].
  unfold PageAlloc.frame_of, i. rewrite Hb'. unfold PAGE_SIZE in *. zdiv.
Qed.
End steps.

(** ** From boot on *)

Section life.
Context `{Profile} `{LinkedOk} `{LayoutOk} `{Board} `{BootImage}.
Context `{!TryFromPrimitive syscall_num} `{!BitFlags PhyMapFlags} `{!BitFlags MemMapFlags}.
Variables (phy_addr len_pages : Z).

(** What [kmain] leaves behind. *)
Lemma kmain_early INIT_BIN s :
  PAGE_ALLOC (kern s) = PAGE_ALLOC_INIT → (∀ h, heap_frame h → frame_ok (phys (kern s)) h) →
  backed phy_addr len_pages (phys (kern s)) →
  Forall (λ b, 0 ≤ b < 256) INIT_BIN → Z.of_nat (length INIT_BIN) ≤ 2 ^ 38 →
  match kmain INIT_BIN s with
  | Ok (_, s') => ∃ root, early_ok phy_addr len_pages root s'
      ∧ ∀ h, ¬ heap_frame h → phys (kern s') !! h = phys (kern s) !! h
  | Fault x => x = PanicMsg "OOM"
  end.
Proof.
  intros Hinit Hheap Hram Hbin Hlen. unfold kmain, mmu_eject_lowmem.
  erewrite M_bind_ok by (do 3 (erewrite M_bind_ok by reflexivity); reflexivity).
  do 2 (erewrite M_bind_ok by apply sys_println_run).
  set (s1 := printed _ _).
  destruct (init_early_heap_run (kern s1)) as (al & Hrun & He & Hfree); [done|].
  erewrite M_bind_ok by (apply on_kern_ok; exact Hrun). erewrite M_bind_ok by reflexivity.
  set (s2 := set_kern _ _).
  assert (alloc_ok (kern s2)) as Hok.
  { pose proof He as [Hwf Hb Hc Hrest]. pose proof heap_bounds as Hh. split; [exact Hwf| |].
    - split; change (PAGE_ALLOC (kern s2)) with al; [rewrite Hb; lia|].
      unfold PageAlloc.page_addr. rewrite Hb, Hc. change PAGE_ALLOC_PAGES with 65536. unfold PAGE_SIZE. lia.
    - intros i Hi Hu. apply Hheap. apply (early_free_heap al); [done|]. by exists i. }
  pose proof (start_spec INIT_BIN s2 Hok Hbin Hlen) as Hs.
  destruct (start INIT_BIN s2) as [[[] s']|x]; [|done].
  destruct Hs as (f & _ & Hsys & _ & _ & _ & _ & _ & Hshape & _ & Htab & Hpool & Hfr).
  assert (∀ h, ¬ heap_frame h → phys (kern s') !! h = phys (kern s) !! h) as Hsame.
  { intros h Hh. rewrite Hfr; [done|]. intros Hf. apply Hh. by apply (early_free_heap al). }
  exists (root_of f). split; [|done]. split; [done| | |].
  - apply (early_shrinks (kern s2)); [exact He|apply (mm_src _ _ (so_mm _ _ Hsys))|done|done].
  - intros h Hh. apply (early_free_heap al); [done|]. by apply Htab.
  - intros g Hg Hnh. destruct (Hram g Hg Hnh) as (fr & Hl & ?). exists fr. by rewrite Hsame.
Qed.
End life.

(** C9. The whole life of the machine.  [kmain] on a machine that has just switched its MMU on
    ends in "OOM" or starts a process; and from then on, through any interleaving of system
    calls, interrupts, stores to frames that are no tables and table walks, with the RAM of the
    machine announced at most once, the page tables of the process are well formed and none of
    them can be handed out, the allocator is sound and gives out existing memory only (the
    early heap before the announcement, RAM after it), and translation goes through the same
    root. *)
Theorem boot_and_run `{Profile} `{LinkedOk} `{LayoutOk} `{Board} `{BootImage}
    `{!TryFromPrimitive syscall_num} `{!BitFlags PhyMapFlags} `{!BitFlags MemMapFlags}
    (phy_addr len_pages : Z) (INIT_BIN : list Z) (s : sys) :
  PAGE_ALLOC (kern s) = PAGE_ALLOC_INIT → (∀ h, heap_frame h → frame_ok (phys (kern s)) h) →
  backed phy_addr len_pages (phys (kern s)) →
  Forall (λ b, 0 ≤ b < 256) INIT_BIN → Z.of_nat (length INIT_BIN) ≤ 2 ^ 38 →
  match kmain INIT_BIN s with
  | Ok (_, s0) => ∃ root, ∀ known s', rtc (life_step phy_addr len_pages root) (false, s0) (known, s') →
      sys_ok root s' ∧ alloc_ok (kern s') ∧ tree_wf (phys (kern s')) root
      ∧ (∀ h, is_table (phys (kern s')) root h → ¬ free_page_frame (PAGE_ALLOC (kern s')) h)
      ∧ (if known then ram_base (PAGE_ALLOC (kern s')) = VIRT_BASE + phy_addr
         else ∀ h, free_page_frame (PAGE_ALLOC (kern s')) h → heap_frame h)
      ∧ cpu s' = cpu s0 ∧ INIT_THREAD s' = INIT_THREAD s0
  | Fault x => x = PanicMsg "OOM"
  end.
Proof.
  intros Hinit Hheap Hram Hbin Hlen.
  pose proof (kmain_early phy_addr len_pages INIT_BIN s Hinit Hheap Hram Hbin Hlen) as Hk.
  destruct (kmain INIT_BIN s) as [[[] s0]|x]; [|done]. destruct Hk as (root & He & _).
  exists root. intros known s' Hrtc. destruct (life_ok _ _ _ _ _ Hrtc He) as (Hph & Hc & Ht). cbn [fst snd] in *.
  pose proof (phase_sys _ _ _ _ _ Hph) as Hok. pose proof (so_mm _ _ Hok) as [Hsrc Htree Hown].
  split_and!; [done|exact Hsrc|exact Htree|exact Hown| |done|done].
  destruct known; [apply Hph|]. intros h Hh. exact (early_free_heap _ h (eo_alloc _ _ _ _ Hph) Hh).
Qed.

(** C34. Announcing RAM twice, in a build without debug assertions.  Boot the machine, let its RAM be
    announced, and let anything happen that [boot_and_run] allows.  If the process then
    announces the same RAM again, the call returns, and every page of the early heap is in the
    pool of free pages, whatever it holds: the root page table of the process is both in use
    and free, and the machine no longer satisfies the invariant of the running system. *)
Theorem announced_twice `{Profile} `{LinkedOk} `{LayoutOk} `{Board} `{BootImage}
    `{!TryFromPrimitive syscall_num} `{!BitFlags PhyMapFlags} `{!BitFlags MemMapFlags}
    (phy_addr len_pages : Z) (INIT_BIN : list Z) (s : sys) :
  debug_assertions = false →
  PAGE_ALLOC (kern s) = PAGE_ALLOC_INIT → (∀ h, heap_frame h → frame_ok (phys (kern s)) h) →
  backed phy_addr len_pages (phys (kern s)) →
  Forall (λ b, 0 ≤ b < 256) INIT_BIN → Z.of_nat (length INIT_BIN) ≤ 2 ^ 38 →
  match kmain INIT_BIN s with
  | Ok (_, s0) => ∃ root, ∀ s1 e, rtc (life_step phy_addr len_pages root) (false, s0) (true, s1) →
      allowed phy_addr len_pages e false true →
      ∃ s2, handle_syscall e s1 = Ok (e, s2)
        ∧ (∀ g, heap_frame g → free_page_frame (PAGE_ALLOC (kern s2)) g)
        ∧ table_base (TTBR0_EL1 (cpu s2)) = PAGE_SIZE * root
        ∧ is_table (phys (kern s2)) root root ∧ free_page_frame (PAGE_ALLOC (kern s2)) root
        ∧ ¬ sys_ok root s2
  | Fault x => x = PanicMsg "OOM"
  end.
Proof.
  intros Hrel Hinit Hheap Hram Hbin Hlen.
  pose proof (kmain_early phy_addr len_pages INIT_BIN s Hinit Hheap Hram Hbin Hlen) as Hk.
  destruct (kmain INIT_BIN s) as [[[] s0]|x]; [|done]. destruct Hk as (root & He & _).
  exists root. intros s1 e Hrtc Hal. destruct (life_ok _ _ _ _ _ Hrtc He) as ([Hok Hb] & _ & _). cbn [fst snd] in *.
  pose proof (life_capacity _ _ _ _ _ Hrtc He (early_capacity _ (eo_alloc _ _ _ _ He))) as Hc. cbn [snd] in Hc.
  destruct (announce_again phy_addr len_pages root e s1 Hrel Hok Hb Hc Hal) as (al & Hrun & Hfree).
  eexists. split; [exact Hrun|]. cbn [kern set_kern PAGE_ALLOC set_alloc phys cpu].
  assert (∀ m, is_table m root root) as Hroot by (intros m; exists []; split; [split; [simpl; lia|constructor]|done]).
  assert (free_page_frame al root) as Hf by (apply Hfree, (eo_tables _ _ _ _ He), Hroot).
  split_and!; [done|apply (so_ttbr _ _ Hok)|done|done|]. intros [_ _ Hmm]. by apply (mm_owned _ _ Hmm root).
Qed.

(** ** A machine with 816 pages of RAM *)

Definition RAM_PAGES : Z := 816.

Definition ram_machine : sys := {|
  kern := {| PAGE_ALLOC := PAGE_ALLOC_INIT;
             phys := list_to_map ((λ i, (0x40000 + i, replicate 512 0)) <$> seqZ 0 RAM_PAGES);
             daif := 0x3c0; tlb := ∅ |};
  gic := Gic.gic_reset;
  uart := {| UART0_ADDR := UART0_INIT; stores := [] |};
  cpu := idle_cpu ttbr_zero;
  INIT_THREAD := None;
|}.

Definition announce_regs : ExceptionContext :=
  call_regs 0x40000000 (PAGE_SIZE * RAM_PAGES) 0 (syscall_num DownloadMoreRam).

#[local] Existing Instances KernelSpec.sample_link KernelSpec.sample_link_ok sample_layout.
#[local] Existing Instances sample_layout_ok Gic.sample_board sample_image.

Lemma ram_machine_frames h : 0x40000 ≤ h < 0x40000 + RAM_PAGES → frame_ok (phys (kern ram_machine)) h.
Proof. apply HeapSpec.frames_okb_ok. vm_compute. reflexivity. Qed.

Lemma ram_machine_heap h : heap_frame h → frame_ok (phys (kern ram_machine)) h.
Proof.
  intros Hh. apply ram_machine_frames. unfold heap_frame in Hh.
  change (@EARLY_HEAP KernelSpec.sample_link) with (VIRT_BASE + PAGE_SIZE * 0x40120) in Hh.
  unfold EARLY_HEAP_SIZE, RAM_PAGES, PAGE_SIZE in *. lia.
Qed.

Lemma ram_machine_node : ram_node 0x40000000 RAM_PAGES.
Proof. split; vm_compute; done || (split; discriminate). Qed.

(** The same on this machine, in both profiles: in a debug build the second announcement panics,
    because the pages of the device tree are marked twice. *)
Lemma announced_twice_run :
  let run (H : Profile) :=
    (kmain sample_bin;; handle_syscall announce_regs;; handle_syscall announce_regs) ram_machine in
  match run release with
  | Ok (_, s') => PageAlloc.used (PAGE_ALLOC (kern s')) 0x121 = false
  | Fault _ => False
  end
  ∧ match run dev with
    | Ok _ => False
    | Fault x => x = PanicMsg "double alloc"
    end.
Proof. intros run. split; vm_compute; reflexivity. Qed.

Section release_build.
#[local] Existing Instance release.

(** The machine boots without debug assertions and announces its RAM, and then announces it again. *)
Lemma announced_twice_witness :
  match kmain sample_bin ram_machine with
  | Ok (_, s0) =>
      match handle_syscall announce_regs s0 with
      | Ok (_, s1) => ∃ root s2,
          handle_syscall announce_regs s1 = Ok (announce_regs, s2)
          ∧ ¬ sys_ok root s2
      | Fault _ => False
      end
  | Fault _ => False
  end.
Proof.
  pose proof (announced_twice 0x40000000 RAM_PAGES sample_bin ram_machine eq_refl eq_refl ram_machine_heap
    (λ g Hg _, ram_machine_frames g Hg) ltac:(by apply Forall_replicate) ltac:(vm_compute; discriminate)) as Hb.
  assert (match kmain sample_bin ram_machine with
    | Ok (_, s0) => match handle_syscall announce_regs s0 with
        | Ok _ => True | Fault _ => False end
    | Fault _ => False end) as Hv by (vm_compute; exact I).
  destruct (kmain sample_bin ram_machine) as [[[] s0]|x]; [|exact Hv]. destruct Hb as (root & Hrun).
  destruct (handle_syscall announce_regs s0) as [[e s1]|x] eqn:E; [|exact Hv].
  assert (allowed 0x40000000 RAM_PAGES announce_regs false true) as Hal
    by (apply call_announce; [reflexivity|reflexivity|reflexivity|exact ram_machine_node]).
  destruct (Hrun s1 announce_regs) as (s2 & Hs2 & _ & _ & _ & _ & Hno); [|exact Hal|exists root, s2; split; [exact Hs2|exact Hno]].
  apply rtc_once, (life_announce _ _ _ 0 announce_regs e); [|exact Hal|].
  - apply call_regs_ok; vm_compute; (split; [discriminate|reflexivity]).
  - unfold exception_handler2. rewrite Z.eqb_refl. unfold mbind, M_bind. rewrite E. reflexivity.
Defined.
End release_build.

#[local] Existing Instance dev.

(** The machine boots, announces its RAM, and is sound. *)
Lemma boot_and_run_witness :
  match kmain sample_bin ram_machine with
  | Ok (_, s0) =>
      match handle_syscall announce_regs s0 with
      | Ok (_, s') => ∃ root, sys_ok root s' ∧ ram_base (PAGE_ALLOC (kern s')) = VIRT_BASE + 0x40000000
      | Fault _ => False
      end
  | Fault _ => False
  end.
Proof.
  pose proof (boot_and_run 0x40000000 RAM_PAGES sample_bin ram_machine eq_refl ram_machine_heap
    (λ g Hg _, ram_machine_frames g Hg) ltac:(by apply Forall_replicate) ltac:(vm_compute; discriminate)) as Hb.
  assert (match kmain sample_bin ram_machine with
    | Ok (_, s0) => match handle_syscall announce_regs s0 with
        | Ok (_, s') => ram_base (PAGE_ALLOC (kern s')) = VIRT_BASE + 0x40000000
        | Fault _ => False end
    | Fault _ => False end) as Hv by (vm_compute; reflexivity).
  destruct (kmain sample_bin ram_machine) as [[[] s0]|x]; [|exact Hv].
  destruct Hb as (root & Hrun).
  destruct (handle_syscall announce_regs s0) as [[e s1]|x] eqn:E; [|exact Hv].
  exists root. split; [|exact Hv]. apply (Hrun true s1). apply rtc_once.
  apply (life_announce _ _ _ 0 announce_regs e).
  - apply call_regs_ok; vm_compute; (split; [discriminate|reflexivity]).
  - apply call_announce; [reflexivity|reflexivity|reflexivity|exact ram_machine_node].
  - unfold exception_handler2. rewrite Z.eqb_refl. unfold mbind, M_bind. rewrite E. reflexivity.
Defined.
