(* ===== verification/Init.v ===== *)
(** * The init process (init/src/utils.rs, init/src/main.rs, init/src/drv.rs)

    A user program is a tree of what it asks of the machine: system calls with the registers it
    sets, loads from its memory, and reads of the timer registers.  [run_user] answers them
    with the kernel.  The device-tree parser (the crate [fdt_rs]) is a parameter. *)

From S2P Require Import Prelude Interrupts Memory Kernel PageTable KernelApi.
From S2P Require Gic.
From S2P Require Import Console Machine Usermode Exceptions.
Import Gic (Board).

Local Open Scope Z_scope.

(** ** User programs *)

Inductive msr : Type := cntpct_el0 | cntfrq_el0.

(** [USvc]: [svc #0] after setting the registers listed, [x0] afterwards; [ULoad]: the bytes of
    a slice; [UMrs]: a system register; [UStop]: an endless loop. *)
Inductive user (A : Type) : Type :=
| URet (a : A)
| USvc (regs : list (nat * Z)) (k : Z → user A)
| ULoad (ptr len : Z) (k : list Z → user A)
| UMrs (r : msr) (k : Z → user A)
| UStop (why : string).
Arguments URet {A} a.
Arguments USvc {A} regs k.
Arguments ULoad {A} ptr len k.
Arguments UMrs {A} r k.
Arguments UStop {A} why.

#[export] Instance user_ret : MRet user := @URet.
#[export] Instance user_bind : MBind user := λ A B f,
  fix go (m : user A) : user B :=
    match m with
    | URet a => f a
    | USvc regs k => USvc regs (λ x, go (k x))
    | ULoad ptr len k => ULoad ptr len (λ bs, go (k bs))
    | UMrs r k => UMrs r (λ x, go (k x))
    | UStop why => UStop why
    end.

(** Where the process keeps a buffer it passes to the kernel, and its registers otherwise. *)
Class Process : Type := {
  addr_of : list Z → Z;
  regs_at : ExceptionContext;
}.

(** ** System-call wrappers (utils.rs) *)

Section wrappers.
Context `{Process} `{FromPrimitive}.

Definition svc (regs : list (nat * Z)) : user Z := USvc regs URet.

Definition exit {A} (code : Z) : user A :=
  USvc [(0%nat, code); (8%nat, syscall_num Exit)] (λ _, UStop "exit").

Definition log_buf (s : list Z) : user unit :=
  _ ← svc [(0%nat, addr_of s); (1%nat, Z.of_nat (length s)); (8%nat, syscall_num Log)];
  mret tt.

Definition phy_map (phy_addr len flags : Z) : user (Z + KError) :=
  virt_addr ← svc [(0%nat, phy_addr); (1%nat, len); (2%nat, flags); (8%nat, syscall_num PhyMap)];
  mret (decode_address virt_addr).

Definition mem_map (len flags : Z) : user (Z + KError) :=
  virt_addr ← svc [(0%nat, len); (1%nat, flags); (8%nat, syscall_num MemMap)];
  mret (decode_address virt_addr).

Definition mem_unmap (virt_addr len : Z) : user (unit + KError) :=
  res ← svc [(0%nat, virt_addr); (1%nat, len); (8%nat, syscall_num MemUnmap)];
  mret (decode_status res).

Definition download_more_ram (phy_addr len : Z) : user (unit + KError) :=
  res ← svc [(0%nat, phy_addr); (1%nat, len); (8%nat, syscall_num DownloadMoreRam)];
  mret (decode_status res).

(** [load_kernel_device] at the type [GicAndTimer]. *)
Definition load_kernel_device (req : GicAndTimer) : user (unit + KError) :=
  res ← svc [(0%nat, addr_of (gic_as_bytes req)); (1%nat, size_of_GicAndTimer);
             (2%nat, GicAndTimer_ID); (8%nat, syscall_num LoadKernelDevice)];
  mret (decode_status res).

Definition sleep_sec (sec : Z) : user unit :=
  _ ← svc [(0%nat, sec); (8%nat, syscall_num SleepSec)];
  mret tt.

(** [FmtWriteAdapter]: every piece of a formatted text is one call. *)
#[export] Instance user_write : FmtWrite user := log_buf.

(** [_print], [print!], [println!] and the dumps of utils.rs. *)
Definition utils__print (args : list (list Z)) : user unit := for_M args user_write.
Definition utils_print (args : list (list Z)) : user unit := utils__print args.
Definition utils_println (args : list (list Z)) : user unit := utils_print (args ++ [[NEWLINE]]).

(** [dump_hex] of a value whose bytes in memory are [bytes]. *)
Definition utils_dump_hex (bytes : Z → Z) (size : Z) : user unit :=
  for_M (seqZ 0 size) (λ i,
    utils_print [fmt_hex_pad 2 (bytes i)];;
    (if i mod 4 =? 3 then utils_print [[SPACE]] else mret tt);;
    (if i mod 32 =? 31 then utils_println [] else mret tt));;
  utils_println [].

Definition utils_dump_hex_slice (val : list Z) : user unit :=
  for_M (zip (seqZ 0 (Z.of_nat (length val))) val) (λ '(i, byte),
    utils_print [fmt_hex_pad 2 byte];;
    (if i mod 4 =? 3 then utils_print [[SPACE]] else mret tt);;
    (if i mod 32 =? 31 then utils_println [] else mret tt));;
  utils_println [].

Definition get_msr (r : msr) : user Z := UMrs r URet.

(** ** Panics *)

(** [rust_panic]: the message is printed and the process stays in a loop.  What [unwrap],
    [expect] and [assert_eq!] append about the values is left out of [msg]. *)
Definition panic {A} (msg : string) : user A :=
  _ ← print [text "Panic: "; text msg; [NEWLINE]];
  UStop msg.

Definition passert (b : bool) (msg : string) : user unit := if b then mret tt else panic msg.

Definition unwrap {A E} (r : A + E) (msg : string) : user A :=
  match r with inl a => mret a | inr _ => panic msg end.
End wrappers.

(** ** Running a program on the kernel *)

Definition set_regs (regs : list (nat * Z)) (e : ExceptionContext) : ExceptionContext :=
  {| gpr := foldl (λ g '(i, v), <[i := v]> g) (gpr e) regs;
     lr := lr e; pc := pc e; spsr := spsr e; sp := sp e |}.

Section run.
Context `{Profile} `{Linked} `{ThreadLayout} `{Board} `{TableAlloc} `{Process}.
Context `{!TryFromPrimitive syscall_num} `{!BitFlags PhyMapFlags} `{!BitFlags MemMapFlags}.

(** The timer registers, once [CNTKCTL_EL1] lets user mode read them. *)
Definition read_msr (r : msr) : M sys Z :=
  g ← gets gic;
  lift (if Z.testbit (Gic.cntkctl_el1 g) 0 then Ok tt else Fault DataAbort);;
  match r with
  | cntpct_el0 => modify (λ s, set_gic (Gic.count_counter (gic s)) s);;
                  mret (Gic.cntpct_el0 (Gic.counter_reads g))
  | cntfrq_el0 => mret Gic.cntfrq_el0
  end.

(** A program's result, or why it stays in a loop. *)
Fixpoint run_user {A} (p : user A) : M sys (A + string) :=
  match p with
  | URet a => mret (inl a)
  | USvc regs k =>
      r ← exception_handler2 ESR_SVC 0 (set_regs regs regs_at);
      match r with
      | Some e => run_user (k (reg e 0))
      | None => mret (inr "halted"%string)
      end
  | ULoad ptr len k =>
      s ← gets id;
      bs ← lift (copy_bytes (phys (kern s)) (table_base (TTBR0_EL1 (cpu s))) ptr (seqZ 0 len));
      run_user (k bs)
  | UMrs r k => x ← read_msr r; run_user (k x)
  | UStop why => mret (inr why)
  end.
End run.

(** ** Device trees *)

(** The crate [fdt_rs]: parsing a blob, and what can be asked of the tree.  A fallible iterator
    is the list of its results. *)
Class Fdt : Type := {
  DevTreeError : Type;
  DevTree : Type;
  Node : Type;
  Property : Type;
  MIN_HEADER_SIZE : Z;
  read_totalsize : list Z → Z + DevTreeError;
  devtree_new : list Z → DevTree + DevTreeError;
  nodes : DevTree → list (Node + DevTreeError);
  compatible_nodes : DevTree → string → list (Node + DevTreeError);
  node_name : Node → string + DevTreeError;
  props : Node → list (Property + DevTreeError);
  prop_name : Property → string + DevTreeError;
  prop_str : Property → option string + DevTreeError;
  prop_u64 : Property → Z → Z + DevTreeError;
  prop_u32 : Property → Z → Z + DevTreeError;
  prop_length : Property → Z;
}.

(** [Result<T, DevTreeError>] inside a program, with [?] as bind. *)
Definition ures `{Fdt} (A : Type) : Type := user (A + DevTreeError).
Definition ok `{Fdt} {A} (m : user A) : ures A := mbind (M := user) (λ a, URet (inl a)) m.
Definition tri `{Fdt} {A B} (m : ures A) (k : A → ures B) : ures B :=
  mbind (M := user) (λ r, match r with inl a => k a | inr e => URet (inr e) end) m.
Notation "x ?← m ; k" := (tri m (λ x, k)) (at level 20, m at level 100, k at level 200).

(** The same for code without effects. *)
Definition pres `{Fdt} (A : Type) : Type := A + DevTreeError.
Definition ptri `{Fdt} {A B} (m : pres A) (k : A → pres B) : pres B :=
  match m with inl a => k a | inr e => inr e end.
Notation "x !← m ; k" := (ptri m (λ x, k)) (at level 20, m at level 100, k at level 200).

(** [iter.next()?]: the item and the rest of the iterator. *)
Definition next `{Fdt} {I} (l : list (I + DevTreeError)) : pres (option (I * list (I + DevTreeError))) :=
  match l with
  | [] => inl None
  | inl x :: l => inl (Some (x, l))
  | inr e :: _ => inr e
  end.

(** ** [main.rs] *)

Definition UNWRAP_ERR : string := "called `Result::unwrap()` on an `Err` value".

Section main.
Context `{Profile} `{Process} `{FromPrimitive} `{Fdt}.

Definition DTB_ADDR : Z := 0x40000000.
Definition MAP_LEN : Z := 0x1000.

(** A parsed tree and the slice it was parsed from. *)
Record Dtb : Type := mkDtb { dtb_ptr : Z; dtb_buf : list Z; dtb_tree : DevTree }.

Definition parse_at (dtb dtb_len : Z) : ures Dtb :=
  ULoad dtb dtb_len (λ bytes,
    URet (t !← devtree_new bytes; inl {| dtb_ptr := dtb; dtb_buf := bytes; dtb_tree := t |})).

Definition map_dtb : ures Dtb :=
  dtb ?← ok (r ← phy_map DTB_ADDR MAP_LEN 0; unwrap r UNWRAP_ERR);
  dtb_len ?← ULoad dtb MIN_HEADER_SIZE (λ header, URet (read_totalsize header));
  if dtb_len <=? MAP_LEN then parse_at dtb dtb_len
  else
    _ ?← ok (r ← mem_unmap dtb MAP_LEN; unwrap r UNWRAP_ERR);
    dtb ?← ok (r ← phy_map DTB_ADDR dtb_len 0; unwrap r UNWRAP_ERR);
    parse_at dtb dtb_len.

(** The inner loops of [find_mem_nodes]: up to the first property with the name. *)
Fixpoint find_prop (name : string) (l : list (Property + DevTreeError)) : pres (option Property) :=
  match l with
  | [] => inl None
  | inr e :: _ => inr e
  | inl p :: l =>
      n !← prop_name p;
      if bool_decide (n = name) then inl (Some p) else find_prop name l
  end.

(** Its outer loop, over the variables [bootargs] and [mem]. *)
Definition scan_node (node : Node) '((bootargs, mem) : option string * option (Z * Z))
    : pres (option string * option (Z * Z)) :=
  name !← node_name node;
  if bool_decide (name = "chosen"%string) then
    p !← find_prop "bootargs" (props node);
    match p with
    | Some p => b !← prop_str p; inl (b, mem)
    | None => inl (bootargs, mem)
    end
  else if String.prefix "memory@" name then
    p !← find_prop "reg" (props node);
    match p with
    | Some p => base !← prop_u64 p 0; len !← prop_u64 p 1; inl (bootargs, Some (base, len))
    | None => inl (bootargs, mem)
    end
  else inl (bootargs, mem).

Fixpoint scan_nodes (l : list (Node + DevTreeError)) (st : option string * option (Z * Z))
    : pres (option string * option (Z * Z)) :=
  match l with
  | [] => inl st
  | inr e :: _ => inr e
  | inl node :: l => st !← scan_node node st; scan_nodes l st
  end.

(** [{:?}] of a string: the runs without escapes and the characters of the escapes. *)
Definition escape_debug (c : Z) : option (list Z) :=
  if c =? 34 then Some (text "\" ++ [34]) else if c =? 92 then Some (text "\\")
  else if c =? 10 then Some (text "\n") else if c =? 13 then Some (text "\r")
  else if c =? 9 then Some (text "\t") else if c =? 0 then Some (text "\0")
  else if (c <? 32) || (c =? 127) then Some (text "\u{" ++ fmt_hex c ++ text "}")
  else None.

Fixpoint debug_pieces (run s : list Z) : list (list Z) :=
  match s with
  | [] => [run]
  | c :: s => match escape_debug c with
              | None => debug_pieces (run ++ [c]) s
              | Some esc => run :: ((λ x, [x]) <$> esc) ++ debug_pieces [] s
              end
  end.

Definition fmt_debug_str (s : string) : list (list Z) := [34] :: debug_pieces [] (text s) ++ [[34]].

Definition find_mem_nodes (dtb : DevTree) : ures unit :=
  st ?← URet (scan_nodes (nodes dtb) (None, None));
  let '(bootargs, mem) := st in
  _ ?← ok (match bootargs with
           | Some bootargs => println (text "Boot args: " :: fmt_debug_str bootargs)
           | None => println [text "No boot args"]
           end);
  mem ?← ok (match mem with
             | Some mem => mret mem
             | None => panic "device tree did not contain memory node"
             end);
  _ ?← ok (println [text "RAM: 0p"; fmt_hex mem.1; text " ("; fmt_dec mem.2; text " bytes)"]);
  ok (r ← download_more_ram mem.1 mem.2; unwrap r UNWRAP_ERR).

(** ** [drv.rs] *)

Definition PPI_OFFSET : Z := 16.
Definition PPI_NON_SECURE_PHYS_TIMER : Z := 14.

(** The properties of the interrupt controller, over [gicd_base] and [gicc_base]. *)
Fixpoint intc_props (l : list (Property + DevTreeError)) (gicd_base gicc_base : Z) : ures (Z * Z) :=
  match l with
  | [] => URet (inl (gicd_base, gicc_base))
  | inr e :: _ => URet (inr e)
  | inl prop :: l =>
      name ?← URet (prop_name prop);
      if bool_decide (name = "reg"%string) then
        d ?← URet (prop_u64 prop 0);
        c ?← URet (prop_u64 prop 2);
        intc_props l d c
      else if bool_decide (name = "#size-cells"%string) then
        n ?← URet (prop_u32 prop 0);
        _ ?← ok (passert (n =? 2) "Interrupt controller node must have #size-cells = 2");
        intc_props l gicd_base gicc_base
      else if bool_decide (name = "#address-cells"%string) then
        n ?← URet (prop_u32 prop 0);
        _ ?← ok (passert (n =? 2) "Interrupt controller node must have #address-cells = 2");
        intc_props l gicd_base gicc_base
      else if bool_decide (name = "#interrupt-cells"%string) then
        n ?← URet (prop_u32 prop 0);
        _ ?← ok (passert (n =? 3) "Interrupt controller node must have #interrupt-cells = 3");
        intc_props l gicd_base gicc_base
      else intc_props l gicd_base gicc_base
  end.

Fixpoint timer_props (l : list (Property + DevTreeError)) : ures unit :=
  match l with
  | [] => URet (inl tt)
  | inr e :: _ => URet (inr e)
  | inl prop :: l =>
      name ?← URet (prop_name prop);
      if bool_decide (name = "interrupts"%string) then
        _ ?← ok (passert (prop_length prop =? 48) "Interrupts property must be 48 bytes");
        int_type ?← URet (prop_u32 prop 3);
        _ ?← ok (passert (int_type =? 1) "Only PPI interrupts are supported");
        ppi_id ?← URet (prop_u32 prop 4);
        _ ?← ok (passert (ppi_id =? PPI_NON_SECURE_PHYS_TIMER) "PPI ID must be 14");
        flags ?← URet (prop_u32 prop 5);
        _ ?← ok (passert (Z.land flags 0x4 =? 0x4) "Interrupt must be level-triggered");
        timer_props l
      else timer_props l
  end.

Definition find_and_init (dtb : DevTree) : ures (Z * Z * Z) :=
  _ ?← ok (println [text "Extracting timer information from DTB"]);
  n ?← URet (next (compatible_nodes dtb "arm,cortex-a15-gic"));
  match n with
  | None => panic "Interrupt controller node not found"
  | Some (intc_node, intc_nodes) =>
      bases ?← intc_props (props intc_node) 0 0;
      let '(gicd_base, gicc_base) := bases in
      n ?← URet (next intc_nodes);
      _ ?← ok (passert (bool_decide (n = None)) "Multiple interrupt controller nodes found");
      n ?← URet (next (compatible_nodes dtb "arm,armv8-timer"));
      match n with
      | None => panic "Timer node not found"
      | Some (timer_node, timer_nodes) =>
          _ ?← timer_props (props timer_node);
          n ?← URet (next timer_nodes);
          _ ?← ok (passert (bool_decide (n = None)) "Multiple timer nodes found");
          let timer_ppi_interrupt := PPI_OFFSET + PPI_NON_SECURE_PHYS_TIMER in
          _ ?← ok (r ← load_kernel_device
                 {| gicd_base := gicd_base; gicc_base := gicc_base;
                    timer_ppi_interrupt := timer_ppi_interrupt; _padding := 0 |};
               unwrap r "Failed to load kernel device");
          URet (inl (gicd_base, gicc_base, timer_ppi_interrupt))
      end
  end.

Definition current_time_ms : user Z :=
  ticks ← get_msr cntpct_el0;
  freq ← get_msr cntfrq_el0;
  match umul ticks 1000 with
  | Ok t => if freq =? 0 then panic "attempt to divide by zero" else mret (t / freq)
  | Fault _ => panic "attempt to multiply with overflow"
  end.

(** [main] up to its loop, and one round of the loop. *)
Definition main : user unit :=
  _ ← println [text "Hello from usermode!"];
  r ← map_dtb;
  dtb ← unwrap r "Failed to parse device tree";
  _ ← println [text "DTB mapped at "; text "0x"; fmt_hex (dtb_ptr dtb); text ", hexdump of first 32 bytes:"];
  _ ← passert (32 <=? Z.of_nat (length (dtb_buf dtb))) "range end index 32 out of range for slice";
  _ ← utils_dump_hex_slice (take 32 (dtb_buf dtb));
  r ← find_mem_nodes (dtb_tree dtb);
  _ ← unwrap r "Failed to parse device tree";
  _ ← println [text "Allocating big buffer using newly discovered memory"];
  r ← mem_map (1024 * 1024 * 10) MemMap_ReadWrite;
  buf ← unwrap r UNWRAP_ERR;
  _ ← println [text "10MB Buffer at "; text "0x"; fmt_hex buf];
  r ← find_and_init (dtb_tree dtb);
  _ ← unwrap r "Failed to parse device tree";
  mret tt.

Definition main_round : user unit :=
  t ← current_time_ms;
  _ ← println [text "Current time: "; fmt_dec t; text " ms"];
  sleep_sec 1.
End main.
