(* ===== verification/InitSpec.v ===== *)
(** * Properties of the init process (init/src)

    The wrappers composed with the kernel's handlers, what the process tells the kernel about
    RAM, and the loading of the interrupt controller from the device tree. *)

From S2P Require Import Prelude Interrupts.
From S2P Require Import Memory.
From S2P Require PageAlloc.
From S2P Require Import Kernel PageTable KernelTables.
From S2P Require KernelSpec MapSpec.
From S2P Require Import PageTree Mapping Translation KernelApi.
From S2P Require Gic.
From S2P Require Import Console Machine Usermode Exceptions SyscallInv SyscallSpec CallSpec Init.
Import Gic (Board).

Local Open Scope Z_scope.

(** ** Registers of a call *)

Lemma reg_insert g i j v :
  (i < length g)%nat → nth j (<[i := v]> g) 0 = if Nat.eqb j i then v else nth j g 0.
Proof.
  revert i j. induction g as [|x g IH]; intros [|i] [|j] Hi; simpl in *; try lia; try done.
  rewrite IH by lia. done.
Qed.

(** The last value given to a register. *)
Fixpoint assigned (regs : list (nat * Z)) (j : nat) (x : Z) : Z :=
  match regs with
  | [] => x
  | (i, v) :: regs => assigned regs j (if Nat.eqb j i then v else x)
  end.

Lemma reg_set_regs regs e j :
  (∀ i v, (i, v) ∈ regs → (i < length (gpr e))%nat) →
  reg (set_regs regs e) j = assigned regs j (reg e j).
Proof.
  unfold reg, set_regs. cbn [gpr]. generalize (gpr e). clear e.
  induction regs as [|[i v] regs IH]; intros g Hg; [done|]. cbn [foldl assigned].
  rewrite IH by (intros i' v' Hi; rewrite length_insert; eapply Hg; by right).
  rewrite reg_insert by (eapply Hg; by left). done.
Qed.

(** Calls set registers of the file to machine words. *)
Definition args_ok (regs : list (nat * Z)) : Prop := Forall (λ '(i, v), (i < 30)%nat ∧ is_u64 v) regs.

Lemma set_regs_ok regs e : regs_ok e → args_ok regs → regs_ok (set_regs regs e).
Proof.
  intros [Hl Hw] Ha.
  enough (∀ g, length g = 30%nat → Forall is_u64 g →
    let g' := foldl (λ g '(i, v), <[i := v]> g) g regs in length g' = 30%nat ∧ Forall is_u64 g') as Hg.
  { destruct (Hg (gpr e) Hl Hw). by split. }
  induction Ha as [|[i v] regs [Hi Hv] _ IH]; intros g Hlg Hwg; [done|]. cbn [foldl].
  apply IH; [by rewrite length_insert|by apply Forall_insert].
Qed.

Lemma args_reg regs e j : regs_ok e → args_ok regs → reg (set_regs regs e) j = assigned regs j (reg e j).
Proof.
  intros [Hl _] Ha. apply reg_set_regs. intros i v Hi. rewrite Hl.
  by apply (proj1 (Forall_forall _ _) Ha) in Hi as [? _].
Qed.

Lemma reg_set_x0 x e : (0 < length (gpr e))%nat → reg (set_x0 x e) 0 = x.
Proof. intros Hl. unfold reg, set_x0. cbn [gpr]. by rewrite reg_insert by done. Qed.

(** ** The copies in utils.rs *)

(** [println!] and the dumps of utils.rs are the kernel's, over another [write_str]. *)
Lemma utils_println_copy `{Process} args : utils_println args = println args.
Proof. done. Qed.

Lemma utils_dump_hex_copy `{Process} bytes size : utils_dump_hex bytes size = dump_hex bytes size.
Proof. done. Qed.

Lemma utils_dump_hex_slice_copy `{Process} val : utils_dump_hex_slice val = dump_hex_slice val.
Proof. done. Qed.

(** ** Running programs *)

Section run.
Context `{Profile} `{Linked} `{ThreadLayout} `{Board} `{TableAlloc} `{Process}.
Context `{!TryFromPrimitive syscall_num} `{!BitFlags PhyMapFlags} `{!BitFlags MemMapFlags}.

Lemma run_user_bind {A B} (p : user A) (f : A → user B) s :
  run_user (p ≫= f) s = match run_user p s with
                        | Ok (inl a, s') => run_user (f a) s'
                        | Ok (inr why, s') => Ok (inr why, s')
                        | Fault x => Fault x
                        end.
Proof.
  revert s. induction p as [a|regs k IH|ptr len k IH|r k IH|why]; intros s; [done| | | |done].
  - cbn [run_user mbind user_bind]. unfold mbind, M_bind.
    destruct (exception_handler2 _ _ _ s) as [[[e|] s1]|x]; [|done|done]. apply IH.
  - cbn [run_user mbind user_bind]. unfold mbind, M_bind, lift, gets, id.
    destruct (copy_bytes _ _ _ _) as [bs|x]; [|done]. apply IH.
  - cbn [run_user mbind user_bind]. unfold mbind, M_bind.
    destruct (read_msr r s) as [[x s1]|x]; [|done]. apply IH.
Qed.

Lemma run_user_bind_ok {A B} (p : user A) (f : A → user B) s a s' :
  run_user p s = Ok (inl a, s') → run_user (p ≫= f) s = run_user (f a) s'.
Proof. intros E. by rewrite run_user_bind, E. Qed.

(** A call, by what the handler does. *)
Lemma run_svc regs s :
  run_user (svc regs) s = match handle_syscall (set_regs regs regs_at) s with
                          | Ok (e, s') => Ok (inl (reg e 0), s')
                          | Fault x => Fault x
                          end.
Proof.
  unfold svc. cbn [run_user]. unfold exception_handler2. rewrite Z.eqb_refl.
  unfold mbind, M_bind. by destruct (handle_syscall _ s) as [[e s']|x].
Qed.

(** ** Printing *)

(** The buffer of [bs] holds it and is readable by the process. *)
Record placed (s : sys) (bs : list Z) : Prop := {
  pl_addr : 0 ≤ addr_of bs ∧ addr_of bs + Z.of_nat (length bs) < 2 ^ 64;
  pl_bytes : ∀ i b, bs !! i = Some b → user_byte s (addr_of bs + Z.of_nat i) b;
}.

Lemma placed_same s s' bs :
  phys (kern s') = phys (kern s) → cpu s' = cpu s → placed s bs → placed s' bs.
Proof.
  intros Hp Hc [Ha Hb]. split; [done|]. intros i b Hi. specialize (Hb i b Hi).
  unfold user_byte in *. by rewrite Hp, Hc.
Qed.

Lemma log_buf_run s bs :
  regs_ok regs_at → placed s bs → (length bs ≤ 256)%nat →
  run_user (log_buf bs) s = Ok (inl tt, printed bs s).
Proof.
  intros Hr [Ha Hb] Hl.
  assert (args_ok [(0%nat, addr_of bs); (1%nat, Z.of_nat (length bs)); (8%nat, syscall_num Log)]) as Hargs.
  { repeat constructor; unfold is_u64; simpl; lia. }
  unfold log_buf. erewrite run_user_bind_ok; [reflexivity|]. rewrite run_svc.
  rewrite log_run by (by rewrite args_reg). rewrite !args_reg by done. cbn [assigned Nat.eqb].
  replace (Z.min (Z.of_nat (length bs)) 256) with (Z.of_nat (length bs)) by lia.
  rewrite copy_bytes_ok; [done|lia|lia|lia|]. intros i b Hi. rewrite Z.add_0_r. by apply Hb.
Qed.

Lemma print_run_user args s :
  regs_ok regs_at → Forall (λ bs, placed s bs ∧ (length bs ≤ 256)%nat) args →
  run_user (print args) s = Ok (inl tt, printed (mjoin args) s).
Proof.
  intros Hr. revert s. unfold print, _print.
  induction args as [|bs args IH]; intros s Hp; [cbn; by rewrite printed_nil|].
  apply Forall_cons in Hp as [[Hp Hl] Hps]. cbn [for_M]. erewrite run_user_bind_ok by (by apply log_buf_run).
  rewrite IH; [by rewrite printed_printed|]. eapply Forall_impl; [exact Hps|]. intros b [Hb ?].
  split; [|done]. by eapply placed_same; [..|exact Hb].
Qed.
End run.

(** ** Mapping memory *)

Lemma decode_address_ok `{FromPrimitive} v : 0 ≤ v < 2 ^ 63 → decode_address v = inl v.
Proof.
  intros Hv. unfold decode_address. assert (as_i64 v = v) as -> by (unfold as_i64; zdiv).
  by rewrite (proj2 (Z.ltb_ge _ _)) by lia.
Qed.

Lemma decode_status_zero `{FromPrimitive} : decode_status 0 = inl tt.
Proof. done. Qed.

Lemma read_byte_ok m p : 0 ≤ p → frame_ok m (p / PAGE_SIZE) → ∃ b, read_byte m p = Ok b.
Proof.
  intros Hp Hf. destruct (KernelSpec.read_word_word m (p / 8)) as (w & _ & Hr).
  - zdiv.
  - by replace (p / 8 / 512) with (p / PAGE_SIZE) by (unfold PAGE_SIZE; zdiv).
  - unfold read_byte. replace (p - p mod 8) with (8 * (p / 8)) by zdiv. rewrite Hr. by eexists.
Qed.

Lemma mem_map_desc x flags :
  x mod PAGE_SIZE = 0 →
  let d := Z.lor (Z.lor x COMMON_FLAGS) (mem_map_attrs flags) in
  Z.testbit d 6 = true ∧ Z.testbit d 7 = negb (Z.testbit flags 0).
Proof.
  intros Hx d. unfold d. rewrite !Z.lor_spec.
  rewrite !(testbit_aligned x 12) by (done || lia).
  unfold mem_map_attrs. by destruct (Z.testbit flags 0).
Qed.

(** C14. [mem_map] as the process sees it, the wrapper and the kernel together: it gets an address,
    never an error.  From that address on [len] bytes can be read by the process, and written
    exactly if it asked for it; the address space is as the kernel promises.  Where the kernel
    cannot serve the request, it is the kernel that panics. *)
Theorem mem_map_end_to_end `{Profile} `{Linked} `{ThreadLayout} `{Board} `{Process} `{FromPrimitive}
    `{!TryFromPrimitive syscall_num} `{!BitFlags PhyMapFlags} `{!BitFlags MemMapFlags}
    (root len flags : Z) (s : sys) :
  sys_ok root s → regs_ok regs_at → is_u64 len → is_u64 flags →
  match run_user (mem_map len flags) s with
  | Ok (r, s') => ∃ v, r = inl (inl v) ∧ 0x50000000 ≤ v ∧ v mod PAGE_SIZE = 0
      ∧ 0 < len ∧ len mod PAGE_SIZE = 0 ∧ v + len ≤ 2 ^ 39 ∧ sys_ok root s'
      ∧ ∀ va, v ≤ va < v + len → (∃ b, user_byte s' va b)
          ∧ ∃ p d, walk (phys (kern s')) (table_base (TTBR0_EL1 (cpu s'))) va = Some (p, d)
              ∧ Z.testbit d 7 = negb (Z.testbit flags 0)
  | Fault x => ∃ msg, x = PanicMsg msg
  end.
Proof.
  intros Hok Hr Hlen Hfl.
  assert (args_ok [(0%nat, len); (1%nat, flags); (8%nat, syscall_num MemMap)]) as Hargs.
  { constructor; [split; [lia|done]|]. constructor; [split; [lia|done]|].
    constructor; [|constructor]. split; [lia|unfold is_u64; simpl; lia]. }
  unfold mem_map. rewrite run_user_bind, run_svc.
  pose proof (mem_map_spec root (set_regs [(0%nat, len); (1%nat, flags); (8%nat, syscall_num MemMap)] regs_at) s
    Hok (set_regs_ok _ _ Hr Hargs)) as Hm.
  rewrite !args_reg in Hm by done. cbn [assigned Nat.eqb] in Hm. specialize (Hm eq_refl). cbv zeta in Hm.
  destruct (handle_syscall _ s) as [[e' s']|x]; last first.
  { destruct Hm as [[-> _]|[[-> _]|[_ Hm]]]; [by eexists..|by eapply no_room_panics]. }
  destruct Hm as (Hln & Hn & lo & f & -> & Hlo & Hend & Hwalk & _ & Hfr & Hok').
  set (n := div_ceil len PAGE_SIZE) in *. cbn [run_user].
  rewrite reg_set_x0 by (rewrite (ro_count _ (set_regs_ok _ _ Hr Hargs)); lia).
  exists (PAGE_SIZE * lo). rewrite decode_address_ok by (unfold PAGE_SIZE in *; lia).
  split_and!; [done|done|unfold PAGE_SIZE; zdiv|unfold PAGE_SIZE in *; lia|rewrite Hln; unfold PAGE_SIZE; zdiv|unfold PAGE_SIZE in *; lia|done|].
  intros va Hva. rewrite (so_ttbr _ _ Hok), <- (so_ttbr _ _ Hok') in Hwalk.
  assert (lo ≤ va / PAGE_SIZE < lo + n) as Hpage by (unfold PAGE_SIZE in *; zdiv).
  assert (0 ≤ va < 2 ^ 39) as Hva39 by (unfold PAGE_SIZE in *; lia). specialize (Hwalk va Hva39).
  rewrite (proj2 (Z.leb_le _ _)), (proj2 (Z.ltb_lt _ _)) in Hwalk by lia. cbn [andb] in Hwalk.
  destruct (Hfr (f + (va / PAGE_SIZE - lo)) ltac:(lia)) as ((j & Hj & Hu & Hg) & _ & _ & Hsame).
  pose proof (mm_src _ _ (so_mm _ _ Hok)) as Hsrc. cbn [src_ok kernel_tables] in Hsrc.
  pose proof (ao_backed _ Hsrc j Hj Hu) as (fr & Hfrm & Hfl512). rewrite <- Hg in Hfrm.
  pose proof (frame_bounds _ _ (ao_window _ Hsrc) Hj) as Hgb. rewrite <- Hg in Hgb.
  set (g := f + (va / PAGE_SIZE - lo)) in *.
  destruct (mem_map_desc (PAGE_SIZE * g) flags ltac:(unfold PAGE_SIZE; zdiv)) as [Hd6 Hd7].
  split; [|by eexists _, _].
  assert (0 ≤ va mod PAGE_SIZE < PAGE_SIZE) as Hmod by (apply Z.mod_pos_bound; done).
  destruct (read_byte_ok (phys (kern s')) (PAGE_SIZE * g + va mod PAGE_SIZE)) as (b & Hb).
  { unfold PAGE_SIZE in *. lia. }
  { replace ((PAGE_SIZE * g + va mod PAGE_SIZE) / PAGE_SIZE) with g by (unfold PAGE_SIZE in *; zdiv).
    exists fr. by rewrite Hsame. }
  exists b. split; [lia|]. by eexists _, _.
Qed.

(** A process whose buffers are on the page at [0x50000000], with all other registers zero. *)
Definition sample_process : Process := {|
  addr_of _ := 0x50000000;
  regs_at := call_regs 0 0 0 0;
|}.

#[local] Existing Instances dev KernelSpec.sample_link sample_layout Gic.sample_board sample_process.

Lemma sample_regs_ok : regs_ok (@regs_at sample_process).
Proof. apply call_regs_ok; unfold is_u64; lia. Qed.

Lemma mem_map_end_to_end_witness :
  match run_user (mem_map 0x2000 MemMap_ReadWrite) small_sys with
  | Ok (r, s') => r = inl (inl 0x50000000) ∧ ∃ b, user_byte s' 0x50001fff b
  | Fault _ => False
  end.
Proof.
  pose proof (mem_map_end_to_end MapSpec.ROOT 0x2000 MemMap_ReadWrite small_sys small_sys_ok
    sample_regs_ok ltac:(split; reflexivity || (vm_compute; discriminate)) ltac:(split; reflexivity || (vm_compute; discriminate))) as Hs.
  assert (match run_user (mem_map 0x2000 MemMap_ReadWrite) small_sys with
    | Ok (r, _) => r = inl (inl 0x50000000) | Fault _ => False end) as Hv by (vm_compute; reflexivity).
  destruct (run_user _ small_sys) as [[r s']|x]; [|exact Hv].
  destruct Hs as (v & -> & _ & _ & _ & _ & _ & _ & Hb). injection Hv as ->.
  split; [reflexivity|]. apply Hb. lia.
Defined.
