(* ===== verification/DeviceSpec.v ===== *)
(** * What init reads in the device tree (init/src/main.rs, init/src/drv.rs)

    Which memory is announced to the kernel, and how the interrupt controller named in the
    tree ends up programmed by the kernel. *)

From S2P Require Import Prelude Interrupts.
From S2P Require Import Memory.
From S2P Require Import Kernel PageTable KernelTables.
From S2P Require KernelSpec MapSpec.
From S2P Require Import PageTree Mapping Translation KernelApi.
From S2P Require Gic.
From S2P Require Import Console Machine Usermode Exceptions SyscallInv SyscallSpec CallSpec Init InitSpec.
Import Gic (Board).

Local Open Scope Z_scope.

(** ** RAM *)

Section ram.
Context `{Fdt}.

(** The RAM a node describes: the first [reg] property of a node called [memory@...]. *)
Definition node_ram (node : Node) : option (Z * Z) :=
  match node_name node with
  | inl name =>
      if bool_decide (name = "chosen"%string) then None
      else if String.prefix "memory@" name then
        match find_prop "reg" (props node) with
        | inl (Some p) =>
            match prop_u64 p 0, prop_u64 p 1 with inl base, inl len => Some (base, len) | _, _ => None end
        | _ => None
        end
      else None
  | inr _ => None
  end.

(** Nothing in the node fails to parse. *)
Definition node_reads (node : Node) : Prop := ∀ st, ∃ st', scan_node node st = inl st'.

Lemma scan_node_mem node ba mem st' :
  scan_node node (ba, mem) = inl st' → st'.2 = match node_ram node with Some r => Some r | None => mem end.
Proof.
  unfold scan_node, node_ram, ptri. destruct (node_name node) as [name|err]; [|done].
  destruct (bool_decide (name = "chosen"%string)).
  - destruct (find_prop _ _) as [[p|]|]; [|by intros [= <-]|done].
    destruct (prop_str p); [by intros [= <-]|done].
  - destruct (String.prefix _ _); [|by intros [= <-]].
    destruct (find_prop _ _) as [[p|]|]; [|by intros [= <-]|done].
    destruct (prop_u64 p 0) as [b|]; [|done]. destruct (prop_u64 p 1) as [l|]; [by intros [= <-]|done].
Qed.

Lemma scan_nodes_mem ns : ∀ ba mem,
  Forall node_reads ns →
  ∃ ba', scan_nodes (inl <$> ns) (ba, mem) = inl (ba', match last (omap node_ram ns) with
                                                       | Some r => Some r | None => mem end).
Proof.
  induction ns as [|node ns IH]; intros ba mem Hns; [by exists ba|].
  apply Forall_cons in Hns as [Hn Hns]. destruct (Hn (ba, mem)) as ([ba1 mem1] & E).
  pose proof (scan_node_mem _ _ _ _ E) as Hm. cbn [snd] in Hm.
  cbn [fmap list_fmap scan_nodes]. unfold ptri. rewrite E.
  destruct (IH ba1 mem1 Hns) as (ba2 & ->). exists ba2. do 2 f_equal. subst mem1.
  cbn [omap list_omap]. destruct (node_ram node) as [r|]; [|done].
  rewrite last_cons. by destruct (last _).
Qed.
End ram.

(** C36. On a tree that parses, [find_mem_nodes] announces to the kernel the RAM of exactly one
    node: the last one called [memory@...], from the first of its [reg] properties,
    whatever other memory nodes precede it.  Without such a node the process panics. *)
Theorem find_mem_nodes_last `{Process} `{FromPrimitive} `{Fdt} (dtb : DevTree) (ns : list Node) :
  nodes dtb = inl <$> ns → Forall node_reads ns →
  ∃ bootargs,
    let report := match bootargs with
                  | Some b => println (text "Boot args: " :: fmt_debug_str b)
                  | None => println [text "No boot args"] end in
    find_mem_nodes dtb =
      match last (omap node_ram ns) with
      | Some (base, len) =>
          _ ?← ok report;
          _ ?← ok (println [text "RAM: 0p"; fmt_hex base; text " ("; fmt_dec len; text " bytes)"]);
          ok (r ← download_more_ram base len; unwrap r UNWRAP_ERR)
      | None => _ ?← ok report; _ ?← ok (panic (A := Z * Z) "device tree did not contain memory node"); URet (inl tt)
      end.
Proof.
  intros Hn Hr. destruct (scan_nodes_mem ns None None Hr) as (ba & Hs). exists ba. cbv zeta.
  unfold find_mem_nodes. rewrite Hn, Hs. cbn [tri mbind user_bind].
  destruct (last (omap node_ram ns)) as [[base len]|].
  - reflexivity.
  - destruct ba; reflexivity.
Qed.

(** ** The interrupt controller *)

Section props.
Context `{Process} `{Fdt}.

(** A property of the controller's node that [find_and_init] accepts, for the two bases. *)
Definition intc_prop_ok (d c : Z) (p : Property) : Prop :=
  ∃ name, prop_name p = inl name
    ∧ (name = "reg"%string → prop_u64 p 0 = inl d ∧ prop_u64 p 2 = inl c)
    ∧ (name = "#size-cells"%string → prop_u32 p 0 = inl 2)
    ∧ (name = "#address-cells"%string → prop_u32 p 0 = inl 2)
    ∧ (name = "#interrupt-cells"%string → prop_u32 p 0 = inl 3).

(** A property of the timer's node that it accepts: the second interrupt is PPI 14, level
    triggered. *)
Definition timer_prop_ok (p : Property) : Prop :=
  ∃ name, prop_name p = inl name
    ∧ (name = "interrupts"%string → prop_length p = 48 ∧ prop_u32 p 3 = inl 1
         ∧ prop_u32 p 4 = inl PPI_NON_SECURE_PHYS_TIMER
         ∧ ∃ flags, prop_u32 p 5 = inl flags ∧ Z.land flags 0x4 = 0x4).

Lemma intc_props_ok d c ps : ∀ d0 c0,
  Forall (intc_prop_ok d c) ps →
  (d0, c0) = (d, c) ∨ Exists (λ p, prop_name p = inl "reg"%string) ps →
  intc_props (inl <$> ps) d0 c0 = URet (inl (d, c)).
Proof.
  induction ps as [|p ps IH]; intros d0 c0 Hps Hreg.
  { destruct Hreg as [[= -> ->]|Hex]; [done|]. by apply Exists_nil in Hex. }
  apply Forall_cons in Hps as [(name & Hn & Hr & Hsc & Hac & Hic) Hps].
  cbn [fmap list_fmap intc_props]. rewrite Hn. cbn [tri mbind user_bind].
  destruct (bool_decide_reflect (name = "reg"%string)) as [Er|Er].
  { destruct (Hr Er) as [-> ->]. apply IH; auto. }
  assert ((d0, c0) = (d, c) ∨ Exists (λ p, prop_name p = inl "reg"%string) ps) as Hreg'.
  { destruct Hreg as [|Hex]; [by left|]. apply Exists_cons in Hex as [Hex|]; [congruence|by right]. }
  repeat case_bool_decide; [rewrite Hsc by done|rewrite Hac by done|rewrite Hic by done|]; by apply IH.
Qed.

Lemma timer_props_ok ps : Forall timer_prop_ok ps → timer_props (inl <$> ps) = URet (inl tt).
Proof.
  induction 1 as [|p ps (name & Hn & Hi) _ IH]; [done|]. cbn [fmap list_fmap timer_props].
  rewrite Hn. cbn [tri mbind user_bind]. case_bool_decide as E; [|done].
  destruct (Hi E) as (-> & -> & -> & flags & -> & Hf). cbn. rewrite Hf. done.
Qed.
End props.

Section load.
Context `{Profile} `{Linked} `{ThreadLayout} `{Board} `{TableAlloc} `{Process} `{FromPrimitive}.
Context `{!TryFromPrimitive syscall_num} `{!BitFlags PhyMapFlags} `{!BitFlags MemMapFlags}.

(** The question mark, on a call that returns and on a value. *)
Lemma run_tri_ok `{Fdt} {A B} (m : user A) (k : A → ures B) s a s' :
  run_user m s = Ok (inl a, s') → run_user (tri (ok m) k) s = run_user (k a) s'.
Proof. intros E. unfold tri, ok. by rewrite !run_user_bind, E. Qed.

Lemma run_tri_ret `{Fdt} {A B} (m : ures A) (k : A → ures B) s a :
  m = URet (inl a) → run_user (tri m k) s = run_user (k a) s.
Proof. by intros ->. Qed.

Lemma gic_bytes_length g : length (gic_as_bytes g) = 24%nat.
Proof. unfold gic_as_bytes. by rewrite !length_app, !to_le_length. Qed.

(** What the kernel prints when it gets the record. *)
Definition load_msg (g : GicAndTimer) : list Z :=
  (mjoin [text " user: LoadKernelDevice: "; fmt_debug g] ++ [NEWLINE]) ++ Gic.GIC_MSG.

(** The wrapper and the handler of [LoadKernelDevice] together. *)
Lemma load_kernel_device_run g s :
  0 ≤ gicd_base g < 2 ^ 38 → 0 ≤ gicc_base g < 2 ^ 38 → 0 ≤ timer_ppi_interrupt g < 2 ^ 32 →
  0 ≤ _padding g < 2 ^ 32 → regs_ok regs_at → placed s (gic_as_bytes g) →
  run_user (load_kernel_device g) s = Ok (inl (inl tt),
    set_gic (Gic.programmed (gicd_base g) (gicc_base g) (timer_ppi_interrupt g) (Gic.set_ctl 3 (gic s)))
      (printed (load_msg g) s)).
Proof.
  intros Hd Hc Hi Hpad Hr [Ha Hb]. rewrite gic_bytes_length in Ha.
  set (regs := [(0%nat, addr_of (gic_as_bytes g)); (1%nat, size_of_GicAndTimer);
                (2%nat, GicAndTimer_ID); (8%nat, syscall_num LoadKernelDevice)]).
  assert (args_ok regs) as Hargs.
  { unfold regs. constructor; [split; [lia|unfold is_u64; lia]|].
    do 3 (constructor; [split; [lia|by vm_compute]|]). constructor. }
  unfold load_kernel_device. fold regs. rewrite run_user_bind, run_svc.
  rewrite (handle_syscall_arm _ LoadKernelDevice) by (by rewrite args_reg).
  unfold sys_load_kernel_device. rewrite !args_reg by done. cbn [assigned Nat.eqb regs].
  rewrite Z.eqb_refl. rewrite (lift_bind_ok _ _ _ tt) by done.
  rewrite (M_bind_ok _ _ _ (gic_as_bytes g) s); last first.
  { rewrite copy_from_user_run.
    pose proof (copy_bytes_ok s (addr_of (gic_as_bytes g)) (gic_as_bytes g) 0) as Hcp.
    rewrite gic_bytes_length in Hcp. change (Z.of_nat 24) with size_of_GicAndTimer in Hcp.
    rewrite Hcp; [done|lia|lia|unfold size_of_GicAndTimer; lia|]. intros i b Hi'. rewrite Z.add_0_r. by apply Hb. }
  rewrite gic_of_as_bytes by lia.
  erewrite M_bind_ok by apply sys_println_run. erewrite M_bind_ok by reflexivity.
  erewrite M_bind_ok by (apply on_drv_ok, Gic.init_gic_run; done).
  cbn [run_user mret M_ret]. unfold mret, M_ret.
  rewrite reg_set_x0 by (rewrite (ro_count _ (set_regs_ok _ _ Hr Hargs)); lia).
  unfold load_msg. rewrite <- (printed_printed (_ ++ [NEWLINE]) Gic.GIC_MSG). reflexivity.
Qed.
End load.

(** C15. From the device tree to the hardware: on a tree with one controller and one timer node
    of the expected shape, [find_and_init] returns their data, and the kernel has masked the
    timer and programmed the controller at exactly the two addresses of the node's [reg]
    property, for interrupt 30, with these three lines on the console.  The composition of parsing, the encoding of the record, the
    system call, the copy from user memory, the decoding, and the driver. *)
Theorem find_and_init_programs `{Profile} `{Linked} `{ThreadLayout} `{Board} `{TableAlloc}
    `{Process} `{FromPrimitive} `{Fdt}
    `{!TryFromPrimitive syscall_num} `{!BitFlags PhyMapFlags} `{!BitFlags MemMapFlags}
    (dtb : DevTree) (intc timer : Node) (ps qs : list Property) (d c : Z) (s : sys) :
  compatible_nodes dtb "arm,cortex-a15-gic" = [inl intc] → props intc = inl <$> ps →
  compatible_nodes dtb "arm,armv8-timer" = [inl timer] → props timer = inl <$> qs →
  Forall (intc_prop_ok d c) ps → Exists (λ p, prop_name p = inl "reg"%string) ps →
  Forall timer_prop_ok qs → 0 ≤ d < 2 ^ 38 → 0 ≤ c < 2 ^ 38 → regs_ok regs_at →
  let record := {| gicd_base := d; gicc_base := c; timer_ppi_interrupt := 30; _padding := 0 |} in
  placed s (text "Extracting timer information from DTB") → placed s [NEWLINE] →
  placed s (gic_as_bytes record) →
  ∃ s', run_user (find_and_init dtb) s = Ok (inl (inl (d, c, 30)), s')
    ∧ gic s' = Gic.programmed d c 30 (Gic.set_ctl 3 (gic s))
    ∧ uart s' = sent (text "Extracting timer information from DTB" ++ [NEWLINE] ++ load_msg record) (uart s)
    ∧ kern s' = kern s ∧ cpu s' = cpu s ∧ INIT_THREAD s' = INIT_THREAD s.
Proof.
  intros Hn1 Hp1 Hn2 Hp2 Hps Hreg Hqs Hd Hc Hr record Hpl1 Hpl2 Hpl3.
  unfold find_and_init. rewrite Hn1, Hn2. unfold println.
  erewrite run_tri_ok by (apply print_run_user; [done|]; apply Forall_cons; split;
    [split; [done|simpl; lia]|]; apply Forall_singleton; split; [done|simpl; lia]).
  set (s1 := printed _ s). erewrite run_tri_ret by reflexivity. cbv iota beta.
  erewrite run_tri_ret by (rewrite Hp1; by apply intc_props_ok; auto). cbv iota beta.
  erewrite run_tri_ret by reflexivity. erewrite run_tri_ok by reflexivity.
  erewrite run_tri_ret by reflexivity. cbv iota beta.
  erewrite run_tri_ret by (rewrite Hp2; by apply timer_props_ok).
  erewrite run_tri_ret by reflexivity. erewrite run_tri_ok by reflexivity.
  assert (placed s1 (gic_as_bytes record)) as Hpl by (by apply (placed_same s)).
  pose proof (load_kernel_device_run record s1 Hd Hc ltac:(by vm_compute) ltac:(by vm_compute) Hr Hpl) as Hload.
  erewrite run_tri_ok by (erewrite run_user_bind_ok by exact Hload; reflexivity).
  eexists. split; [reflexivity|]. split_and!; [done| |done..].
  unfold s1. cbn [uart set_gic printed set_uart]. by rewrite sent_sent, app_assoc.
Qed.

(** ** A sample device tree *)

(** Properties are a name and 32-bit cells; nodes a name, what they are compatible with, and
    properties. *)
Definition sample_node : Type := string * string * list (string * list Z).

Definition sample_fdt : Fdt := {|
  DevTreeError := unit;
  DevTree := list sample_node;
  Node := sample_node;
  Property := string * list Z;
  MIN_HEADER_SIZE := 40;
  read_totalsize bs := inl (of_le (reverse (take 4 (drop 4 bs))));
  devtree_new bs := inl [];
  nodes t := inl <$> t;
  compatible_nodes t c := inl <$> filter (λ n, n.1.2 = c) t;
  node_name n := inl n.1.1;
  props n := inl <$> n.2;
  prop_name p := inl p.1;
  prop_str p := inl (Some "quiet"%string);
  prop_u64 p i := inl (2 ^ 32 * nth (Z.to_nat (2 * i)) p.2 0 + nth (Z.to_nat (2 * i + 1)) p.2 0);
  prop_u32 p i := inl (nth (Z.to_nat i) p.2 0);
  prop_length p := 4 * Z.of_nat (length p.2);
|}.

(** Two banks of RAM, the interrupt controller and the timer of the QEMU machine. *)
Definition sample_tree : list sample_node :=
  [("chosen", EmptyString, [("bootargs", [])]);
   ("memory@40000000", EmptyString, [("reg", [0; 0x40000000; 0; 0x8000000])]);
   ("memory@80000000", EmptyString, [("device_type", []); ("reg", [0; 0x80000000; 0; 0x4000000])]);
   ("intc@8000000", "arm,cortex-a15-gic",
      [("reg", [0; 0x8000000; 0; 0x10000; 0; 0x8010000; 0; 0x10000]); ("#interrupt-cells", [3])]);
   ("timer", "arm,armv8-timer", [("interrupts", [1; 13; 0x104; 1; 14; 0x104; 1; 11; 0x104; 1; 10; 0x104])])].

#[local] Existing Instances dev KernelSpec.sample_link sample_layout Gic.sample_board sample_process.
#[local] Existing Instance sample_fdt.

(** Of two banks only the second is announced. *)
Lemma find_mem_nodes_last_witness :
  ∃ report : user unit, find_mem_nodes (H2 := sample_fdt) sample_tree =
    (_ ?← ok report;
     _ ?← ok (println [text "RAM: 0p"; fmt_hex 0x80000000; text " ("; fmt_dec 0x4000000; text " bytes)"]);
     ok (r ← download_more_ram 0x80000000 0x4000000; unwrap r UNWRAP_ERR)).
Proof.
  destruct (find_mem_nodes_last (H1 := sample_fdt) sample_tree sample_tree) as (ba & E).
  - reflexivity.
  - repeat constructor; intros [ba mem]; eexists; reflexivity.
  - eexists. rewrite E. reflexivity.
Defined.

(** ** A machine whose process has its buffers in one page *)

(** The three buffers [find_and_init] hands to the kernel, one after the other from
    [0x50000000]: a text of 37 bytes, a newline, two bytes of padding, a record of 24 bytes. *)
Definition sample_record : GicAndTimer :=
  {| gicd_base := 0x8000000; gicc_base := 0x8010000; timer_ppi_interrupt := 30; _padding := 0 |}.

Definition sample_page : list Z :=
  text "Extracting timer information from DTB" ++ [NEWLINE; 0; 0] ++ gic_as_bytes sample_record.

Definition buffers_process : Process := {|
  addr_of bs := 0x50000000 + (if bool_decide (bs = [NEWLINE]) then 37
                              else if bool_decide (length bs = 24%nat) then 40 else 0);
  regs_at := call_regs 0 0 0 0;
|}.

Definition buffers_sys : sys :=
  let s := mapped_sys in
  match walk (phys (kern s)) (table_base (TTBR0_EL1 (cpu s))) 0x50000000 with
  | Some (p, _) =>
      match foldl (λ m '(i, b), m' ← m; write_byte m' (p + Z.of_nat i) b) (Ok (phys (kern s)))
              (imap pair sample_page) with
      | Ok m => set_kern (set_phys m (kern s)) s
      | Fault _ => s
      end
  | None => s
  end.

(** A check, by evaluation, that a buffer is in place. *)
Definition in_place `{Process} (s : sys) (bs : list Z) : bool :=
  (0 <=? addr_of bs) && (addr_of bs + Z.of_nat (length bs) <? 2 ^ 64)
  && forallb (λ '(i, b), match ldtrb (phys (kern s)) (table_base (TTBR0_EL1 (cpu s))) (addr_of bs + Z.of_nat i) with
                         | Ok b' => b =? b'
                         | Fault _ => false
                         end) (imap pair bs).

Lemma in_place_ok `{Process} s bs : in_place s bs = true → placed s bs.
Proof.
  unfold in_place. rewrite !andb_true_iff, Z.leb_le, Z.ltb_lt, forallb_forall. intros [[Hlo Hhi] Hb].
  split; [done|]. intros i b Hi. specialize (Hb (i, b)). rewrite <- list_elem_of_In, elem_of_lookup_imap in Hb.
  apply ldtrb_user_byte. destruct (ldtrb _ _ _) as [b'|]; [|by discriminate Hb; eauto].
  by rewrite (proj1 (Z.eqb_eq b b')) by eauto.
Qed.

Lemma find_and_init_programs_witness :
  ∃ s', run_user (H4 := buffers_process) (find_and_init (H0 := buffers_process) (H2 := sample_fdt) sample_tree) buffers_sys
      = Ok (inl (inl (0x8000000, 0x8010000, 30)), s')
    ∧ gic s' = Gic.programmed 0x8000000 0x8010000 30 (Gic.set_ctl 3 (gic buffers_sys)).
Proof.
  destruct (find_and_init_programs (H4 := buffers_process) (H6 := sample_fdt) sample_tree
    ("intc@8000000", "arm,cortex-a15-gic",
      [("reg", [0; 0x8000000; 0; 0x10000; 0; 0x8010000; 0; 0x10000]); ("#interrupt-cells", [3])])%string
    ("timer", "arm,armv8-timer", [("interrupts", [1; 13; 0x104; 1; 14; 0x104; 1; 11; 0x104; 1; 10; 0x104])])%string
    [("reg", [0; 0x8000000; 0; 0x10000; 0; 0x8010000; 0; 0x10000]); ("#interrupt-cells", [3])]%string
    [("interrupts", [1; 13; 0x104; 1; 14; 0x104; 1; 11; 0x104; 1; 10; 0x104])]%string
    0x8000000 0x8010000 buffers_sys) as (s' & E & Hg & _).
  - reflexivity.
  - reflexivity.
  - reflexivity.
  - reflexivity.
  - repeat (apply List.Forall_cons; [eexists; split_and!; [reflexivity|..]; done|]). constructor.
  - constructor. reflexivity.
  - apply List.Forall_cons; [|constructor]. eexists. split; [reflexivity|]. intros _.
    split_and!; [reflexivity..|]. eexists. split; reflexivity.
  - split; reflexivity || (vm_compute; discriminate).
  - split; reflexivity || (vm_compute; discriminate).
  - exact sample_regs_ok.
  - apply in_place_ok. vm_compute. reflexivity.
  - apply in_place_ok. vm_compute. reflexivity.
  - apply in_place_ok. vm_compute. reflexivity.
  - exists s'. split; [exact E|exact Hg].
Defined.
