(* ===== verification/InitRun.v ===== *)
(** * Programs on the kernel (init/src)

    A predicate transformer for user programs: [wp known p Q] says that the calls of [p] are
    ones a process may make, whatever the kernel, the memory and the timer answer, and that [Q]
    holds of the result.  It is computed from the tree of the program alone.  That the machine
    stays sound while such a program runs, and never keeps one waiting that does not sleep, is
    in ProcRun.v; what [main] does after it has mapped the device tree is such a program. *)

From S2P Require Import Prelude Interrupts Memory.
From S2P Require PageAlloc HeapSpec.
From S2P Require Import Kernel PageTable KernelTables.
From S2P Require KernelSpec MapSpec.
From S2P Require Import PageTree Mapping Translation KernelApi.
From S2P Require Gic.
From S2P Require Import Console Machine Usermode Exceptions Boot SyscallInv SyscallSpec CallSpec.
From S2P Require Import StartSpec MoreRam Init InitSpec DeviceSpec.
Import Gic (Board).
Import PageAlloc (ram_base).

Local Open Scope Z_scope.

(** ** The transformer *)

Section wp.
Context `{LinkedOk} `{Process}.
Variables (phy_addr len_pages : Z) (sleeps : bool).

Fixpoint wp {A} (known : bool) (p : user A) (Q : bool → A → Prop) : Prop :=
  match p with
  | URet a => Q known a
  | USvc regs k => args_ok regs
      ∧ (sleeps = false → reg (set_regs regs regs_at) 8 mod 2 ^ 32 ≠ syscall_num SleepSec)
      ∧ ∃ known', allowed phy_addr len_pages (set_regs regs regs_at) known known'
      ∧ ∀ x, is_u64 x → wp known' (k x) Q
  | ULoad ptr len k => ∀ bytes, Z.of_nat (length bytes) = Z.max 0 len → wp known (k bytes) Q
  | UMrs r k => ∀ x, wp known (k x) Q
  | UStop why => True
  end.

Lemma wp_mono {A} (p : user A) (Q Q' : bool → A → Prop) known :
  (∀ b a, Q b a → Q' b a) → wp known p Q → wp known p Q'.
Proof.
  intros HQ. revert known. induction p as [a|regs k IH|ptr len k IH|r k IH|why]; intros known; cbn [wp]; auto.
  intros (Ha & Hs & known' & Hal & Hk). split; [done|]. split; [done|]. exists known'. split; [done|]. auto.
Qed.

Lemma wp_bind {A B} (p : user A) (f : A → user B) Q known :
  wp known p (λ b a, wp b (f a) Q) → wp known (p ≫= f) Q.
Proof.
  revert known. induction p as [a|regs k IH|ptr len k IH|r k IH|why]; intros known; cbn [wp mbind user_bind]; auto.
  intros (Ha & Hs & known' & Hal & Hk). split; [done|]. split; [done|]. exists known'. split; [done|]. auto.
Qed.

(** The question mark. *)
Lemma wp_tri `{Fdt} {A B} (m : ures A) (k : A → ures B) Q known :
  wp known m (λ b r, match r with inl a => wp b (k a) Q | inr e => Q b (inr e) end) → wp known (tri m k) Q.
Proof. intros Hm. apply wp_bind. eapply wp_mono; [|exact Hm]. by intros b [a|e]. Qed.

Lemma wp_ok `{Fdt} {A} (m : user A) Q known : wp known m (λ b a, Q b (inl a)) → wp known (ok m) Q.
Proof. intros Hm. apply wp_bind. eapply wp_mono; [|exact Hm]. done. Qed.
End wp.

(** ** Soundness *)

Section sound.
Context `{Profile} `{LinkedOk} `{ThreadLayout} `{Board} `{Process}.
Context `{!TryFromPrimitive syscall_num} `{!BitFlags PhyMapFlags} `{!BitFlags MemMapFlags}.
Variables (phy_addr len_pages root : Z) (sleeps : bool).
Hypothesis Hregs : regs_ok regs_at.

Lemma copy_bytes_length m ttbr ptr l bs : copy_bytes m ttbr ptr l = Ok bs → length bs = length l.
Proof.
  revert bs. induction l as [|i l IH]; intros bs; cbn [copy_bytes]; [by intros [= <-]|].
  intros (va & _ & (b & _ & (bs' & Hbs & E)%res_bind_inv)%res_bind_inv)%res_bind_inv.
  apply ok_inj in E as <-. cbn [length]. by rewrite (IH _ Hbs).
Qed.

Lemma phase_gic known s g :
  phase_ok phy_addr len_pages known root s → phase_ok phy_addr len_pages known root (set_gic g s).
Proof.
  intros Hph. eapply phase_moves; [exact Hph|]. apply moves_gic, (so_mm _ _ (phase_sys _ _ _ _ _ Hph)).
Qed.

(** Only a sleeping process waits for ever. *)
Lemma call_sleeps n : call_faults (try_from (discriminant := syscall_num) n) OutOfFuel → n = syscall_num SleepSec.
Proof.
  destruct (try_from n) as [c|] eqn:E; cbn [call_faults]; [|done]. apply try_from_iff in E as ->.
  by destruct c.
Qed.

End sound.

(** ** The wrappers *)

(** A slice that fits in memory. *)
Definition short (bs : list Z) : Prop := Z.of_nat (length bs) < 2 ^ 64.

Create HintDb short.

Lemma short_text s : Z.of_nat (String.length s) < 2 ^ 64 → short (text s).
Proof.
  unfold short, text. rewrite length_fmap. enough (length (String.list_ascii_of_string s) = String.length s) as -> by done.
  induction s as [|a s IH]; simpl; congruence.
Qed.

Lemma digits_length base n : ∀ x acc, (length (digits base n x acc) ≤ n + length acc)%nat.
Proof.
  induction n as [|n IH]; intros x acc; cbn [digits]; [lia|]. cbv zeta.
  destruct (_ =? 0); [cbn [length]; lia|]. etrans; [apply IH|]. cbn [length]. lia.
Qed.

Lemma short_dec x : short (fmt_dec x).
Proof. unfold short, fmt_dec. pose proof (digits_length 10 20 x []). cbn [length] in *. lia. Qed.

Lemma short_hex x : short (fmt_hex x).
Proof. unfold short, fmt_hex. pose proof (digits_length 16 16 x []). cbn [length] in *. lia. Qed.

Lemma short_hex_pad x : short (fmt_hex_pad 2 x).
Proof.
  unfold short, fmt_hex_pad. rewrite length_app, length_replicate.
  pose proof (digits_length 16 16 x []). unfold fmt_hex. cbn [length] in *. lia.
Qed.

#[local] Hint Resolve short_dec short_hex short_hex_pad : short.
#[local] Hint Extern 1 (short (text _)) => (apply short_text; vm_compute; reflexivity) : short.
#[local] Hint Extern 1 (short [_]) => (vm_compute; reflexivity) : short.
#[local] Hint Extern 1 (Forall short _) => (repeat constructor) : short.

Section programs.
Context `{LinkedOk} `{Process} `{FromPrimitive} `{Fdt}.
Variables (phy_addr len_pages : Z) (sleeps : bool).
Hypothesis Hregs : regs_ok regs_at.
Hypothesis Haddr : ∀ bs, is_u64 (addr_of bs).
Hypothesis Hnode : ram_node phy_addr len_pages.

#[local] Abbreviation wp := (wp phy_addr len_pages sleeps).

(** Any call that does not announce RAM. *)
Lemma wp_svc regs known Q :
  args_ok regs → assigned regs 8 (reg regs_at 8) mod 2 ^ 32 ≠ syscall_num DownloadMoreRam →
  (sleeps = false → assigned regs 8 (reg regs_at 8) mod 2 ^ 32 ≠ syscall_num SleepSec) →
  (∀ x, is_u64 x → Q known x) → wp known (svc regs) Q.
Proof.
  intros Ha H8 Hsl HQ. split; [done|]. split; [by rewrite args_reg|]. exists known. split; [|done]. apply call_other. by rewrite args_reg.
Qed.

(** The arguments of a wrapper are words. *)
Ltac words := unfold args_ok; repeat (apply List.Forall_cons; [split; [lia|]|]); [..|apply List.Forall_nil];
  first [by apply Haddr|assumption|unfold is_u64, short in *; cbn [syscall_num]; lia].

Lemma wp_log_buf s known Q : short s → Q known tt → wp known (log_buf s) Q.
Proof.
  intros Hs HQ. apply wp_bind, wp_svc; [words|done|done|done].
Qed.

Lemma wp_print args known (Q : bool → unit → Prop) : Forall short args → Q known tt → wp known (print args) Q.
Proof.
  intros Hs HQ. unfold print, _print. induction Hs as [|s args Hs _ IH]; [done|].
  apply wp_bind, wp_log_buf; done.
Qed.

Lemma wp_println args known (Q : bool → unit → Prop) : Forall short args → Q known tt → wp known (println args) Q.
Proof. intros Hs HQ. apply wp_print; [|done]. apply Forall_app. auto with short. Qed.

Lemma wp_panic {A} msg known (Q : bool → A → Prop) : short (text msg) → wp known (panic msg) Q.
Proof. intros Hs. apply wp_bind, wp_print; [|done]. auto with short. Qed.

Lemma wp_passert b msg known Q : short (text msg) → Q known tt → wp known (passert b msg) Q.
Proof. intros Hs HQ. unfold passert. destruct b; [done|]. by apply wp_panic. Qed.

Lemma wp_unwrap {A E} (r : A + E) msg known (Q : bool → A → Prop) :
  short (text msg) → (∀ a, r = inl a → Q known a) → wp known (unwrap r msg) Q.
Proof. intros Hs HQ. destruct r; [by apply HQ|]. by apply wp_panic. Qed.

Lemma wp_phy_map pa len flags known (Q : bool → Z + KError → Prop) :
  is_u64 pa → is_u64 len → is_u64 flags → (∀ x, is_u64 x → Q known (decode_address x)) →
  wp known (phy_map pa len flags) Q.
Proof. intros ??? HQ. apply wp_bind, wp_svc; [words|done|done|done]. Qed.

Lemma wp_mem_map len flags known (Q : bool → Z + KError → Prop) :
  is_u64 len → is_u64 flags → (∀ x, is_u64 x → Q known (decode_address x)) → wp known (mem_map len flags) Q.
Proof. intros ?? HQ. apply wp_bind, wp_svc; [words|done|done|done]. Qed.

Lemma wp_mem_unmap va len known (Q : bool → unit + KError → Prop) :
  is_u64 va → is_u64 len → (∀ r, Q known r) → wp known (mem_unmap va len) Q.
Proof. intros ?? HQ. apply wp_bind, wp_svc; [words|done|done|intros; apply HQ]. Qed.

Lemma wp_load_kernel_device g known (Q : bool → unit + KError → Prop) :
  (∀ r, Q known r) → wp known (load_kernel_device g) Q.
Proof.
  intros HQ. apply wp_bind, wp_svc; [|done|done|intros; apply HQ].
  unfold size_of_GicAndTimer, GicAndTimer_ID. words.
Qed.

Lemma wp_sleep_sec sec known (Q : bool → unit → Prop) : sleeps = true → is_u64 sec → Q known tt → wp known (sleep_sec sec) Q.
Proof. intros Hsl ? HQ. apply wp_bind, wp_svc; [words|done|by rewrite Hsl|intros; apply HQ]. Qed.

(** The one announcement. *)
Lemma wp_download_more_ram (Q : bool → unit + KError → Prop) :
  (∀ r, Q true r) → wp false (download_more_ram phy_addr (PAGE_SIZE * len_pages)) Q.
Proof.
  intros HQ. apply wp_bind.
  assert (args_ok [(0%nat, phy_addr); (1%nat, PAGE_SIZE * len_pages); (8%nat, syscall_num DownloadMoreRam)]) as Ha.
  { destruct (node_layout _ _ Hnode) as (d & t & h & a & _ & _ & _ & _ & _ & _ & ? & ? & ? & ? & ? & _).
    destruct Hnode as [_ ? Hp _]. unfold PAGE_ALLOC_PAGES, PAGE_ALLOC_CELLS, PAGE_SIZE in *. words. }
  split; [done|]. split; [by rewrite args_reg|]. exists true. split; [|intros; apply HQ]. apply call_announce; [by rewrite args_reg..|done].
Qed.

Lemma wp_for_M {I} (l : list I) body known :
  (∀ x, wp known (body x) (λ b _, b = known)) → wp known (for_M l body) (λ b _, b = known).
Proof.
  intros Hb. induction l as [|x l IH]; [done|]. apply wp_bind. eapply wp_mono; [|apply Hb].
  by intros b _ ->.
Qed.

Lemma wp_dump_hex_slice bs known (Q : bool → unit → Prop) : Q known tt → wp known (utils_dump_hex_slice bs) Q.
Proof.
  intros HQ. apply wp_bind. eapply wp_mono; [|apply (wp_for_M _ _ known)].
  { intros b _ ->. apply wp_println; auto. }
  intros [i byte]. apply wp_bind, wp_print; [auto with short|].
  apply wp_bind. destruct (i mod 4 =? 3); [apply wp_print; [auto with short|]|];
    (destruct (i mod 32 =? 31); [apply wp_println; auto with short|done]).
Qed.

(** ** [main] after the tree has been mapped *)

(** The strings of a tree fit in memory. *)
Hypothesis Hstr : ∀ p b, prop_str p = inl (Some b) → short (text b).

(** The memory node that counts describes the RAM there is. *)
Definition announces (t : DevTree) : Prop := ∀ ba base len,
  scan_nodes (nodes t) (None, None) = inl (ba, Some (base, len)) → base = phy_addr ∧ len = PAGE_SIZE * len_pages.

Definition args_short (st : option string * option (Z * Z)) : Prop := ∀ b, st.1 = Some b → short (text b).

Lemma scan_node_short node st st' : args_short st → scan_node node st = inl st' → args_short st'.
Proof.
  destruct st as [ba mem]. unfold scan_node, ptri. intros Hst. destruct (node_name node) as [name|]; [|done].
  destruct (bool_decide _).
  - destruct (find_prop _ _) as [[p|]|]; [|by intros [= <-]|done].
    destruct (prop_str p) as [b|] eqn:E; [|done]. intros [= <-] b' [= ->]. by eapply Hstr.
  - destruct (String.prefix _ _); [|by intros [= <-]].
    destruct (find_prop _ _) as [[p|]|]; [|by intros [= <-]|done].
    destruct (prop_u64 p 0); [|done]. destruct (prop_u64 p 1); [by intros [= <-]|done].
Qed.

Lemma scan_nodes_short l : ∀ st st', args_short st → scan_nodes l st = inl st' → args_short st'.
Proof.
  induction l as [|[node|e] l IH]; intros st st' Hst; cbn [scan_nodes]; [by intros [= <-]| |done].
  unfold ptri. destruct (scan_node node st) as [st1|] eqn:E; [|done]. apply IH. by eapply scan_node_short.
Qed.

Lemma escape_debug_pieces c esc : escape_debug c = Some esc → Forall short ((λ x, [x]) <$> esc).
Proof. intros _. apply Forall_fmap, Forall_forall. intros x _. done. Qed.

Lemma debug_pieces_short s : ∀ run, short (run ++ s) → Forall short (debug_pieces run s).
Proof.
  induction s as [|c s IH]; intros run Hs; cbn [debug_pieces]; [rewrite app_nil_r in Hs; by repeat constructor|].
  destruct (escape_debug c) as [esc|] eqn:E.
  - apply List.Forall_cons; [|apply Forall_app; split; [by eapply escape_debug_pieces|apply IH]];
      unfold short in *; rewrite length_app in Hs; cbn [length app] in *; lia.
  - apply IH. by rewrite <- app_assoc.
Qed.

Lemma fmt_debug_str_short s : short (text s) → Forall short (fmt_debug_str s).
Proof.
  intros Hs. apply List.Forall_cons; [done|]. apply Forall_app. split; [by apply debug_pieces_short|by repeat constructor].
Qed.

Lemma wp_find_mem_nodes t : announces t → wp false (find_mem_nodes t) (λ b r, ∀ u, r = inl u → b = true).
Proof.
  intros Ht. unfold find_mem_nodes. apply wp_tri. cbn [InitRun.wp].
  destruct (scan_nodes _ _) as [[ba mem]|] eqn:E; [|done].
  assert (∀ b, ba = Some b → short (text b)) as Hba by (refine (scan_nodes_short _ (None, None) _ _ E); by intros ? [=]).
  apply wp_tri, wp_ok.
  assert (∀ Q : bool → unit → Prop, Q false tt → wp false (match ba with
    | Some bootargs => println (text "Boot args: " :: fmt_debug_str bootargs)
    | None => println [text "No boot args"] end) Q) as Hrep.
  { intros Q HQ. destruct ba as [b|]; apply wp_println; auto with short.
    apply List.Forall_cons; [auto with short|]. by apply fmt_debug_str_short, Hba. }
  apply Hrep. apply wp_tri, wp_ok. destruct mem as [[base len]|]; [|apply wp_panic; auto with short].
  destruct (Ht _ _ _ E) as [-> ->]. cbn [InitRun.wp fst snd].
  apply wp_tri, wp_ok, wp_println; [auto 20 with short|]. apply wp_ok, wp_bind, wp_download_more_ram. intros r.
  apply wp_unwrap; [auto with short|]. done.
Qed.

(** Programs that leave [known] alone. *)
Lemma wp_intc_props l : ∀ d c known, wp known (intc_props l d c) (λ b _, b = known).
Proof.
  induction l as [|[p|e] l IH]; intros d c known; cbn [intc_props]; [done| |done].
  apply wp_tri. cbn [InitRun.wp]. destruct (prop_name p) as [name|]; [|done].
  destruct (bool_decide _).
  { apply wp_tri. cbn [InitRun.wp]. destruct (prop_u64 p 0); [|done].
    apply wp_tri. cbn [InitRun.wp]. destruct (prop_u64 p 2); [apply IH|done]. }
  repeat (destruct (bool_decide _); [apply wp_tri; cbn [InitRun.wp]; destruct (prop_u32 p 0); [|done];
    apply wp_tri, wp_ok, wp_passert; [auto with short|apply IH]|]).
  apply IH.
Qed.

Lemma wp_timer_props l : ∀ known, wp known (timer_props l) (λ b _, b = known).
Proof.
  induction l as [|[p|e] l IH]; intros known; cbn [timer_props]; [done| |done].
  apply wp_tri. cbn [InitRun.wp]. destruct (prop_name p) as [name|]; [|done].
  destruct (bool_decide _); [|apply IH]. apply wp_tri, wp_ok, wp_passert; [auto with short|].
  apply wp_tri. cbn [InitRun.wp]. destruct (prop_u32 p 3); [|done]. apply wp_tri, wp_ok, wp_passert; [auto with short|].
  apply wp_tri. cbn [InitRun.wp]. destruct (prop_u32 p 4); [|done]. apply wp_tri, wp_ok, wp_passert; [auto with short|].
  apply wp_tri. cbn [InitRun.wp]. destruct (prop_u32 p 5); [|done]. apply wp_tri, wp_ok, wp_passert; [auto with short|].
  apply IH.
Qed.

Lemma wp_find_and_init t known : wp known (find_and_init t) (λ b _, b = known).
Proof.
  unfold find_and_init. apply wp_tri, wp_ok, wp_println; [auto with short|].
  apply wp_tri. cbn [InitRun.wp]. destruct (next _) as [[[intc intcs]|]|]; [|apply wp_panic; auto with short|done].
  apply wp_tri. eapply wp_mono; [|apply wp_intc_props]. intros b [[d c]|] ->; [|done].
  apply wp_tri. cbn [InitRun.wp]. destruct (next intcs); [|done].
  apply wp_tri, wp_ok, wp_passert; [auto with short|].
  apply wp_tri. cbn [InitRun.wp]. destruct (next (compatible_nodes _ _)) as [[[timer timers]|]|];
    [|apply wp_panic; auto with short|done].
  apply wp_tri. eapply wp_mono; [|apply wp_timer_props]. intros b [[]|] ->; [|done].
  apply wp_tri. cbn [InitRun.wp]. destruct (next timers); [|done].
  apply wp_tri, wp_ok, wp_passert; [auto with short|].
  apply wp_tri, wp_ok, wp_bind, wp_load_kernel_device. intros r. by apply wp_unwrap; [auto with short|].
Qed.

(** What [main] does with the tree. *)
Definition main_tail (dtb : Dtb) : user unit :=
  _ ← println [text "DTB mapped at "; text "0x"; fmt_hex (dtb_ptr dtb); text ", hexdump of first 32 bytes:"];
  _ ← passert (32 <=? Z.of_nat (length (dtb_buf dtb))) "range end index 32 out of range for slice";
  _ ← utils_dump_hex_slice (take 32 (dtb_buf dtb));
  r ← find_mem_nodes (dtb_tree dtb);
  _ ← unwrap r "Failed to parse device tree";
  _ ← println [text "Allocating big buffer using newly discovered memory"];
  r ← mem_map (1024 * 1024 * 10) MemMap_ReadWrite;
  buf ← unwrap r UNWRAP_ERR;
  _ ← println [text "10MB Buffer at "; text "0x"; fmt_hex buf];
  r ← find_and_init (dtb_tree dtb);
  _ ← unwrap r "Failed to parse device tree";
  mret tt.

Lemma wp_main_tail dtb : announces (dtb_tree dtb) → wp false (main_tail dtb) (λ b _, b = true).
Proof.
  intros Ht. unfold main_tail. apply wp_bind, wp_println; [auto 20 with short|].
  apply wp_bind, wp_passert; [auto with short|]. apply wp_bind, wp_dump_hex_slice.
  apply wp_bind. eapply wp_mono; [|by apply wp_find_mem_nodes]. intros b r Hb.
  apply wp_bind, wp_unwrap; [auto with short|]. intros u Hu. rewrite (Hb u Hu).
  apply wp_bind, wp_println; [auto with short|].
  apply wp_bind, wp_mem_map; [by split|by split|]. intros x _.
  apply wp_bind, wp_unwrap; [auto with short|]. intros buf _.
  apply wp_bind, wp_println; [auto 20 with short|].
  apply wp_bind. eapply wp_mono; [|apply wp_find_and_init]. intros b' r' ->.
  apply wp_bind, wp_unwrap; [auto with short|]. done.
Qed.

Lemma wp_current_time_ms `{Profile} known (Q : bool → Z → Prop) :
  (∀ t, Q known t) → wp known current_time_ms Q.
Proof.
  intros HQ. unfold current_time_ms. apply wp_bind. intros ticks. apply wp_bind. intros freq. cbn [InitRun.wp].
  destruct (umul ticks 1000) as [t|]; [|apply wp_panic; auto with short].
  destruct (freq =? 0); [apply wp_panic; auto with short|]. apply HQ.
Qed.

(** [n] rounds of the loop. *)
Definition main_rounds `{Profile} (n : nat) : user unit := for_M (replicate n tt) (λ _, main_round).

Lemma wp_main_rounds `{Profile} n known : sleeps = true → wp known (main_rounds n) (λ b _, b = known).
Proof.
  intros Hsl. apply wp_for_M. intros _. apply wp_bind, wp_current_time_ms. intros t.
  apply wp_bind, wp_println; [auto 20 with short|]. by apply wp_sleep_sec.
Qed.
End programs.
