(* ===== verification/ProcRun.v ===== *)
(** * The process among interrupts and its own stores (init/src)

    A step relation for a user program: its calls, loads and register reads as [run_user] has
    them, and between any two of them interrupts, table walks and stores of the process to its
    memory.  The transformer [swp] covers every run: it asks for its postcondition whatever
    happens in between; [wp] of InitRun.v implies it. *)

From S2P Require Import Prelude Interrupts Memory.
From S2P Require PageAlloc.
From S2P Require Import Kernel PageTable KernelTables.
From S2P Require MapSpec.
From S2P Require Import PageTree Mapping Translation KernelApi.
From S2P Require Gic.
From S2P Require Import Console Machine Usermode Exceptions Boot SyscallInv SyscallSpec CallSpec.
From S2P Require Import StartSpec MoreRam Init InitSpec InitRun.
Import Gic (Board).

Local Open Scope Z_scope.

(** ** Steps *)

Section steps.
Context `{Profile} `{Linked} `{ThreadLayout} `{Board} `{Process}.
Context `{!TryFromPrimitive syscall_num} `{!BitFlags PhyMapFlags} `{!BitFlags MemMapFlags}.
Variables (root : Z) (kept : Z → Prop).

(** What happens between two steps of the program: an interrupt, a store of the process to a
    frame that is neither a table nor one of the frames [kept], and a table walk. *)
Inductive env_step : sys → sys → Prop :=
| env_irq e e' s s' : irq_handler e s = Ok (e', s') → env_step s s'
| env_store g fr s :
    ¬ is_table (phys (kern s)) root g → ¬ kept g → length fr = 512%nat →
    env_step s (set_kern (set_phys (<[g := fr]> (phys (kern s))) (kern s)) s)
| env_fill page e s :
    walk (phys (kern s)) (table_base (TTBR0_EL1 (cpu s))) (PAGE_SIZE * page) = Some e →
    env_step s (set_kern (set_tlb (<[page := e.2]> (tlb (kern s))) (kern s)) s).

(** A program and the machine it runs on. *)
Inductive proc_step {A} : user A * sys → user A * sys → Prop :=
| proc_env p s s' : env_step s s' → proc_step (p, s) (p, s')
| proc_svc regs k e s s' :
    exception_handler2 ESR_SVC 0 (set_regs regs regs_at) s = Ok (Some e, s') →
    proc_step (USvc regs k, s) (k (reg e 0), s')
| proc_load ptr len k bs s :
    copy_bytes (phys (kern s)) (table_base (TTBR0_EL1 (cpu s))) ptr (seqZ 0 len) = Ok bs →
    proc_step (ULoad ptr len k, s) (k bs, s)
| proc_mrs r k x s s' : read_msr r s = Ok (x, s') → proc_step (UMrs r k, s) (k x, s').

(** What happens in between is among the steps of the running machine. *)
Lemma env_sys s s' : env_step s s' → sys_step root s s'.
Proof.
  destruct 1 as [e e' s s' Hs|g fr s Hg _ Hl|page e s He]; [by eapply step_irq|by apply step_store|by apply step_fill].
Qed.

(** [run_user] is one of the runs: the one in which nothing happens in between. *)
Lemma run_user_steps {A} (p : user A) s a s' :
  run_user p s = Ok (inl a, s') → rtc proc_step (p, s) (URet a, s').
Proof.
  revert s. induction p as [b|regs k IH|ptr len k IH|r k IH|why]; intros s; cbn [run_user].
  - intros [= -> ->]. apply rtc_refl.
  - unfold mbind, M_bind. destruct (exception_handler2 _ _ _ s) as [[[e|] s1]|x] eqn:E; [|done|done].
    intros Hr. eapply rtc_l; [by eapply proc_svc|]. by apply IH.
  - unfold mbind, M_bind, lift, gets, id. destruct (copy_bytes _ _ _ _) as [bs|x] eqn:E; [|done].
    intros Hr. eapply rtc_l; [by eapply proc_load|]. by apply IH.
  - unfold mbind, M_bind. destruct (read_msr r s) as [[x s1]|x] eqn:E; [|done].
    intros Hr. eapply rtc_l; [by eapply proc_mrs|]. by apply IH.
  - done.
Qed.

(** ** The transformer *)

Variable sleeps : bool.

(** [swp p Q s]: in every run of [p] from [s] the machine satisfies [sys_ok] throughout, no call
    waits for ever unless the program may sleep, and if [p] ends, [Q] holds, now and until the
    next step. *)
Fixpoint swp {A} (p : user A) (Q : sys → A → Prop) (s : sys) : Prop :=
  ∀ s1, rtc env_step s s1 → sys_ok root s1 ∧
    match p with
    | URet a => Q s1 a
    | USvc regs k =>
        match exception_handler2 ESR_SVC 0 (set_regs regs regs_at) s1 with
        | Ok (Some e, s2) => swp (k (reg e 0)) Q s2
        | Ok (None, _) => True
        | Fault x => x = OutOfFuel → sleeps = true
        end
    | ULoad ptr len k =>
        match copy_bytes (phys (kern s1)) (table_base (TTBR0_EL1 (cpu s1))) ptr (seqZ 0 len) with
        | Ok bs => swp (k bs) Q s1
        | Fault _ => True
        end
    | UMrs r k => match read_msr r s1 with Ok (x, s2) => swp (k x) Q s2 | Fault _ => True end
    | UStop _ => True
    end.

Lemma swp_env {A} (p : user A) Q s s' : rtc env_step s s' → swp p Q s → swp p Q s'.
Proof. intros Henv. destruct p; cbn [swp]; intros Hp s1 Hr1; apply Hp; by etrans. Qed.

Lemma swp_ok {A} (p : user A) Q s : swp p Q s → sys_ok root s.
Proof. destruct p; cbn [swp]; intros Hp; apply (Hp s); apply rtc_refl. Qed.

Lemma swp_step {A} (p p' : user A) Q s s' : proc_step (p, s) (p', s') → swp p Q s → swp p' Q s'.
Proof.
  intros Hstep. inversion Hstep as [q t t' He|regs k e t t' He|ptr len k bs t He|r k x t t' He]; subst; cbn [swp]; intros Hp.
  - eapply swp_env; [|exact Hp]. by apply rtc_once.
  - destruct (Hp s (rtc_refl _ _)) as [_ Hk]. by rewrite He in Hk.
  - destruct (Hp s' (rtc_refl _ _)) as [_ Hk]. by rewrite He in Hk.
  - destruct (Hp s (rtc_refl _ _)) as [_ Hk]. by rewrite He in Hk.
Qed.

(** Adequacy. *)
Lemma swp_sound {A} (p p' : user A) Q s s' :
  swp p Q s → rtc proc_step (p, s) (p', s') →
  sys_ok root s' ∧ (∀ a, p' = URet a → Q s' a)
  ∧ (∀ regs k, p' = USvc regs k → sleeps = false →
       exception_handler2 ESR_SVC 0 (set_regs regs regs_at) s' ≠ Fault OutOfFuel).
Proof.
  intros Hp Hr. assert (swp p' Q s') as Hp'.
  { remember (p, s) as c eqn:Ec. remember (p', s') as c' eqn:Ec'. revert p s Ec Hp.
    induction Hr as [c|c [p1 s1] c' Hstep _ IH]; intros p s -> Hp; [by simplify_eq|].
    apply (IH Ec' p1 s1 eq_refl). by eapply swp_step. }
  split; [by eapply swp_ok|]. split.
  - intros a ->. by destruct (Hp' s' (rtc_refl _ _)).
  - intros regs k -> Hsl Hf. destruct (Hp' s' (rtc_refl _ _)) as [_ Hk]. rewrite Hf in Hk. by rewrite Hk in Hsl.
Qed.

Lemma swp_mono {A} (p : user A) (Q Q' : sys → A → Prop) s : (∀ s a, Q s a → Q' s a) → swp p Q s → swp p Q' s.
Proof.
  intros HQ. revert s. induction p as [b|regs k IH|ptr len k IH|r k IH|why]; intros s Hp s1 Hr1;
    destruct (Hp s1 Hr1) as [Hok Hk]; (split; [done|]); auto.
  - destruct (exception_handler2 _ _ _ _) as [[[e|] s2]|x]; auto.
  - destruct (copy_bytes _ _ _ _); auto.
  - destruct (read_msr r s1) as [[x s2]|x]; auto.
Qed.

Lemma swp_bind {A B} (p : user A) (f : A → user B) Q s :
  swp p (λ s a, swp (f a) Q s) s → swp (p ≫= f) Q s.
Proof.
  revert s. induction p as [a|regs k IH|ptr len k IH|r k IH|why]; intros s Hp.
  - by destruct (Hp s (rtc_refl _ _)).
  - intros s1 Hr1. destruct (Hp s1 Hr1) as [Hok Hk]. split; [done|].
    destruct (exception_handler2 _ _ _ _) as [[[e|] s2]|x]; [by apply IH|done..].
  - intros s1 Hr1. destruct (Hp s1 Hr1) as [Hok Hk]. split; [done|]. destruct (copy_bytes _ _ _ _); [by apply IH|done].
  - intros s1 Hr1. destruct (Hp s1 Hr1) as [Hok Hk]. split; [done|]. destruct (read_msr r s1) as [[x s2]|x]; [by apply IH|done].
  - intros s1 Hr1. by destruct (Hp s1 Hr1).
Qed.

(** ** Stable assertions *)

(** What neither interrupts nor stores of the process change. *)
Definition stable (P : sys → Prop) : Prop := ∀ s s', P s → env_step s s' → P s'.

Lemma stable_rtc P s s' : stable P → P s → rtc env_step s s' → P s'.
Proof. intros HP Hs Hr. revert Hs. induction Hr as [|s s1 s' Hstep _ IH]; [done|]. intros Hs. apply IH. by eapply HP. Qed.

Section rules.
Variable P : sys → Prop.
Hypothesis HP : stable P.
Hypothesis HPok : ∀ s, P s → sys_ok root s.

Lemma swp_ret {A} (a : A) (Q : sys → A → Prop) s : P s → (∀ s, P s → Q s a) → swp (URet a) Q s.
Proof. intros Hs HQ s1 Hr1. pose proof (stable_rtc P s s1 HP Hs Hr1). split; auto. Qed.

Lemma swp_svc {A} regs (k : Z → user A) Q s :
  P s →
  (∀ s, P s → match handle_syscall (set_regs regs regs_at) s with
              | Ok (e, s') => swp (k (reg e 0)) Q s'
              | Fault x => x = OutOfFuel → sleeps = true
              end) →
  swp (USvc regs k) Q s.
Proof.
  intros Hs Hk s1 Hr1. pose proof (stable_rtc P s s1 HP Hs Hr1) as Hs1. split; [auto|].
  specialize (Hk s1 Hs1). unfold exception_handler2. rewrite Z.eqb_refl. unfold mbind, M_bind.
  by destruct (handle_syscall _ s1) as [[e s2]|x].
Qed.

Lemma swp_load {A} ptr len bs (k : list Z → user A) Q s :
  P s →
  (∀ s, P s → copy_bytes (phys (kern s)) (table_base (TTBR0_EL1 (cpu s))) ptr (seqZ 0 len) = Ok bs) →
  (∀ s, P s → swp (k bs) Q s) → swp (ULoad ptr len k) Q s.
Proof.
  intros Hs Hb Hk s1 Hr1. pose proof (stable_rtc P s s1 HP Hs Hr1) as Hs1. split; [auto|].
  rewrite (Hb s1 Hs1). auto.
Qed.
End rules.
End steps.

(** ** Programs that behave *)

Section behave.
Context `{Profile} `{LinkedOk} `{ThreadLayout} `{Board} `{Process}.
Context `{!TryFromPrimitive syscall_num} `{!BitFlags PhyMapFlags} `{!BitFlags MemMapFlags}.
Variables (phy_addr len_pages root : Z) (kept : Z → Prop) (sleeps : bool).
Hypothesis Hregs : regs_ok regs_at.

Lemma phase_stable known : stable root kept (phase_ok phy_addr len_pages known root).
Proof. intros s s' Hph Hstep. by apply (phase_step phy_addr len_pages root known s s' (env_sys _ _ _ _ Hstep)). Qed.

(** A program that makes only calls a process may make keeps the machine sound in every run. *)
Lemma wp_swp {A} (p : user A) (Q : bool → A → Prop) : ∀ known s,
  wp phy_addr len_pages sleeps known p Q → phase_ok phy_addr len_pages known root s →
  swp root kept sleeps p (λ s a, ∃ known', phase_ok phy_addr len_pages known' root s ∧ Q known' a) s.
Proof.
  induction p as [a|regs k IH|ptr len k IH|r k IH|why]; intros known s Hwp Hph s1 Hr1;
    pose proof (stable_rtc root kept _ s s1 (phase_stable known) Hph Hr1) as Hph1;
    pose proof (phase_sys _ _ _ _ _ Hph1) as Hok1; cbn [wp] in Hwp; (split; [exact Hok1|]).
  - by exists known.
  - destruct Hwp as (Ha & Hsl & known' & Hal & Hk). unfold exception_handler2. rewrite Z.eqb_refl.
    pose proof (set_regs_ok _ _ Hregs Ha) as Hr.
    pose proof (phase_call phy_addr len_pages root _ s1 known known' Hph1 Hr Hal) as Hc.
    unfold mbind, M_bind. destruct (handle_syscall _ s1) as [[e' s']|x]; last first.
    { intros ->. apply call_sleeps in Hc. destruct sleeps; [done|]. by destruct (Hsl eq_refl). }
    destruct Hc as (He & Hph' & _). cbn [mret M_ret]. apply (IH _ known'); [|done]. apply Hk.
    destruct He as [->|(x & Hx & ->)]; [by apply reg_u64|].
    by rewrite reg_set_x0 by (rewrite (ro_count _ Hr); lia).
  - destruct (copy_bytes _ _ _ _) as [bs|x] eqn:E; [|done].
    apply (IH _ known); [|done]. apply Hwp. rewrite (copy_bytes_length _ _ _ _ _ E), length_seqZ. lia.
  - unfold read_msr, mbind, M_bind, lift, gets, modify. destruct (Z.testbit _ 0); [|done].
    destruct r; apply (IH _ known); auto. by apply phase_gic.
  - done.
Qed.

(** Printing keeps whatever the console and the stores of the process do not touch. *)
Lemma swp_print (P : sys → Prop) args s :
  stable root kept P → (∀ s, P s → sys_ok root s) → (∀ s t, P s → P (printed t s)) →
  (∀ bs, is_u64 (addr_of bs)) → Forall short args → P s →
  swp root kept sleeps (print args) (λ s _, P s) s.
Proof.
  intros HP Hok Hpr Haddr Hargs. revert s. unfold print, _print.
  induction Hargs as [|a args Ha _ IH]; intros s Hs; cbn [for_M].
  { by apply (swp_ret root kept sleeps P). }
  apply swp_bind. unfold write_str, user_write, log_buf. apply swp_bind.
  apply (swp_svc root kept sleeps P); [done|done|done|]. intros s1 Hs1. rewrite log_run; last first.
  { rewrite args_reg; [done|done|]. unfold args_ok.
    repeat (apply List.Forall_cons; [split; [lia|first [by apply Haddr|unfold short, is_u64 in *; cbn [syscall_num]; lia]]|]).
    apply List.Forall_nil. }
  destruct (copy_bytes _ _ _ _) as [bs|x] eqn:E; [|intros ->; by apply copy_bytes_fuel in E].
  apply (swp_ret root kept sleeps P); [done|done|by apply Hpr|]. intros s2 Hs2.
  apply (swp_ret root kept sleeps P); [done|done|done|]. intros s3 Hs3. by apply IH.
Qed.
End behave.
