(* ===== verification/DtbSpec.v ===== *)
(** * The device tree (kernel/src/aarch64/usermode.rs, [PhyMap]; init/src/main.rs)

    What [PhyMap] does to the address space, and what [map_dtb] reads through the mappings it
    makes, from the machine the kernel boots into on. *)

From S2P Require Import Prelude Interrupts Memory.
From S2P Require PageAlloc HeapSpec.
From S2P Require Import Kernel PageTable KernelTables.
From S2P Require KernelSpec MapSpec.
From S2P Require Import PageTree Mapping Translation FindHole KernelApi.
From S2P Require Gic.
From S2P Require Import Console Machine Usermode UserMemory Exceptions Boot SyscallInv SyscallSpec CallSpec.
From S2P Require Import StartSpec MoreRam Init InitSpec DeviceSpec InitRun.
Import Gic (Board).
Import PageAlloc (ram_base).

Local Open Scope Z_scope.

(** ** [PhyMap] *)

(** The attributes it gives to the pages. *)
Definition phy_map_attrs (flags : Z) : Z :=
  Z.lor (Z.lor PT_ISH (if Z.testbit flags 0 then PT_RW_EL0 else PT_RO_EL0))
    (if Z.testbit flags 1 then PT_DEV else PT_MEM).

Lemma phy_map_attrs_small x : 0 ≤ phy_map_attrs x < PAGE_SIZE ∧ Z.testbit (phy_map_attrs x) 6 = true.
Proof.
  unfold phy_map_attrs, PAGE_SIZE.
  destruct (Z.testbit x 0), (Z.testbit x 1); vm_compute; (split; [split; discriminate || reflexivity|reflexivity]).
Qed.

Lemma contains_bit `{!BitFlags PhyMapFlags} x i :
  i = 0 ∨ i = 1 →
  contains (all := PhyMapFlags) (from_bits_truncate (all := PhyMapFlags) x) (Z.shiftl 1 i) = Z.testbit x i.
Proof.
  intros Hi. rewrite contains_spec, from_bits_truncate_spec, <- Z.land_assoc.
  replace (Z.land PhyMapFlags (Z.shiftl 1 i)) with (Z.shiftl 1 i) by (by destruct Hi as [->| ->]).
  rewrite Z.shiftl_1_l. destruct (Z.testbit x i) eqn:E.
  - apply Z.eqb_eq, Z.bits_inj'. intros j Hj. rewrite Z.land_spec, Z.pow2_bits_eqb by lia.
    destruct (Z.eqb_spec i j) as [<-|]; [by rewrite E|by rewrite andb_false_r].
  - apply Z.eqb_neq. intros Heq. apply (f_equal (λ z, Z.testbit z i)) in Heq.
    rewrite Z.land_spec, E, Z.pow2_bits_true in Heq by lia. done.
Qed.

Section phy_map.
Context `{Profile} `{Linked} `{ThreadLayout} `{Board}.
Context `{!TryFromPrimitive syscall_num} `{!BitFlags PhyMapFlags} `{!BitFlags MemMapFlags}.

(** The outcome of [PhyMap]. *)
Lemma phy_map_spec (root : Z) (e : ExceptionContext) (s : sys) :
  sys_ok root s → regs_ok e → reg e 8 mod 2 ^ 32 = syscall_num PhyMap →
  let phy := reg e 0 in
  let len := reg e 1 in
  let n := len / PAGE_SIZE in
  let attrs := phy_map_attrs (reg e 2) in
  let ttbr := table_base (TTBR0_EL1 (cpu s)) in
  phy + len ≤ 2 ^ 64 →
  match handle_syscall e s with
  | Ok (e', s') => len = PAGE_SIZE * n ∧ ∃ lo,
      let inside va := lo ≤ va / PAGE_SIZE < lo + n in
      e' = set_x0 (PAGE_SIZE * lo) e ∧ 0x50000000 ≤ PAGE_SIZE * lo ∧ PAGE_SIZE * (lo + n) ≤ 2 ^ 39
      ∧ (∀ va, 0 ≤ va < 2 ^ 39 → inside va → walk (phys (kern s)) ttbr va = None)
      ∧ (∀ va, 0 ≤ va < 2 ^ 39 → inside va → pte (phys (kern s')) root va =
           Z.lor (Z.lor (phy + PAGE_SIZE * (va / PAGE_SIZE - lo)) COMMON_FLAGS) attrs)
      ∧ (∀ va, 0 ≤ va < 2 ^ 39 → ¬ inside va → walk (phys (kern s')) ttbr va = walk (phys (kern s)) ttbr va)
      ∧ (phy mod PAGE_SIZE = 0 → phy + len ≤ 2 ^ 48 → ∀ va, 0 ≤ va < 2 ^ 39 → inside va →
           walk (phys (kern s')) ttbr va =
             Some (phy + (va - PAGE_SIZE * lo), pte (phys (kern s')) root va))
      ∧ moves root s s'
  | Fault x =>
      (x = PanicMsg "assertion failed: size_bytes % PAGE_SIZE == 0" ∧ len mod PAGE_SIZE ≠ 0)
      ∨ (len = PAGE_SIZE * n ∧ no_room root (kern s) 0 n x)
  end.
Proof.
  intros Hok Hr Hc phy len n attrs ttbr Hfit. rewrite (handle_syscall_arm e PhyMap Hc).
  pose proof (reg_u64 e 1 Hr) as Hlen. fold len in Hlen. pose proof (reg_u64 e 0 Hr) as H0u. fold phy in H0u.
  assert (0 ≤ n) as Hn by (unfold n; unfold PAGE_SIZE, is_u64 in *; zdiv).
  unfold sys_phy_map. destruct (so_thread _ _ Hok) as (t & Ht & Hp).
  rewrite (M_bind_ok _ _ _ t s) by (by apply as_mut_ok). rewrite Hp. unfold PhyMap_ReadWrite, PhyMap_DeviceMem.
  rewrite !contains_bit by lia.
  set (a := if Z.testbit (reg e 2) 1 then _ else _).
  replace a with attrs by (unfold a, attrs, phy_map_attrs; by destruct (Z.testbit (reg e 2) 0), (Z.testbit (reg e 2) 1)).
  pose proof (so_mm _ _ Hok) as Hmm. unfold mbind, M_bind. rewrite on_kern_run. fold len. fold phy.
  destruct (Z.eq_dec (len mod PAGE_SIZE) 0) as [Hmod|Hmod]; last first.
  { unfold vmap. rewrite (proj2 (Z.eqb_neq _ _)) by done. left. by split. }
  assert (len = PAGE_SIZE * n) as Hln by (unfold n; unfold PAGE_SIZE in *; zdiv).
  pose proof (vmap_spec root (kern s) phy n attrs Hmm Hn) as Hv. rewrite <- Hln in Hv.
  specialize (Hv ltac:(apply H0u) ltac:(lia)).
  destruct (vmap _ _ _ _ (kern s)) as [[v k']|x]; last first.
  { right. split; [done|]. by eapply vmap_no_room; [..|apply pool_loses_refl|]. }
  destruct Hv as (lo & -> & Hlo & Hend & Hfree & Hrg). split; [done|]. exists lo.
  pose (inside va := lo ≤ va / PAGE_SIZE < lo + n).
  assert (∀ va, 0 ≤ va < 2 ^ 39 → inside va → pte (phys k') root va =
           Z.lor (Z.lor (phy + PAGE_SIZE * (va / PAGE_SIZE - lo)) COMMON_FLAGS) attrs) as Hin.
  { intros va Hva [Hge Hlt]. rewrite (rg_pte _ _ _ _ _ _ Hrg) by done.
    by rewrite (proj2 (Z.leb_le _ _)), (proj2 (Z.ltb_lt _ _)) by done. }
  unfold ttbr. rewrite (so_ttbr _ _ Hok). cbn [kern set_kern].
  split_and!; [done|done|lia| |done| | |split; [by eapply range_evolves|done..]].
  - intros va Hva Hi. rewrite walk_pte by (apply Hmm || done).
    rewrite (pte_page root _ va (PAGE_SIZE * (va / PAGE_SIZE)) Hva) by (unfold PAGE_SIZE in *; zdiv). by rewrite Hfree.
  - intros va Hva Hi. rewrite !walk_pte by (apply Hmm || apply Hrg || done).
    rewrite (rg_pte _ _ _ _ _ _ Hrg) by done.
    destruct (Z.leb_spec lo (va / PAGE_SIZE)), (Z.ltb_spec (va / PAGE_SIZE) (lo + n)); [|done..]. by destruct Hi.
  - intros Hal H48 va Hva Hi. rewrite walk_pte, Hin by (apply Hrg || done).
    destruct Hi as [Hge Hlt]. unfold is_u64, PAGE_SIZE in *.
    replace (phy + 4096 * (va / 4096 - lo)) with (4096 * (phy / 4096 + (va / 4096 - lo))) by zdiv.
    rewrite leaf_walk_desc by (zdiv || apply phy_map_attrs_small). do 2 f_equal. unfold PAGE_SIZE. zdiv.
Qed.
End phy_map.

(** ** Bytes in physical memory *)

(** The bytes [bs] are in memory from [p] on, in frames that are neither free nor tables. *)
Record in_memory `{Profile} (root : Z) (s : sys) (p : Z) (bs : list Z) : Prop := {
  im_kept : ∀ i b, bs !! i = Some b → let h := (p + Z.of_nat i) / PAGE_SIZE in
    ¬ free_frame (kern s) h ∧ ¬ is_table (phys (kern s)) root h;
  im_bytes : ∀ i b, bs !! i = Some b → read_byte (phys (kern s)) (p + Z.of_nat i) = Ok b;
}.

(** Nothing the kernel does on behalf of a process changes them. *)
Lemma in_memory_moves `{Profile} root s s' p bs : moves root s s' → in_memory root s p bs → in_memory root s' p bs.
Proof.
  intros [[_ Hnew Hfree Hfr _] _ _] [Hk Hb].
  split; intros i b Hi; destruct (Hk i b Hi) as [Hnf Hnt].
  - split; [by intros ?%Hfree|]. intros Ht. by destruct (Hnew _ Ht).
  - rewrite <- (Hb i b Hi). apply read_byte_frame. by apply Hfr.
Qed.

Lemma in_memory_take `{Profile} root s p bs n : in_memory root s p bs → in_memory root s p (take n bs).
Proof. intros [Hk Hb]. split; intros i b [Hi _]%lookup_take_Some; [by eapply Hk|by apply Hb]. Qed.

(** ** The wrappers, with the kernel *)

Section run.
Context `{Profile} `{Linked} `{ThreadLayout} `{Board} `{Process} `{FromPrimitive} `{Fdt}.
Context `{!TryFromPrimitive syscall_num} `{!BitFlags PhyMapFlags} `{!BitFlags MemMapFlags}.
Variable root : Z.
Hypothesis Hregs : regs_ok regs_at.

(** A load of bytes that are there. *)
Lemma load_run {A} ptr bs (k : list Z → user A) s :
  0 ≤ ptr → ptr + Z.of_nat (length bs) ≤ 2 ^ 64 →
  (∀ i b, bs !! i = Some b → user_byte s (ptr + Z.of_nat i) b) →
  run_user (ULoad ptr (Z.of_nat (length bs)) k) s = run_user (k bs) s.
Proof.
  intros Hp Hend Hb. cbn [run_user]. unfold mbind, M_bind, lift, gets, id.
  rewrite copy_bytes_ok; [done|lia|lia|lia|]. intros i b Hi. rewrite Z.add_0_r. by apply Hb.
Qed.

Lemma run_tri_bind {A B} (m : user A) (k : A → ures B) s :
  run_user (tri (ok m) k) s = match run_user m s with
                              | Ok (inl a, s') => run_user (k a) s'
                              | Ok (inr why, s') => Ok (inr why, s')
                              | Fault x => Fault x
                              end.
Proof.
  unfold tri, ok. rewrite run_user_bind, run_user_bind. by destruct (run_user m s) as [[[a|why] s']|x].
Qed.

(** Why mapping [len] bytes may fail. *)
Definition map_fault (len : Z) (x : fault) : Prop :=
  x = PanicMsg "OOM" ∨ x = PanicMsg "Out of virtual memory space"
  ∨ (len mod PAGE_SIZE ≠ 0 ∧ x = PanicMsg "assertion failed: size_bytes % PAGE_SIZE == 0")
  ∨ (PAGE_SIZE < len ∧ (x = PanicMsg "Tried to map memory that is already occupied"
                        ∨ x = PanicMsg "assertion failed: vaddr < 0x8000000000")).

Lemma no_room_fault k n len x : len = PAGE_SIZE * n → no_room root k 0 n x → map_fault len x.
Proof.
  intros ->. unfold no_room, map_fault. destruct (find_hole _ _ _ _) as [[v|]|]; [|by right; left|done].
  intros [[-> _]|[Hn Hx]]; [by left|]. right; right; right. split; [unfold PAGE_SIZE; lia|].
  destruct Hx as [[-> _]|[-> _]]; auto.
Qed.

(** The descriptor of a page mapped for the process. *)
Lemma phy_map_desc x flags :
  x mod PAGE_SIZE = 0 → Z.testbit (Z.lor (Z.lor x COMMON_FLAGS) (phy_map_attrs flags)) 6 = true.
Proof.
  intros Hx. rewrite !Z.lor_spec, (proj2 (phy_map_attrs_small flags)). by rewrite !orb_true_r.
Qed.

(** [phy_map(..).unwrap()] returns the address from which the process reads what is in memory. *)
Lemma phy_map_run s f len :
  sys_ok root s → is_u64 (PAGE_SIZE * f) → is_u64 len → f + len / PAGE_SIZE ≤ 2 ^ 36 →
  match run_user (r ← phy_map (PAGE_SIZE * f) len 0; unwrap r UNWRAP_ERR) s with
  | Ok (r, s') => ∃ v, r = inl v ∧ len mod PAGE_SIZE = 0 ∧ v mod PAGE_SIZE = 0
      ∧ 0x50000000 ≤ v ∧ v + len ≤ 2 ^ 39 ∧ moves root s s'
      ∧ ∀ bs, in_memory root s (PAGE_SIZE * f) bs → Z.of_nat (length bs) ≤ len →
          ∀ i b, bs !! i = Some b → user_byte s' (v + Z.of_nat i) b
  | Fault x => map_fault len x
  end.
Proof.
  intros Hok Hf Hlen Hfit. set (regs := [(0%nat, PAGE_SIZE * f); (1%nat, len); (2%nat, 0); (8%nat, syscall_num PhyMap)]).
  assert (args_ok regs) as Hargs.
  { unfold args_ok, regs. repeat (apply List.Forall_cons; [split; [lia|done]|]). apply List.Forall_nil. }
  unfold phy_map. rewrite !run_user_bind, run_svc. fold regs.
  pose proof (phy_map_spec root (set_regs regs regs_at) s Hok (set_regs_ok _ _ Hregs Hargs)) as Hm.
  rewrite !args_reg in Hm by done. cbn [assigned Nat.eqb regs] in Hm. specialize (Hm eq_refl). cbv zeta in Hm.
  unfold is_u64 in Hf, Hlen. specialize (Hm ltac:(unfold PAGE_SIZE in *; zdiv)).
  destruct (handle_syscall _ s) as [[e' s']|x]; last first.
  { destruct Hm as [[-> ?]|[? Hm]]; [right; right; left; by split|by eapply no_room_fault]. }
  destruct Hm as (Hln & lo & -> & Hlo & Hend & _ & Hdesc & _ & Hwalk & Hmv). set (n := len / PAGE_SIZE) in *.
  specialize (Hwalk ltac:(unfold PAGE_SIZE; zdiv) ltac:(unfold PAGE_SIZE in *; lia)).
  cbn [run_user]. rewrite reg_set_x0 by (rewrite (ro_count _ (set_regs_ok _ _ Hregs Hargs)); lia).
  rewrite decode_address_ok by (unfold PAGE_SIZE in *; lia). cbn [unwrap run_user mret M_ret].
  exists (PAGE_SIZE * lo). split_and!; [done|unfold PAGE_SIZE in *; zdiv|unfold PAGE_SIZE; zdiv|done|lia|done|].
  intros bs Hbs Hl i b Hi. pose proof (lookup_lt_Some _ _ _ Hi) as Hil.
  assert (0 ≤ PAGE_SIZE * lo + Z.of_nat i < 2 ^ 39) as Hva by lia.
  assert (lo ≤ (PAGE_SIZE * lo + Z.of_nat i) / PAGE_SIZE < lo + n) as Hin by (unfold PAGE_SIZE in *; zdiv).
  specialize (Hwalk _ Hva Hin). rewrite (Hdesc _ Hva Hin) in Hwalk.
  split; [lia|]. rewrite (mv_cpu _ _ _ Hmv). eexists _, _. split; [exact Hwalk|].
  split; [apply phy_map_desc; unfold PAGE_SIZE; zdiv|].
  rewrite <- (im_bytes _ _ _ _ (in_memory_moves _ _ _ _ _ Hmv Hbs) i b Hi). f_equal. lia.
Qed.

(** [mem_unmap(..).unwrap()] of mapped pages succeeds. *)
Lemma mem_unmap_run s lo n :
  sys_ok root s → 0 ≤ lo → 0 ≤ n → PAGE_SIZE * (lo + n) ≤ 2 ^ 39 →
  ∃ s', run_user (r ← mem_unmap (PAGE_SIZE * lo) (PAGE_SIZE * n); unwrap r UNWRAP_ERR) s = Ok (inl tt, s')
    ∧ moves root s s'.
Proof.
  intros Hok Hlo Hn Hend. set (regs := [(0%nat, PAGE_SIZE * lo); (1%nat, PAGE_SIZE * n); (8%nat, syscall_num MemUnmap)]).
  assert (args_ok regs) as Hargs.
  { unfold args_ok, regs. repeat (apply List.Forall_cons; [split; [lia|unfold is_u64, PAGE_SIZE in *; cbn [syscall_num]; lia]|]).
    apply List.Forall_nil. }
  unfold mem_unmap. rewrite !run_user_bind, run_svc. fold regs.
  rewrite (handle_syscall_arm _ MemUnmap) by (by rewrite args_reg). unfold sys_mem_unmap. rewrite !args_reg by done.
  cbn [assigned Nat.eqb regs]. destruct (so_thread _ _ Hok) as (t & Ht & Hp).
  rewrite (M_bind_ok _ _ _ t s) by (by apply as_mut_ok). rewrite Hp.
  pose proof (vunmap_evolves root (kern s) (PAGE_SIZE * lo) (PAGE_SIZE * n) (so_mm _ _ Hok)) as Hev.
  destruct (vunmap_spec root (kern s) lo n (so_mm _ _ Hok) Hlo Hn Hend) as (k' & E & Hrg).
  rewrite E in Hev. erewrite M_bind_ok by (apply on_kern_ok; exact E). cbn [mret M_ret].
  eexists. rewrite reg_set_x0 by (rewrite (ro_count _ (set_regs_ok _ _ Hregs Hargs)); lia). cbn.
  split; [done|]. split; [apply Hev|done..].
Qed.

(** ** [map_dtb] *)

(** The device tree in memory: its header tells its size. *)
Record tree_at (s : sys) (blob : list Z) : Prop := {
  ta_memory : in_memory root s DTB_ADDR blob;
  ta_size : Z.of_nat (length blob) < 2 ^ 32;
  ta_header : 0 ≤ MIN_HEADER_SIZE ≤ Z.of_nat (length blob) ∧ MIN_HEADER_SIZE ≤ MAP_LEN;
  ta_total : read_totalsize (take (Z.to_nat MIN_HEADER_SIZE) blob) = inl (Z.of_nat (length blob));
}.

(** What [map_dtb] returns for it: the parser's answer. *)
Definition parsed (s : sys) (blob : list Z) (r : Dtb + DevTreeError) : Prop :=
  match devtree_new blob with
  | inl t => ∃ ptr, r = inl {| dtb_ptr := ptr; dtb_buf := blob; dtb_tree := t |} ∧ 0x50000000 ≤ ptr
      ∧ ∀ i b, blob !! i = Some b → user_byte s (ptr + Z.of_nat i) b
  | inr e => r = inr e
  end.

Lemma parse_at_run s ptr blob :
  0x50000000 ≤ ptr → ptr + Z.of_nat (length blob) ≤ 2 ^ 64 →
  (∀ i b, blob !! i = Some b → user_byte s (ptr + Z.of_nat i) b) →
  ∃ r, run_user (parse_at ptr (Z.of_nat (length blob))) s = Ok (inl r, s) ∧ parsed s blob r.
Proof.
  intros Hp Hend Hb. unfold parse_at. rewrite load_run by (done || lia). cbn [run_user mret M_ret].
  eexists. split; [done|]. unfold parsed. destruct (devtree_new blob) as [t|e]; [|done]. by exists ptr.
Qed.

(** Mapping [len] bytes at the address of the tree. *)
Lemma dtb_map_run s len blob :
  sys_ok root s → 0 ≤ len < 2 ^ 32 → in_memory root s DTB_ADDR blob →
  match run_user (r ← phy_map DTB_ADDR len 0; unwrap r UNWRAP_ERR) s with
  | Ok (r, s') => ∃ v, r = inl v ∧ len mod PAGE_SIZE = 0 ∧ v mod PAGE_SIZE = 0
      ∧ 0x50000000 ≤ v ∧ v + len ≤ 2 ^ 39 ∧ moves root s s'
      ∧ ∀ i b, take (Z.to_nat len) blob !! i = Some b → user_byte s' (v + Z.of_nat i) b
  | Fault x => map_fault len x
  end.
Proof.
  intros Hok Hlen Hmem. pose proof (phy_map_run s 0x40000 len Hok) as Hm.
  change (PAGE_SIZE * 0x40000) with DTB_ADDR in Hm. unfold is_u64 in Hm.
  specialize (Hm ltac:(done) ltac:(lia) ltac:(unfold PAGE_SIZE; zdiv)).
  destruct (run_user _ s) as [[r s']|x]; [|done]. destruct Hm as (v & -> & ? & ? & ? & ? & ? & Hb).
  exists v. split_and!; [done..|]. apply Hb; [by apply in_memory_take|]. rewrite length_take. lia.
Qed.

(** A fallible function of bytes that are there. *)
Lemma read_run {A B} ptr n bs (g : list Z → A + DevTreeError) (k : A → ures B) s :
  n = Z.of_nat (length bs) → 0 ≤ ptr → ptr + Z.of_nat (length bs) ≤ 2 ^ 64 →
  (∀ i b, bs !! i = Some b → user_byte s (ptr + Z.of_nat i) b) →
  run_user (tri (ULoad ptr n (λ bytes, URet (g bytes))) k) s
    = run_user (match g bs with inl a => k a | inr e => URet (inr e) end) s.
Proof.
  intros -> Hp Hend Hb.
  exact (load_run ptr bs (λ bytes, match g bytes with inl a => k a | inr e => URet (inr e) end) s Hp Hend Hb).
Qed.

Lemma map_dtb_spec s blob :
  sys_ok root s → tree_at s blob →
  let total := Z.of_nat (length blob) in
  match run_user map_dtb s with
  | Ok (inl r, s') => parsed s' blob r ∧ moves root s s' ∧ (total ≤ MAP_LEN ∨ total mod PAGE_SIZE = 0)
  | Ok (inr _, _) => False
  | Fault x => map_fault MAP_LEN x ∨ MAP_LEN < total ∧ map_fault total x
  end.
Proof.
  intros Hok [Hmem Hsize [Hmin Hmap] Htot] total. unfold map_dtb. rewrite run_tri_bind.
  pose proof (dtb_map_run s MAP_LEN blob Hok ltac:(unfold MAP_LEN; lia) Hmem) as Hfirst.
  destruct (run_user (phy_map DTB_ADDR MAP_LEN 0 ≫= _) s) as [[r s1]|x]; [|by left].
  destruct Hfirst as (v & -> & _ & Hvm & Hv & Hvend & Hmv1 & Hb1).
  rewrite (read_run v MIN_HEADER_SIZE (take (Z.to_nat MIN_HEADER_SIZE) blob));
    [|rewrite length_take; lia|lia|rewrite length_take; unfold MAP_LEN in *; lia|]; last first.
  { intros i b [Hi Hl]%lookup_take_Some. apply Hb1, lookup_take_Some. split; [done|]. unfold MAP_LEN in *. lia. }
  rewrite Htot. unfold total. cbv beta iota.
  destruct (Z.leb_spec (Z.of_nat (length blob)) MAP_LEN) as [Hle|Hgt].
  { destruct (parse_at_run s1 v blob Hv) as (r & -> & Hr); [unfold MAP_LEN in *; lia| |by auto].
    intros i b Hi. apply Hb1, lookup_take_Some. split; [done|]. apply lookup_lt_Some in Hi. unfold MAP_LEN in *. lia. }
  rewrite run_tri_bind. pose proof (moves_ok _ _ _ Hok Hmv1) as Hok1.
  destruct (mem_unmap_run s1 (v / PAGE_SIZE) 1 Hok1) as (s2 & E & Hmv2);
    [unfold PAGE_SIZE in *; zdiv|done|unfold MAP_LEN, PAGE_SIZE in *; zdiv|].
  replace (PAGE_SIZE * (v / PAGE_SIZE)) with v in E by (unfold PAGE_SIZE in *; zdiv).
  change (PAGE_SIZE * 1) with MAP_LEN in E. rewrite E, run_tri_bind.
  pose proof (moves_trans _ _ _ _ Hmv1 Hmv2) as Hmv.
  pose proof (dtb_map_run s2 (Z.of_nat (length blob)) blob (moves_ok _ _ _ Hok Hmv) ltac:(lia) (in_memory_moves _ _ _ _ _ Hmv Hmem)) as Hsecond.
  destruct (run_user (phy_map DTB_ADDR (Z.of_nat (length blob)) 0 ≫= _) s2) as [[r s3]|x]; [|by right].
  destruct Hsecond as (w & -> & Hmod & _ & Hw & Hwend & Hmv3 & Hb3).
  destruct (parse_at_run s3 w blob Hw) as (r & -> & Hr); [lia| |].
  { intros i b Hi. apply Hb3. by rewrite take_ge by lia. }
  split; [done|]. split; [by eapply moves_trans|by right].
Qed.
End run.

(** C13. [PhyMap] of [len] bytes at any physical address, as long as the range does not wrap around
    2^64.  If it returns, [len] is a number of pages; the address in [x0] is page aligned, at
    least [0x50000000], and its pages did not translate before; each of them now has the
    descriptor of the physical address asked for, as it was passed, with the attributes the
    flags say (readable by the process, and writable or device memory), every other address
    translates as before, and no memory outside the tables and the pool is written.  If the
    physical range is page aligned and below 2^48, the pages translate to it, byte by byte; an
    address off a page boundary spills into the attributes of the descriptor.  Otherwise the
    kernel panics: a [len] that is not a number of pages; [find_hole] finds no address; too few
    free frames for the tables; or, for more than one page, the region found runs into a
    mapped page or past 512 GiB ([no_room]). *)
Theorem phy_map_contract `{Profile} `{Linked} `{ThreadLayout} `{Board}
    `{!TryFromPrimitive syscall_num} `{!BitFlags PhyMapFlags} `{!BitFlags MemMapFlags}
    (root : Z) (e : ExceptionContext) (s : sys) :
  sys_ok root s → regs_ok e → reg e 8 mod 2 ^ 32 = syscall_num PhyMap →
  let phy := reg e 0 in
  let len := reg e 1 in
  let n := len / PAGE_SIZE in
  let attrs := phy_map_attrs (reg e 2) in
  let ttbr := table_base (TTBR0_EL1 (cpu s)) in
  phy + len ≤ 2 ^ 64 →
  match handle_syscall e s with
  | Ok (e', s') => len = PAGE_SIZE * n ∧ ∃ lo,
      let inside va := lo ≤ va / PAGE_SIZE < lo + n in
      e' = set_x0 (PAGE_SIZE * lo) e ∧ 0x50000000 ≤ PAGE_SIZE * lo ∧ PAGE_SIZE * (lo + n) ≤ 2 ^ 39
      ∧ (∀ va, 0 ≤ va < 2 ^ 39 → inside va → walk (phys (kern s)) ttbr va = None)
      ∧ (∀ va, 0 ≤ va < 2 ^ 39 → inside va → pte (phys (kern s')) root va =
           Z.lor (Z.lor (phy + PAGE_SIZE * (va / PAGE_SIZE - lo)) COMMON_FLAGS) attrs)
      ∧ (∀ va, 0 ≤ va < 2 ^ 39 → ¬ inside va → walk (phys (kern s')) ttbr va = walk (phys (kern s)) ttbr va)
      ∧ (phy mod PAGE_SIZE = 0 → phy + len ≤ 2 ^ 48 → ∀ va, 0 ≤ va < 2 ^ 39 → inside va →
           walk (phys (kern s')) ttbr va =
             Some (phy + (va - PAGE_SIZE * lo), pte (phys (kern s')) root va))
      ∧ moves root s s'
  | Fault x =>
      (x = PanicMsg "assertion failed: size_bytes % PAGE_SIZE == 0" ∧ len mod PAGE_SIZE ≠ 0)
      ∨ (len = PAGE_SIZE * n ∧ no_room root (kern s) 0 n x)
  end.
Proof. apply phy_map_spec. Qed.

(** C16. [map_dtb] with a device tree at [0x40000000], in memory the kernel leaves alone.  The
    process never panics in it: it gets what the parser says of exactly the bytes of the tree,
    which stay readable at the address in the result.  A tree of more than a page is accepted
    only if its size is a whole number of pages; otherwise it is the kernel that panics, as it
    does when it is out of memory or of address space. *)
Theorem map_dtb_reads `{Profile} `{Linked} `{ThreadLayout} `{Board} `{Process} `{FromPrimitive} `{Fdt}
    `{!TryFromPrimitive syscall_num} `{!BitFlags PhyMapFlags} `{!BitFlags MemMapFlags}
    (root : Z) (s : sys) (blob : list Z) :
  regs_ok regs_at → sys_ok root s → tree_at root s blob →
  let total := Z.of_nat (length blob) in
  match run_user map_dtb s with
  | Ok (inl r, s') => parsed s' blob r ∧ moves root s s' ∧ (total ≤ MAP_LEN ∨ total mod PAGE_SIZE = 0)
  | Ok (inr _, _) => False
  | Fault x => map_fault MAP_LEN x ∨ MAP_LEN < total ∧ map_fault total x
  end.
Proof. intros Hregs. by apply map_dtb_spec. Qed.

(** ** The tree when the machine boots *)

(** What is assumed of the process and of the parser: buffers and saved registers hold machine
    words, strings fit in memory, and the tree of this machine describes its RAM. *)
Record init_env `{LinkedOk} `{Process} `{Fdt} (phy_addr len_pages : Z) (blob : list Z) : Prop := {
  ie_regs : regs_ok regs_at;
  ie_addr : ∀ bs, is_u64 (addr_of bs);
  ie_node : ram_node phy_addr len_pages;
  ie_strings : ∀ p b, prop_str p = inl (Some b) → short (text b);
  ie_ram : ∀ t, devtree_new blob = inl t → announces phy_addr len_pages t;
}.

(** The device tree as the boot loader leaves it, below the kernel's image. *)
Record tree_loaded `{Fdt} (s : sys) (blob : list Z) : Prop := {
  tl_bytes : ∀ i b, blob !! i = Some b → read_byte (phys (kern s)) (DTB_ADDR + Z.of_nat i) = Ok b;
  tl_size : Z.of_nat (length blob) ≤ 0x100000;
  tl_header : 0 ≤ MIN_HEADER_SIZE ≤ Z.of_nat (length blob) ∧ MIN_HEADER_SIZE ≤ MAP_LEN;
  tl_total : read_totalsize (take (Z.to_nat MIN_HEADER_SIZE) blob) = inl (Z.of_nat (length blob));
}.

Section booted.
Context `{Profile} `{LinkedOk} `{ThreadLayout} `{Fdt}.
Variables (phy_addr len_pages root : Z).

Lemma below_heap i : 0 ≤ i < 0x100000 → ¬ heap_frame ((DTB_ADDR + i) / PAGE_SIZE).
Proof.
  intros Hi. unfold heap_frame. pose proof heap_after_text as Ht.
  unfold _text_start, _virt_base, DTB_ADDR, VIRT_BASE, PAGE_SIZE in *. zdiv.
Qed.

Lemma loaded_at s0 s blob :
  early_ok phy_addr len_pages root s → (∀ h, ¬ heap_frame h → phys (kern s) !! h = phys (kern s0) !! h) →
  tree_loaded s0 blob → tree_at root s blob.
Proof.
  intros He Hsame [Hb Hsz Hhd Htot]. split; [|lia|done|done].
  assert (∀ i b, blob !! i = Some b → ¬ heap_frame ((DTB_ADDR + Z.of_nat i) / PAGE_SIZE)) as Hnh.
  { intros i b Hi%lookup_lt_Some. apply below_heap. lia. }
  split; intros i b Hi; specialize (Hnh i b Hi).
  - split; intros Hx; apply Hnh; [by eapply early_free_heap; [apply He|]|by eapply eo_tables].
  - rewrite <- (Hb i b Hi). by apply read_byte_frame, Hsame.
Qed.
End booted.

(** ** A machine with 13.5 MiB of RAM and a device tree *)

Definition BOARD_PAGES : Z := 3456.

Definition board_tree : list sample_node :=
  [("chosen", EmptyString, [("bootargs", [])]);
   ("memory@40000000", EmptyString, [("reg", [0; 0x40000000; 0; 0xd80000])]);
   ("intc@8000000", "arm,cortex-a15-gic",
      [("reg", [0; 0x8000000; 0; 0x10000; 0; 0x8010000; 0; 0x10000]); ("#interrupt-cells", [3])]);
   ("timer", "arm,armv8-timer", [("interrupts", [1; 13; 0x104; 1; 14; 0x104; 1; 11; 0x104; 1; 10; 0x104])])].

(** A parser that knows the magic number and one tree. *)
Definition board_fdt : Fdt := {|
  DevTreeError := unit;
  DevTree := list sample_node;
  Node := sample_node;
  Property := string * list Z;
  MIN_HEADER_SIZE := 40;
  read_totalsize bs := inl (of_le (reverse (take 4 (drop 4 bs))));
  devtree_new bs := if bool_decide (take 4 bs = [0xd0; 0x0d; 0xfe; 0xed]) then inl board_tree else inr tt;
  nodes t := inl <$> t;
  compatible_nodes t c := inl <$> filter (λ n, n.1.2 = c) t;
  node_name n := inl n.1.1;
  props n := inl <$> n.2;
  prop_name p := inl p.1;
  prop_str p := inl (Some "quiet"%string);
  prop_u64 p i := inl (2 ^ 32 * nth (Z.to_nat (2 * i)) p.2 0 + nth (Z.to_nat (2 * i + 1)) p.2 0);
  prop_u32 p i := inl (nth (Z.to_nat i) p.2 0);
  prop_length p := 4 * Z.of_nat (length p.2);
|}.

(** The tree in memory: the magic number, its size, and zeros. *)
Definition board_blob : list Z := [0xd0; 0x0d; 0xfe; 0xed; 0; 0; 0; 64] ++ replicate 56 0.

Definition board_machine : sys := {|
  kern := {| PAGE_ALLOC := PAGE_ALLOC_INIT;
             phys := let zeros := replicate 512 0 in
               <[0x40000 := 0x40000000edfe0dd0 :: replicate 511 0]>
                 (list_to_map ((λ i, (0x40000 + i, zeros)) <$> seqZ 0 BOARD_PAGES));
             daif := 0x3c0; tlb := ∅ |};
  gic := Gic.gic_reset;
  uart := {| UART0_ADDR := UART0_INIT; stores := [] |};
  cpu := idle_cpu ttbr_zero;
  INIT_THREAD := None;
|}.

(** The program starts with the record it passes to the kernel, where all its buffers are. *)
Definition board_bin : list Z := gic_as_bytes sample_record ++ replicate 100 0xd4.

Definition board_process : Process := {|
  addr_of _ := DEFAULT_PC;
  regs_at := call_regs 0 0 0 0;
|}.

#[local] Existing Instances dev KernelSpec.sample_link KernelSpec.sample_link_ok sample_layout.
#[local] Existing Instances sample_layout_ok Gic.sample_board sample_image board_process board_fdt.

Lemma board_frames h : 0x40000 ≤ h < 0x40000 + BOARD_PAGES → frame_ok (phys (kern board_machine)) h.
Proof. apply HeapSpec.frames_okb_ok. vm_compute. reflexivity. Qed.

Lemma board_heap h : heap_frame h → frame_ok (phys (kern board_machine)) h.
Proof.
  intros Hh. apply board_frames. unfold heap_frame in Hh.
  change (@EARLY_HEAP KernelSpec.sample_link) with (VIRT_BASE + PAGE_SIZE * 0x40120) in Hh.
  unfold EARLY_HEAP_SIZE, BOARD_PAGES, PAGE_SIZE in *. lia.
Qed.

Lemma board_bytes : Forall (λ b, 0 ≤ b < 256) board_bin.
Proof.
  apply Forall_app. split; [|by apply Forall_replicate].
  repeat (apply List.Forall_cons; [vm_compute; split; discriminate || reflexivity|]). apply List.Forall_nil.
Qed.

(** A check, by evaluation, that bytes are in memory. *)
Definition bytes_at (m : pmem) (p : Z) (bs : list Z) : bool :=
  forallb (λ '(i, b), match read_byte m (p + Z.of_nat i) with Ok b' => b =? b' | Fault _ => false end) (imap pair bs).

Lemma bytes_at_ok m p bs i b : bytes_at m p bs = true → bs !! i = Some b → read_byte m (p + Z.of_nat i) = Ok b.
Proof.
  unfold bytes_at. rewrite forallb_forall. intros Hb Hi. specialize (Hb (i, b)).
  rewrite <- list_elem_of_In, elem_of_lookup_imap in Hb.
  destruct (read_byte _ _) as [b'|]; [|by discriminate Hb; eauto]. by rewrite (proj1 (Z.eqb_eq b b')) by eauto.
Qed.

Lemma board_tree_loaded : tree_loaded board_machine board_blob.
Proof.
  split; [|vm_compute; discriminate|vm_compute; repeat split; discriminate|reflexivity].
  intros i b. apply bytes_at_ok. vm_compute. reflexivity.
Qed.

Lemma board_env : init_env 0x40000000 BOARD_PAGES board_blob.
Proof.
  split.
  - apply call_regs_ok; unfold is_u64; lia.
  - intros bs. by split.
  - split; vm_compute; done || (split; discriminate).
  - intros p b [= <-]. by apply short_text.
  - intros t Ht ba base len. change (devtree_new board_blob) with (inl board_tree : DevTree + DevTreeError) in Ht.
    injection Ht as <-. vm_compute. by intros [= _ <- <-].
Qed.

Lemma phy_map_contract_witness :
  match handle_syscall (call_regs 0x9000000 0x2000 3 (syscall_num PhyMap)) small_sys with
  | Ok (e', s') => e' = set_x0 0x50000000 (call_regs 0x9000000 0x2000 3 (syscall_num PhyMap))
      ∧ moves MapSpec.ROOT small_sys s'
      ∧ walk (phys (kern s')) (table_base (TTBR0_EL1 (cpu s'))) 0x50001008 = Some (0x9001008, 0x9001747)
  | Fault _ => False
  end.
Proof.
  pose proof (phy_map_contract MapSpec.ROOT (call_regs 0x9000000 0x2000 3 (syscall_num PhyMap)) small_sys
    small_sys_ok ltac:(apply call_regs_ok; unfold is_u64; cbn; lia) eq_refl) as Hs.
  specialize (Hs ltac:(vm_compute; discriminate)). cbv zeta in Hs.
  assert (match handle_syscall (call_regs 0x9000000 0x2000 3 (syscall_num PhyMap)) small_sys with
    | Ok (e', s') => e' = set_x0 0x50000000 (call_regs 0x9000000 0x2000 3 (syscall_num PhyMap))
        ∧ walk (phys (kern s')) (table_base (TTBR0_EL1 (cpu s'))) 0x50001008 = Some (0x9001008, 0x9001747)
    | Fault _ => False end) as Hv by (vm_compute; split; reflexivity).
  destruct (handle_syscall _ _) as [[e' s']|x]; [|exact Hv]. destruct Hv as [He Hw].
  destruct Hs as (_ & lo & _ & _ & _ & _ & _ & _ & _ & Hmv). split; [exact He|]. split; [exact Hmv|exact Hw].
Defined.

(** After the boot the process finds the tree. *)
Lemma map_dtb_reads_witness :
  match kmain board_bin board_machine with
  | Ok (_, s0) => match run_user map_dtb s0 with
      | Ok (r, s') => r = inl (inl {| dtb_ptr := 0x50000000; dtb_buf := board_blob; dtb_tree := board_tree |})
          ∧ user_byte s' 0x50000007 64
      | Fault _ => False
      end
  | Fault _ => False
  end.
Proof.
  pose proof (kmain_early 0x40000000 BOARD_PAGES board_bin board_machine eq_refl board_heap
    (λ g Hg _, board_frames g Hg) board_bytes ltac:(vm_compute; discriminate)) as Hk.
  assert (match kmain board_bin board_machine with
    | Ok (_, s0) => match run_user map_dtb s0 with
        | Ok (r, _) => r = inl (inl {| dtb_ptr := 0x50000000; dtb_buf := board_blob; dtb_tree := board_tree |})
        | Fault _ => False end
    | Fault _ => False end) as Hv by (vm_compute; reflexivity).
  destruct (kmain board_bin board_machine) as [[[] s0]|x]; [|exact Hv].
  destruct Hk as (root & He & Hsame).
  pose proof (map_dtb_reads root s0 board_blob (ie_regs _ _ _ board_env) (eo_sys _ _ _ _ He)
    (loaded_at _ _ _ _ _ _ He Hsame board_tree_loaded)) as Hm. cbv zeta in Hm.
  destruct (run_user map_dtb s0) as [[r s']|x]; [|exact Hv]. split; [exact Hv|]. subst r.
  destruct Hm as (Hp & _). change (parsed s' board_blob) with (λ r : Dtb + DevTreeError, ∃ ptr,
    r = inl {| dtb_ptr := ptr; dtb_buf := board_blob; dtb_tree := board_tree |} ∧ 0x50000000 ≤ ptr
      ∧ ∀ i b, board_blob !! i = Some b → user_byte s' (ptr + Z.of_nat i) b) in Hp.
  destruct Hp as (ptr & E & _ & Hb). injection E as <-. exact (Hb 7%nat 64 eq_refl).
Defined.
