(* ===== verification/ProcSpec.v ===== *)
(** * From power-on to the loop of the process (init/src/main.rs)

    [main] among interrupts and the stores of the process itself.  The frames of the device
    tree are the ones that matter: what the process reads there decides what it announces to
    the kernel, and it maps them read-only. *)

From S2P Require Import Prelude Interrupts Memory.
From S2P Require PageAlloc HeapSpec.
From S2P Require Import Kernel PageTable KernelTables.
From S2P Require KernelSpec MapSpec.
From S2P Require Import PageTree Mapping Translation KernelApi.
From S2P Require Gic.
From S2P Require Import Console Machine Usermode UserMemory Exceptions Boot SyscallInv SyscallSpec CallSpec.
From S2P Require Import StartSpec MoreRam Init InitSpec DeviceSpec InitRun ProcRun DtbSpec.
Import Gic (Board).
Import PageAlloc (ram_base).

Local Open Scope Z_scope.

(** The frames the device tree lies in. *)
Definition tree_frame (blob : list Z) (g : Z) : Prop :=
  DTB_ADDR ≤ PAGE_SIZE * g < DTB_ADDR + Z.of_nat (length blob).

Section main.
Context `{Profile} `{LinkedOk} `{ThreadLayout} `{Board} `{Process} `{FromPrimitive} `{Fdt}.
Context `{!TryFromPrimitive syscall_num} `{!BitFlags PhyMapFlags} `{!BitFlags MemMapFlags}.
Variables (phy_addr len_pages root : Z) (blob : list Z) (sleeps : bool).
Hypothesis Henv : init_env phy_addr len_pages blob.

#[local] Abbreviation kept := (tree_frame blob).
#[local] Abbreviation swp := (swp root kept sleeps).

(** ** What the stores of the process leave alone *)

Lemma tree_byte_frame i b : blob !! i = Some b → kept ((DTB_ADDR + Z.of_nat i) / PAGE_SIZE).
Proof. intros Hi%lookup_lt_Some. unfold tree_frame, DTB_ADDR, PAGE_SIZE. zdiv. Qed.

Lemma env_free s s' h : env_step root kept s s' → free_page_frame (PAGE_ALLOC (kern s')) h → free_page_frame (PAGE_ALLOC (kern s)) h.
Proof.
  destruct 1 as [e e' s s' Hs|g fr s Hg Hk Hl|page e s He]; [|done|done].
  unfold irq_handler, mbind, M_bind in Hs. rewrite on_drv_run in Hs.
  destruct (Gic.handle_irq _) as [[[] d]|x]; [|done]. apply ok_inj in Hs. by simplify_eq.
Qed.

(** Memory outside the tables may change only off the frames of the tree, and the translation
    does not change. *)
Lemma env_phys s s' :
  sys_ok root s → env_step root kept s s' →
  cpu s' = cpu s ∧ (∀ h, kept h → phys (kern s') !! h = phys (kern s) !! h)
  ∧ (∀ h, is_table (phys (kern s')) root h → is_table (phys (kern s)) root h)
  ∧ (∀ va, 0 ≤ va < 2 ^ 39 → walk (phys (kern s')) (PAGE_SIZE * root) va = walk (phys (kern s)) (PAGE_SIZE * root) va).
Proof.
  intros Hok Hstep. pose proof (mm_tree _ _ (so_mm _ _ Hok)) as Hwf. revert Hok Hwf.
  destruct Hstep as [e e' s s' Hs|g fr s Hg Hk Hl|page e s He]; intros Hok Hwf; [|cbn [kern set_kern phys set_phys cpu]|done].
  - unfold irq_handler, mbind, M_bind in Hs. rewrite on_drv_run in Hs.
    destruct (Gic.handle_irq _) as [[[] d]|x]; [|done]. apply ok_inj in Hs. by simplify_eq.
  - split_and!; [done| | |].
    + intros h Hh. apply lookup_insert_ne. by intros ->.
    + intros h (q & Hq & Hd). exists q. split; [done|]. by rewrite outside_descend in Hd.
    + intros va Hva. by rewrite !walk_pte, outside_pte by (done || by apply outside_wf).
Qed.

Lemma tree_env s s' : sys_ok root s → tree_at root s blob → env_step root kept s s' → tree_at root s' blob.
Proof.
  intros Hok [[Hkp Hb] Hsz Hhd Htot] Hstep. destruct (env_phys s s' Hok Hstep) as (_ & Hph & Htab & _).
  split; [|done..]. split; intros i b Hi; destruct (Hkp i b Hi) as [Hnf Hnt].
  - split; [intros Hf; apply Hnf; by eapply env_free|]. intros Ht. by apply Hnt, Htab.
  - rewrite <- (Hb i b Hi). by apply read_byte_frame, Hph, (tree_byte_frame i b).
Qed.

(** ** Before RAM is announced *)

(** The machine up to then. *)
Definition reading (s : sys) : Prop := phase_ok phy_addr len_pages false root s ∧ tree_at root s blob.

Lemma reading_ok s : reading s → sys_ok root s.
Proof. intros [Hph _]. by eapply phase_sys. Qed.

Lemma reading_stable : stable root kept reading.
Proof.
  intros s s' [Hph Ht] Hstep. split; [by eapply (phase_stable phy_addr len_pages root kept false)|].
  by eapply tree_env; [eapply phase_sys|..].
Qed.

Lemma reading_moves s s' : reading s → moves root s s' → reading s'.
Proof.
  intros [Hph [Hmem Hsz Hhd Htot]] Hmv. split; [by eapply phase_moves|].
  split; [by eapply in_memory_moves|done..].
Qed.

Lemma reading_printed s t : reading s → reading (printed t s).
Proof. intros Hs. eapply reading_moves; [done|]. apply moves_printed, (so_mm _ _ (reading_ok s Hs)). Qed.

(** The first [len] bytes of the tree are mapped at [v], readable. *)
Record tree_mapped (v len : Z) (s : sys) : Prop := {
  tm_align : v mod PAGE_SIZE = 0;
  tm_range : 0x50000000 ≤ v ∧ v + len ≤ 2 ^ 39;
  tm_walk : ∀ i, 0 ≤ i < len → ∃ d,
    walk (phys (kern s)) (table_base (TTBR0_EL1 (cpu s))) (v + i) = Some (DTB_ADDR + i, d) ∧ Z.testbit d 6 = true;
}.

Definition mapping (v len : Z) (s : sys) : Prop := reading s ∧ tree_mapped v len s.

Lemma mapping_stable v len : stable root kept (mapping v len).
Proof.
  intros s s' [Hs [Hal Hrg Hw]] Hstep. split; [by eapply reading_stable|]. split; [done|done|].
  intros i Hi. destruct (Hw i Hi) as (d & Hd & Hb). exists d. split; [|done].
  destruct (env_phys s s' (reading_ok s Hs) Hstep) as (Hc & _ & _ & Hsame).
  rewrite Hc. rewrite (so_ttbr _ _ (reading_ok s Hs)) in *. by rewrite Hsame by lia.
Qed.

Lemma mapping_ok v len s : mapping v len s → sys_ok root s.
Proof. intros [Hs _]. by apply reading_ok. Qed.

Lemma mapping_bytes v len s bs :
  mapping v len s → bs `prefix_of` blob → Z.of_nat (length bs) ≤ len →
  copy_bytes (phys (kern s)) (table_base (TTBR0_EL1 (cpu s))) v (seqZ 0 (Z.of_nat (length bs))) = Ok bs.
Proof.
  intros [[_ Ht] [_ Hrg Hw]] [rest ->] Hl. apply copy_bytes_ok; [lia|lia|lia|]. intros i b Hi.
  pose proof (lookup_lt_Some _ _ _ Hi) as Hlt. destruct (Hw (Z.of_nat i) ltac:(lia)) as (d & Hd & Hbit).
  rewrite Z.add_0_r. split; [lia|]. exists (DTB_ADDR + Z.of_nat i), d. split; [done|]. split; [done|].
  apply (im_bytes _ _ _ _ (ta_memory _ _ _ Ht) i b). by apply lookup_app_l_Some.
Qed.

(** ** The calls of [map_dtb] *)

(** [phy_map(0x40000000, len, 0).unwrap()]. *)
Lemma swp_phy_map len s :
  0 ≤ len < 2 ^ 32 → reading s →
  swp (r ← phy_map DTB_ADDR len 0; unwrap r UNWRAP_ERR) (λ s v, mapping v len s) s.
Proof.
  intros Hlen Hs. pose proof (ie_regs _ _ _ Henv) as Hregs.
  set (regs := [(0%nat, DTB_ADDR); (1%nat, len); (2%nat, 0); (8%nat, syscall_num PhyMap)]).
  assert (args_ok regs) as Hargs.
  { unfold args_ok, regs. repeat (apply List.Forall_cons; [split; [lia|unfold is_u64, DTB_ADDR; cbn [syscall_num]; lia]|]).
    apply List.Forall_nil. }
  apply swp_bind. unfold phy_map. apply swp_bind. fold regs.
  apply (swp_svc root kept sleeps reading); [apply reading_stable|apply reading_ok|done|]. intros s1 Hs1.
  pose proof (reading_ok s1 Hs1) as Hok.
  pose proof (phy_map_spec root (set_regs regs regs_at) s1 Hok (set_regs_ok _ _ Hregs Hargs)) as Hm.
  rewrite !args_reg in Hm by done. cbn [assigned Nat.eqb regs] in Hm. specialize (Hm eq_refl). cbv zeta in Hm.
  specialize (Hm ltac:(unfold DTB_ADDR; lia)).
  destruct (handle_syscall _ s1) as [[e' s2]|x]; last first.
  { intros ->. destruct Hm as [[? _]|[_ (msg & ?)%no_room_panics]]; done. }
  destruct Hm as (Hln & lo & -> & Hlo & Hend & _ & Hdesc & _ & Hwalk & Hmv). set (n := len / PAGE_SIZE) in *.
  specialize (Hwalk eq_refl ltac:(unfold DTB_ADDR; lia)).
  rewrite reg_set_x0 by (rewrite (ro_count _ (set_regs_ok _ _ Hregs Hargs)); lia).
  assert (mapping (PAGE_SIZE * lo) len s2) as Hmap.
  { split; [by eapply reading_moves|]. split; [unfold PAGE_SIZE; zdiv|lia|]. intros i Hi.
    assert (0 ≤ PAGE_SIZE * lo + i < 2 ^ 39) as Hva by lia.
    assert (lo ≤ (PAGE_SIZE * lo + i) / PAGE_SIZE < lo + n) as Hin by (unfold PAGE_SIZE in *; zdiv).
    rewrite (mv_cpu _ _ _ Hmv), (Hwalk _ Hva Hin), (Hdesc _ Hva Hin). eexists. split; [do 2 f_equal; lia|].
    apply phy_map_desc. unfold DTB_ADDR, PAGE_SIZE. zdiv. }
  pose proof (mapping_stable (PAGE_SIZE * lo) len) as Hst. pose proof (mapping_ok (PAGE_SIZE * lo) len) as Hmok.
  do 2 (apply (swp_ret root kept sleeps _ Hst Hmok); [done|]; clear dependent s2; intros s2 Hmap).
  rewrite decode_address_ok by (unfold PAGE_SIZE in *; lia).
  by apply (swp_ret root kept sleeps _ Hst Hmok).
Qed.

(** [mem_unmap(v, 0x1000).unwrap()]. *)
Lemma swp_mem_unmap v s :
  v mod PAGE_SIZE = 0 → 0x50000000 ≤ v → v + MAP_LEN ≤ 2 ^ 39 → reading s →
  swp (r ← mem_unmap v MAP_LEN; unwrap r UNWRAP_ERR) (λ s _, reading s) s.
Proof.
  intros Hal Hv Hend Hs. pose proof (ie_regs _ _ _ Henv) as Hregs.
  set (regs := [(0%nat, v); (1%nat, MAP_LEN); (8%nat, syscall_num MemUnmap)]).
  assert (args_ok regs) as Hargs.
  { unfold args_ok, regs. repeat (apply List.Forall_cons; [split; [lia|unfold is_u64, MAP_LEN in *; cbn [syscall_num]; lia]|]).
    apply List.Forall_nil. }
  apply swp_bind. unfold mem_unmap. apply swp_bind. fold regs.
  apply (swp_svc root kept sleeps reading); [apply reading_stable|apply reading_ok|done|]. intros s1 Hs1.
  pose proof (reading_ok s1 Hs1) as Hok.
  rewrite (handle_syscall_arm _ MemUnmap) by (by rewrite args_reg). unfold sys_mem_unmap. rewrite !args_reg by done.
  cbn [assigned Nat.eqb regs]. destruct (so_thread _ _ Hok) as (t & Ht & Hp).
  rewrite (M_bind_ok _ _ _ t s1) by (by apply as_mut_ok). rewrite Hp.
  pose proof (vunmap_evolves root (kern s1) v MAP_LEN (so_mm _ _ Hok)) as Hev.
  unfold mbind, M_bind. rewrite on_kern_run.
  destruct (vunmap _ _ _ (kern s1)) as [[[] k]|x]; [|by intros ->]. cbn [mret M_ret].
  rewrite reg_set_x0 by (rewrite (ro_count _ (set_regs_ok _ _ Hregs Hargs)); lia).
  assert (reading (set_kern k s1)) as Hs2 by (eapply reading_moves; [done|]; by apply moves_kern).
  clear Hev. generalize dependent (set_kern k s1). intros s2 Hs2.
  do 2 (apply (swp_ret root kept sleeps _ reading_stable reading_ok); [done|]; clear dependent s2; intros s2 Hs2).
  by apply (swp_ret root kept sleeps _ reading_stable reading_ok).
Qed.

(** ** [map_dtb] *)

(** What it returns is what the parser makes of the tree. *)
Definition of_tree (r : Dtb + DevTreeError) : Prop := ∀ d, r = inl d → devtree_new blob = inl (dtb_tree d).

Lemma swp_parse_at v len s :
  mapping v len s → Z.of_nat (length blob) ≤ len →
  swp (parse_at v (Z.of_nat (length blob))) (λ s r, reading s ∧ of_tree r) s.
Proof.
  intros Hmap Hl. pose proof (mapping_stable v len) as Hst. pose proof (mapping_ok v len) as Hmok.
  apply (swp_load root kept sleeps _ Hst Hmok _ _ blob); [done| |].
  { intros s1 Hs1. by apply (mapping_bytes v len). }
  intros s1 Hs1. apply (swp_ret root kept sleeps _ Hst Hmok); [done|]. intros s2 [Hs2 _]. split; [done|].
  intros d. unfold ptri. destruct (devtree_new blob) as [t|e]; [|done]. by intros [= <-].
Qed.

Lemma swp_tri_ok {A B} (m : user A) (k : A → ures B) Q s :
  swp m (λ s a, swp (k a) Q s) s → swp (tri (ok m) k) Q s.
Proof.
  intros Hm. apply swp_bind, swp_bind. eapply swp_mono; [|exact Hm]. cbv beta. intros s1 a Ha s2 Hr.
  pose proof (swp_env root kept sleeps _ _ _ _ Hr Ha) as Ha2. split; [by eapply swp_ok|]. exact Ha2.
Qed.

Lemma swp_map_dtb s : reading s → swp map_dtb (λ s r, reading s ∧ of_tree r) s.
Proof.
  intros Hs. pose proof Hs as [_ [_ Hsize [Hmin Hmin'] Htot]]. unfold map_dtb. apply swp_tri_ok.
  eapply swp_mono; [|apply swp_phy_map; [unfold MAP_LEN; lia|done]]. cbv beta. intros s1 v Hmap.
  pose proof (mapping_stable v MAP_LEN) as Hst. pose proof (mapping_ok v MAP_LEN) as Hmok.
  apply swp_bind. set (header := take (Z.to_nat MIN_HEADER_SIZE) blob).
  assert (Z.of_nat (length header) = MIN_HEADER_SIZE) as Hhl by (unfold header; rewrite length_take; lia).
  apply (swp_load root kept sleeps _ Hst Hmok _ _ header); [done| |].
  { intros s2 Hs2. rewrite <- Hhl. apply (mapping_bytes v MAP_LEN); [done|apply prefix_take|lia]. }
  intros s2 Hs2. apply (swp_ret root kept sleeps _ Hst Hmok); [done|]. intros s3 Hs3.
  unfold header. rewrite Htot. destruct (Z.leb_spec (Z.of_nat (length blob)) MAP_LEN) as [Hle|Hgt].
  { by apply (swp_parse_at v MAP_LEN). }
  apply swp_tri_ok. destruct Hs3 as [Hs3 [Hal Hrg _]].
  eapply swp_mono; [|apply (swp_mem_unmap v); [done|lia|lia|done]]. cbv beta. intros s4 _ Hs4.
  apply swp_tri_ok. eapply swp_mono; [|apply swp_phy_map; [lia|done]]. cbv beta. intros s5 w Hw.
  by apply (swp_parse_at w (Z.of_nat (length blob))).
Qed.

(** ** [main] and its loop *)

Lemma swp_main s :
  reading s → swp main (λ s _, phase_ok phy_addr len_pages true root s) s.
Proof.
  intros Hs. pose proof Henv as [Hregs Haddr Hnode Hstr Hram].
  change main with (_ ← println [text "Hello from usermode!"]; r ← map_dtb;
    dtb ← unwrap r "Failed to parse device tree"; main_tail dtb).
  apply swp_bind. eapply swp_mono; [|apply (swp_print root kept sleeps Hregs reading);
    [apply reading_stable|apply reading_ok|apply reading_printed|done|by repeat constructor|done]].
  cbv beta. intros s1 _ Hs1. apply swp_bind. eapply swp_mono; [|by apply swp_map_dtb].
  cbv beta. intros s2 r [[Hph2 _] Hr].
  assert (wp phy_addr len_pages sleeps false (dtb ← unwrap r "Failed to parse device tree"; main_tail dtb)
    (λ b _, b = true)) as Hwp.
  { apply wp_bind, wp_unwrap; [done|done|by apply short_text|]. intros dtb ->. apply wp_main_tail; [done..|].
    by apply Hram, Hr. }
  eapply swp_mono; [|exact (wp_swp phy_addr len_pages root kept sleeps Hregs _ _ false s2 Hwp Hph2)].
  by intros s3 a (known & Hph & ->).
Qed.

Lemma swp_main_loop n s :
  (n = O ∨ sleeps = true) → reading s →
  swp (_ ← main; main_rounds n) (λ s _, phase_ok phy_addr len_pages true root s) s.
Proof.
  intros Hn Hs. pose proof Henv as [Hregs Haddr _ _ _]. apply swp_bind.
  eapply swp_mono; [|by apply swp_main]. cbv beta. intros s1 _ Hph.
  assert (wp phy_addr len_pages sleeps true (main_rounds n) (λ b _, b = true)) as Hwp.
  { destruct Hn as [->|Hsl]; [done|]. by apply wp_main_rounds. }
  eapply swp_mono; [|exact (wp_swp phy_addr len_pages root kept sleeps Hregs _ _ true s1 Hwp Hph)].
  by intros s2 a (known & Hph2 & ->).
Qed.
End main.

(** C10. From power-on to the loop of the process.  On a machine whose device tree is in memory below
    the kernel and describes its RAM, [kmain] panics with "OOM" or starts the process.  The
    process then runs [main] and any number of rounds of its loop; between any two of its
    calls, loads and register reads there may be interrupts, table walks and stores of the
    process to any frame that holds neither a page table nor the device tree.  In every state
    of every such run the machine satisfies the invariant of the running system; if the process
    has got through, the kernel manages the RAM of the machine; and until the loop no call of
    the process waits for ever.  (Nothing in the kernel keeps the process from storing into its
    own tables: the stack [start] maps for it overlaps them.  Such stores are excluded here.) *)
Theorem boot_to_loop `{Profile} `{LinkedOk} `{LayoutOk} `{Board} `{BootImage} `{Process} `{FromPrimitive} `{Fdt}
    `{!TryFromPrimitive syscall_num} `{!BitFlags PhyMapFlags} `{!BitFlags MemMapFlags}
    (phy_addr len_pages : Z) (INIT_BIN blob : list Z) (n : nat) (s : sys) :
  PAGE_ALLOC (kern s) = PAGE_ALLOC_INIT → (∀ h, heap_frame h → frame_ok (phys (kern s)) h) →
  backed phy_addr len_pages (phys (kern s)) →
  Forall (λ b, 0 ≤ b < 256) INIT_BIN → Z.of_nat (length INIT_BIN) ≤ 2 ^ 38 →
  tree_loaded s blob → init_env phy_addr len_pages blob →
  match kmain INIT_BIN s with
  | Ok (_, s0) => ∃ root, ∀ p s',
      rtc (proc_step root (tree_frame blob)) (_ ← main; main_rounds n, s0) (p, s') →
      sys_ok root s'
      ∧ (∀ u, p = URet u → ram_base (PAGE_ALLOC (kern s')) = VIRT_BASE + phy_addr)
      ∧ (∀ regs k, p = USvc regs k → n = O →
           exception_handler2 ESR_SVC 0 (set_regs regs regs_at) s' ≠ Fault OutOfFuel)
  | Fault x => x = PanicMsg "OOM"
  end.
Proof.
  intros Hinit Hheap Hram Hbin Hlen Htree Henv.
  pose proof (kmain_early phy_addr len_pages INIT_BIN s Hinit Hheap Hram Hbin Hlen) as Hk.
  destruct (kmain INIT_BIN s) as [[[] s0]|x]; [|done]. destruct Hk as (root & He & Hsame).
  exists root. intros p s' Hrun. set (sleeps := negb (Nat.eqb n 0)).
  assert (reading phy_addr len_pages root blob s0) as Hs0.
  { split; [exact He|]. by apply (loaded_at phy_addr len_pages root s). }
  assert (n = O ∨ sleeps = true) as Hn by (destruct n; [by left|by right]).
  destruct (swp_sound root _ sleeps _ _ _ _ _ (swp_main_loop phy_addr len_pages root blob sleeps Henv n s0 Hn Hs0) Hrun)
    as (Hok & Hret & Hsvc).
  split; [done|]. split; [intros u Hu; apply (Hret u Hu)|]. intros regs k Hp ->. by apply Hsvc with k.
Qed.

(** ** The machine of DtbSpec.v *)

#[local] Existing Instances dev KernelSpec.sample_link KernelSpec.sample_link_ok sample_layout.
#[local] Existing Instances sample_layout_ok Gic.sample_board sample_image board_process board_fdt.

(** A store of the process, to a frame of RAM that is neither in the early heap nor in the tree. *)
Definition scribble (s : sys) : sys :=
  set_kern (set_phys (<[0x40a00 := replicate 512 0x5a5a]> (phys (kern s))) (kern s)) s.

(** The machine boots, the process stores to memory, gets to its loop and through one round of it. *)
Lemma boot_to_loop_witness :
  match kmain board_bin board_machine with
  | Ok (_, s0) => match run_user (_ ← main; main_rounds 1) (scribble s0) with
      | Ok (r, s') => r = inl tt ∧ ∃ root, sys_ok root s'
          ∧ ram_base (PAGE_ALLOC (kern s')) = VIRT_BASE + 0x40000000
      | Fault _ => False
      end
  | Fault _ => False
  end.
Proof.
  pose proof (boot_to_loop 0x40000000 BOARD_PAGES board_bin board_blob 1 board_machine eq_refl board_heap
    (λ g Hg _, board_frames g Hg) board_bytes ltac:(vm_compute; discriminate) board_tree_loaded board_env) as Hb.
  pose proof (kmain_early 0x40000000 BOARD_PAGES board_bin board_machine eq_refl board_heap
    (λ g Hg _, board_frames g Hg) board_bytes ltac:(vm_compute; discriminate)) as Hk.
  assert (match kmain board_bin board_machine with
    | Ok (_, s0) => match run_user (_ ← main; main_rounds 1) (scribble s0) with
        | Ok (r, _) => r = inl tt | Fault _ => False end
    | Fault _ => False end) as Hv by (vm_compute; reflexivity).
  destruct (kmain board_bin board_machine) as [[[] s0]|x]; [|exact Hv]. destruct Hb as (root & Hm).
  destruct Hk as (root' & [Hok' _ Htab _] & _).
  destruct (Hm _ s0 (rtc_refl _ _)) as (Hok0 & _).
  assert (root = root') as <-
    by (pose proof (so_ttbr _ _ Hok0) as E1; rewrite (so_ttbr _ _ Hok') in E1; unfold PAGE_SIZE in E1; lia).
  destruct (run_user _ (scribble s0)) as [[r s']|x] eqn:E; [|exact Hv]. split; [exact Hv|]. rewrite Hv in E.
  destruct (Hm (URet tt) s') as (Hok & Hret & _).
  - eapply rtc_l; [|exact (run_user_steps root _ _ _ _ _ E)]. apply proc_env, env_store;
      [|unfold tree_frame, DTB_ADDR, PAGE_SIZE; change (length board_blob) with 64%nat; lia|reflexivity].
    intros Ht%Htab. unfold heap_frame in Ht.
    change (@EARLY_HEAP KernelSpec.sample_link) with (VIRT_BASE + PAGE_SIZE * 0x40120) in Ht.
    unfold EARLY_HEAP_SIZE, PAGE_SIZE in Ht. lia.
  - exists root. split; [exact Hok|exact (Hret tt eq_refl)].
Defined.
