(* ===== verification/Vectors.v ===== *)
(** * Exception vectors and entry code (kernel/src/aarch64/init.s)

    The instructions of the vectors, over the general-purpose registers and the machine: the
    registers of the interrupted program are saved on the kernel's stack in the layout of
    [ExceptionContext], a handler is called with a pointer to them, and they are restored.
    Also the code at the entry point of the image. *)

From S2P Require Import Prelude Interrupts Memory.
From S2P Require PageAlloc HeapSpec.
From S2P Require Import Kernel PageTable KernelTables.
From S2P Require KernelSpec MapSpec.
From S2P Require Import PageTree Mapping Translation KernelApi.
From S2P Require Gic.
From S2P Require Import Console Machine Usermode Exceptions Boot SyscallInv SyscallSpec CallSpec StartSpec Init InitSpec.
Import Gic (Board).
Import KernelSpec (word, words_ok).

Local Open Scope Z_scope.

(** ** Instructions *)

(** The registers [x0] to [x30], and the machine. *)
Abbreviation core := (list Z * sys)%type.

Definition xreg (xs : list Z) (t : nat) : Z := nth t xs 0.

Inductive sysreg : Type := R_ELR | R_SPSR | R_SP_EL0 | R_ESR | R_FAR.

Inductive instr : Type :=
| sub_sp (imm : Z)
| add_sp (imm : Z)
| stp (t1 t2 : nat) (imm : Z)
| ldp (t1 t2 : nat) (imm : Z)
| mrs (t : nat) (r : sysreg)
| msr (r : sysreg) (t : nat)
| mov_sp (t : nat)
| mov (t : nat) (imm : Z).

Definition set_sp (x : Z) (c : cpu_st) : cpu_st := set_vbar_sp (VBAR_EL1 c) x c.

Section code.
(** [ESR_EL1] and [FAR_EL1] of the exception. *)
Variables (esr far : Z).

Definition read_sysreg (r : sysreg) (c : cpu_st) : Z :=
  match r with
  | R_ELR => ELR_EL1 c | R_SPSR => SPSR_EL1 c | R_SP_EL0 => SP_EL0 c | R_ESR => esr | R_FAR => far
  end.

Definition write_sysreg (r : sysreg) (x : Z) (c : cpu_st) : cpu_st :=
  match r with
  | R_ELR => set_return x (SP_EL0 c) (SPSR_EL1 c) c
  | R_SPSR => set_return (ELR_EL1 c) (SP_EL0 c) x c
  | R_SP_EL0 => set_return (ELR_EL1 c) x (SPSR_EL1 c) c
  | R_ESR | R_FAR => c
  end.

(** One instruction; [sp] is the kernel's stack pointer. *)
Definition exec (i : instr) '((xs, s) : core) : res core :=
  let sp := sp_el1 (cpu s) in
  match i with
  | sub_sp imm => Ok (xs, set_cpu (set_sp (wrap64 (sp - imm)) (cpu s)) s)
  | add_sp imm => Ok (xs, set_cpu (set_sp (wrap64 (sp + imm)) (cpu s)) s)
  | stp t1 t2 imm =>
      m ← store_words (phys (kern s)) (sp + imm) [xreg xs t1; xreg xs t2];
      Ok (xs, set_kern (set_phys m (kern s)) s)
  | ldp t1 t2 imm =>
      ws ← load_words (phys (kern s)) (sp + imm) 2;
      Ok (<[t2 := nth 1 ws 0]> (<[t1 := nth 0 ws 0]> xs), s)
  | mrs t r => Ok (<[t := read_sysreg r (cpu s)]> xs, s)
  | msr r t => Ok (xs, set_cpu (write_sysreg r (xreg xs t) (cpu s)) s)
  | mov_sp t => Ok (<[t := sp]> xs, s)
  | mov t imm => Ok (<[t := imm]> xs, s)
  end.

Definition run_code (l : list instr) (c : core) : res core := fold_each l exec c.
End code.

(** ** The vectors *)

(** From a vector to the call of the handler. *)
Definition save_context : list instr :=
  [sub_sp (16 * 17);
   stp 0 1 (16 * 0); stp 2 3 (16 * 1); stp 4 5 (16 * 2); stp 6 7 (16 * 3); stp 8 9 (16 * 4);
   stp 10 11 (16 * 5); stp 12 13 (16 * 6); stp 14 15 (16 * 7); stp 16 17 (16 * 8);
   stp 18 19 (16 * 9); stp 20 21 (16 * 10); stp 22 23 (16 * 11); stp 24 25 (16 * 12);
   stp 26 27 (16 * 13); stp 28 29 (16 * 14);
   mrs 1 R_ELR; stp 30 1 (16 * 15);
   mrs 1 R_SPSR; mrs 2 R_SP_EL0; stp 1 2 (16 * 16);
   mov_sp 0].

(** [__exception_restore_context], up to its [eret]. *)
Definition __exception_restore_context : list instr :=
  [ldp 19 20 (16 * 16); msr R_SPSR 19; msr R_SP_EL0 20;
   ldp 30 20 (16 * 15); msr R_ELR 20;
   ldp 0 1 (16 * 0); ldp 2 3 (16 * 1); ldp 4 5 (16 * 2); ldp 6 7 (16 * 3); ldp 8 9 (16 * 4);
   ldp 10 11 (16 * 5); ldp 12 13 (16 * 6); ldp 14 15 (16 * 7); ldp 16 17 (16 * 8);
   ldp 18 19 (16 * 9); ldp 20 21 (16 * 10); ldp 22 23 (16 * 11); ldp 24 25 (16 * 12);
   ldp 26 27 (16 * 13); ldp 28 29 (16 * 14);
   add_sp (16 * 17)].

(** The code of the vectors for FIQ (2) and SError (3), up to its jump. *)
Definition fatal_code (etype : Z) : list instr :=
  [mov 0 etype; mrs 1 R_ESR; mrs 2 R_ELR; mrs 3 R_SPSR; mrs 4 R_FAR].

(** [#[repr(C)] ExceptionContext] in memory: 34 words. *)
Definition context_words (e : ExceptionContext) : list Z := gpr e ++ [lr e; pc e; spsr e; sp e].
Definition context_of (ws : list Z) : ExceptionContext :=
  {| gpr := take 30 ws; lr := nth 30 ws 0; pc := nth 31 ws 0; spsr := nth 32 ws 0; sp := nth 33 ws 0 |}.

(** The four kinds of exception; the table has them once for each of four origins. *)
Inductive exception : Type := Synchronous | Irq | Fiq | SError.

Section vectors.
Context `{Profile} `{Linked} `{ThreadLayout} `{Board} `{TableAlloc}.
Context `{!TryFromPrimitive syscall_num} `{!BitFlags PhyMapFlags} `{!BitFlags MemMapFlags}.
(** The registers when a handler returns: the calling convention lets it change most of them. *)
Variable clobber : list Z → list Z.
Variables (LOCATION : list Z) (esr far : Z).

(** [bl handler] with the context at [x0], which the handler may change. *)
Definition call (handler : ExceptionContext → M sys (option ExceptionContext)) '((xs, s) : core)
    : res (option core * sys) :=
  ws ← load_words (phys (kern s)) (xreg xs 0) 34;
  '(r, s') ← handler (context_of ws) s;
  match r with
  | Some e' =>
      m ← store_words (phys (kern s')) (xreg xs 0) (context_words e');
      let s'' := set_kern (set_phys m (kern s')) s' in
      Ok (Some (clobber xs, s''), s'')
  | None => Ok (None, s')
  end.

(** A vector that calls a handler; [None]: it does not come back. *)
Definition entry (handler : ExceptionContext → M sys (option ExceptionContext)) (c : core)
    : res (option core * sys) :=
  c ← run_code esr far save_context c;
  '(r, s') ← call handler c;
  match r with
  | Some c => c ← run_code esr far __exception_restore_context c; Ok (Some c, c.2)
  | None => Ok (None, s')
  end.

Definition fatal (etype : Z) (c : core) : res (option core * sys) :=
  '(xs, s) ← run_code esr far (fatal_code etype) c;
  '(_, s') ← exception_handler LOCATION 1 (xreg xs 0) (xreg xs 1) (xreg xs 2) (xreg xs 3) (xreg xs 4) s;
  Ok (None, s').

Definition vector (v : exception) : core → res (option core * sys) :=
  match v with
  | Synchronous => entry (exception_handler2 esr far)
  | Irq => entry (λ e, e ← irq_handler e; mret (Some e))
  | Fiq => fatal 2
  | SError => fatal 3
  end.
End vectors.

(** ** The entry point *)

(** Symbols of the linker script. *)
Class StartImage : Type := {
  _bss_start_phys : Z;
  _bss_end_phys : Z;
  _initstack_end_phys : Z;
  kmain_nommu_addr : Z;
}.

(** The loop at label 1, from the address in [x10]; the MMU is off. *)
Fixpoint erase_bss (fuel : nat) (m : pmem) (x10 x11 : Z) : res pmem :=
  match fuel with
  | O => Fault OutOfFuel
  | S fuel =>
      m ← write_word m x10 0;
      let x10 := wrap64 (x10 + 8) in
      if x10 =? x11 then Ok m else erase_bss fuel m x10 x11
  end.

(** [_start], up to its jump: the result is the address. *)
Definition _start `{BootImage} `{StartImage} (fuel : nat) : M sys Z := λ s,
  m ← (if _bss_start_phys =? _bss_end_phys then Ok (phys (kern s))
       else erase_bss fuel (phys (kern s)) _bss_start_phys _bss_end_phys);
  let s := set_kern (set_phys m (kern s)) s in
  let s := set_cpu (set_vbar_sp (_vectors mod 2 ^ 32) _initstack_end_phys (cpu s)) s in
  Ok (kmain_nommu_addr mod 2 ^ 32, s).

(** ** Saving and restoring *)

Section sequences.
Variables (esr far : Z).

Lemma store_words_app ws1 : ∀ m addr ws2,
  store_words m addr (ws1 ++ ws2)
    = (m ← store_words m addr ws1; store_words m (addr + 8 * Z.of_nat (length ws1)) ws2).
Proof.
  induction ws1 as [|w ws1 IH]; intros m addr ws2; cbn [app store_words length].
  - rewrite res_bind_ok. f_equal. lia.
  - destruct (write_word _ _ _) as [m1|x]; [|done]. rewrite !res_bind_ok, IH.
    by replace (addr + 8 + 8 * Z.of_nat (length ws1)) with (addr + 8 * Z.of_nat (S (length ws1))) by lia.
Qed.

Lemma load_words_app n1 : ∀ m addr n2,
  load_words m addr (n1 + n2)
    = (ws1 ← load_words m addr n1; ws2 ← load_words m (addr + 8 * Z.of_nat n1) n2; Ok (ws1 ++ ws2)).
Proof.
  induction n1 as [|n1 IH]; intros m addr n2; cbn [Nat.add load_words].
  - rewrite res_bind_ok. replace (addr + 8 * Z.of_nat 0) with addr by lia. by destruct (load_words _ _ _).
  - destruct (read_word _ _) as [w|x]; [|done]. rewrite !res_bind_ok, IH.
    replace (addr + 8 + 8 * Z.of_nat n1) with (addr + 8 * Z.of_nat (S n1)) by lia.
    destruct (load_words m (addr + 8) n1) as [ws1|]; [|done]. rewrite !res_bind_ok.
    by destruct (load_words m _ n2).
Qed.

(** Pairs of registers at consecutive offsets. *)
Fixpoint stps (off : Z) (l : list (nat * nat)) : list instr :=
  match l with [] => [] | (a, b) :: l => stp a b off :: stps (off + 16) l end.
Fixpoint ldps (off : Z) (l : list (nat * nat)) : list instr :=
  match l with [] => [] | (a, b) :: l => ldp a b off :: ldps (off + 16) l end.

Definition pairs : list (nat * nat) :=
  [(0, 1); (2, 3); (4, 5); (6, 7); (8, 9); (10, 11); (12, 13); (14, 15); (16, 17); (18, 19); (20, 21);
   (22, 23); (24, 25); (26, 27); (28, 29)]%nat.

Definition pair_regs (xs : list Z) (l : list (nat * nat)) : list Z := l ≫= λ '(a, b), [xreg xs a; xreg xs b].

Fixpoint assign (l : list (nat * nat)) (ws xs : list Z) : list Z :=
  match l, ws with
  | (a, b) :: l, w1 :: w2 :: ws => assign l ws (<[b := w2]> (<[a := w1]> xs))
  | _, _ => xs
  end.

Definition with_phys (m : pmem) (s : sys) : sys := set_kern (set_phys m (kern s)) s.

Lemma with_phys_same s : with_phys (phys (kern s)) s = s.
Proof. by destruct s as [[] ? ? ? ?]. Qed.

Lemma run_code_cons i l c : run_code esr far (i :: l) c = (c ← exec esr far i c; run_code esr far l c).
Proof. done. Qed.

Lemma stps_run l : ∀ off xs s,
  run_code esr far (stps off l) (xs, s)
    = (m ← store_words (phys (kern s)) (sp_el1 (cpu s) + off) (pair_regs xs l); Ok (xs, with_phys m s)).
Proof.
  induction l as [|[a b] l IH]; intros off xs s.
  - cbn. by rewrite with_phys_same.
  - change (pair_regs xs ((a, b) :: l)) with ([xreg xs a; xreg xs b] ++ pair_regs xs l).
    rewrite store_words_app. cbn [stps]. rewrite run_code_cons. cbn [exec].
    destruct (store_words (phys (kern s)) _ _) as [m|x]; [|done]. rewrite !res_bind_ok.
    fold (with_phys m s). rewrite (IH (off + 16) xs (with_phys m s)).
    replace (sp_el1 (cpu (with_phys m s)) + (off + 16))
      with (sp_el1 (cpu s) + off + 8 * Z.of_nat (length [xreg xs a; xreg xs b])) by (cbn; lia).
    done.
Qed.

Lemma ldps_run l : ∀ off xs s,
  run_code esr far (ldps off l) (xs, s)
    = (ws ← load_words (phys (kern s)) (sp_el1 (cpu s) + off) (2 * length l); Ok (assign l ws xs, s)).
Proof.
  induction l as [|[a b] l IH]; intros off xs s; [done|].
  cbn [length ldps]. replace (2 * S (length l))%nat with (2 + 2 * length l)%nat by lia.
  rewrite load_words_app, run_code_cons. cbn [exec].
  destruct (load_words (phys (kern s)) (sp_el1 (cpu s) + off) 2) as [ws|x] eqn:E; [|done].
  rewrite !res_bind_ok, (IH (off + 16)).
  assert (∃ w1 w2, ws = [w1; w2]) as (w1 & w2 & ->).
  { cbn [load_words] in E. apply res_bind_inv in E as (w1 & _ & E). apply res_bind_inv in E as (ws1 & E1 & E).
    apply res_bind_inv in E1 as (w2 & _ & E1). apply ok_inj in E1 as <-. apply ok_inj in E as <-. eauto. }
  replace (sp_el1 (cpu s) + (off + 16)) with (sp_el1 (cpu s) + off + 8 * Z.of_nat 2) by lia.
  by destruct (load_words _ _ (2 * length l)).
Qed.

Lemma run_code_app l1 l2 c :
  run_code esr far (l1 ++ l2) c = (c ← run_code esr far l1 c; run_code esr far l2 c).
Proof. apply fold_each_app. Qed.

(** The context the code saves. *)
Definition interrupted (xs : list Z) (c : cpu_st) : ExceptionContext :=
  {| gpr := take 30 xs; lr := xreg xs 30; pc := ELR_EL1 c; spsr := SPSR_EL1 c; sp := SP_EL0 c |}.

Lemma pair_regs_all xs : length xs = 31%nat → pair_regs xs pairs = take 30 xs.
Proof. intros Hl. do 31 (destruct xs as [|? xs]; [done|]). by destruct xs. Qed.

Lemma xreg_insert xs t u x : (t < length xs)%nat → xreg (<[t := x]> xs) u = if Nat.eqb u t then x else xreg xs u.
Proof. apply reg_insert. Qed.

(** The tail of the saving code. *)
Lemma save_tail_run xs s :
  length xs = 31%nat →
  let c := cpu s in
  ∃ xs', xreg xs' 0 = sp_el1 c ∧
  run_code esr far [mrs 1 R_ELR; stp 30 1 240; mrs 1 R_SPSR; mrs 2 R_SP_EL0; stp 1 2 256; mov_sp 0] (xs, s)
    = (m ← store_words (phys (kern s)) (sp_el1 c + 240) [xreg xs 30; ELR_EL1 c; SPSR_EL1 c; SP_EL0 c];
       Ok (xs', with_phys m s)).
Proof.
  intros Hl c. set (xs1 := <[1%nat := ELR_EL1 c]> xs).
  set (xs2 := <[2%nat := SP_EL0 c]> (<[1%nat := SPSR_EL1 c]> xs1)).
  exists (<[0%nat := sp_el1 c]> xs2).
  assert (length xs1 = 31%nat ∧ length xs2 = 31%nat) as [Hl1 Hl2] by (unfold xs2, xs1; rewrite !length_insert; auto).
  split; [by rewrite xreg_insert by lia|].
  change [xreg xs 30; ELR_EL1 c; SPSR_EL1 c; SP_EL0 c] with ([xreg xs 30; ELR_EL1 c] ++ [SPSR_EL1 c; SP_EL0 c]).
  rewrite store_words_app.
  replace [xreg xs 30; ELR_EL1 c] with [xreg xs1 30; xreg xs1 1] by (unfold xs1; by rewrite !xreg_insert by lia).
  replace [SPSR_EL1 c; SP_EL0 c] with [xreg xs2 1; xreg xs2 2]
    by (unfold xs2; rewrite !xreg_insert by (rewrite ?length_insert; lia); done).
  change (run_code esr far _ (xs, s)) with (c1 ← exec esr far (stp 30 1 240) (xs1, s);
    run_code esr far [mrs 1 R_SPSR; mrs 2 R_SP_EL0; stp 1 2 256; mov_sp 0] c1).
  cbn [exec]. fold c. destruct (store_words (phys (kern s)) (sp_el1 c + 240) _) as [m|x]; [|done]. rewrite !res_bind_ok.
  change (run_code esr far _ (xs1, _)) with (c1 ← exec esr far (stp 1 2 256) (xs2, with_phys m s);
    run_code esr far [mov_sp 0] c1).
  cbn [exec]. change (cpu (with_phys m s)) with c. change (phys (kern (with_phys m s))) with m.
  change (length [xreg xs1 30; xreg xs1 1]) with 2%nat.
  replace (sp_el1 c + 240 + 8 * Z.of_nat 2) with (sp_el1 c + 256) by lia.
  by destruct (store_words m (sp_el1 c + 256) _).
Qed.

Lemma save_run xs s :
  length xs = 31%nat →
  let base := wrap64 (sp_el1 (cpu s) - 272) in
  ∃ xs', xreg xs' 0 = base ∧
  run_code esr far save_context (xs, s)
    = (m ← store_words (phys (kern s)) base (context_words (interrupted xs (cpu s)));
       Ok (xs', with_phys m (set_cpu (set_sp base (cpu s)) s))).
Proof.
  intros Hl base. set (s1 := set_cpu (set_sp base (cpu s)) s).
  change save_context with ([sub_sp 272] ++ stps 0 pairs ++ [mrs 1 R_ELR; stp 30 1 240; mrs 1 R_SPSR; mrs 2 R_SP_EL0;
    stp 1 2 256; mov_sp 0]).
  rewrite run_code_app. change (run_code esr far [sub_sp 272] (xs, s)) with (Ok (xs, s1)).
  rewrite res_bind_ok, run_code_app, stps_run, pair_regs_all by done.
  change (context_words (interrupted xs (cpu s)))
    with (take 30 xs ++ [xreg xs 30; ELR_EL1 (cpu s); SPSR_EL1 (cpu s); SP_EL0 (cpu s)]).
  rewrite store_words_app, length_take, Hl. change (phys (kern s1)) with (phys (kern s)).
  change (sp_el1 (cpu s1)) with base. rewrite Z.add_0_r.
  destruct (store_words (phys (kern s)) base (take 30 xs)) as [m|x]; rewrite ?res_bind_ok.
  - destruct (save_tail_run xs (with_phys m s1) Hl) as (xs' & Hx & ->). exists xs'. split; [exact Hx|]. done.
  - exists [base]. done.
Qed.

(** What restoring makes of 34 words. *)
Definition resumed (ws : list Z) (base : Z) (s : sys) : core :=
  (take 31 ws, set_cpu (set_sp (wrap64 (base + 272)) (set_return (nth 31 ws 0) (nth 33 ws 0) (nth 32 ws 0) (cpu s))) s).

Lemma assign_all xs ws :
  length xs = 31%nat → length ws = 30%nat → assign pairs ws xs = ws ++ [xreg xs 30].
Proof.
  intros Hx Hw. do 31 (destruct xs as [|? xs]; [done|]). destruct xs; [|done].
  do 30 (destruct ws as [|? ws]; [done|]). by destruct ws.
Qed.

Lemma load_words_length m n : ∀ addr ws, load_words m addr n = Ok ws → length ws = n.
Proof.
  induction n as [|n IH]; intros addr ws; cbn [load_words]; [by intros [= <-]|].
  intros (w & _ & (ws' & Hws & E)%res_bind_inv)%res_bind_inv. apply ok_inj in E as <-. cbn. by rewrite (IH _ _ Hws).
Qed.

Lemma load_pair m addr w1 w2 xs c t1 t2 imm s :
  load_words m addr 2 = Ok [w1; w2] → phys (kern s) = m → sp_el1 c + imm = addr → cpu s = c →
  exec esr far (ldp t1 t2 imm) (xs, s) = Ok (<[t2 := w2]> (<[t1 := w1]> xs), s).
Proof. intros Hl Hm Ha Hc. cbn [exec]. by rewrite Hm, Hc, Ha, Hl. Qed.

Lemma restore_run xs s ws :
  length xs = 31%nat → load_words (phys (kern s)) (sp_el1 (cpu s)) 34 = Ok ws →
  run_code esr far __exception_restore_context (xs, s) = Ok (resumed ws (sp_el1 (cpu s)) s).
Proof.
  intros Hx Hload. set (base := sp_el1 (cpu s)) in *.
  change 34%nat with (2 * length pairs + (2 + 2))%nat in Hload. rewrite load_words_app in Hload.
  apply res_bind_inv in Hload as (w30 & H30 & (w4 & H4 & E)%res_bind_inv). apply ok_inj in E as <-.
  rewrite load_words_app in H4. apply res_bind_inv in H4 as (w31 & H31 & (w33 & H33 & E)%res_bind_inv).
  apply ok_inj in E as <-. pose proof (load_words_length _ _ _ _ H30) as Hl30.
  destruct w31 as [|a [|b [|]]]; try by apply load_words_length in H31.
  destruct w33 as [|c [|d [|]]]; try by apply load_words_length in H33.
  change __exception_restore_context with ([ldp 19 20 256; msr R_SPSR 19; msr R_SP_EL0 20; ldp 30 20 240; msr R_ELR 20]
    ++ ldps 0 pairs ++ [add_sp 272]).
  set (xs1 := <[20%nat := d]> (<[19%nat := c]> xs)). set (xs2 := <[20%nat := b]> (<[30%nat := a]> xs1)).
  set (s1 := set_cpu (set_return b d c (cpu s)) s).
  assert (length xs1 = 31%nat ∧ length xs2 = 31%nat) as [Hl1 Hl2] by (unfold xs2, xs1; rewrite !length_insert; auto).
  assert (run_code esr far [ldp 19 20 256; msr R_SPSR 19; msr R_SP_EL0 20; ldp 30 20 240; msr R_ELR 20] (xs, s)
    = Ok (xs2, s1)) as Hhead.
  { rewrite run_code_cons, (load_pair _ _ c d xs (cpu s) 19 20 256 s H33) by (done || (fold base; cbn; lia)).
    rewrite res_bind_ok.
    do 2 (rewrite run_code_cons; cbn [exec]; rewrite res_bind_ok). rewrite run_code_cons. fold xs1. replace (xreg xs1 19) with c by (unfold xs1; by rewrite !xreg_insert by (rewrite ?length_insert; lia)).
    replace (xreg xs1 20) with d by (unfold xs1; by rewrite !xreg_insert by (rewrite ?length_insert; lia)).
    erewrite (load_pair _ _ a b xs1); [|exact H31|done| |reflexivity]; [|cbn [cpu set_cpu sp_el1 set_return write_sysreg]; fold base; cbn; lia]. rewrite res_bind_ok.
    rewrite run_code_cons. cbn [exec]. fold xs2.
    replace (xreg xs2 20) with b by (unfold xs2; by rewrite !xreg_insert by (rewrite ?length_insert; lia)).
    rewrite res_bind_ok. done. }
  rewrite run_code_app, Hhead, res_bind_ok, run_code_app, ldps_run. change (sp_el1 (cpu s1)) with base.
  change (phys (kern s1)) with (phys (kern s)). rewrite Z.add_0_r, H30, !res_bind_ok, assign_all by done.
  replace (xreg xs2 30) with a by (unfold xs2; by rewrite !xreg_insert by (rewrite ?length_insert; lia)).
  change (length w30 = 30%nat) in Hl30. unfold resumed. rewrite take_app, Hl30, take_ge by lia.
  cbn [app]. do 3 rewrite app_nth2 by lia. rewrite Hl30. done.
Qed.
End sequences.

(** ** Stores to the stack *)

Section stack.
Context `{Profile} `{ThreadLayout}.
Variable root : Z.

Lemma write_word_inv m addr v m' :
  write_word m addr v = Ok m' →
  ∃ fr fr', m !! (addr / PAGE_SIZE) = Some fr ∧ length fr' = length fr ∧ m' = <[addr / PAGE_SIZE := fr']> m.
Proof.
  unfold write_word. destruct (m !! (addr / PAGE_SIZE)) as [fr|]; [|done]. destruct (addr mod 8 =? 0); [|done].
  intros (fr' & Hs & E)%res_bind_inv. apply ok_inj in E as <-. exists fr, fr'. split_and!; [done| |done].
  unfold aset in Hs. destruct (fr !! _); [|done]. apply ok_inj in Hs as <-. apply length_insert.
Qed.

(** Storing words to frames that hold no tables leaves the address space alone. *)
Lemma store_words_mm ws : ∀ k s m',
  0 ≤ k → k + Z.of_nat (length ws) ≤ 2 ^ 36 → words_ok (phys s) k (Z.of_nat (length ws)) →
  (∀ j, k ≤ j < k + Z.of_nat (length ws) → ¬ is_table (phys s) root (j / 512)) →
  store_words (phys s) (VIRT_BASE + 8 * k) ws = Ok m' → mm_ok root s →
  mm_ok root (set_phys m' s) ∧ ∀ h, is_table m' root h ↔ is_table (phys s) root h.
Proof.
  induction ws as [|w ws IH]; intros k s m' Hk Hb Hw Ht; cbn [store_words length] in *.
  { intros E Hmm. apply ok_inj in E as <-. by destruct s. }
  rewrite KernelSpec.addr_word by lia. intros (m1 & Hm1 & Hst)%res_bind_inv Hmm.
  replace (VIRT_BASE + 8 * k + 8) with (VIRT_BASE + 8 * (k + 1)) in Hst by lia.
  pose proof Hm1 as (fr & fr' & Hl & Hlen & E)%write_word_inv.
  replace (8 * k / PAGE_SIZE) with (k / 512) in * by (unfold PAGE_SIZE; zdiv).
  destruct (Hw k ltac:(lia)) as (fr0 & Hl0 & H512). assert (length fr' = 512%nat) as Hl' by congruence.
  pose proof (MapSpec.mm_ok_store root s (k / 512) fr' (Ht k ltac:(lia)) Hl' Hmm) as Hmm1. rewrite <- E in Hmm1.
  assert (∀ h, is_table m1 root h ↔ is_table (phys s) root h) as Htab.
  { intros h. rewrite E. unfold is_table. split; intros (q & Hq & Hd); exists q; (split; [done|]);
      [rewrite outside_descend in Hd by (apply Hmm || done || apply Ht; lia)|
       rewrite outside_descend by (apply Hmm || done || apply Ht; lia)]; done. }
  destruct (IH (k + 1) (set_phys m1 s) m') as [Hok Hiff]; [lia|lia| | |exact Hst|exact Hmm1|].
  - intros j Hj. eapply write_word_frame_ok; [exact Hm1|]. apply Hw. lia.
  - intros j Hj. cbn [phys set_phys]. rewrite Htab. apply Ht. lia.
  - split; [by destruct s|]. intros h. rewrite Hiff. apply Htab.
Qed.

(** 34 words of memory from word [k] on, in frames that are neither tables nor free. *)
Definition context_room (s : sys) (k : Z) : Prop := ∀ j, k ≤ j < k + 34 →
  frame_ok (phys (kern s)) (j / 512) ∧ ¬ free_frame (kern s) (j / 512) ∧ ¬ is_table (phys (kern s)) root (j / 512).

(** Room for a context below the stack pointer. *)
Record stack_at (s : sys) (k : Z) : Prop := {
  sk_sp : sp_el1 (cpu s) = VIRT_BASE + 8 * (k + 34);
  sk_window : 0 ≤ k ∧ k + 34 ≤ 2 ^ 36;
  sk_room : context_room s k;
}.

(** What the kernel does for a process leaves the stack alone. *)
Lemma room_moves s s' k : moves root s s' → context_room s k → context_room s' k.
Proof.
  intros [[_ Hnew Hfree Hfr _] _ _] Hroom j Hj. destruct (Hroom j Hj) as ((fr & Hl & ?) & Hnf & Hnt).
  split; [exists fr; by rewrite Hfr|]. split; [by intros ?%Hfree|]. intros Ht. by destruct (Hnew _ Ht).
Qed.

(** The state of the machine after a context has been written at [k]. *)
Lemma push_ok s k ws :
  sys_ok root s → 0 ≤ k → k + 34 ≤ 2 ^ 36 → context_room s k → length ws = 34%nat →
  ∃ m, store_words (phys (kern s)) (VIRT_BASE + 8 * k) ws = Ok m
    ∧ load_words m (VIRT_BASE + 8 * k) 34 = Ok ws ∧ sys_ok root (with_phys m s) ∧ context_room (with_phys m s) k.
Proof.
  intros [Ht Hr Hmm] Hk Hb Hroom Hl.
  destruct (KernelSpec.store_words_ok ws (phys (kern s)) k) as (m & Hm & Hword & _ & Hfr);
    [lia|lia|rewrite Hl; intros j Hj; by apply Hroom|].
  exists m. split; [done|]. rewrite Hl in Hword. change (Z.of_nat 34) with 34 in *. split.
  { rewrite <- Hl. apply KernelSpec.load_words_ok; rewrite ?Hl; [lia|lia|intros j Hj; by apply Hfr, Hroom|]. intros j Hj.
    rewrite Hword by lia. by rewrite (proj2 (Z.leb_le _ _)), (proj2 (Z.ltb_lt _ _)) by lia. }
  destruct (store_words_mm ws k (kern s) m) as [Hmm' Htab];
    [done|lia|rewrite Hl; intros j Hj; by apply Hroom|rewrite Hl; intros j Hj; by apply Hroom|done|done|].
  split; [by split|]. intros j Hj. destruct (Hroom j Hj) as (Hok & Hnf & Hnt).
  split; [by apply Hfr|]. split; [by intros ?%free_frame_phys|]. cbn. by rewrite Htab.
Qed.
End stack.

(** ** Through a vector *)

Section through.
Context `{Profile} `{Linked} `{ThreadLayout} `{Board}.
Context `{!TryFromPrimitive syscall_num} `{!BitFlags PhyMapFlags} `{!BitFlags MemMapFlags}.
Variables (clobber : list Z → list Z) (esr far root : Z).
Hypothesis Hclobber : ∀ xs, length (clobber xs) = 31%nat.

(** What a handler of a vector may do with a context: change [x0] to a value of [X], and let the
    machine move. *)
Definition behaves (X : Z → Prop) (P : fault → Prop) (handler : ExceptionContext → M sys (option ExceptionContext))
    (e : ExceptionContext) : Prop :=
  ∀ s, sys_ok root s →
    match handler e s with
    | Ok (r, s') => (r = Some e ∨ ∃ x, X x ∧ r = Some (set_x0 x e)) ∧ moves root s s'
    | Fault x => P x
    end.

Lemma interrupted_words xs c : length xs = 31%nat → length (context_words (interrupted xs c)) = 34%nat.
Proof. intros Hl. unfold context_words. rewrite length_app. cbn. rewrite length_take. lia. Qed.

Lemma interrupted_ok xs c : length xs = 31%nat → Forall is_u64 xs → regs_ok (interrupted xs c).
Proof. intros Hl Hw. split; cbn; [rewrite length_take; lia|by apply Forall_take]. Qed.

Lemma context_of_words e : length (gpr e) = 30%nat → context_of (context_words e) = e.
Proof.
  intros Hl. destruct e as [g l p ss sp0]. unfold context_of, context_words. cbn [gpr lr pc spsr sp] in *.
  rewrite take_app, Hl, take_ge by lia. cbn [Nat.sub take]. rewrite app_nil_r.
  do 4 rewrite app_nth2 by lia. by rewrite Hl.
Qed.

(** The registers that restoring gives back. *)
Lemma resumed_context e base s :
  length (gpr e) = 30%nat →
  resumed (context_words e) base s
    = (gpr e ++ [lr e], set_cpu (set_sp (wrap64 (base + 272)) (set_return (pc e) (sp e) (spsr e) (cpu s))) s).
Proof.
  intros Hl. unfold resumed, context_words. rewrite take_app, Hl, take_ge by lia.
  do 3 rewrite app_nth2 by lia. by rewrite Hl.
Qed.

Lemma interrupted_regs xs c : length xs = 31%nat → gpr (interrupted xs c) ++ [lr (interrupted xs c)] = xs.
Proof. intros Hl. do 31 (destruct xs as [|? xs]; [done|]). by destruct xs. Qed.

Lemma sys_ok_sp s x : sys_ok root s → sys_ok root (set_cpu (set_sp x (cpu s)) s).
Proof. intros [? ? ?]. by split. Qed.

(** The context a handler leaves, as registers. *)
Lemma reply_regs (X : Z → Prop) xs c r :
  length xs = 31%nat → let e := interrupted xs c in
  r = Some e ∨ (∃ x, X x ∧ r = Some (set_x0 x e)) →
  ∃ e', r = Some e' ∧ length (gpr e') = 30%nat ∧ pc e' = pc e ∧ spsr e' = spsr e ∧ sp e' = sp e
    ∧ (gpr e' ++ [lr e'] = xs ∨ ∃ x, X x ∧ gpr e' ++ [lr e'] = <[0%nat := x]> xs).
Proof.
  intros Hl e Hr. pose proof (interrupted_regs xs c Hl) as Hxs. fold e in Hxs.
  assert (length (gpr e) = 30%nat) as He by (cbn; rewrite length_take; lia). destruct Hr as [->|(x & Hx & ->)].
  - exists e. split_and!; [done..|by left].
  - exists (set_x0 x e). split_and!; [done|cbn; by rewrite length_insert|done..|]. right. exists x. split; [done|].
    rewrite <- Hxs. cbn [gpr lr set_x0]. by rewrite insert_app_l by lia.
Qed.

Lemma entry_ok X P handler xs s k :
  behaves X P handler (interrupted xs (cpu s)) → sys_ok root s → stack_at root s k → length xs = 31%nat →
  match entry clobber esr far handler (xs, s) with
  | Ok (Some (xs', s'), _) => (xs' = xs ∨ ∃ x, X x ∧ xs' = <[0%nat := x]> xs)
      ∧ sys_ok root s' ∧ stack_at root s' k ∧ cpu s' = cpu s ∧ INIT_THREAD s' = INIT_THREAD s
  | Ok (None, _) => False
  | Fault x => P x
  end.
Proof.
  intros Hb Hok [Hsp [Hk Hend] Hroom] Hl. set (e := interrupted xs (cpu s)) in *.
  assert (wrap64 (sp_el1 (cpu s) - 272) = VIRT_BASE + 8 * k) as Hbase
    by (rewrite Hsp; unfold wrap64, VIRT_BASE; rewrite Z.mod_small; lia).
  assert (wrap64 (VIRT_BASE + 8 * k + 272) = sp_el1 (cpu s)) as Hback
    by (rewrite Hsp; unfold wrap64, VIRT_BASE; rewrite Z.mod_small; lia).
  destruct (save_run esr far xs s Hl) as (xs1 & Hx1 & Hsave). rewrite Hbase in *. fold e in Hsave.
  destruct (push_ok root s k (context_words e) Hok Hk Hend Hroom (interrupted_words xs _ Hl))
    as (m & Hm & Hload & Hok1 & Hroom1).
  unfold entry. rewrite Hsave, Hm, !res_bind_ok.
  set (s1 := with_phys m (set_cpu (set_sp (VIRT_BASE + 8 * k) (cpu s)) s)).
  unfold call. change (phys (kern s1)) with m. rewrite Hx1, Hload, !res_bind_ok.
  assert (length (gpr e) = 30%nat) as He by (cbn; rewrite length_take; lia). rewrite context_of_words by done.
  specialize (Hb s1 (sys_ok_sp _ _ Hok1)). destruct (handler e s1) as [[r s2]|x]; [|done]. rewrite res_bind_ok.
  destruct Hb as [Hr Hmv].
  destruct (reply_regs X xs (cpu s) r Hl Hr) as (e' & -> & Hl' & Hpc & Hss & Hsp0 & Hxs). fold e in Hpc, Hss, Hsp0.
  assert (length (context_words e') = 34%nat) as Hl34 by (unfold context_words; rewrite length_app, Hl'; done).
  destruct (push_ok root s2 k (context_words e') (moves_ok _ _ _ (sys_ok_sp _ _ Hok1) Hmv) Hk Hend
    (room_moves root s1 s2 k Hmv Hroom1) Hl34) as (m2 & Hm2 & Hload2 & Hok2 & Hroom2).
  rewrite Hm2, !res_bind_ok.
  assert (sp_el1 (cpu (with_phys m2 s2)) = VIRT_BASE + 8 * k) as Hsp2 by (cbn; by rewrite (mv_cpu _ _ _ Hmv)).
  fold (with_phys m2 s2). rewrite (restore_run esr far _ (with_phys m2 s2) (context_words e'));
    [|apply Hclobber|by rewrite Hsp2]. rewrite !res_bind_ok, Hsp2, resumed_context, Hback, Hpc, Hss, Hsp0 by done.
  assert (set_sp (sp_el1 (cpu s)) (set_return (pc e) (sp e) (spsr e) (cpu (with_phys m2 s2))) = cpu s) as ->.
  { change (cpu (with_phys m2 s2)) with (cpu s2). rewrite (mv_cpu _ _ _ Hmv). cbn. by destruct (cpu s). }
  split; [done|]. split.
  { destruct Hok2 as [Ht Hr2 Hmm]. split; [done| |done]. rewrite <- (so_ttbr _ _ Hok). done. }
  split; [split; [done|done|exact Hroom2]|]. split; [done|]. apply Hmv.
Qed.

Lemma svc_behaves e :
  regs_ok e → reg e 8 mod 2 ^ 32 ≠ syscall_num DownloadMoreRam →
  behaves is_u64 (call_faults (try_from (discriminant := syscall_num) (reg e 8 mod 2 ^ 32)))
    (exception_handler2 ESR_SVC far) e.
Proof.
  intros Hr Hn s Hok. unfold exception_handler2. rewrite Z.eqb_refl. unfold mbind, M_bind.
  pose proof (handle_syscall_handled root e s Hok Hr Hn) as Hh.
  destruct (handle_syscall e s) as [[e' s']|x]; [|done]. destruct Hh as [He Hmv].
  split; [|done]. destruct He as [->|(x & Hx & ->)]; [by left|]. right. by exists x.
Qed.

Lemma irq_behaves e : behaves (λ _, False) checked (λ e, e ← irq_handler e; mret (Some e)) e.
Proof.
  intros s Hok. unfold irq_handler, mbind, M_bind. rewrite on_drv_run.
  pose proof (handle_irq_checked (gic s, uart s)) as Hc. destruct (Gic.handle_irq _) as [[[] d]|x]; [|done].
  split; [by left|]. split; [by apply evolves_refl, Hok|done..].
Qed.
End through.

(** C11. Exceptions are transparent to the process.  Through the vector for a system call (other than
    the announcement of RAM, with arbitrary arguments), from saving the registers on the
    kernel's stack to restoring them: if it returns, the registers [x0] to [x30] are those
    before the call, except that [x0] may hold a result; the return address, the saved program
    status and both stack pointers are as before; the invariant of the machine holds and there
    is room for the next exception.  Through the vector for an interrupt every register is as
    before.  What the handler leaves in the registers does not matter. *)
Theorem vectors_transparent `{Profile} `{Linked} `{ThreadLayout} `{Board}
    `{!TryFromPrimitive syscall_num} `{!BitFlags PhyMapFlags} `{!BitFlags MemMapFlags}
    (clobber : list Z → list Z) (LOCATION : list Z) (far root k : Z) (xs : list Z) (s : sys) :
  (∀ xs, length (clobber xs) = 31%nat) → sys_ok root s → stack_at root s k →
  length xs = 31%nat → Forall is_u64 xs →
  (xreg xs 8 mod 2 ^ 32 ≠ syscall_num DownloadMoreRam →
   match vector clobber LOCATION ESR_SVC far Synchronous (xs, s) with
   | Ok (Some (xs', s'), _) => (xs' = xs ∨ ∃ x, is_u64 x ∧ xs' = <[0%nat := x]> xs)
       ∧ sys_ok root s' ∧ stack_at root s' k ∧ cpu s' = cpu s ∧ INIT_THREAD s' = INIT_THREAD s
   | Ok (None, _) => False
   | Fault x => call_faults (try_from (discriminant := syscall_num) (xreg xs 8 mod 2 ^ 32)) x
   end)
  ∧ ∀ esr, match vector clobber LOCATION esr far Irq (xs, s) with
    | Ok (Some (xs', s'), _) => xs' = xs
        ∧ sys_ok root s' ∧ stack_at root s' k ∧ cpu s' = cpu s ∧ INIT_THREAD s' = INIT_THREAD s
    | Ok (None, _) => False
    | Fault x => checked x
    end.
Proof.
  intros Hcl Hok Hst Hl Hw. split.
  - intros Hn. assert (reg (interrupted xs (cpu s)) 8 = xreg xs 8) as Hx8.
    { unfold reg, xreg. cbn [gpr interrupted]. do 9 (destruct xs as [|? xs]; [done|]). done. }
    rewrite <- Hx8 in *.
    apply (entry_ok clobber ESR_SVC far root Hcl is_u64 _ _ xs s k); [|done..].
    by apply svc_behaves; [apply interrupted_ok|].
  - intros esr. pose proof (entry_ok clobber esr far root Hcl _ _ _ xs s k (irq_behaves root _) Hok Hst Hl) as He.
    cbn [vector]. destruct (entry _ _ _ _ _) as [[[[xs' s']|] ?]|x]; [|done..].
    by destruct He as [[->|(x & [] & _)] He].
Qed.

(** ** [_start] *)

Lemma erase_bss_run fuel : ∀ n m k,
  0 ≤ k → 0 < n ≤ Z.of_nat fuel → k + n ≤ 2 ^ 36 → words_ok m k n →
  ∃ m', erase_bss fuel m (8 * k) (8 * (k + n)) = Ok m'
    ∧ (∀ j, 0 ≤ j → word m' j = if (k <=? j) && (j <? k + n) then Some 0 else word m j)
    ∧ (∀ g, frame_ok m g → frame_ok m' g).
Proof.
  induction fuel as [|fuel IH]; intros n m k Hk Hn Hb Hw; [lia|]. cbn [erase_bss].
  destruct (KernelSpec.write_word_word m k 0 Hk ltac:(apply Hw; lia)) as (m1 & Hm1 & Hw1 & _).
  rewrite Hm1, res_bind_ok. assert (wrap64 (8 * k + 8) = 8 * (k + 1)) as ->
    by (unfold wrap64; rewrite Z.mod_small; lia).
  assert (∀ g, frame_ok m g → frame_ok m1 g) as Hf1 by (intros g; by eapply write_word_frame_ok).
  destruct (Z.eqb_spec (8 * (k + 1)) (8 * (k + n))) as [He|He].
  - exists m1. split_and!; [done| |done]. intros j Hj. rewrite Hw1 by done.
    destruct (Z.eqb_spec j k), (Z.leb_spec k j), (Z.ltb_spec j (k + n)); done || lia.
  - destruct (IH (n - 1) m1 (k + 1)) as (m2 & Hm2 & Hw2 & Hf2); [lia|lia|lia| |].
    { intros j Hj. apply Hf1, Hw. lia. }
    replace (k + 1 + (n - 1)) with (k + n) in * by lia. exists m2. split_and!; [done| |auto].
    intros j Hj. rewrite Hw2, Hw1 by done.
    destruct (Z.eqb_spec j k), (Z.leb_spec k j), (Z.leb_spec (k + 1) j), (Z.ltb_spec j (k + n)); done || lia.
Qed.

(** C21. [_start]: for a [.bss] section that starts and ends at word boundaries, as the linker script
    makes it, the loop ends after one round per word (and is skipped for an empty section);
    every word of the section is then zero, every other word of memory is as before, and the
    code goes on at the physical address of [kmain_nommu] with the boot stack and with the
    vectors at their physical address. *)
Theorem start_erases_bss `{BootImage} `{StartImage} (s : sys) (k n : Z) (fuel : nat) :
  _bss_start_phys = 8 * k → _bss_end_phys = 8 * (k + n) → 0 ≤ k → 0 ≤ n ≤ Z.of_nat fuel → k + n ≤ 2 ^ 36 →
  words_ok (phys (kern s)) k n →
  ∃ m, _start fuel s = Ok (kmain_nommu_addr mod 2 ^ 32,
      set_cpu (set_vbar_sp (_vectors mod 2 ^ 32) _initstack_end_phys (cpu s)) (with_phys m s))
    ∧ ∀ j, 0 ≤ j → word m j = if (k <=? j) && (j <? k + n) then Some 0 else word (phys (kern s)) j.
Proof.
  intros Hs He Hk Hn Hb Hw. unfold _start. rewrite Hs, He. destruct (Z.eqb_spec (8 * k) (8 * (k + n))) as [Hz|Hz].
  - exists (phys (kern s)). split; [done|]. intros j Hj.
    destruct (Z.leb_spec k j), (Z.ltb_spec j (k + n)); done || lia.
  - destruct (erase_bss_run fuel n (phys (kern s)) k) as (m & Hm & Hword & _); [lia|lia|lia|done|].
    exists m. by rewrite Hm.
Qed.

(** ** Samples *)

(** The small machine with a stack page. *)
Definition STACK_FRAME : Z := 0x40230.

Definition stack_sys : sys :=
  set_cpu (set_sp (VIRT_BASE + 8 * (512 * STACK_FRAME + 512)) (cpu small_sys))
    (with_phys (<[STACK_FRAME := replicate 512 7]> (phys (kern small_sys))) small_sys).

(** All registers different, [x8] the number of [MemMap]. *)
Definition call_xs : list Z := [0x2000; 1; 2; 3; 4; 5; 6; 7; 3] ++ seqZ 9 22.

Definition sample_start : StartImage := {|
  _bss_start_phys := 0x40230100; _bss_end_phys := 0x40230140;
  _initstack_end_phys := 0x40240000; kmain_nommu_addr := 0xffffff0040101000;
|}.

#[local] Existing Instances dev KernelSpec.sample_link sample_layout Gic.sample_board.

Lemma stack_not_table : ¬ is_table (phys (kern small_sys)) MapSpec.ROOT STACK_FRAME.
Proof. intros Ht. by apply MapSpec.empty_root_tables in Ht. Qed.

Lemma stack_sys_ok : sys_ok MapSpec.ROOT stack_sys.
Proof.
  destruct small_sys_ok as [Ht Hr Hmm]. split; [exact Ht|exact Hr|].
  apply MapSpec.mm_ok_store; [exact stack_not_table|done|done].
Qed.

Lemma stack_sys_room : stack_at MapSpec.ROOT stack_sys (512 * STACK_FRAME + 478).
Proof.
  split; [done|done|]. intros j Hj. replace (j / 512) with STACK_FRAME by (unfold STACK_FRAME in *; zdiv).
  split; [exists (replicate 512 7); split; [reflexivity|done]|]. split.
  - intros (i & Hi & _ & E). change (PageAlloc.capacity (PAGE_ALLOC (kern stack_sys))) with 64 in Hi.
    change (PageAlloc.frame_of (PAGE_ALLOC (kern stack_sys)) i) with (0x40000 + i) in E. unfold STACK_FRAME in E. lia.
  - intros (q & Hq & Hd). apply stack_not_table. exists q. split; [done|].
    change (phys (kern stack_sys)) with (<[STACK_FRAME := replicate 512 7]> (phys (kern small_sys))) in Hd.
    rewrite outside_descend in Hd; [done|exact stack_not_table|done].
Qed.

(** [MemMap] of two pages through the vector: only [x0] has changed. *)
Lemma vectors_transparent_witness :
  match vector (λ _, replicate 31 0xdead) [] ESR_SVC 0 Synchronous (call_xs, stack_sys) with
  | Ok (Some (xs', s'), _) => xs' = <[0%nat := 0x50000000]> call_xs ∧ sys_ok MapSpec.ROOT s' ∧ cpu s' = cpu stack_sys
  | _ => False
  end.
Proof.
  destruct (vectors_transparent (λ _, replicate 31 0xdead) [] 0 MapSpec.ROOT (512 * STACK_FRAME + 478) call_xs stack_sys
    (λ _, eq_refl) stack_sys_ok stack_sys_room eq_refl
    ltac:(repeat (apply List.Forall_cons; [vm_compute; split; discriminate || reflexivity|]); apply List.Forall_nil))
    as [Hsvc _].
  specialize (Hsvc ltac:(vm_compute; discriminate)).
  assert (match vector (λ _, replicate 31 0xdead) [] ESR_SVC 0 Synchronous (call_xs, stack_sys) with
    | Ok (Some (xs', _), _) => xs' = <[0%nat := 0x50000000]> call_xs | _ => False end) as Hv by (vm_compute; reflexivity).
  destruct (vector _ _ _ _ _ _) as [[[[xs' s']|] s'']|x]; [|exact Hv..].
  destruct Hsvc as (_ & Hok & _ & Hcpu & _). split; [exact Hv|]. split; [exact Hok|exact Hcpu].
Defined.

(** Eight words of the page are erased. *)
Lemma start_erases_bss_witness :
  ∃ m, _start (H := sample_image) (H0 := sample_start) 8 stack_sys
      = Ok (0x40101000, set_cpu (set_vbar_sp 0x40100800 0x40240000 (cpu stack_sys)) (with_phys m stack_sys))
    ∧ word m (512 * STACK_FRAME + 39) = Some 0 ∧ word m (512 * STACK_FRAME + 40) = Some 7.
Proof.
  destruct (start_erases_bss (H := sample_image) (H0 := sample_start) stack_sys (512 * STACK_FRAME + 32) 8 8)
    as (m & Hrun & Hword).
  - reflexivity.
  - reflexivity.
  - vm_compute. discriminate.
  - lia.
  - vm_compute. discriminate.
  - intros j Hj. replace (j / 512) with STACK_FRAME by (unfold STACK_FRAME in *; zdiv).
    exists (replicate 512 7). split; reflexivity.
  - exists m. split; [exact Hrun|]. split; (rewrite Hword; [reflexivity|vm_compute; discriminate]).
Defined.
